(* ===== verification/_CoqProject ===== *)
-Q . S2P
Prelude.v
Vio.v
Proto.v
Notify.v
NotifyCore.v
Chanmap.v
Volume.v
Nnode.v
Buffer.v
VioPipe.v
Convert.v
Dsp.v
G711.v
Auth.v
ServerState.v
Ctl.v
StreamTab.v
Meta.v
Lifecycle.v
Clients.v
Streams.v
Invariant.v
Requests.v
Commands.v
Service.v
Access.v
