(* ===== verification/Prelude.v ===== *)
(** * RoarAudio: a verification library

    RoarAudio is a sound server ([src/roard]) with a client library
    ([src/libroar]) and a library of signal processing ([src/libroardsp]).
    Clients talk to the server in messages over a byte stream; the server
    keeps a table of clients and a table of streams, moves, converts and mixes
    the samples of the streams, and notifies clients of what happens.  This
    library models these parts as executable Rocq functions, each named after
    the C function or struct it translates, and proves what makes them
    correct, or exactly where they are not.

    ** How C is modelled

    A function that may touch memory returns an [outcome] (this file): [Done]
    of a value, [UB] where the C standard gives the code no meaning (an access
    outside of an object, a use after [free], a signed overflow where the file
    says so, a division by zero), [Fuel] where a bounded evaluation gave up.
    The server's functions are in the state monad [M] of [ServerState.v],
    which adds [Exited] for the end of the process.  Return codes are ordinary
    values, in particular -1.  An integer of a C type is a [Z] together with
    the wrap-around of the type where the code stores or converts it ([uwrap],
    [swrap]); octets in memory are lists of [Z], and words in network order go
    through [le_bytes], [le_val] and [bswap].  The host is little-endian with
    a signed [char].

    ** The files

    Base:
    - [Prelude.v]: outcomes, machine integers, octets, list and arithmetic
      lemmas, and the tactics the files share ([cint] for machine integers,
      [zdecide] for concrete side conditions).
    - [Vio.v] ([libroar/vio.c]): the class [Vio] of a virtual I/O handle,
      the class [Fifo] that is the contract of a reliable pipe, and the class
      [ShortFifo] of one with short transfers; [roar_vio_re_read] and
      [roar_vio_re_write] implement the former over the latter.

    Protocol and data, used by server and clients:
    - [Proto.v] ([libroar/proto.c]): messages; sending, receiving, requests,
      over any [Vio], proved against [Fifo].
    - [Ctl.v] ([libroar/ctl.c], [stream.c]), [Nnode.v] ([nnode.c]),
      [Volume.v] (volumes, [ctl.c]), [Chanmap.v] ([libroardsp/channels.c]):
      what the messages contain.
    - [Notify.v], [NotifyCore.v] ([libroar/notify.c], [notify_proxy.c]):
      events, and the hash table of lists of subscribers with the memory its
      nodes live in.
    - [Buffer.v] ([libroar/buffer.c]), [VioPipe.v] ([libroar/vio_pipe.c]):
      chains of buffers over a memory with [malloc] and [free], and the pipe
      made of two of them, which is an instance of [Fifo], so that messages
      sent through it arrive.
    - [Auth.v] ([libroar/auth.c], [roard/auth.c]): the authentication message
      and the server's ring of keys.

    Samples:
    - [Convert.v] ([libroardsp/convert.c]): width, channels, sign and byte
      order, and the pipeline [roar_conv2] of them, in one memory in which
      input and output may be the same area.
    - [Dsp.v] ([libroardsp/mixer.c], [amp.c], [midside.c], [interleave.c],
      [remove.c], [rms.c], [roard/mixer.c]): mixing, volumes and the other
      operations on samples, on the same memory.
    - [G711.v] ([libroardsp/alaw.c], [mulaw.c]): the tables and their use.

    The server ([roard]); each file requires those before it:
    - [ServerState.v]: the tables, the objects in them, the globals, the monad
      with its weakest preconditions, and the class [Env] of what the server
      calls outside of the model.
    - [StreamTab.v] ([streams.c]: creation, fields, level meters), [Meta.v]
      ([meta.c]), [Lifecycle.v] (the deletions of [streams.c] and
      [clients.c], which call each other), [Clients.v] ([clients.c]),
      [Streams.v] ([streams.c]: flags, volumes, directions, file handles).
    - [Invariant.v]: the consistency of the tables, kept by all of these.
    - [Requests.v] ([req.c]): one function per request.
    - [Commands.v] ([commands.c], [clients_check]): the table of commands,
      the dispatch, and the service of one message.
    - [Service.v], [Access.v]: theorems about the service of messages.

    ** What the theorems show

    - The tables.  From a consistent state any message of any client, but for
      ATTACH and the flag VIRTUAL, leads to a consistent state if it returns
      (it may end the process, and some requests run into undefined behaviour
      that the findings list): [serve_keeps_tables], by the [keeps] calculus
      of [Invariant.v].  The mutually recursive deletions
      end, free exactly what they should and never use freed objects
      ([streams_delete_total], [clients_delete_total]).
    - Access.  No command runs below its access level ([command_gating]),
      only IDENTIFY and AUTH change a level ([access_levels], a frame
      calculus with its hint database), and what the keys accept is
      characterised ([auth_check_spec]).
    - The protocol.  Round trips of messages, streams, filters, ids, events
      and authentication messages; safety of the receiver on arbitrary input.
    - Refinements.  The subscriber lists implement sequences of subscriptions
      per event ([subscribe_appends], [unsubscribe_removes], [emit_delivers],
      with the use after free of a callback that unsubscribes itself,
      [emit_unsubscribe_self]); a pipe implements two queues
      ([pipe_two_queues]); shifting, appending and copying chains of buffers
      implement operations on lists of octets.
    - Samples.  Every operation is equal to a function on lists of samples,
      written back to memory: widths, means and copies of channels, the
      limits of the mixer, volumes, G.711; with round trips of the pipeline,
      of mid and side, of interleaving and of companding, and the channel maps
      routing each channel to its place.
    - Where the code is wrong the theorem states what it does (a use after
      free, an overflow, a lost sample, an index of -1), and the finding in
      the manifest names it.

    ** Fuel

    [streams_delete], [clients_delete] and [client_stream_delete] recurse with
    [fuel_enough] = 65 levels: every level marks one of the 64 streams, which
    is proved in [Lifecycle.v].  [streams_get_subsys] ([thru_fuel]) and
    [streams_set_flag] ([flag_fuel]) are bounded in the same way; running out
    there is the endless recursion that a finding describes.  The walks of
    [NotifyCore.v] and [Buffer.v] take one more step than the memory has
    nodes ([walk_fuel], [chain_fuel]), which is enough for every chain without
    a loop, as their theorems show.  WAIT stores at most five events
    ([wait_fuel]) before it has left its array.  All other recursion is
    structural.

    ** Parameters and idealisations

    The class [Env] has the device drivers, codec filters, sockets and the
    configuration as functions of the state they see; no theorem assumes
    anything about them.  The conversion of sample rates, which computes with
    floats, is a parameter of [roar_conv2].  The four request handlers that
    are not modelled are a parameter [other] of the dispatch.  In the server
    files allocation does not fail (it may in [Buffer.v] and [NotifyCore.v]
    models [free]), and an event is delivered as if the node behind a
    subscriber that removes itself could still be read.  The tables' 64
    entries, message sizes and limits are those of the source.

    ** Not modelled

    Floating point (rate conversion, resampler, synthesizer, faders, filters,
    the older [roar_conv]); the codec filters and transcoders, which call
    Vorbis, Speex, CELT, libsndfile and others; the drivers and hardware
    mixers; sockets, files, RTP and other handles, and the dispatch of the VIO types; the main loop [roard.c] with its options, the polling of
    clients, the emulations of other sound systems, and the waveform, MIDI and
    light back ends; the convenience layers of the client library
    ([simple.c], [vs.c], [file.c], [stream.c]'s requests) and its
    configuration, error and debug texts; the wrappers for other sound
    libraries, the plugins and the command line clients.  The audio path of
    [streams.c] ([streams_fill_mixbuffer2] and its callees) is what a later
    extension would take next: its parts are in [Convert.v], [Dsp.v] and
    [Buffer.v]. *)
From stdpp Require Export base tactics option list numbers strings gmap.
From Stdlib Require Export ZArith Lia.
From coqutil Require Export Datatypes.RecordSetters.
Export TriangleBracketNotations.
#[global] Arguments RecordSetters.constant {E} _ _ /.

Declare Scope roar_scope.
Delimit Scope roar_scope with roar.
#[global] Open Scope Z_scope.

(** ** Outcomes

    The value of a modelled C expression or statement: [Done x] when it
    completes, [UB] when the code reads or writes outside an object (the C
    standard gives it no meaning), [Fuel] when a bounded evaluation ran out
    of fuel.  Return codes (-1, 0, ...) are ordinary values. *)
Inductive outcome (A : Type) : Type :=
  | Done (a : A)
  | UB
  | Fuel.
Arguments Done {A} a.
Arguments UB {A}.
Arguments Fuel {A}.

#[export] Instance outcome_ret : MRet outcome := λ A, Done.
#[export] Instance outcome_bind : MBind outcome := λ A B f m,
  match m with Done a => f a | UB => UB | Fuel => Fuel end.

(** An access that is outside the object it addresses is undefined. *)
Definition or_ub {A} (o : option A) : outcome A :=
  match o with Some a => Done a | None => UB end.

Lemma bind_Done {A B} (f : A → outcome B) a : (Done a ≫= f) = f a.
Proof. reflexivity. Qed.

Lemma bind_Done_inv {A B} (m : outcome A) (f : A → outcome B) b :
  (m ≫= f) = Done b → ∃ a, m = Done a ∧ f a = Done b.
Proof. destruct m; cbn; [eauto|discriminate|discriminate]. Qed.

Lemma or_ub_Done {A} (o : option A) a : or_ub o = Done a ↔ o = Some a.
Proof. destruct o; cbn; split; congruence. Qed.

(** ** Machine integers of C

    A C integer is a [Z] together with the width the code gives it; [uN] and
    [sN] are the conversions to the unsigned and the signed type of N bits
    (two's complement, as on every target the sources support). *)
Definition uwrap (w x : Z) : Z := x mod 2 ^ w.
Definition swrap (w x : Z) : Z := (x + 2 ^ (w - 1)) mod 2 ^ w - 2 ^ (w - 1).
Abbreviation u8 := (uwrap 8).
Abbreviation u16 := (uwrap 16).
Abbreviation u32 := (uwrap 32).
Abbreviation u64 := (uwrap 64).
Abbreviation s8 := (swrap 8).
Abbreviation s16 := (swrap 16).
Abbreviation s32 := (swrap 32).
Abbreviation s64 := (swrap 64).

Lemma uwrap_range w x : 0 ≤ w → 0 ≤ uwrap w x < 2 ^ w.
Proof. intros. apply Z.mod_pos_bound. apply Z.pow_pos_nonneg; lia. Qed.

Lemma uwrap_id w x : 0 ≤ x < 2 ^ w → uwrap w x = x.
Proof. apply Z.mod_small. Qed.

Lemma swrap_range w x : 0 < w → - 2 ^ (w - 1) ≤ swrap w x < 2 ^ (w - 1).
Proof.
  intros. unfold swrap.
  assert (2 ^ w = 2 * 2 ^ (w - 1)) as E
    by (rewrite <- Z.pow_succ_r by lia; f_equal; lia).
  pose proof (Z.mod_pos_bound (x + 2 ^ (w - 1)) (2 ^ w)
                ltac:(apply Z.pow_pos_nonneg; lia)). lia.
Qed.

Lemma swrap_id w x : 0 < w → - 2 ^ (w - 1) ≤ x < 2 ^ (w - 1) → swrap w x = x.
Proof.
  intros. unfold swrap.
  assert (2 ^ w = 2 * 2 ^ (w - 1)) as E
    by (rewrite <- Z.pow_succ_r by lia; f_equal; lia).
  rewrite Z.mod_small by lia. lia.
Qed.

Lemma uwrap_swrap w x : 0 < w → uwrap w (swrap w x) = uwrap w x.
Proof.
  intros. unfold uwrap, swrap. rewrite Zminus_mod_idemp_l. f_equal. lia.
Qed.

Lemma swrap_uwrap w x : 0 < w → swrap w (uwrap w x) = swrap w x.
Proof.
  intros. unfold uwrap, swrap. rewrite Zplus_mod_idemp_l. reflexivity.
Qed.

Lemma swrap_swrap w x : 0 < w → swrap w (swrap w x) = swrap w x.
Proof. intros. apply swrap_id; [done|]. by apply swrap_range. Qed.

Lemma uwrap_uwrap w x : uwrap w (uwrap w x) = uwrap w x.
Proof. apply Zmod_mod. Qed.

(** [cint] evaluates the literal powers of two in wrapped integers and closes
    the linear goal that is left. *)
Ltac cint_norm :=
  unfold uwrap, swrap in *;
  change (2 ^ 8) with 256 in *; change (2 ^ 16) with 65536 in *;
  change (2 ^ 32) with 4294967296 in *;
  change (2 ^ 64) with 18446744073709551616 in *;
  change (2 ^ (8 - 1)) with 128 in *; change (2 ^ (16 - 1)) with 32768 in *;
  change (2 ^ (32 - 1)) with 2147483648 in *;
  change (2 ^ (64 - 1)) with 9223372036854775808 in *.
Ltac cint := cint_norm; Z.div_mod_to_equations; lia.

(** C division and remainder truncate towards zero. *)
Abbreviation cdiv := Z.quot.
Abbreviation crem := Z.rem.

(** [flags & bit] as a condition. *)
Definition has_flag (flags bit : Z) : bool := negb (Z.land flags bit =? 0).

(** The code sets flags with [|=] and clears them with [|=] and [-=]. *)
Lemma lor_sub a b : Z.lor a b - b = Z.ldiff a b.
Proof.
  rewrite <- (Z.lor_ldiff_and (Z.lor a b) b) at 1.
  assert (E1 : Z.ldiff (Z.lor a b) b = Z.ldiff a b).
  { apply Z.bits_inj'. intros n Hn. rewrite !Z.ldiff_spec, Z.lor_spec.
    by destruct (Z.testbit a n), (Z.testbit b n). }
  assert (E2 : Z.land (Z.lor a b) b = b).
  { apply Z.bits_inj'. intros n Hn. rewrite Z.land_spec, Z.lor_spec.
    by destruct (Z.testbit a n), (Z.testbit b n). }
  rewrite E1, E2.
  rewrite <- Z.lxor_lor, <- Z.add_nocarry_lxor; [lia|..];
    apply Z.bits_inj'; intros n Hn; rewrite Z.land_spec, Z.ldiff_spec, Z.bits_0;
    by destruct (Z.testbit a n), (Z.testbit b n).
Qed.

Lemma has_flag_bit f n : 0 ≤ n → has_flag f (2 ^ n) = Z.testbit f n.
Proof.
  intros Hn. unfold has_flag.
  destruct (Z.eqb_spec (Z.land f (2 ^ n)) 0) as [E|E]; cbn.
  - apply (f_equal (λ x, Z.testbit x n)) in E.
    rewrite Z.land_spec, Z.pow2_bits_true, andb_true_r, Z.bits_0 in E by done. done.
  - destruct (Z.testbit f n) eqn:Hb; [done|]. destruct E. apply Z.bits_inj'.
    intros k Hk. rewrite Z.land_spec, Z.bits_0.
    destruct (decide (k = n)) as [->|]; [by rewrite Hb|].
    by rewrite Z.pow2_bits_false, andb_false_r by done.
Qed.

Lemma has_flag_ldiff f g n : 0 ≤ n →
  has_flag (Z.ldiff f g) (2 ^ n) = has_flag f (2 ^ n) && negb (has_flag g (2 ^ n)).
Proof. intros. rewrite !has_flag_bit by done. apply Z.ldiff_spec. Qed.

Lemma has_flag_lor f g n : 0 ≤ n →
  has_flag (Z.lor f g) (2 ^ n) = has_flag f (2 ^ n) || has_flag g (2 ^ n).
Proof. intros. rewrite !has_flag_bit by done. apply Z.lor_spec. Qed.

(** ** Bytes and byte order

    Memory is a list of octets, each a [Z] in [0, 256).  [le_bytes n v] are
    the [n] octets a store of [v] writes on the little-endian hosts modelled
    here, [le_val] is the load.  [bswap n] is [htons]/[ntohs] for [n = 2] and
    [htonl]/[ntohl] for [n = 4]. *)
Definition octet (b : Z) : Prop := 0 ≤ b < 256.

Fixpoint le_bytes (n : nat) (v : Z) : list Z :=
  match n with
  | O => []
  | S n => v mod 256 :: le_bytes n (v / 256)
  end.

Fixpoint le_val (bs : list Z) : Z :=
  match bs with
  | [] => 0
  | b :: bs => b + 256 * le_val bs
  end.

Definition bswap (n : nat) (v : Z) : Z := le_val (rev (le_bytes n v)).

(** What network byte order puts on the wire: most significant octet first. *)
Definition be_bytes (n : nat) (v : Z) : list Z := rev (le_bytes n v).
Definition be_val (bs : list Z) : Z := le_val (rev bs).

Lemma length_le_bytes n v : length (le_bytes n v) = n.
Proof. revert v; induction n; intros; cbn; auto. Qed.

Lemma length_be_bytes n v : length (be_bytes n v) = n.
Proof. unfold be_bytes. rewrite length_rev. apply length_le_bytes. Qed.

Lemma le_bytes_octets n v : Forall octet (le_bytes n v).
Proof.
  revert v; induction n; intros; cbn; constructor; auto.
  apply Z.mod_pos_bound; lia.
Qed.

Lemma le_val_bytes n v : le_val (le_bytes n v) = v mod 256 ^ Z.of_nat n.
Proof.
  revert v; induction n as [|n IH]; intros v; cbn [le_bytes le_val].
  - now rewrite Z.mod_1_r.
  - rewrite IH, Nat2Z.inj_succ, Z.pow_succ_r by lia.
    rewrite Z.rem_mul_r by lia. lia.
Qed.

Lemma le_bytes_val bs : Forall octet bs → le_bytes (length bs) (le_val bs) = bs.
Proof.
  induction 1 as [|b bs Hb _ IH]; cbn [length le_bytes le_val]; [done|].
  unfold octet in Hb. f_equal.
  - rewrite Z.mul_comm, Z_mod_plus_full. apply Z.mod_small; lia.
  - rewrite Z.mul_comm, Z.div_add by lia. rewrite Z.div_small by lia. apply IH.
Qed.

Lemma le_val_range bs :
  Forall octet bs → 0 ≤ le_val bs < 256 ^ Z.of_nat (length bs).
Proof.
  intros H. rewrite <- (le_bytes_val bs) at 1 2 by done.
  rewrite le_val_bytes. apply Z.mod_pos_bound, Z.pow_pos_nonneg; lia.
Qed.

Lemma octets_rev bs : Forall octet bs → Forall octet (rev bs).
Proof. rewrite !List.Forall_forall. intros H x Hx. apply H. now apply in_rev. Qed.

Lemma be_val_bytes n v : be_val (be_bytes n v) = v mod 256 ^ Z.of_nat n.
Proof. unfold be_val, be_bytes. rewrite rev_involutive. apply le_val_bytes. Qed.

Lemma be_bytes_octets n v : Forall octet (be_bytes n v).
Proof. apply octets_rev, le_bytes_octets. Qed.

(** Storing a byte-swapped value is writing it in network order. *)
Lemma store_bswap n v : le_bytes n (bswap n v) = be_bytes n v.
Proof.
  unfold bswap, be_bytes.
  rewrite <- (le_bytes_val (rev (le_bytes n v))) at 2
    by apply octets_rev, le_bytes_octets.
  now rewrite length_rev, length_le_bytes.
Qed.

(** Loading and byte-swapping is reading it in network order. *)
Lemma load_bswap bs : Forall octet bs → bswap (length bs) (le_val bs) = be_val bs.
Proof. intros. unfold bswap, be_val. now rewrite le_bytes_val. Qed.

Lemma bswap_involutive n v : bswap n (bswap n v) = v mod 256 ^ Z.of_nat n.
Proof.
  unfold bswap at 1. rewrite store_bswap. unfold be_bytes.
  rewrite rev_involutive. apply le_val_bytes.
Qed.

Lemma bswap_mod n v : bswap n (v mod 256 ^ Z.of_nat n) = bswap n v.
Proof.
  unfold bswap. do 2 f_equal.
  rewrite <- le_val_bytes.
  transitivity (le_bytes (length (le_bytes n v)) (le_val (le_bytes n v))).
  - now rewrite length_le_bytes.
  - apply le_bytes_val, le_bytes_octets.
Qed.

Lemma bswap_range n v : 0 ≤ bswap n v < 256 ^ Z.of_nat n.
Proof.
  unfold bswap.
  pose proof (le_val_range _ (octets_rev _ (le_bytes_octets n v))) as H.
  now rewrite length_rev, length_le_bytes in H.
Qed.

(** ** Raw memory

    [mread]/[mwrite] access [n] octets at an offset of an object and are
    undefined ([None]) when the access leaves the object. *)
Definition mread (off n : nat) (m : list Z) : option (list Z) :=
  if decide (off + n ≤ length m)%nat then Some (take n (drop off m)) else None.

Definition mwrite (off : nat) (bs m : list Z) : option (list Z) :=
  if decide (off + length bs ≤ length m)%nat
  then Some (take off m ++ bs ++ drop (off + length bs) m) else None.

Lemma mread_Some off n m :
  (off + n ≤ length m)%nat → mread off n m = Some (take n (drop off m)).
Proof. intros. unfold mread. now rewrite decide_True. Qed.

Lemma mwrite_Some off bs m :
  (off + length bs ≤ length m)%nat →
  mwrite off bs m = Some (take off m ++ bs ++ drop (off + length bs) m).
Proof. intros. unfold mwrite. now rewrite decide_True. Qed.

Lemma length_mwrite off bs m m' : mwrite off bs m = Some m' → length m' = length m.
Proof.
  unfold mwrite. case_decide; [intros [= <-]|discriminate].
  rewrite !length_app, length_take, length_drop. lia.
Qed.

Lemma mread_mwrite off bs m m' :
  mwrite off bs m = Some m' → mread off (length bs) m' = Some bs.
Proof.
  intros H. pose proof (length_mwrite _ _ _ _ H) as Hl. revert H.
  unfold mwrite. case_decide as Hd; [intros [= <-]|discriminate].
  rewrite mread_Some by lia. f_equal.
  rewrite drop_app_length' by (rewrite length_take; lia).
  now rewrite take_app_length.
Qed.

(** Access in the middle of known octets. *)
Lemma mread_at pre bs post off n :
  off = length pre → n = length bs → mread off n (pre ++ bs ++ post) = Some bs.
Proof.
  intros -> ->. rewrite mread_Some by (rewrite !length_app; lia).
  by rewrite drop_app_length, take_app_length.
Qed.

Lemma mread_0 bs post n : n = length bs → mread 0 n (bs ++ post) = Some bs.
Proof. intros. by apply (mread_at []). Qed.

Lemma mwrite_0 bs bs' post :
  length bs = length bs' → mwrite 0 bs' (bs ++ post) = Some (bs' ++ post).
Proof. intros. by rewrite mwrite_Some by (rewrite length_app; lia); simpl; rewrite drop_app_length' by done. Qed.

Lemma mwrite_at pre bs bs' post off :
  off = length pre → length bs = length bs' →
  mwrite off bs' (pre ++ bs ++ post) = Some (pre ++ bs' ++ post).
Proof.
  intros -> Hl. rewrite mwrite_Some by (rewrite !length_app; lia).
  rewrite take_app_length. do 3 f_equal. rewrite drop_app_ge by lia.
  by rewrite drop_app_length' by lia.
Qed.

Lemma mwrite_octets off bs m m' :
  mwrite off bs m = Some m' → Forall octet bs → Forall octet m → Forall octet m'.
Proof.
  unfold mwrite. case_decide; [intros [= <-]|discriminate]. intros Hb Hm.
  repeat apply Forall_app_2; auto using Forall_take, Forall_drop.
Qed.

(** ** C strings

    A C string is a [string] without the terminating NUL, or the list of its
    octets.  [strcaseeq] is [strcasecmp(a, b) == 0] in the C locale. *)
Definition ascii_lower (c : Ascii.ascii) : Ascii.ascii :=
  let n := Ascii.nat_of_ascii c in
  if decide (65 ≤ n ≤ 90)%nat then Ascii.ascii_of_nat (n + 32) else c.

Fixpoint string_lower (s : string) : string :=
  match s with
  | EmptyString => EmptyString
  | String c s => String (ascii_lower c) (string_lower s)
  end.

Definition strcaseeq (a b : string) : bool :=
  String.eqb (string_lower a) (string_lower b).

(** [strlen], and the octets of a C string stored at the start of an array:
    everything before the first NUL ([None] when there is none). *)
Fixpoint c_strlen (l : list Z) : option nat :=
  match l with
  | [] => None
  | b :: l => if b =? 0 then Some O else S <$> c_strlen l
  end.

(** [strncpy(dst, src, n)] for a source that is the C string [src]: exactly
    [n] octets are written, padded with NULs. *)
Definition strncpy_bytes (src : list Z) (n : nat) : list Z :=
  take n src ++ replicate (n - length src) 0.

Lemma length_strncpy_bytes src n : length (strncpy_bytes src n) = n.
Proof.
  unfold strncpy_bytes. rewrite length_app, length_take, length_replicate. lia.
Qed.

(** Array element access; out of bounds is undefined. *)
Definition aget {A} (l : list A) (i : Z) : outcome A :=
  if decide (0 ≤ i) then or_ub (l !! Z.to_nat i) else UB.

Definition aset {A} (i : Z) (x : A) (l : list A) : outcome (list A) :=
  if decide (0 ≤ i < Z.of_nat (length l)) then Done (<[Z.to_nat i := x]> l) else UB.

Lemma aget_Done {A} (l : list A) i x :
  aget l i = Done x ↔ 0 ≤ i ∧ l !! Z.to_nat i = Some x.
Proof.
  unfold aget. case_decide; [rewrite or_ub_Done|]; split; intuition (try done; lia).
Qed.

Lemma aset_Done {A} (l : list A) i x :
  0 ≤ i < Z.of_nat (length l) → aset i x l = Done (<[Z.to_nat i := x]> l).
Proof. intros. unfold aset. by rewrite decide_True. Qed.

(** Decidable side conditions on concrete inputs. *)
Ltac zdecide := apply (bool_decide_unpack _); vm_compute; exact I.
