(* ===== verification/Vio.v ===== *)
(** * Virtual I/O ([libroar/vio.c])

    [struct roar_vio_calls] is a table of function pointers; what its users
    rely on is the class [Vio].  The contract of a reliable byte pipe is the
    class [Fifo], stated with a representation relation, so that clients
    (the message protocol) are proved against it and every concrete VIO
    (the in-memory buffer pipe of [VioPipe.v]) discharges it.  Also here: the
    re-read/re-write VIO, which turns a transport with short transfers into
    one with complete transfers. *)
From S2P Require Import Prelude.

(** [vio_read n v] is [roar_vio_read(vio, buf, n)]: the return value and the
    octets stored at [buf]; [vio_write bs v] is [roar_vio_write]. *)
Class Vio (V : Type) := {
  vio_read : nat → V → outcome (Z * list Z * V);
  vio_write : list Z → V → outcome (Z * V)
}.

(** A reliable byte pipe: [fifo_rep v q] says that [q] was written and not
    yet read; writes append all of their octets, as many as a [ssize_t] can
    count, reads take from the front. *)
Class Fifo (V : Type) `{Vio V} := {
  fifo_rep : V → list Z → Prop;
  fifo_write : ∀ v q bs, fifo_rep v q → Z.of_nat (length bs) < 2 ^ 63 →
    ∃ v', vio_write bs v = Done (Z.of_nat (length bs), v') ∧
          fifo_rep v' (q ++ bs);
  fifo_read : ∀ v q n, fifo_rep v q →
    ∃ v', vio_read n v = Done (Z.of_nat (length (take n q)), take n q, v') ∧
          fifo_rep v' (drop n q)
}.

(** The obvious instance, a list of octets; it serves as the specification
    of a pipe. *)
#[export] Instance list_vio : Vio (list Z) := {
  vio_read n q := Done (Z.of_nat (length (take n q)), take n q, drop n q);
  vio_write bs q := Done (Z.of_nat (length bs), q ++ bs)
}.

#[export] Program Instance list_fifo : Fifo (list Z) := {
  fifo_rep v q := v = q
}.
Next Obligation. intros v q bs -> _. eexists. split; reflexivity. Qed.
Next Obligation. intros v q n ->. eexists. split; reflexivity. Qed.

Section fifo_lemmas.
Context {V : Type} `{Fifo V}.

(** A read of exactly the octets at the front. *)
Lemma fifo_read_exact v bs q :
  fifo_rep v (bs ++ q) →
  ∃ v', vio_read (length bs) v = Done (Z.of_nat (length bs), bs, v') ∧
        fifo_rep v' q.
Proof.
  intros Hv. destruct (fifo_read v _ (length bs) Hv) as (v' & E & Hv').
  rewrite take_app_length in E. rewrite drop_app_length in Hv'. eauto.
Qed.

(** A read of [n] octets when more than that are pending. *)
Lemma fifo_read_full v q n :
  fifo_rep v q → (n ≤ length q)%nat →
  ∃ v', vio_read n v = Done (Z.of_nat n, take n q, v') ∧
        fifo_rep v' (drop n q).
Proof.
  intros Hv Hn. destruct (fifo_read v q n Hv) as (v' & E & Hv').
  rewrite length_take, Nat.min_l in E by done. eauto.
Qed.

(** A read of more octets than are pending comes back short. *)
Lemma fifo_read_short v q n :
  fifo_rep v q → (length q < n)%nat →
  ∃ v', vio_read n v = Done (Z.of_nat (length q), q, v') ∧ fifo_rep v' [].
Proof.
  intros Hv Hn. destruct (fifo_read v q n Hv) as (v' & E & Hv').
  rewrite take_ge in E by lia. rewrite drop_ge in Hv' by lia. eauto.
Qed.
End fifo_lemmas.

(** ** The re-read/re-write VIO ([roar_vio_re_read], [roar_vio_re_write])

    Both loop until the whole request is done or the transport reports an
    error (-1) or the end of the data (0). *)
Section re.
Context {V : Type} `{Vio V}.

(** The [while] loop of [roar_vio_re_read]: [len] octets are done and
  [acc] holds them; the result carries the last return value [r]. *)
Fixpoint re_read_loop (fuel count : nat) (acc : list Z) (v : V)
  : outcome (Z * list Z * V) :=
  match fuel with
  | O => Fuel
  | S fuel =>
      res ← vio_read count v;
      let '(r, d, v') := res in
      if 0 <? r then
        let count' := (count - Z.to_nat r)%nat in
        if (count' =? 0)%nat then Done (r, acc ++ d, v')
        else re_read_loop fuel count' (acc ++ d) v'
      else Done (r, acc, v')
  end.

Definition roar_vio_re_read (count : nat) (v : V) : outcome (Z * list Z * V) :=
  res ← re_read_loop (S count) count [] v;
  let '(r, acc, v') := res in
  if (Nat.eqb (length acc) 0) && (r =? -1) then Done (-1, [], v')
  else Done (Z.of_nat (length acc), acc, v').

Fixpoint re_write_loop (fuel : nat) (bs : list Z) (len : Z) (v : V)
  : outcome (Z * Z * V) :=
  match fuel with
  | O => Fuel
  | S fuel =>
      res ← vio_write bs v;
      let '(r, v') := res in
      if 0 <? r then
        let bs' := drop (Z.to_nat r) bs in
        if (length bs' =? 0)%nat then Done (r, len + r, v')
        else re_write_loop fuel bs' (len + r) v'
      else Done (r, len, v')
  end.

Definition roar_vio_re_write (bs : list Z) (v : V) : outcome (Z * V) :=
  res ← re_write_loop (S (length bs)) bs 0 v;
  let '(r, len, v') := res in
  if (len =? 0) && (r =? -1) then Done (-1, v') else Done (len, v').
End re.

(** What [read(2)]/[write(2)] promise: a transfer moves at least one octet
    when it can and never more than asked. [rep v q] as in [Fifo]. *)
Class ShortFifo (V : Type) `{Vio V} := {
  short_rep : V → list Z → Prop;
  short_write : ∀ v q bs, short_rep v q → bs ≠ [] →
    ∃ k v', (0 < k ≤ length bs)%nat ∧
      vio_write bs v = Done (Z.of_nat k, v') ∧ short_rep v' (q ++ take k bs);
  short_write_nil : ∀ v q, short_rep v q →
    ∃ v', vio_write [] v = Done (0, v') ∧ short_rep v' q;
  short_read : ∀ v q n, short_rep v q → (0 < n)%nat → q ≠ [] →
    ∃ k v', (0 < k ≤ n ∧ k ≤ length q)%nat ∧
      vio_read n v = Done (Z.of_nat k, take k q, v') ∧ short_rep v' (drop k q);
  short_read_nil : ∀ v q n, short_rep v q → (n = 0%nat ∨ q = []) →
    ∃ v', vio_read n v = Done (0, [], v') ∧ short_rep v' q
}.

(** The VIO [roar_vio_open_re] builds over a transport. *)
Record re_vio (V : Type) := Re { re_inst : V }.
Arguments Re {V} re_inst.
Arguments re_inst {V} r.

#[export] Instance re_vio_vio {V} `{Vio V} : Vio (re_vio V) := {
  vio_read n v :=
    res ← roar_vio_re_read n (re_inst v);
    let '(r, d, v') := res in Done (r, d, Re v');
  vio_write bs v :=
    res ← roar_vio_re_write bs (re_inst v);
    let '(r, v') := res in Done (r, Re v')
}.

Section re_proofs.
Context {V : Type} `{ShortFifo V}.

Lemma re_read_loop_ok fuel : ∀ count acc v q,
  short_rep v q → (count < fuel)%nat →
  ∃ r v', re_read_loop fuel count acc v = Done (r, acc ++ take count q, v') ∧
          0 ≤ r ∧ short_rep v' (drop count q).
Proof.
  induction fuel as [|fuel IH]; intros count acc v q Hv Hf; [lia|].
  cbn [re_read_loop].
  destruct (decide (count = 0%nat ∨ q = [])) as [Hn|Hn].
  { destruct (short_read_nil v q count Hv Hn) as (v' & -> & Hv').
    rewrite bind_Done. cbn.
    assert (take count q = [] ∧ drop count q = q) as [-> ->].
    { destruct Hn as [->| ->]; [done|]. by rewrite take_nil, drop_nil. }
    rewrite app_nil_r. exists 0, v'. auto with lia. }
  apply Decidable.not_or in Hn as [Hc Hq].
  destruct (short_read v q count Hv ltac:(lia) Hq) as (k & v' & Hk & -> & Hv').
  rewrite bind_Done. rewrite (proj2 (Z.ltb_lt 0 (Z.of_nat k))) by lia.
  rewrite Nat2Z.id. destruct (Nat.eqb_spec (count - k) 0) as [E|E].
  { assert (count = k) as -> by lia. exists (Z.of_nat k), v'. auto with lia. }
  destruct (IH (count - k)%nat (acc ++ take k q) v' _ Hv') as
    (r & v'' & -> & Hr & Hv''); [lia|].
  exists r, v''. split_and!; [|done|].
  - rewrite <- app_assoc. do 4 f_equal. rewrite take_drop_commute.
    replace (k + (count - k))%nat with count by lia.
    rewrite <- (take_drop k (take count q)) at 2.
    by rewrite take_take, Nat.min_l by lia.
  - rewrite drop_drop in Hv''.
    by replace (k + (count - k))%nat with count in Hv'' by lia.
Qed.

Lemma re_write_loop_ok fuel : ∀ bs len v q,
  short_rep v q → bs ≠ [] → (length bs < fuel)%nat → 0 ≤ len →
  ∃ r v', re_write_loop fuel bs len v = Done (r, len + Z.of_nat (length bs), v') ∧
          short_rep v' (q ++ bs).
Proof.
  induction fuel as [|fuel IH]; intros bs len v q Hv Hb Hf Hl; [lia|].
  cbn [re_write_loop].
  destruct (short_write v q bs Hv Hb) as (k & v' & Hk & -> & Hv').
  rewrite bind_Done. rewrite (proj2 (Z.ltb_lt 0 (Z.of_nat k))) by lia.
  rewrite Nat2Z.id, length_drop.
  destruct (Nat.eqb_spec (length bs - k) 0) as [E|E].
  { assert (length bs = k) as E' by lia.
    rewrite take_ge in Hv' by lia. exists (Z.of_nat k), v'. by rewrite E'. }
  destruct (IH (drop k bs) (len + Z.of_nat k) v' _ Hv') as (r & v'' & -> & Hv'');
    [|rewrite length_drop; lia|lia|].
  { intros E'. apply (f_equal length) in E'. rewrite length_drop in E'. done. }
  exists r, v''. split.
  - rewrite length_drop. do 3 f_equal. lia.
  - by rewrite <- app_assoc, take_drop in Hv''.
Qed.

Lemma roar_vio_re_read_ok v q n : short_rep v q →
  ∃ v', roar_vio_re_read n v = Done (Z.of_nat (length (take n q)), take n q, v') ∧
        short_rep v' (drop n q).
Proof.
  intros Hv. unfold roar_vio_re_read.
  destruct (re_read_loop_ok (S n) n [] v q Hv) as (r & v' & -> & Hr & Hv'); [lia|].
  rewrite bind_Done, app_nil_l.
  rewrite (proj2 (Z.eqb_neq r (-1))) by lia. rewrite andb_false_r. eauto.
Qed.

Lemma roar_vio_re_write_ok v q bs : short_rep v q →
  ∃ v', roar_vio_re_write bs v = Done (Z.of_nat (length bs), v') ∧
        short_rep v' (q ++ bs).
Proof.
  intros Hv. unfold roar_vio_re_write.
  destruct (decide (bs = [])) as [->|Hb].
  { cbn [length re_write_loop].
    destruct (short_write_nil v q Hv) as (v' & -> & Hv').
    rewrite bind_Done. cbn. exists v'. by rewrite app_nil_r. }
  destruct (re_write_loop_ok (S (length bs)) bs 0 v q Hv Hb) as (r & v' & -> & Hv');
    [lia..|].
  rewrite bind_Done. assert (0 < length bs)%nat by (destruct bs; cbn; [done|lia]).
  rewrite (proj2 (Z.eqb_neq _ 0)) by lia. eauto.
Qed.
End re_proofs.

(** The re VIO over any transport with short transfers is a reliable pipe. *)
#[export] Program Instance re_fifo {V} `{ShortFifo V} : Fifo (re_vio V) := {
  fifo_rep v q := short_rep (re_inst v) q
}.
Next Obligation.
  intros V ? ? [v] q bs Hv _; cbn [fifo_rep re_inst] in Hv; cbn [vio_write vio_read re_vio_vio re_inst].
  destruct (roar_vio_re_write_ok v q bs Hv) as (v' & E & Hv').
  exists (Re v'). by rewrite E.
Qed.
Next Obligation.
  intros V ? ? [v] q n Hv; cbn [fifo_rep re_inst] in Hv; cbn [vio_write vio_read re_vio_vio re_inst].
  destruct (roar_vio_re_read_ok v q n Hv) as (v' & E & Hv').
  exists (Re v'). by rewrite E.
Qed.

(** A transport that moves one octet per call, the worst one the contract
    allows; it shows that [ShortFifo] can hold. *)
Record drip := Drip { drip_queue : list Z }.

#[export] Instance drip_vio : Vio drip := {
  vio_read n v :=
    let d := take (Nat.min n 1) (drip_queue v) in
    Done (Z.of_nat (length d), d, Drip (drop (Nat.min n 1) (drip_queue v)));
  vio_write bs v :=
    let d := take 1 bs in
    Done (Z.of_nat (length d), Drip (drip_queue v ++ d))
}.

#[export] Program Instance drip_short : ShortFifo drip := {
  short_rep v q := drip_queue v = q
}.
Next Obligation.
  intros [v] q [|b bs] <- Hb; [done|]. exists 1%nat, (Drip (v ++ [b])).
  cbn. split; [lia|]. done.
Qed.
Next Obligation.
  intros [v] q <-. exists (Drip v). cbn. by rewrite app_nil_r.
Qed.
Next Obligation.
  intros [v] q n <- Hn Hq. destruct v as [|b v]; [done|]. exists 1%nat, (Drip v).
  destruct n as [|n]; [lia|]. destruct n; cbn; (split; [lia|done]).
Qed.
Next Obligation.
  intros [v] q n <- Hn; cbn in Hn. exists (Drip v).
  destruct Hn as [->|Hv]; [done|]. subst v. by destruct n as [|[|n]].
Qed.
