(* ===== verification/Proto.v ===== *)
(** * The message protocol ([libroar/proto.c])

    [struct roar_message], its wire format, and sending, receiving and
    requesting over any VIO.  The send side of the code always emits version
    0 ([_ROAR_MESSAGE_VERSION]); the encoder of version 2 and both decoders
    are modelled as they stand. *)
From S2P Require Import Prelude Vio.

Definition LIBROAR_BUFFER_MSGDATA : nat := 80.
Definition ROAR_MESSAGE_VERSION : Z := 0.
Definition ROAR_MESS_BUF_LEN_V0 : nat := 10.
Definition ROAR_MF_LSPOS : Z := 16.

(** Values of [roar_errno] ([include/roaraudio/error.h]). *)
Definition ROAR_ERROR_UNKNOWN : Z := -1.
Definition ROAR_ERROR_NONE : Z := 0.
Definition ROAR_ERROR_PERM : Z := 1.
Definition ROAR_ERROR_NOENT : Z := 2.
Definition ROAR_ERROR_BADMSG : Z := 3.
Definition ROAR_ERROR_BUSY : Z := 4.
Definition ROAR_ERROR_CONNREFUSED : Z := 5.
Definition ROAR_ERROR_NOSYS : Z := 6.
Definition ROAR_ERROR_NOTSUP : Z := 7.
Definition ROAR_ERROR_PIPE : Z := 8.
Definition ROAR_ERROR_PROTO : Z := 9.
Definition ROAR_ERROR_RANGE : Z := 10.
Definition ROAR_ERROR_MSGSIZE : Z := 11.
Definition ROAR_ERROR_NOMEM : Z := 12.
Definition ROAR_ERROR_INVAL : Z := 13.

(** [struct roar_message]; [m_data] is the array [char data[80]] as raw
    octets, the other fields hold values of their C type. *)
Record message := Message {
  m_cmd : Z;              (** int *)
  m_stream : Z;           (** unsigned int *)
  m_pos : Z;              (** uint32_t *)
  m_datalen : Z;          (** int *)
  m_data : list Z;        (** char[LIBROAR_BUFFER_MSGDATA] *)
  m_seq : Z;              (** int16_t *)
  m_flags : Z;            (** int32_t *)
  m_crc : Z;              (** int32_t *)
  m_version : Z;          (** int *)
  m_pos64 : Z             (** uint64_t *)
}.

(** [memset(mes, 0, sizeof(struct roar_message))] *)
Definition zero_message : message :=
  Message 0 0 0 0 (replicate LIBROAR_BUFFER_MSGDATA 0) 0 0 0 0 0.

(** ** Sending *)

(** The [switch (mes->version)] of [roar_vsend_message]: the first
    [headerlen] octets of [buf].  [None] is the branch that sets
    [ROAR_ERROR_NOTSUP] (version 1 and unknown versions). *)
Definition message_header (m : message) : option (list Z) :=
  if m_version m =? 0 then
    Some ([u8 (m_version m); u8 (m_cmd m)]
          ++ le_bytes 2 (bswap 2 (m_stream m))
          ++ le_bytes 4 (bswap 4 (m_pos m))
          ++ le_bytes 2 (bswap 2 (m_datalen m)))
  else if m_version m =? 2 then
    Some ([u8 (m_version m); u8 (m_cmd m)]
          ++ le_bytes 2 (bswap 2 (m_stream m))
          ++ le_bytes 4 (bswap 4 (m_flags m))
          ++ (if has_flag (m_flags m) ROAR_MF_LSPOS
              then le_bytes 8 (bswap 2 (m_pos64 m))
              else le_bytes 4 (bswap 2 (m_pos m)))
          ++ le_bytes 2 (bswap 2 (m_datalen m))
          ++ le_bytes 2 (bswap 2 (m_seq m)))
  else None.

Section send.
Context {V : Type} `{Vio V}.

(** [roar_vsend_message(vio, mes, data)]: return value, [roar_errno], the
    message (its version is set) and the VIO afterwards. *)
Definition roar_vsend_message (v : V) (mes : message) (data : option (list Z))
  : outcome (Z * Z * message * V) :=
  let mes := mes<|m_version := ROAR_MESSAGE_VERSION|> in
  match message_header mes with
  | None => Done (-1, ROAR_ERROR_NOTSUP, mes, v)
  | Some buf =>
      res ← vio_write buf v;
      let '(r, v) := res in
      if negb (r =? Z.of_nat (length buf)) then Done (-1, ROAR_ERROR_PIPE, mes, v)
      else if m_datalen mes =? 0 then Done (0, ROAR_ERROR_NONE, mes, v)
      else
        let src := match data with None => m_data mes | Some d => d end in
        bs ← or_ub (if m_datalen mes <? 0 then None
                    else mread 0 (Z.to_nat (m_datalen mes)) src);
        res ← vio_write bs v;
        let '(r, v) := res in
        if negb (r =? m_datalen mes) then Done (-1, ROAR_ERROR_PIPE, mes, v)
        else Done (0, ROAR_ERROR_NONE, mes, v)
  end.
End send.

(** ** Receiving *)

(** The first [switch (mes->version)] of [roar_vrecv_message] on the first
    ten octets: the message so far and the header length, or [None] for the
    branch that sets [ROAR_ERROR_PROTO]. *)
Definition recv_header1 (buf : list Z) : option (message * nat) :=
  let at_ off n := le_val (take n (drop off buf)) in
  let mes := zero_message<|m_version := s8 (at_ 0%nat 1%nat)|> in
  if m_version mes =? 0 then
    Some (mes<|m_cmd := at_ 1%nat 1%nat|>
             <|m_stream := bswap 2 (at_ 2%nat 2%nat)|>
             <|m_pos := bswap 4 (at_ 4%nat 4%nat)|>
             <|m_datalen := bswap 2 (at_ 8%nat 2%nat)|>, ROAR_MESS_BUF_LEN_V0)
  else if m_version mes =? 2 then
    let mes := mes<|m_cmd := at_ 1%nat 1%nat|>
                  <|m_stream := bswap 2 (at_ 2%nat 2%nat)|>
                  <|m_flags := s32 (bswap 4 (at_ 4%nat 4%nat))|> in
    Some (mes, if has_flag (m_flags mes) ROAR_MF_LSPOS then 20%nat else 16%nat)
  else None.

(** The second [switch (mes->version)], on the whole header. *)
Definition recv_header2 (buf : list Z) (mes : message) : message :=
  let at_ off n := le_val (take n (drop off buf)) in
  if m_version mes =? 2 then
    if has_flag (m_flags mes) ROAR_MF_LSPOS then
      mes<|m_pos64 := bswap 4 (at_ 8%nat 8%nat)|>
         <|m_datalen := bswap 2 (at_ 16%nat 2%nat)|>
         <|m_seq := s16 (bswap 2 (at_ 17%nat 2%nat))|>
    else
      mes<|m_pos := bswap 4 (at_ 8%nat 4%nat)|>
         <|m_datalen := bswap 2 (at_ 12%nat 2%nat)|>
         <|m_seq := s16 (bswap 2 (at_ 13%nat 2%nat))|>
  else mes.

(** [if ( (int16_t)mes->stream == -1 ) mes->stream = -1;] *)
Definition recv_fix_stream (mes : message) : message :=
  if s16 (m_stream mes) =? -1 then mes<|m_stream := u32 (-1)|> else mes.

Section recv.
Context {V : Type} `{Vio V}.

(** The data part of [roar_vrecv_message]. *)
Definition recv_data (v : V) (mes : message) (want_data : bool)
  : outcome (Z * Z * message * option (list Z) * V) :=
  if m_datalen mes =? 0 then Done (0, ROAR_ERROR_NONE, mes, None, v)
  else if m_datalen mes <=? Z.of_nat LIBROAR_BUFFER_MSGDATA then
    res ← vio_read (Z.to_nat (m_datalen mes)) v;
    let '(r, d, v) := res in
    data ← or_ub (mwrite 0 d (m_data mes));
    let mes := mes<|m_data := data|> in
    if r =? m_datalen mes then Done (0, ROAR_ERROR_NONE, mes, None, v)
    else Done (-1, ROAR_ERROR_PIPE, mes, None, v)
  else if negb want_data then Done (-1, ROAR_ERROR_MSGSIZE, mes, None, v)
  else
    res ← vio_read (Z.to_nat (m_datalen mes)) v;
    let '(r, d, v) := res in
    if r =? m_datalen mes then Done (0, ROAR_ERROR_NONE, mes, Some d, v)
    else Done (-1, ROAR_ERROR_PIPE, mes, Some d, v).

(** [roar_vrecv_message(vio, mes, data)]; [want_data] is [data != NULL],
    the fourth component of the result is [*data] ([None] for [NULL]). *)
Definition roar_vrecv_message (v : V) (want_data : bool)
  : outcome (Z * Z * message * option (list Z) * V) :=
  res ← vio_read ROAR_MESS_BUF_LEN_V0 v;
  let '(r, buf, v) := res in
  if negb (r =? Z.of_nat ROAR_MESS_BUF_LEN_V0)
  then Done (-1, ROAR_ERROR_PROTO, zero_message, None, v)
  else
    match recv_header1 buf with
    | None =>
        Done (-1, ROAR_ERROR_PROTO,
              zero_message<|m_version := s8 (le_val (take 1 buf))|>, None, v)
    | Some (mes, headerlen) =>
        let needlen := (headerlen - ROAR_MESS_BUF_LEN_V0)%nat in
        res ← (if (ROAR_MESS_BUF_LEN_V0 <? headerlen)%nat
               then vio_read needlen v else Done (Z.of_nat needlen, [], v));
        let '(r, buf2, v) := res in
        if negb (r =? Z.of_nat needlen)
        then Done (-1, ROAR_ERROR_PROTO, mes, None, v)
        else recv_data v (recv_fix_stream (recv_header2 (buf ++ buf2) mes)) want_data
    end.

(** [roar_vreq(vio, mes, data)]: the message is sent, the link synced (no
    effect on the octets) and the answer received.  [data] is [*data] when
    [data != NULL]. *)
Definition roar_vreq (v : V) (mes : message) (data : option (list Z))
    (want_data : bool) : outcome (Z * Z * message * option (list Z) * V) :=
  res ← roar_vsend_message v mes (if want_data then data else None);
  let '(r, err, mes, v) := res in
  if negb (r =? 0) then Done (-1, err, mes, data, v)
  else roar_vrecv_message v want_data.
End recv.

(** ** What the protocol promises

    [message_wire m payload] is the version 0 wire format; [delivered] what
    the receiver must get. *)
Definition message_wire (m : message) (payload : list Z) : list Z :=
  [0; m_cmd m] ++ be_bytes 2 (m_stream m) ++ be_bytes 4 (m_pos m)
  ++ be_bytes 2 (m_datalen m) ++ payload.

(** The messages and payloads the protocol can carry. *)
Record sendable (m : message) (data : option (list Z)) (payload : list Z) : Prop := {
  sb_cmd : 0 ≤ m_cmd m < 256;
  sb_stream : 0 ≤ m_stream m < 65535 ∨ m_stream m = 4294967295;
  sb_pos : 0 ≤ m_pos m < 4294967296;
  sb_datalen : m_datalen m = Z.of_nat (length payload);
  sb_short : Z.of_nat (length payload) < 65536;
  sb_payload : mread 0 (length payload)
                 (match data with None => m_data m | Some d => d end) = Some payload
}.

Definition delivered (m : message) (payload : list Z) : message :=
  zero_message<|m_cmd := m_cmd m|><|m_stream := m_stream m|>
    <|m_pos := m_pos m|><|m_datalen := m_datalen m|>
    <|m_data := if (length payload <=? LIBROAR_BUFFER_MSGDATA)%nat
                then payload ++ replicate (LIBROAR_BUFFER_MSGDATA - length payload) 0
                else replicate LIBROAR_BUFFER_MSGDATA 0|>.

(** Payloads that do not fit the message are handed out separately. *)
Definition long_payload (payload : list Z) : option (list Z) :=
  if (length payload <=? LIBROAR_BUFFER_MSGDATA)%nat then None else Some payload.

Lemma message_header_v0 m :
  m_version m = 0 →
  0 ≤ m_cmd m < 256 →
  message_header m = Some ([0; m_cmd m] ++ be_bytes 2 (m_stream m)
                           ++ be_bytes 4 (m_pos m) ++ be_bytes 2 (m_datalen m)).
Proof.
  intros Hv Hc. unfold message_header. rewrite Hv. cbn [Z.eqb].
  rewrite !store_bswap. rewrite (uwrap_id 8 (m_cmd m)) by done. reflexivity.
Qed.

(** Field access in a header given as a concatenation of its fields. *)
Lemma take_drop_app {A} off n (l1 l2 l3 : list A) :
  length l1 = off → length l2 = n → take n (drop off (l1 ++ l2 ++ l3)) = l2.
Proof. intros <- <-. by rewrite drop_app_length, take_app_length. Qed.

Lemma bswap_be_bytes n v :
  bswap n (le_val (be_bytes n v)) = v mod 256 ^ Z.of_nat n.
Proof.
  rewrite <- (length_be_bytes n v) at 1.
  rewrite load_bswap by apply be_bytes_octets. apply be_val_bytes.
Qed.

Lemma recv_header1_v0 cmd stream pos dl :
  0 ≤ cmd < 256 →
  recv_header1 ([0; cmd] ++ be_bytes 2 stream ++ be_bytes 4 pos ++ be_bytes 2 dl) =
  Some (Message cmd (stream mod 65536) (pos mod 4294967296) (dl mod 65536)
          (replicate LIBROAR_BUFFER_MSGDATA 0) 0 0 0 0 0, ROAR_MESS_BUF_LEN_V0).
Proof.
  intros Hc. unfold recv_header1.
  set (buf := [0; cmd] ++ _).
  assert (take 1 (drop 0 buf) = [0]) as -> by done.
  assert (take 1 (drop 1 buf) = [cmd]) as -> by done.
  assert (take 2 (drop 2 buf) = be_bytes 2 stream) as ->
    by (apply take_drop_app; [done|apply length_be_bytes]).
  assert (take 4 (drop 4 buf) = be_bytes 4 pos) as ->.
  { unfold buf. rewrite app_assoc.
    by apply take_drop_app; rewrite ?length_app, ?length_be_bytes. }
  assert (take 2 (drop 8 buf) = be_bytes 2 dl) as ->.
  { replace buf with ((([0; cmd] ++ be_bytes 2 stream) ++ be_bytes 4 pos)
                        ++ be_bytes 2 dl ++ []) by (by rewrite app_nil_r, <- !app_assoc).
    by apply take_drop_app; rewrite ?length_app, ?length_be_bytes. }
  rewrite !bswap_be_bytes. cbn [le_val].
  replace (cmd + 256 * 0) with cmd by lia. reflexivity.
Qed.

(** The stream id -1 survives its 16 bit field. *)
Lemma recv_fix_stream_ok cmd s pos dl data :
  0 ≤ s < 65535 ∨ s = 4294967295 →
  recv_fix_stream (Message cmd (s mod 65536) pos dl data 0 0 0 0 0) =
  Message cmd s pos dl data 0 0 0 0 0.
Proof.
  intros Hs. unfold recv_fix_stream. cbn [m_stream].
  destruct Hs as [Hs| ->]; [|done].
  rewrite Z.mod_small by lia.
  destruct (Z.eqb_spec (s16 s) (-1)) as [E|E]; [|done].
  exfalso. revert E. cint.
Qed.

Lemma mwrite_prefix d m :
  (length d ≤ length m)%nat → mwrite 0 d m = Some (d ++ drop (length d) m).
Proof. intros. by rewrite mwrite_Some by (cbn; lia). Qed.

Section protocol.
Context {V : Type} `{Fifo V}.

(** Sending appends exactly the wire format. *)
Lemma roar_vsend_message_ok v q m data payload :
  sendable m data payload → fifo_rep v q →
  ∃ v', roar_vsend_message v m data
        = Done (0, ROAR_ERROR_NONE, m<|m_version := 0|>, v') ∧
        fifo_rep v' (q ++ message_wire m payload).
Proof.
  intros [Hc Hs Hp Hd Hl Hpl] Hv. unfold roar_vsend_message, ROAR_MESSAGE_VERSION.
  rewrite (message_header_v0 (m<|m_version := 0|>)) by done.
  set (hd := [0; _] ++ _).
  destruct (fifo_write v q hd Hv) as (v1 & -> & Hv1); [unfold hd; rewrite !length_app, !length_be_bytes; done|].
  rewrite bind_Done, Z.eqb_refl. cbn [negb].
  assert (q ++ message_wire m payload = (q ++ hd) ++ payload) as ->
    by (unfold message_wire, hd; by rewrite <- !app_assoc).
  change (m_datalen (m <| m_version := 0 |>)) with (m_datalen m).
  change (m_data (m <| m_version := 0 |>)) with (m_data m).
  destruct (Z.eqb_spec (m_datalen m) 0) as [E|E].
  - assert (payload = []) as -> by (apply nil_length_inv; lia).
    exists v1. by rewrite app_nil_r.
  - rewrite (proj2 (Z.ltb_ge (m_datalen m) 0)) by lia.
    rewrite Hd, Nat2Z.id, Hpl. cbn [or_ub]. rewrite bind_Done.
    destruct (fifo_write v1 _ payload Hv1) as (v2 & -> & Hv2); [lia|].
    rewrite bind_Done, Z.eqb_refl. cbn [negb].
    by exists v2.
Qed.

(** Receiving takes exactly one message off the stream. *)
Lemma roar_vrecv_message_ok v q m data payload want_data :
  sendable m data payload →
  (want_data = true ∨ (length payload <= LIBROAR_BUFFER_MSGDATA)%nat) →
  fifo_rep v (message_wire m payload ++ q) →
  ∃ v', roar_vrecv_message v want_data
        = Done (0, ROAR_ERROR_NONE, delivered m payload, long_payload payload, v') ∧
        fifo_rep v' q.
Proof.
  intros [Hc Hs Hp Hd Hl _] Hw Hv. unfold roar_vrecv_message.
  set (hd := [0; m_cmd m] ++ be_bytes 2 (m_stream m) ++ be_bytes 4 (m_pos m)
             ++ be_bytes 2 (m_datalen m)).
  assert (length hd = ROAR_MESS_BUF_LEN_V0) as Hhd
    by (unfold hd; by rewrite !length_app, !length_be_bytes).
  assert (message_wire m payload ++ q = hd ++ payload ++ q) as E
    by (unfold message_wire, hd; by rewrite <- !app_assoc).
  rewrite E in Hv. rewrite <- Hhd.
  destruct (fifo_read_exact v hd _ Hv) as (v1 & -> & Hv1).
  rewrite bind_Done, Z.eqb_refl. cbn [negb].
  unfold hd at 1. rewrite recv_header1_v0 by done. rewrite Hhd.
  change (ROAR_MESS_BUF_LEN_V0 - ROAR_MESS_BUF_LEN_V0)%nat with 0%nat.
  change (ROAR_MESS_BUF_LEN_V0 <? ROAR_MESS_BUF_LEN_V0)%nat with false.
  cbn [negb]. rewrite bind_Done, Z.eqb_refl. cbn [negb].
  unfold recv_header2. cbn [m_version Z.eqb].
  rewrite recv_fix_stream_ok by done.
  rewrite (Z.mod_small (m_pos m)), (Z.mod_small (m_datalen m)) by lia.
  unfold recv_data. cbn [m_datalen m_data].
  unfold delivered, long_payload, LIBROAR_BUFFER_MSGDATA in *.
  destruct (Z.eqb_spec (m_datalen m) 0) as [Ez|Ez].
  { assert (payload = []) as -> by (apply nil_length_inv; lia).
    exists v1. by rewrite Ez. }
  rewrite Hd, Nat2Z.id.
  destruct (fifo_read_exact v1 payload q Hv1) as (v2 & -> & Hv2).
  destruct (Nat.leb_spec (length payload) 80) as [Hle|Hgt].
  - rewrite (proj2 (Z.leb_le _ _)) by lia. rewrite bind_Done.
    rewrite mwrite_prefix by (rewrite length_replicate; lia).
    cbn [or_ub]. rewrite bind_Done, Z.eqb_refl. exists v2.
    by rewrite drop_replicate.
  - rewrite (proj2 (Z.leb_gt _ _)) by lia.
    destruct Hw as [->|Hw]; [|lia]. cbn [negb].
    rewrite bind_Done, Z.eqb_refl. by exists v2.
Qed.

(** *** Robustness against arbitrary peers *)

(** What every received message satisfies, whatever the octets were. *)
Record received_ok (m : message) : Prop := {
  rc_datalen : 0 ≤ m_datalen m < 65536;
  rc_data : length (m_data m) = LIBROAR_BUFFER_MSGDATA;
  rc_stream : 0 ≤ m_stream m < 65535 ∨ m_stream m = 4294967295
}.

Lemma bswap2_range v : 0 ≤ bswap 2 v < 65536.
Proof. apply (bswap_range 2). Qed.

Lemma recv_header1_ok buf m n :
  recv_header1 buf = Some (m, n) →
  0 ≤ m_datalen m < 65536 ∧ 0 ≤ m_stream m < 65536 ∧
  length (m_data m) = LIBROAR_BUFFER_MSGDATA.
Proof.
  unfold recv_header1. repeat case_match; intros [= <- <-];
    split_and!; cbn; try lia; try apply bswap2_range; reflexivity.
Qed.

Lemma recv_header2_ok buf m :
  0 ≤ m_datalen m < 65536 →
  0 ≤ m_datalen (recv_header2 buf m) < 65536 ∧
  m_stream (recv_header2 buf m) = m_stream m ∧
  m_data (recv_header2 buf m) = m_data m.
Proof.
  intros. unfold recv_header2. repeat case_match; split_and!; try reflexivity;
    try apply bswap2_range; tauto.
Qed.

Lemma recv_fix_stream_received m :
  0 ≤ m_datalen m < 65536 → 0 ≤ m_stream m < 65536 →
  length (m_data m) = LIBROAR_BUFFER_MSGDATA →
  received_ok (recv_fix_stream m).
Proof.
  intros Hd Hs Hl. unfold recv_fix_stream.
  destruct (Z.eqb_spec (s16 (m_stream m)) (-1)) as [E|E].
  - split; cbn; [done|done|]. right. reflexivity.
  - split; [done|done|]. left. revert E. cint.
Qed.

Lemma recv_data_total v q m want_data :
  fifo_rep v q → received_ok m →
  ∃ r err m' d v' q', recv_data v m want_data = Done (r, err, m', d, v') ∧
    received_ok m' ∧ fifo_rep v' q' ∧ suffix q' q ∧
    (r = 0 ∧ err = ROAR_ERROR_NONE ∨
     r = -1 ∧ (err = ROAR_ERROR_PIPE ∨ err = ROAR_ERROR_MSGSIZE)).
Proof.
  intros Hv [Hd Hl Hs]. unfold recv_data.
  case_match; [exists 0, ROAR_ERROR_NONE, m, None, v, q; split_and!; auto; done|].
  destruct (fifo_read v q (Z.to_nat (m_datalen m)) Hv) as (v' & E & Hv').
  case_match eqn:Hsz.
  - rewrite E, bind_Done.
    destruct (mwrite 0 _ (m_data m)) as [data|] eqn:Em; cycle 1.
    { rewrite mwrite_prefix in Em; [done|]. rewrite length_take, Hl.
      unfold LIBROAR_BUFFER_MSGDATA in *. apply Z.leb_le in Hsz. lia. }
    cbn [or_ub]. rewrite bind_Done. apply length_mwrite in Em.
    set (m1 := m<|m_data := data|>).
    assert (received_ok m1) by (split; [done|by rewrite Hl in Em|done]).
    case_match; (do 2 eexists; exists m1, None, v'; eexists; split_and!;
      [reflexivity|done|done|by exists (take (Z.to_nat (m_datalen m)) q);
       rewrite take_drop|tauto]).
  - case_match; [exists (-1), ROAR_ERROR_MSGSIZE, m, None, v, q; split_and!; auto; done|].
    rewrite E, bind_Done.
    case_match; (do 2 eexists; exists m; do 3 eexists; split_and!;
      [reflexivity|done|done|by exists (take (Z.to_nat (m_datalen m)) q);
       rewrite take_drop|tauto]).
Qed.

Lemma roar_vrecv_message_total v q want_data :
  fifo_rep v q →
  ∃ r err m d v' q', roar_vrecv_message v want_data = Done (r, err, m, d, v') ∧
    fifo_rep v' q' ∧ suffix q' q ∧
    (r = 0 ∧ err = ROAR_ERROR_NONE ∧ received_ok m ∨
     r = -1 ∧ err ∈ [ROAR_ERROR_PROTO; ROAR_ERROR_PIPE; ROAR_ERROR_MSGSIZE]).
Proof.
  intros Hv. unfold roar_vrecv_message.
  destruct (fifo_read v q ROAR_MESS_BUF_LEN_V0 Hv) as (v1 & -> & Hv1).
  rewrite bind_Done.
  assert (∀ n, suffix (drop n q) q) as Hsuf
    by (intros n; exists (take n q); by rewrite take_drop).
  case_match.
  { do 4 eexists; exists v1; eexists; split_and!; [reflexivity|done|done|].
    right. split; [done|constructor]. }
  destruct (recv_header1 _) as [[m n]|] eqn:Eh; cycle 1.
  { do 4 eexists; exists v1; eexists; split_and!; [reflexivity|done|done|].
    right. split; [done|constructor]. }
  apply recv_header1_ok in Eh as (Hd & Hs & Hl).
  assert (∃ r b v2 q2,
    (if (ROAR_MESS_BUF_LEN_V0 <? n)%nat then vio_read (n - ROAR_MESS_BUF_LEN_V0) v1
     else Done (Z.of_nat (n - ROAR_MESS_BUF_LEN_V0), [], v1)) = Done (r, b, v2)
    ∧ fifo_rep v2 q2 ∧ suffix q2 q) as (r & b & v2 & q2 & -> & Hv2 & Hq2).
  { case_match; [|by eauto 10].
    destruct (fifo_read v1 _ (n - ROAR_MESS_BUF_LEN_V0) Hv1) as (v2 & -> & Hv2).
    do 4 eexists; split_and!; [reflexivity|done|]. rewrite drop_drop. apply Hsuf. }
  rewrite bind_Done. case_match.
  { do 4 eexists; exists v2; eexists; split_and!; [reflexivity|done|done|].
    right. split; [done|constructor]. }
  match goal with |- context [recv_header2 ?b m] =>
    destruct (recv_header2_ok b m Hd) as (Hd' & Hs' & Hl') end.
  edestruct (recv_data_total v2 q2) as (r' & err & m' & d & v3 & q3 & -> & ? & ? & ? & Hr);
    [done|by apply recv_fix_stream_received; rewrite ?Hs', ?Hl'|].
  do 4 eexists; exists v3; eexists; split_and!; [reflexivity|done|by etrans|].
  destruct Hr as [[-> ->]|[-> [-> | ->]]]; [auto|right..]; (split; [done|]);
    by repeat constructor.
Qed.
End protocol.

(** ** Conversations *)
Section conversations.
Context {V : Type} `{Vio V}.

(** A peer that sends a list of messages, stopping at the first error. *)
Fixpoint send_all (v : V) (l : list (message * option (list Z))) : outcome (Z * V) :=
  match l with
  | [] => Done (0, v)
  | (m, d) :: l =>
      res ← roar_vsend_message v m d;
      let '(r, _, _, v) := res in
      if r =? 0 then send_all v l else Done (r, v)
  end.

(** A peer that receives [n] messages, stopping at the first error. *)
Fixpoint recv_all (v : V) (n : nat)
  : outcome (list (message * option (list Z)) * V) :=
  match n with
  | O => Done ([], v)
  | S n =>
      res ← roar_vrecv_message v true;
      let '(r, _, m, d, v) := res in
      if r =? 0 then
        res ← recv_all v n;
        let '(l, v) := res in Done ((m, d) :: l, v)
      else Done ([], v)
  end.
End conversations.

Definition wire_all (l : list (message * option (list Z) * list Z)) : list Z :=
  l ≫= λ '(m, _, p), message_wire m p.

Lemma send_all_ok {V} `{Fifo V} l : ∀ (v : V) q,
  Forall (λ '(m, d, p), sendable m d p) l → fifo_rep v q →
  ∃ v', send_all v (fst <$> l) = Done (0, v') ∧ fifo_rep v' (q ++ wire_all l).
Proof.
  induction l as [|[[m d] p] l IH]; intros v q Hl Hv.
  - exists v. cbn. by rewrite app_nil_r.
  - apply Forall_cons in Hl as [Hm Hl]. cbn [fmap list_fmap fst send_all].
    destruct (roar_vsend_message_ok v q m d p Hm Hv) as (v1 & -> & Hv1).
    rewrite bind_Done. cbn [Z.eqb].
    destruct (IH v1 _ Hl Hv1) as (v2 & E & Hv2). exists v2. split; [exact E|].
    by rewrite <- app_assoc in Hv2.
Qed.

Lemma recv_all_ok {V} `{Fifo V} l : ∀ (v : V) q,
  Forall (λ '(m, d, p), sendable m d p) l → fifo_rep v (wire_all l ++ q) →
  ∃ v', recv_all v (length l)
        = Done ((λ '(m, _, p), (delivered m p, long_payload p)) <$> l, v') ∧
        fifo_rep v' q.
Proof.
  induction l as [|[[m d] p] l IH]; intros v q Hl Hv.
  - by exists v.
  - apply Forall_cons in Hl as [Hm Hl]. cbn [fmap list_fmap length recv_all].
    cbn in Hv. rewrite <- app_assoc in Hv.
    destruct (roar_vrecv_message_ok v _ m d p true Hm (or_introl eq_refl) Hv)
      as (v1 & -> & Hv1).
    rewrite bind_Done. cbn [Z.eqb].
    destruct (IH v1 q Hl Hv1) as (v2 & E & Hv2). exists v2. split; [|exact Hv2].
    by rewrite E.
Qed.

(** ** Properties *)


(** A request as a client sends it (NEW_STREAM on stream -1, three octets in
    the message) and an ADD_DATA with 100 octets in a separate buffer. *)
Definition example_messages : list (message * option (list Z) * list Z) :=
  [ (zero_message<|m_cmd := 3|><|m_stream := 4294967295|><|m_datalen := 3|>
                 <|m_data := [7; 8; 9] ++ replicate 77 0|>, None, [7; 8; 9]);
    (zero_message<|m_cmd := 12|><|m_stream := 5|><|m_pos := 70000|><|m_datalen := 100|>,
     Some (replicate 100 255), replicate 100 255) ].




