(* ===== verification/Notify.v ===== *)
(** * The notification core ([libroar/notify.c])

    Events, the wire format of an event ([roar_event_to_blob],
    [roar_event_from_blob]), the condition under which a subscriber is told of
    an event, and the groups of events of the standard proxy
    ([libroar/notify_proxy.c]).  The server model ([ServerState.v]) uses them;
    the lists of subscribers are in [NotifyCore.v]. *)
From S2P Require Import Prelude.

(** ** Events *)

Definition ROAR_EVENT_FLAG_NETTRANS : Z := 1.
Definition ROAR_EVENT_FLAG_PROXYEVENT : Z := 2.
Definition ROAR_NOTIFY_SPECIAL : Z := 0xffffffff.

(** [struct roar_event]; [ev_arg2] is [NULL] or the [arg2_len] octets behind
    the pointer. *)
Record event := Event {
  ev_flags : Z;         (** uint32_t *)
  ev_event : Z;         (** uint32_t *)
  ev_event_proxy : Z;   (** uint32_t *)
  ev_emitter : Z;       (** int *)
  ev_target : Z;        (** int *)
  ev_target_type : Z;   (** int *)
  ev_arg0 : Z;          (** int *)
  ev_arg1 : Z;          (** int *)
  ev_arg2 : option (list Z);
  ev_arg2_len : Z       (** ssize_t *)
}.

(** The [memset] and assignments of [roar_notify_core_emit_simple]. *)
Definition simple_event (ev emitter target target_type arg0 arg1 : Z)
    (arg2 : option (list Z)) (arg2_len : Z) : event :=
  {| ev_flags :=
       if (if arg2 is Some _ then false else true) && ((arg2_len =? 0) || (arg2_len =? -1))
       then ROAR_EVENT_FLAG_NETTRANS else 0;
     ev_event := ev; ev_event_proxy := 0;
     ev_emitter := emitter; ev_target := target; ev_target_type := target_type;
     ev_arg0 := arg0; ev_arg1 := arg1; ev_arg2 := arg2; ev_arg2_len := arg2_len |}.

(** The condition under which [roar_notify_core_emit] runs a callback; the
    pattern is the event the subscriber was registered with. *)
Definition subscriber_matches (sub ev : event) : bool :=
  ((ev_event sub =? ROAR_NOTIFY_SPECIAL) || (ev_event sub =? ev_event ev)) &&
  ((ev_emitter sub =? -1) || (ev_emitter sub =? ev_emitter ev)) &&
  ((ev_target sub =? -1) || (ev_target sub =? ev_target ev)) &&
  ((ev_target_type sub =? -1) || (ev_target_type sub =? ev_target_type ev)).

(** [_hash_event], with [mask = listc - 1]. *)
Definition hash_event (listc ev : Z) : Z :=
  Z.land
    (Z.lxor (Z.lxor (Z.lxor (Z.lxor 0 (Z.shiftr ev 0)) (Z.shiftr ev 8))
                    (Z.shiftr ev 16)) (Z.shiftr ev 24))
    (listc - 1).

(** [roar_notify_core_emit] walks one of the [listc] lists only: the one of the
    event.  A subscriber is in the list of its own pattern. *)
Definition event_delivered (listc : Z) (sub ev : event) : bool :=
  (hash_event listc (ev_event sub) =? hash_event listc (ev_event ev)) &&
  subscriber_matches sub ev.

Definition is_proxy (e : event) : bool := has_flag (ev_flags e) ROAR_EVENT_FLAG_PROXYEVENT.

(** ** Groups of events ([libroar/notify_proxy.c]) *)

Definition ROAR_NOTIFY_EGRP2EVENT (x : Z) : Z :=
  if x =? -1 then ROAR_NOTIFY_SPECIAL else Z.land x 0xffff + 0x10000.
Definition ROAR_NOTIFY_OE2EVENT (x : Z) : Z :=
  if x =? -1 then ROAR_NOTIFY_SPECIAL else Z.land x 0xffff + 0x20000.

(** Groups of the object types CLIENT, STREAM, SOURCE and SAMPLE; every
    ROAR_EGRP_ANY_..._EVENT is defined with the group of the clients. *)
Definition ROAR_NOTIFY_OE_GROUP (ot : Z) : Z := Z.shiftl ot 8.
Definition ROAR_EGRP_ANY_EVENT : Z := ROAR_NOTIFY_EGRP2EVENT 0.
Definition ROAR_EGRP_ANY_CLIENT_EVENT : Z := ROAR_NOTIFY_EGRP2EVENT (ROAR_NOTIFY_OE_GROUP 1).
Definition ROAR_EGRP_ANY_STREAM_EVENT : Z := ROAR_NOTIFY_EGRP2EVENT (ROAR_NOTIFY_OE_GROUP 1).
Definition ROAR_EGRP_ANY_SOURCE_EVENT : Z := ROAR_NOTIFY_EGRP2EVENT (ROAR_NOTIFY_OE_GROUP 1).
Definition ROAR_EGRP_ANY_SAMPLE_EVENT : Z := ROAR_NOTIFY_EGRP2EVENT (ROAR_NOTIFY_OE_GROUP 1).

(** The table of [roar_notify_proxy_std]: first and last event, and the events
    of the group. *)
Definition proxy_list : list (Z * Z * list Z) :=
  (λ g : Z * list Z,
    (ROAR_NOTIFY_OE2EVENT (ROAR_NOTIFY_OE_GROUP g.1),
     ROAR_NOTIFY_OE2EVENT (ROAR_NOTIFY_OE_GROUP g.1 + 0xff), g.2)) <$>
  [(1, [ROAR_EGRP_ANY_CLIENT_EVENT]); (2, [ROAR_EGRP_ANY_STREAM_EVENT]);
   (3, [ROAR_EGRP_ANY_SOURCE_EVENT]); (4, [ROAR_EGRP_ANY_SAMPLE_EVENT])].

(** The events [roar_notify_proxy_std] emits for an event, in order. *)
Definition roar_notify_proxy_std (e : event) : list event :=
  let oe := ev_event e in
  let loc ev := e<|ev_flags := Z.lor (ev_flags e) ROAR_EVENT_FLAG_PROXYEVENT|>
                 <|ev_event_proxy := oe|><|ev_event := ev|> in
  loc <$> ROAR_EGRP_ANY_EVENT ::
    mjoin ((λ g : Z * Z * list Z, if (g.1.1 <=? oe) && (oe <=? g.1.2) then g.2 else []) <$> proxy_list).

(** What [roar_notify_core_emit] walks the lists for, with the standard proxy
    registered: events of groups first. *)
Definition notify_events (e : event) : list event :=
  (if is_proxy e then [] else roar_notify_proxy_std e) ++ [e].

(** ** Events in messages *)

Definition is_nettrans (e : event) : bool := has_flag (ev_flags e) ROAR_EVENT_FLAG_NETTRANS.

Definition be16 (v : Z) : list Z := le_bytes 2 (bswap 2 v).
Definition be32 (v : Z) : list Z := le_bytes 4 (bswap 4 v).

(** [roar_event_to_blob] with [len] octets of room: return value and the
    octets of the message.  The final [memcpy] is undefined for a negative
    length, for a null pointer with octets to copy, and, when the event is
    not sent with its data, for data that exceed the room behind it. *)
Definition roar_event_to_blob (e : event) (len : Z) : outcome (Z * list Z) :=
  if len =? 0 then Done (-1, [])
  else if is_nettrans e && (32768 <? ev_arg2_len e) then Done (-1, [])
  else
    let needed_len := 16 + (if is_proxy e then 4 else 0) +
      (if is_nettrans e then 4 + (if 0 <? ev_arg2_len e then ev_arg2_len e else 0) else 0) in
    if len <? needed_len then Done (-1, [])
    else
      let flags := Z.lor (if is_proxy e then ROAR_EVENT_FLAG_PROXYEVENT else 0)
                         (if is_nettrans e then ROAR_EVENT_FLAG_NETTRANS else 0) in
      let head := be32 flags ++ be32 (ev_event e) ++
        (if is_proxy e then be32 (ev_event_proxy e) else []) ++
        be16 (ev_emitter e) ++ be16 (ev_target e) ++ be16 (ev_target_type e) ++
        (if is_nettrans e
         then be16 (ev_arg2_len e) ++ be16 (ev_arg0 e) ++ be16 (ev_arg1 e) else be16 0) in
      arg2 ← (if ev_arg2_len e <? 0 then UB
              else if ev_arg2_len e =? 0 then Done []
              else a ← or_ub (ev_arg2 e); or_ub (mread 0 (Z.to_nat (ev_arg2_len e)) a));
      if is_nettrans e then Done (0, head ++ arg2)
      else if len <? needed_len + ev_arg2_len e then UB
      else Done (0, head).

Definition load16 (off : nat) (blob : list Z) : outcome Z :=
  bs ← or_ub (mread off 2 blob); Done (bswap 2 (le_val bs)).
Definition load32 (off : nat) (blob : list Z) : outcome Z :=
  bs ← or_ub (mread off 4 blob); Done (bswap 4 (le_val bs)).

(** [(uint16_t)-1] stands for -1. *)
Definition none16 (v : Z) : Z := if v =? 65535 then -1 else v.

(** [roar_event_from_blob] on the octets from [blob] on, of which [len] are
    the message's: return value, event and new length. *)
Definition roar_event_from_blob (blob : list Z) (len : Z) : outcome (Z * option event * Z) :=
  if len <? 16 then Done (-1, None, len)
  else
    flags ← load32 0 blob;
    let proxy := has_flag flags ROAR_EVENT_FLAG_PROXYEVENT in
    let nettrans := has_flag flags ROAR_EVENT_FLAG_NETTRANS in
    let o := if proxy then 12%nat else 8%nat in
    let needed_len := 16 + (if proxy then 4 else 0) + (if nettrans then 4 else 0) in
    if len <? needed_len then Done (-1, None, len)
    else
      arg2_len ← load16 (o + 6) blob;
      let needed_len := needed_len + arg2_len in
      if len <? needed_len then Done (-1, None, len)
      else
        let left := flags - (if proxy then ROAR_EVENT_FLAG_PROXYEVENT else 0)
                          - (if nettrans then ROAR_EVENT_FLAG_NETTRANS else 0) in
        if negb (left =? 0) then Done (-1, None, 0)
        else
          ev ← load32 4 blob;
          event_proxy ← (if proxy then load32 8 blob else Done 0);
          emitter ← load16 o blob;
          target ← load16 (o + 2) blob;
          target_type ← load16 (o + 4) blob;
          arg0 ← (if nettrans then load16 (o + 8) blob else Done 65535);
          arg1 ← (if nettrans then load16 (o + 10) blob else Done 65535);
          arg2 ← (if nettrans
                  then a ← or_ub (mread (Z.to_nat (needed_len - arg2_len))
                                        (Z.to_nat arg2_len) blob); Done (Some a)
                  else Done None);
          Done (0, Some (Event
            (Z.lor (if proxy then ROAR_EVENT_FLAG_PROXYEVENT else 0)
                   (if nettrans then ROAR_EVENT_FLAG_NETTRANS else 0))
            ev event_proxy (none16 emitter) (none16 target) (none16 target_type)
            (none16 arg0) (none16 arg1) arg2 arg2_len), needed_len).

(** ** The round trip of an event *)

(** Loads from octets that are given in pieces. *)
Lemma mread_chunk (cs : list (list Z)) k c off n :
  cs !! k = Some c → off = length (mjoin (take k cs)) → n = length c →
  mread off n (mjoin cs) = Some c.
Proof.
  intros Hk -> ->. rewrite <- (take_drop_middle cs k c Hk) at 2. rewrite join_app. by apply mread_at.
Qed.

Lemma load16_chunk cs k v off :
  cs !! k = Some (be_bytes 2 v) → off = length (mjoin (take k cs)) →
  load16 off (mjoin cs) = Done (u16 v).
Proof.
  intros Hk Ho. unfold load16. rewrite (mread_chunk cs k _ _ _ Hk Ho) by done.
  cbn [or_ub]. rewrite bind_Done. rewrite <- (length_be_bytes 2 v) at 1.
  rewrite load_bswap by apply be_bytes_octets. by rewrite be_val_bytes.
Qed.

Lemma load32_chunk cs k v off :
  cs !! k = Some (be_bytes 4 v) → off = length (mjoin (take k cs)) →
  load32 off (mjoin cs) = Done (u32 v).
Proof.
  intros Hk Ho. unfold load32. rewrite (mread_chunk cs k _ _ _ Hk Ho) by done.
  cbn [or_ub]. rewrite bind_Done. rewrite <- (length_be_bytes 4 v) at 1.
  rewrite load_bswap by apply be_bytes_octets. by rewrite be_val_bytes.
Qed.

(** Numbers that survive their 16 bits, -1 included. *)
Definition short_arg (v : Z) : Prop := -1 ≤ v < 65535.

Lemma none16_u16 v : short_arg v → none16 (u16 v) = v.
Proof.
  unfold short_arg, none16. intros Hv. destruct (Z.eqb_spec (u16 v) 65535) as [E|E]; revert E; cint.
Qed.

Definition event_flags (proxy data : bool) : Z :=
  Z.lor (if proxy then ROAR_EVENT_FLAG_PROXYEVENT else 0) (if data then ROAR_EVENT_FLAG_NETTRANS else 0).

(** The events that can be sent. *)
Record event_ok (e : event) : Prop := {
  eo_flags : ev_flags e = event_flags (is_proxy e) (is_nettrans e);
  eo_event : 0 ≤ ev_event e < 2 ^ 32;
  eo_proxy : if is_proxy e then 0 ≤ ev_event_proxy e < 2 ^ 32 else ev_event_proxy e = 0;
  eo_emitter : short_arg (ev_emitter e);
  eo_target : short_arg (ev_target e);
  eo_type : short_arg (ev_target_type e);
  eo_arg0 : short_arg (ev_arg0 e);
  eo_arg1 : short_arg (ev_arg1 e);
  eo_len : ev_arg2_len e = Z.of_nat (length (default [] (ev_arg2 e)));
  eo_max : ev_arg2_len e ≤ if is_nettrans e then 32768 else 0
}.

(** What of an event its message carries. *)
Definition event_sent (e : event) : event :=
  if is_nettrans e then e<|ev_arg2 := Some (default [] (ev_arg2 e))|>
  else e<|ev_arg0 := -1|><|ev_arg1 := -1|><|ev_arg2 := None|><|ev_arg2_len := 0|>.

Definition event_blob_len (e : event) : Z :=
  16 + (if is_proxy e then 4 else 0) + (if is_nettrans e then 4 else 0) + ev_arg2_len e.

Lemma event_flags_parse p d :
  has_flag (event_flags p d) ROAR_EVENT_FLAG_PROXYEVENT = p ∧
  has_flag (event_flags p d) ROAR_EVENT_FLAG_NETTRANS = d ∧
  event_flags p d - (if p then ROAR_EVENT_FLAG_PROXYEVENT else 0)
    - (if d then ROAR_EVENT_FLAG_NETTRANS else 0) = 0 ∧
  u32 (event_flags p d) = event_flags p d.
Proof. by destruct p, d. Qed.

(** The octets of an event's message. *)
Definition event_chunks (p d : bool) (ev proxy emitter target type arg0 arg1 : Z) (arg2 : list Z)
  : list (list Z) :=
  [be_bytes 4 (event_flags p d); be_bytes 4 ev; if p then be_bytes 4 proxy else [];
   be_bytes 2 emitter; be_bytes 2 target; be_bytes 2 type; be_bytes 2 (Z.of_nat (length arg2))] ++
  (if d then [be_bytes 2 arg0; be_bytes 2 arg1] else [[]; []]) ++ [arg2].

Definition event_blob (p d : bool) (ev proxy emitter target type arg0 arg1 : Z) (arg2 : list Z) : list Z :=
  mjoin (event_chunks p d ev proxy emitter target type arg0 arg1 arg2).

Lemma event_to_blob_ok e len :
  event_ok e → event_blob_len e ≤ len →
  roar_event_to_blob e len = Done (0, event_blob (is_proxy e) (is_nettrans e) (ev_event e)
    (ev_event_proxy e) (ev_emitter e) (ev_target e) (ev_target_type e) (ev_arg0 e) (ev_arg1 e)
    (default [] (ev_arg2 e))).
Proof.
  intros [Hf _ _ _ _ _ _ _ Hl Hm] Hlen. unfold roar_event_to_blob, event_blob_len, be16, be32 in *.
  rewrite !store_bswap. fold (event_flags (is_proxy e) (is_nettrans e)).
  rewrite (proj2 (Z.eqb_neq len 0)) by (destruct (is_proxy e), (is_nettrans e); lia).
  assert (Ha : (if ev_arg2_len e <? 0 then UB else if ev_arg2_len e =? 0 then Done []
    else a ← or_ub (ev_arg2 e); or_ub (mread 0 (Z.to_nat (ev_arg2_len e)) a)) =
    Done (default [] (ev_arg2 e))).
  { rewrite (proj2 (Z.ltb_ge _ _)) by lia. destruct (Z.eqb_spec (ev_arg2_len e) 0) as [E|E].
    - destruct (ev_arg2 e) as [[|]|]; cbn in *; [done|lia|done].
    - destruct (ev_arg2 e) as [a|]; cbn in *; [|lia]. rewrite Hl, Nat2Z.id.
      pose proof (mread_0 a [] _ eq_refl) as Hr. rewrite app_nil_r in Hr. by rewrite Hr. }
  rewrite Ha, bind_Done. unfold event_blob, event_chunks. rewrite <- Hl.
  destruct (is_nettrans e) eqn:En; cbn [andb].
  - rewrite (proj2 (Z.ltb_ge 32768 _)) by lia.
    rewrite (proj2 (Z.ltb_ge len _)) by (destruct (Z.ltb_spec 0 (ev_arg2_len e)), (is_proxy e); lia).
    cbn [app mjoin list_join]. by rewrite <- !app_assoc, app_nil_r.
  - assert (ev_arg2_len e = 0) as E by lia. rewrite E. destruct (default [] (ev_arg2 e)); [|cbn in *; lia].
    rewrite (proj2 (Z.ltb_ge len _)) by (destruct (is_proxy e); lia).
    rewrite (proj2 (Z.ltb_ge len _)) by (destruct (is_proxy e); lia).
    cbn [app mjoin list_join]. by rewrite !app_nil_r.
Qed.

Lemma event_from_blob_ok (p d : bool) ev proxy emitter target type arg0 arg1 (arg2 rest : list Z) len :
  let n := 16 + (if p then 4 else 0) + (if d then 4 else 0) + Z.of_nat (length arg2) in
  n ≤ len → Z.of_nat (length arg2) < 65536 →
  roar_event_from_blob (event_blob p d ev proxy emitter target type arg0 arg1 arg2 ++ rest) len =
  Done (0, Some (Event (event_flags p d) (u32 ev) (if p then u32 proxy else 0)
    (none16 (u16 emitter)) (none16 (u16 target)) (none16 (u16 type))
    (if d then none16 (u16 arg0) else -1) (if d then none16 (u16 arg1) else -1)
    (if d then Some arg2 else None) (Z.of_nat (length arg2))), n).
Proof.
  intros n Hn Hl. destruct (event_flags_parse p d) as (Ep & Ed & E0 & Eu).
  unfold roar_event_from_blob. rewrite (proj2 (Z.ltb_ge _ _)) by (subst n; destruct p, d; lia).
  set (cs := event_chunks p d ev proxy emitter target type arg0 arg1 arg2 ++ [rest]).
  replace (event_blob p d ev proxy emitter target type arg0 arg1 arg2 ++ rest) with (mjoin cs)
    by (unfold cs; rewrite join_app; cbn; by rewrite app_nil_r).
  rewrite (load32_chunk cs 0 (event_flags p d) 0) by (subst cs; destruct p; try destruct d; reflexivity).
  rewrite bind_Done, Eu, Ep, Ed. cbv zeta.
  rewrite (proj2 (Z.ltb_ge len _)) by (subst n; destruct p, d; lia).
  rewrite (load16_chunk cs 6 (Z.of_nat (length arg2)) ((if p then 12 else 8) + 6)) by (subst cs; destruct p; try destruct d; reflexivity).
  rewrite bind_Done, (uwrap_id 16) by lia.
  rewrite (proj2 (Z.ltb_ge len _)) by (subst n; destruct p, d; lia). rewrite E0. cbn [Z.eqb negb].
  rewrite (load32_chunk cs 1 ev 4), bind_Done by (subst cs; destruct p; try destruct d; reflexivity).
  replace (if p then load32 8 (mjoin cs) else Done 0) with (Done (if p then u32 proxy else 0)).
  2: { destruct p; [|done]. symmetry. apply (load32_chunk cs 2); subst cs; by destruct d. }
  rewrite bind_Done. rewrite (load16_chunk cs 3 emitter (if p then 12%nat else 8%nat)), bind_Done by (subst cs; destruct p; try destruct d; reflexivity).
  rewrite (load16_chunk cs 4 target ((if p then 12 else 8) + 2)), bind_Done by (subst cs; destruct p; try destruct d; reflexivity).
  rewrite (load16_chunk cs 5 type ((if p then 12 else 8) + 4)), bind_Done by (subst cs; destruct p; try destruct d; reflexivity).
  destruct d.
  - rewrite (load16_chunk cs 7 arg0 ((if p then 12 else 8) + 8)), bind_Done by (subst cs; destruct p; try destruct d; reflexivity).
    rewrite (load16_chunk cs 8 arg1 ((if p then 12 else 8) + 10)), bind_Done by (subst cs; destruct p; try destruct d; reflexivity).
    rewrite (mread_chunk cs 9 arg2).
    + cbn [or_ub]. rewrite !bind_Done. subst n. by destruct p.
    + done.
    + destruct p; cbn; lia.
    + lia.
  - rewrite !bind_Done. subst n. by destruct p.
Qed.


Definition example_event : event := Event 3 0x20007 0x10000 5 (-1) 2 7 (-1) (Some [1; 2; 3]) 3.

