(* ===== verification/NotifyCore.v ===== *)
(** * Subscriptions ([libroar/notify.c], the core)

    [struct roar_notify_core] is a hash table of linked lists of subscribers.
    The nodes live in an explicit heap, so that a node that was freed is
    absent and any use of it is undefined; callbacks may work on the core
    while an event is delivered.  The lists are shown to implement a table of
    sequences of subscriptions. *)
From S2P Require Import Prelude Notify.

(** ** The core *)

(** [struct roar_subscriber] without its link: the pattern, the callback and
    its argument. *)
Record sub_info := SubInfo {
  sb_event : Z; sb_emitter : Z; sb_target : Z; sb_target_type : Z;
  sb_cb : Z; sb_userdata : Z; sb_refc : Z; sb_hash : Z }.

Record subscriber := Subscriber { sb_info : sub_info; sb_next : option Z }.

(** [struct roar_notify_core] with the heap of its subscribers; addresses are
    given out in order, [k_brk] is the next.  [k_proxy] tells whether the
    standard proxy is registered. *)
Record ncore := NCore {
  k_refc : Z; k_listc : Z; k_lists : list (option Z); k_proxy : bool;
  k_heap : gmap Z subscriber; k_brk : Z }.

Definition list_sizes : list Z := [1; 2; 4; 8; 16; 32; 64; 128; 256; 512; 1024].

Definition roar_notify_core_new (lists : Z) : option ncore :=
  let lists := if lists =? -1 then 16 else lists in
  if decide (lists ∈ list_sizes)
  then Some (NCore 1 lists (replicate (Z.to_nat lists) None) false ∅ 0) else None.

Definition roar_notify_core_ref (k : ncore) : Z * ncore := (0, k<|k_refc := u64 (k_refc k + 1)|>).

(** A node of the heap. *)
Definition node_at (h : gmap Z subscriber) (l : Z) : outcome subscriber := or_ub (h !! l).

Lemma node_at_Some h l n : h !! l = Some n → node_at h l = Done n.
Proof. unfold node_at. by intros ->. Qed.

(** One list is freed node by node. *)
Fixpoint free_list (fuel : nat) (cur : option Z) (h : gmap Z subscriber) : outcome (gmap Z subscriber) :=
  match fuel, cur with
  | _, None => Done h
  | O, _ => Fuel
  | S fuel, Some l => n ← node_at h l; free_list fuel (sb_next n) (delete l h)
  end.

(** Enough rounds for any list without a cycle. *)
Definition walk_fuel (h : gmap Z subscriber) : nat := S (size h).

Fixpoint free_lists (ls : list (option Z)) (h : gmap Z subscriber) : outcome (gmap Z subscriber) :=
  match ls with
  | [] => Done h
  | l :: ls => h ← free_list (walk_fuel h) l h; free_lists ls h
  end.

(** The core that is left, or the heap after the core itself was freed. *)
Definition roar_notify_core_unref (k : ncore) : outcome (Z * (ncore + gmap Z subscriber)) :=
  let refc := (if k_refc k =? 0 then 1 else k_refc k) - 1 in
  if 0 <? refc then Done (0, inl (k<|k_refc := refc|>))
  else h ← free_lists (k_lists k) (k_heap k); Done (0, inr h).

(** [while ( cur != NULL ) { old = cur; cur = cur->next; }] *)
Fixpoint last_node (fuel : nat) (old cur : Z) (h : gmap Z subscriber) : outcome Z :=
  match fuel with
  | O => Fuel
  | S fuel =>
      n ← node_at h cur;
      match sb_next n with None => Done cur | Some next => last_node fuel cur next h end
  end.

Definition set_next (l : Z) (next : option Z) (h : gmap Z subscriber) : outcome (gmap Z subscriber) :=
  n ← node_at h l; Done (<[l := Subscriber (sb_info n) next]> h).

Definition subs_of (k : ncore) (ev : event) (cb userdata : Z) : sub_info :=
  SubInfo (ev_event ev) (ev_emitter ev) (ev_target ev) (ev_target_type ev) cb userdata 1
          (hash_event (k_listc k) (ev_event ev)).

(** The address of the new subscriber is the return value. *)
Definition roar_notify_core_subscribe (k : ncore) (ev : event) (cb userdata : Z) : outcome (Z * ncore) :=
  let subs := subs_of k ev cb userdata in
  let l := k_brk k in
  let h := <[l := Subscriber subs None]> (k_heap k) in
  cur ← aget (k_lists k) (sb_hash subs);
  match cur with
  | None =>
      lists ← aset (sb_hash subs) (Some l) (k_lists k);
      Done (l, k<|k_heap := h|><|k_brk := l + 1|><|k_lists := lists|>)
  | Some c =>
      old ← last_node (walk_fuel h) c c h;
      h ← set_next old (Some l) h;
      Done (l, k<|k_heap := h|><|k_brk := l + 1|>)
  end.

(** [while ( cur != NULL && cur != subscriber )]: the node before. *)
Fixpoint find_node (fuel : nat) (subs : Z) (old : Z) (cur : option Z) (h : gmap Z subscriber)
  : outcome (option Z) :=
  match fuel, cur with
  | _, None => Done None
  | O, _ => Fuel
  | S fuel, Some c =>
      if c =? subs then Done (Some old)
      else n ← node_at h c; find_node fuel subs c (sb_next n) h
  end.

Definition roar_notify_core_unsubscribe (k : ncore) (subs : Z) : outcome (Z * ncore) :=
  n ← node_at (k_heap k) subs;
  cur ← aget (k_lists k) (sb_hash (sb_info n));
  match cur with
  | None => Done (-1, k)
  | Some c =>
      if c =? subs then
        lists ← aset (sb_hash (sb_info n)) (sb_next n) (k_lists k);
        Done (0, k<|k_lists := lists|>)
      else
        first ← node_at (k_heap k) c;
        o ← find_node (walk_fuel (k_heap k)) subs c (sb_next first) (k_heap k);
        match o with
        | None => Done (-1, k)
        | Some old =>
            cur ← node_at (k_heap k) subs;
            h ← set_next old (sb_next cur) (k_heap k);
            Done (0, k<|k_heap := delete subs h|>)
        end
  end.

(** The condition of the walk. *)
Definition sub_matches (i : sub_info) (ev : event) : bool :=
  ((sb_event i =? ROAR_NOTIFY_SPECIAL) || (sb_event i =? ev_event ev)) &&
  ((sb_emitter i =? -1) || (sb_emitter i =? ev_emitter ev)) &&
  ((sb_target i =? -1) || (sb_target i =? ev_target ev)) &&
  ((sb_target_type i =? -1) || (sb_target_type i =? ev_target_type ev)).

Section emit.
Context {W : Type}.
(** The callbacks: they may change the core and the world around it. *)
Variable callback : sub_info → event → ncore * W → outcome (ncore * W).

(** The link is read after the callback. *)
Fixpoint emit_walk (fuel : nat) (ev : event) (cur : option Z) (kw : ncore * W) : outcome (ncore * W) :=
  match fuel, cur with
  | _, None => Done kw
  | O, _ => Fuel
  | S fuel, Some l =>
      n ← node_at (k_heap kw.1) l;
      if sub_matches (sb_info n) ev then
        kw ← callback (sb_info n) ev kw;
        n ← node_at (k_heap kw.1) l;
        emit_walk fuel ev (sb_next n) kw
      else emit_walk fuel ev (sb_next n) kw
  end.

Definition emit_one (fuel : nat) (ev : event) (kw : ncore * W) : outcome (ncore * W) :=
  cur ← aget (k_lists kw.1) (hash_event (k_listc kw.1) (ev_event ev));
  emit_walk fuel ev cur kw.

Fixpoint emit_all (fuel : nat) (evs : list event) (kw : ncore * W) : outcome (ncore * W) :=
  match evs with
  | [] => Done kw
  | ev :: evs => kw ← emit_one fuel ev kw; emit_all fuel evs kw
  end.

Definition roar_notify_core_emit (fuel : nat) (ev : event) (kw : ncore * W) : outcome (ncore * W) :=
  kw ← (if k_proxy kw.1 && negb (is_proxy ev)
        then emit_all fuel (roar_notify_proxy_std ev) kw else Done kw);
  emit_one fuel ev kw.
End emit.

(** ** The lists as sequences *)

Abbreviation entry := (Z * sub_info)%type.

(** [seg h cur es fin]: from [cur] on, the heap links the nodes [es] up to the
    link [fin]. *)
Fixpoint seg (h : gmap Z subscriber) (cur : option Z) (es : list entry) (fin : option Z) : Prop :=
  match es with
  | [] => cur = fin
  | e :: es => cur = Some e.1 ∧ ∃ next, h !! e.1 = Some (Subscriber e.2 next) ∧ seg h next es fin
  end.

Lemma seg_app h cur es1 es2 fin :
  seg h cur (es1 ++ es2) fin ↔ ∃ mid, seg h cur es1 mid ∧ seg h mid es2 fin.
Proof.
  revert cur. induction es1 as [|e es1 IH]; intros cur; cbn.
  - split; [eauto|]. by intros (mid & -> & ?).
  - split.
    + intros (-> & next & Hn & (mid & H1 & H2)%IH). eauto 10.
    + intros (mid & (-> & next & Hn & H1) & H2). split; [done|]. exists next. split; [done|].
      apply IH. eauto.
Qed.

Lemma seg_ext h h' cur es fin :
  (∀ l, l ∈ es.*1 → h' !! l = h !! l) → seg h cur es fin → seg h' cur es fin.
Proof.
  revert cur. induction es as [|e es IH]; intros cur Hh; cbn; [done|].
  intros (-> & next & Hn & Hs). split; [done|]. exists next. split.
  - rewrite Hh; [done|]. by left.
  - apply IH; [|done]. intros. apply Hh. by right.
Qed.

Lemma seg_in h cur es fin l : seg h cur es fin → l ∈ es.*1 → is_Some (h !! l).
Proof.
  revert cur. induction es as [|e es IH]; intros cur; cbn; [by intros _ ?%elem_of_nil|].
  intros (_ & next & Hn & Hs) [->|Hl]%elem_of_cons; [by eexists|by eapply IH].
Qed.

(** The length of a list is within the rounds of a walk. *)
Lemma seg_length h cur es fin : seg h cur es fin → NoDup es.*1 → (length es ≤ size h)%nat.
Proof.
  intros Hs Hn. rewrite <- (length_fmap fst), <- size_dom.
  rewrite <- (size_list_to_set (C := gset Z)) by done. apply subseteq_size.
  intros l Hl%elem_of_list_to_set. apply elem_of_dom. by eapply seg_in.
Qed.

(** *** Buckets *)

Definition others (i : nat) (B : list (list entry)) : list entry :=
  mjoin (take i B) ++ mjoin (drop (S i) B).

Lemma join_others B i es : B !! i = Some es → mjoin B ≡ₚ es ++ others i B.
Proof.
  intros Hi. unfold others. rewrite <- (take_drop_middle B i es Hi) at 1. rewrite join_app. cbn.
  apply Permutation_app_swap_app.
Qed.

Lemma others_insert B i es : others i (<[i := es]> B) = others i B.
Proof. unfold others. by rewrite take_insert_ge, drop_insert_lt by lia. Qed.

Lemma in_others B i j es e : j ≠ i → B !! j = Some es → e ∈ es → e ∈ others i B.
Proof.
  intros Hij Hj He. unfold others. apply elem_of_app. rewrite !list_elem_of_join.
  destruct (decide (j < i)%nat).
  - left. exists es. split; [done|]. apply list_elem_of_lookup. exists j. by rewrite lookup_take_lt.
  - right. exists es. split; [done|]. apply list_elem_of_lookup. exists (j - S i)%nat.
    rewrite lookup_drop. by replace (S i + (j - S i))%nat with j by lia.
Qed.

(** The core [k] has the subscriptions [B]: a sequence of each list. *)
Record repr (k : ncore) (B : list (list entry)) : Prop := {
  r_listc : k_listc k ∈ list_sizes;
  r_length : length B = Z.to_nat (k_listc k);
  r_lists : Forall2 (λ cur es, seg (k_heap k) cur es None) (k_lists k) B;
  r_nodup : NoDup (mjoin B).*1;
  r_hash : ∀ i es e, B !! i = Some es → e ∈ es → sb_hash e.2 = Z.of_nat i;
  r_brk : ∀ l, is_Some (k_heap k !! l) → l < k_brk k
}.

Lemma hash_range listc ev : listc ∈ list_sizes → 0 ≤ hash_event listc ev < listc.
Proof.
  intros Hl. assert (F : Forall (λ z, 0 ≤ Z.log2 z ∧ z = 2 ^ Z.log2 z) list_sizes) by zdecide.
  rewrite Forall_forall in F. destruct (F _ Hl) as [Hn ->]. clear F Hl.
  revert Hn. generalize (Z.log2 listc). intros n Hn.
  unfold hash_event. replace (2 ^ n - 1) with (Z.ones n) by (rewrite Z.ones_equiv; lia).
  rewrite Z.land_ones by done. apply Z.mod_pos_bound. lia.
Qed.

Lemma core_new_repr lists :
  match roar_notify_core_new lists with
  | Some k => repr k (replicate (Z.to_nat (k_listc k)) []) ∧ k_refc k = 1
  | None => lists ≠ -1 ∧ lists ∉ list_sizes
  end.
Proof.
  unfold roar_notify_core_new. case_decide as Hd.
  - split; [|done]. set (n := if lists =? -1 then 16 else lists) in *. split; cbn.
    + done.
    + apply length_replicate.
    + by apply Forall2_replicate.
    + assert (E : mjoin (replicate (Z.to_nat n) ([] : list entry)) = []);
        [|rewrite E; constructor]. by induction (Z.to_nat n).
    + intros i es e Hi He. apply lookup_replicate in Hi as [-> _]. by apply elem_of_nil in He.
    + intros l [? Hl]. by rewrite lookup_empty in Hl.
  - destruct (Z.eqb_spec lists (-1)) as [E|Hne]; [|done].
    exfalso. apply Hd. apply (bool_decide_unpack _). vm_compute. exact I.
Qed.

Section operations.
Context (k : ncore) (B : list (list entry)) (R : repr k B).

(** The bucket of a hash. *)
Lemma bucket hash : 0 ≤ hash < k_listc k →
  ∃ cur es, aget (k_lists k) hash = Done cur ∧ k_lists k !! Z.to_nat hash = Some cur ∧
    B !! Z.to_nat hash = Some es ∧ seg (k_heap k) cur es None.
Proof.
  intros Hh. destruct R as [_ Hlen Hls _ _ _].
  destruct (lookup_lt_is_Some_2 B (Z.to_nat hash)) as [es Hes]; [lia|].
  destruct (Forall2_lookup_r _ _ _ _ _ Hls Hes) as (cur & Hcur & Hs).
  exists cur, es. split_and!; [|done..]. apply aget_Done. split; [lia|done].
Qed.

Lemma bucket_nodup i es : B !! i = Some es →
  NoDup es.*1 ∧ (∀ l, l ∈ es.*1 → l ∉ (others i B).*1) ∧ NoDup (others i B).*1.
Proof.
  intros Hi. pose proof (r_nodup _ _ R) as Hn. rewrite (join_others B i es Hi), fmap_app in Hn.
  by apply NoDup_app in Hn.
Qed.

(** One bucket changes: the links of its list, and nothing of the others. *)
Lemma repr_update i cur' es es' h' brk :
  B !! i = Some es → seg h' cur' es' None →
  (∀ l, l ∈ (others i B).*1 → h' !! l = k_heap k !! l) →
  NoDup es'.*1 → (∀ l, l ∈ es'.*1 → l ∉ (others i B).*1) →
  (∀ e, e ∈ es' → sb_hash e.2 = Z.of_nat i) →
  (∀ l, is_Some (h' !! l) → l < brk) →
  repr (k<|k_lists := <[i := cur']> (k_lists k)|><|k_heap := h'|><|k_brk := brk|>) (<[i := es']> B).
Proof.
  intros Hi Hs Hh Hnd Hdisj Hhash Hbrk. pose proof (bucket_nodup i es Hi) as (_ & _ & Hno).
  destruct R as [H1 H2 H3 H4 H5 H6]. destruct k as [rc lc ls px hp bk]; cbn in *. split; cbn.
  - done.
  - by rewrite length_insert.
  - apply Forall2_same_length_lookup_2; [rewrite !length_insert; by eapply Forall2_length|].
    intros j cur es0 Hc He. destruct (decide (j = i)) as [->|Hj].
    + rewrite list_lookup_insert_eq in Hc by (rewrite (Forall2_length _ _ _ H3); by eapply lookup_lt_Some).
      rewrite list_lookup_insert_eq in He by (by eapply lookup_lt_Some). congruence.
    + rewrite list_lookup_insert_ne in Hc by done. rewrite list_lookup_insert_ne in He by done.
      apply (seg_ext hp); [|by eapply (Forall2_lookup_lr _ _ _ _ _ _ H3)]. intros l (e & -> & Hl)%list_elem_of_fmap.
      apply Hh, list_elem_of_fmap. exists e. split; [done|]. by eapply in_others.
  - rewrite (join_others _ i es') by (apply list_lookup_insert_eq; by eapply lookup_lt_Some).
    rewrite others_insert, fmap_app. by apply NoDup_app.
  - intros j es0 e He Hin. destruct (decide (j = i)) as [->|Hj].
    + rewrite list_lookup_insert_eq in He by (by eapply lookup_lt_Some). injection He as <-. auto.
    + rewrite list_lookup_insert_ne in He by done. eauto.
  - done.
Qed.
End operations.

(** *** Walks *)

Lemma last_node_spec fuel old c es e h :
  seg h (Some c) (es ++ [e]) None → (length (es ++ [e]) ≤ fuel)%nat → last_node fuel old c h = Done e.1.
Proof.
  revert old c es. induction fuel as [|fuel IH]; intros old c es Hs Hf;
    [rewrite length_app in Hf; simpl in Hf; lia|].
  cbn [last_node]. unfold node_at. destruct es as [|e0 es]; cbn in Hs.
  - destruct Hs as ([= ->] & next & -> & ->). cbn. done.
  - destruct Hs as ([= ->] & next & -> & Hs). cbn. destruct next as [n|].
    + apply IH with es; [done|]. simpl in Hf. lia.
    + by destruct es; cbn in Hs; destruct Hs.
Qed.

Lemma find_node_spec fuel l old cur es h :
  seg h cur es (Some l) → l ∉ es.*1 → (length es < fuel)%nat →
  find_node fuel l old cur h = Done (Some (default old (fst <$> last es))).
Proof.
  revert fuel old cur. induction es as [|e es IH]; intros fuel old cur Hs Hl Hf;
    (destruct fuel as [|fuel]; [simpl in Hf; lia|]); cbn [find_node].
  - cbn in Hs. subst. by rewrite Z.eqb_refl.
  - cbn in Hs. destruct Hs as (-> & next & Hn & Hs). cbn in Hl. apply not_elem_of_cons in Hl as [Hne Hl].
    rewrite (proj2 (Z.eqb_neq _ _)) by congruence. unfold node_at. rewrite Hn. cbn [or_ub]. rewrite bind_Done.
    cbn [sb_next]. rewrite IH by (done || simpl in Hf; lia). do 2 f_equal. rewrite last_cons.
    by destruct (last es).
Qed.

(** A new link of the last node of a segment. *)
Lemma seg_relink h cur es e fin fin' :
  seg h cur (es ++ [e]) fin → NoDup (es ++ [e]).*1 →
  h !! e.1 = Some (Subscriber e.2 fin) ∧
  seg (<[e.1 := Subscriber e.2 fin']> h) cur (es ++ [e]) fin'.
Proof.
  intros (mid & H1 & H2)%seg_app Hn. cbn in H2. destruct H2 as (-> & next & He & ->).
  split; [done|]. apply seg_app. exists (Some e.1). split.
  - apply (seg_ext h); [|done]. intros l Hl. rewrite lookup_insert_ne; [done|].
    rewrite fmap_app in Hn. apply NoDup_app in Hn as (_ & Hd & _). intros <-.
    apply (Hd _ Hl). cbn. by left.
  - cbn. split; [done|]. eexists. by rewrite lookup_insert_eq.
Qed.

Section subscriptions.
Context (k : ncore) (B : list (list entry)) (R : repr k B).

Lemma brk_fresh : k_heap k !! k_brk k = None.
Proof.
  destruct (k_heap k !! k_brk k) as [n|] eqn:E; [|done].
  assert (k_brk k < k_brk k) by (apply (r_brk _ _ R); eauto). lia.
Qed.

Lemma bucket_old i es l : B !! i = Some es → l ∈ es.*1 ∨ l ∈ (others i B).*1 → is_Some (k_heap k !! l).
Proof.
  intros Hi Hl. assert (Hb : ∀ j es, B !! j = Some es → l ∈ es.*1 → is_Some (k_heap k !! l)).
  { intros j es0 Hj Hin. destruct (Forall2_lookup_r _ _ _ _ _ (r_lists _ _ R) Hj) as (cur & _ & Hs).
    by eapply seg_in. }
  destruct Hl as [Hl|Hl]; [by eapply Hb|]. apply list_elem_of_fmap in Hl as (e & -> & Hl).
  unfold others in Hl. apply elem_of_app in Hl as [Hl|Hl];
    apply list_elem_of_join in Hl as (es0 & Hin & He0); apply list_elem_of_lookup in He0 as [j Hj].
  - apply lookup_take_Some in Hj as [Hj _]. eapply Hb; [exact Hj|]. by apply (list_elem_of_fmap_2 fst).
  - rewrite lookup_drop in Hj. eapply Hb; [exact Hj|]. by apply (list_elem_of_fmap_2 fst).
Qed.

Lemma subscribe_spec (ev : event) (cb userdata : Z) :
  let i := Z.to_nat (hash_event (k_listc k) (ev_event ev)) in
  ∃ es k', B !! i = Some es ∧
    roar_notify_core_subscribe k ev cb userdata = Done (k_brk k, k') ∧
    repr k' (<[i := es ++ [(k_brk k, subs_of k ev cb userdata)]]> B) ∧
    k_proxy k' = k_proxy k ∧ k_listc k' = k_listc k ∧ size (k_heap k') = S (size (k_heap k)).
Proof.
  intros i. pose proof (hash_range _ (ev_event ev) (r_listc _ _ R)) as Hh.
  destruct (bucket k B R _ Hh) as (cur & es & Hcur & Hlk & Hes & Hs). fold i in Hlk, Hes.
  destruct (bucket_nodup k B R i es Hes) as (Hnd & Hdisj & _).
  assert (Hold : ∀ l, l ∈ es.*1 ∨ l ∈ (others i B).*1 → l < k_brk k)
    by (intros; by eapply (r_brk _ _ R), bucket_old).
  set (x := (k_brk k, subs_of k ev cb userdata)). set (h := <[k_brk k := Subscriber x.2 None]> (k_heap k)).
  assert (Hs' : seg h cur es None).
  { apply (seg_ext (k_heap k)); [|done]. intros l Hl. unfold h. apply lookup_insert_ne.
    specialize (Hold l (or_introl Hl)). lia. }
  assert (Hupd : ∀ cur' h', seg h' cur' (es ++ [x]) None →
    (∀ l, l ∈ (others i B).*1 → h' !! l = k_heap k !! l) → (∀ l, is_Some (h' !! l) → l < k_brk k + 1) →
    repr (k<|k_lists := <[i := cur']> (k_lists k)|><|k_heap := h'|><|k_brk := k_brk k + 1|>)
         (<[i := es ++ [x]]> B)).
  { intros cur' h' H1 H2 H3. apply (repr_update k B R i cur' es); try done.
    - rewrite fmap_app. apply NoDup_app. split_and!; [done| |apply NoDup_singleton].
      intros l Hl [->|[]%elem_of_nil]%elem_of_cons. specialize (Hold _ (or_introl Hl)). simpl in Hold. lia.
    - rewrite fmap_app. intros l [Hl|[->|[]%elem_of_nil]%elem_of_cons]%elem_of_app; [by apply Hdisj|].
      intros Hl. specialize (Hold _ (or_intror Hl)). simpl in Hold. lia.
    - intros e [He|[->|[]%elem_of_nil]%elem_of_cons]%elem_of_app; [by eapply (r_hash _ _ R)|].
      cbn. lia. }
  assert (Hbrk : ∀ l, is_Some (h !! l) → l < k_brk k + 1).
  { intros l Hl. unfold h in Hl. destruct (decide (l = k_brk k)) as [->|Hne]; [lia|].
    rewrite lookup_insert_ne in Hl by done. apply (r_brk _ _ R) in Hl. lia. }
  assert (Hsz : size h = S (size (k_heap k))) by (apply map_size_insert_None, brk_fresh).
  exists es. unfold roar_notify_core_subscribe. cbv zeta.
  change (sb_hash (subs_of k ev cb userdata)) with (hash_event (k_listc k) (ev_event ev)).
  change (Subscriber (subs_of k ev cb userdata) None) with (Subscriber x.2 None). fold h.
  rewrite Hcur, bind_Done. destruct (decide (es = [])) as [->|Hne].
  - cbn in Hs. subst cur. unfold aset. rewrite decide_True.
    2: { apply lookup_lt_Some in Hlk. unfold i in Hlk. lia. }
    rewrite bind_Done. eexists. split_and!; [done|reflexivity| |by destruct k..]. fold i.
    apply Hupd; [|intros l Hl; unfold h; apply lookup_insert_ne;
      specialize (Hold _ (or_intror Hl)); lia|done].
    cbn. split; [done|]. exists None. split; [|done]. unfold h. by rewrite lookup_insert_eq.
  - destruct (exists_last Hne) as (ps & p & ->). destruct cur as [c|].
    2: { by destruct ps; cbn in Hs; destruct Hs. }
    rewrite (last_node_spec _ _ _ ps p) by
      (done || (unfold walk_fuel; pose proof (seg_length _ _ _ _ Hs' Hnd); lia)).
    rewrite bind_Done. destruct (seg_relink h (Some c) ps p None (Some (k_brk k)) Hs' Hnd) as [Hp Hr].
    unfold set_next, node_at. rewrite Hp. cbn [or_ub]. rewrite !bind_Done. cbn [sb_info].
    eexists. split_and!; [done|reflexivity| |by destruct k..|].
    2: { rewrite <- Hsz. destruct k. cbn. by eapply map_size_insert_Some. }
    assert (Hlp : p.1 < k_brk k) by (apply Hold; left; rewrite fmap_app; apply elem_of_app; right; by left).
    assert (E : k_lists k = <[i := Some c]> (k_lists k)) by (by rewrite list_insert_id).
    replace (k<|k_heap := _|><|k_brk := _|>) with (k<|k_lists := <[i := Some c]> (k_lists k)|>
      <|k_heap := <[p.1 := Subscriber p.2 (Some (k_brk k))]> h|><|k_brk := k_brk k + 1|>)
      by (rewrite <- E; by destruct k).
    apply Hupd.
    + apply seg_app. exists (Some (k_brk k)). split; [done|]. cbn. split; [done|]. exists None.
      split; [|done]. rewrite lookup_insert_ne by lia. unfold h. by rewrite lookup_insert_eq.
    + intros l Hl. specialize (Hold _ (or_intror Hl)) as Hlt. rewrite lookup_insert_ne.
      * unfold h. rewrite lookup_insert_ne by lia. done.
      * intros <-. apply (Hdisj p.1); [|done]. rewrite fmap_app. apply elem_of_app; right; by left.
    + intros l Hl. destruct (decide (l = p.1)) as [->|Hlp']; [lia|].
      rewrite lookup_insert_ne in Hl by done. by apply Hbrk.
Qed.

(** The node of an entry, and the links around it. *)
Lemma entry_seg i es1 l info es2 : B !! i = Some (es1 ++ (l, info) :: es2) →
  ∃ cur next, aget (k_lists k) (Z.of_nat i) = Done cur ∧ k_lists k !! i = Some cur ∧
    seg (k_heap k) cur es1 (Some l) ∧ k_heap k !! l = Some (Subscriber info next) ∧
    seg (k_heap k) next es2 None ∧ sb_hash info = Z.of_nat i.
Proof.
  intros Hi. destruct (Forall2_lookup_r _ _ _ _ _ (r_lists _ _ R) Hi) as (cur & Hc & Hs).
  apply seg_app in Hs as (mid & H1 & -> & next & Hn & H2). exists cur, next. split_and!; [|done..|].
  - apply aget_Done. split; [lia|]. by rewrite Nat2Z.id.
  - apply (r_hash _ _ R i _ (l, info) Hi). apply elem_of_app. right. by left.
Qed.

Lemma unsubscribe_spec (i : nat) (es1 es2 : list entry) (l : Z) (info : sub_info) :
  B !! i = Some (es1 ++ (l, info) :: es2) →
  ∃ k', roar_notify_core_unsubscribe k l = Done (0, k') ∧ repr k' (<[i := es1 ++ es2]> B) ∧
        (k_heap k' !! l = None ↔ es1 ≠ []).
Proof.
  intros Hi. destruct (entry_seg i es1 l info es2 Hi) as (cur & next & Hcur & Hlk & H1 & Hl & H2 & Hhash).
  destruct (bucket_nodup k B R i _ Hi) as (Hnd & Hdisj & _). rewrite fmap_app, fmap_cons in Hnd, Hdisj.
  cbn in Hnd, Hdisj. assert (Hnd' := Hnd). apply NoDup_app in Hnd' as (Hn1 & Hd12 & [Hl2 Hn2]%NoDup_cons).
  assert (Hl1 : l ∉ es1.*1) by (intros ?; apply (Hd12 l); [done|by left]).
  assert (Hupd : ∀ cur' h', seg h' cur' (es1 ++ es2) None →
    (∀ j, j ∈ (others i B).*1 → h' !! j = k_heap k !! j) → (∀ j, is_Some (h' !! j) → is_Some (k_heap k !! j)) →
    repr (k<|k_lists := <[i := cur']> (k_lists k)|><|k_heap := h'|><|k_brk := k_brk k|>)
         (<[i := es1 ++ es2]> B)).
  { intros cur' h' Ha Hb Hc. apply (repr_update k B R i cur' (es1 ++ (l, info) :: es2)); try done.
    - rewrite fmap_app. apply NoDup_app. split_and!; [done| |done]. intros j Hj Hj'. apply (Hd12 j Hj). by right.
    - rewrite fmap_app. intros j [Hj|Hj]%elem_of_app; apply Hdisj, elem_of_app; [by left|]. right. by right.
    - intros e [He|He]%elem_of_app; apply (r_hash _ _ R i _ e Hi), elem_of_app; [by left|]. right. by right.
    - intros j Hj. apply (r_brk _ _ R). auto. }
  unfold roar_notify_core_unsubscribe. rewrite !(node_at_Some _ _ _ Hl), bind_Done.
  cbn [sb_info sb_next]. rewrite Hhash, Hcur, bind_Done. destruct es1 as [|e es1].
  - cbn in H1. subst cur. rewrite Z.eqb_refl. unfold aset. rewrite decide_True.
    2: { apply lookup_lt_Some in Hlk. lia. }
    rewrite bind_Done, Nat2Z.id. eexists. split_and!; [reflexivity| |].
    + specialize (Hupd next (k_heap k) H2 ltac:(done) ltac:(done)). by destruct k.
    + destruct k. cbn in *. rewrite Hl. split; [done|]. by intros [].
  - assert (Hlen : (length es1 < walk_fuel (k_heap k))%nat).
    { destruct (Forall2_lookup_r _ _ _ _ _ (r_lists _ _ R) Hi) as (cur' & _ & Hs).
      apply seg_length in Hs; [|by rewrite fmap_app, fmap_cons].
      rewrite length_app in Hs. unfold walk_fuel. simpl in Hs. lia. }
    assert (H1' := H1). cbn in H1'. destruct H1' as (-> & n0 & He & H1').
    cbn in Hl1. apply not_elem_of_cons in Hl1 as [Hle Hl1].
    rewrite (proj2 (Z.eqb_neq _ _)) by congruence. rewrite (node_at_Some _ _ _ He), bind_Done. cbn [sb_next]. rewrite (find_node_spec _ _ _ _ _ _ H1' Hl1 Hlen), bind_Done.
    rewrite bind_Done. cbn [sb_next].
    destruct (exists_last (l := e :: es1)) as (ps & p & Hps); [done|].
    assert (Hlast : default e.1 (fst <$> last es1) = p.1).
    { transitivity (default e.1 (fst <$> last (e :: es1))).
      - rewrite last_cons. by destruct (last es1).
      - by rewrite Hps, last_snoc. }
    rewrite Hlast. clear Hlast. rewrite Hps in *. cbn [fmap list_fmap] in Hn1.
    destruct (seg_relink _ _ _ _ _ next H1 Hn1) as [Hp Hr]. unfold set_next, node_at. rewrite Hp.
    cbn [or_ub]. rewrite !bind_Done. cbn [sb_info]. eexists. split_and!; [reflexivity| |].
    2: { cbn. rewrite lookup_delete_eq. split; [intros _ E; by destruct ps|done]. }
    assert (Hp1 : p.1 ∈ (ps ++ [p]).*1) by (rewrite fmap_app; apply elem_of_app; right; by left).
    assert (Hpl : l ≠ p.1) by (intros ->; apply (Hd12 _ Hp1); by left).
    assert (E : k_lists k = <[i := Some e.1]> (k_lists k)) by (by rewrite list_insert_id).
    match goal with |- repr (_<|k_heap := ?h|>) _ =>
      replace (k<|k_heap := h|>) with (k<|k_lists := <[i := Some e.1]> (k_lists k)|><|k_heap := h|>
        <|k_brk := k_brk k|>) by (rewrite <- E; by destruct k) end.
    apply Hupd.
    + apply seg_app. exists next. split; (eapply seg_ext; [|first [exact Hr|exact H2]]); intros j Hj.
      * rewrite lookup_delete_ne; [done|]. intros <-. apply (Hd12 _ Hj). by left.
      * rewrite lookup_delete_ne by (intros <-; done). rewrite lookup_insert_ne; [done|].
        intros <-. apply (Hd12 _ Hp1). by right.
    + intros j Hj. rewrite lookup_delete_ne, lookup_insert_ne; [done| |].
      * intros <-. apply (Hdisj p.1); [|done]. apply elem_of_app. by left.
      * intros <-. apply (Hdisj l); [|done]. apply elem_of_app. right. by left.
    + intros j. rewrite lookup_delete_is_Some. intros [_ Hj]. destruct (decide (p.1 = j)) as [<-|Hne].
      * rewrite Hp. eauto.
      * by rewrite lookup_insert_ne in Hj.
Qed.

(** C20: removing a subscription takes exactly its entry out of the sequence,
    whatever its place, and the walk that looks for it ends; its memory is
    given back unless it was the first of its list, where it is lost. *)
Theorem unsubscribe_removes (i : nat) (es1 es2 : list entry) (l : Z) (info : sub_info) :
  B !! i = Some (es1 ++ (l, info) :: es2) →
  ∃ k', roar_notify_core_unsubscribe k l = Done (0, k') ∧ repr k' (<[i := es1 ++ es2]> B) ∧
        (k_heap k' !! l = None ↔ es1 ≠ []).
Proof. apply unsubscribe_spec. Qed.

(** C19: subscribing appends to the sequence of the event's list: the walk to
    the end of the list ends, nothing that was freed is touched, and all other
    subscriptions stay as they are. *)
Theorem subscribe_appends (ev : event) (cb userdata : Z) :
  let i := Z.to_nat (hash_event (k_listc k) (ev_event ev)) in
  ∃ es k', B !! i = Some es ∧
    roar_notify_core_subscribe k ev cb userdata = Done (k_brk k, k') ∧
    repr k' (<[i := es ++ [(k_brk k, subs_of k ev cb userdata)]]> B).
Proof.
  intros i. destruct (subscribe_spec ev cb userdata) as (es & k' & ? & ? & ? & _). eauto.
Qed.
End subscriptions.

(** ** Delivery *)

(** A subscription is for an event when each of its four fields is the one of
    the event or the value that stands for any. *)
Definition told (i : sub_info) (ev : event) : Prop :=
  (sb_event i = ROAR_NOTIFY_SPECIAL ∨ sb_event i = ev_event ev) ∧
  (sb_emitter i = -1 ∨ sb_emitter i = ev_emitter ev) ∧
  (sb_target i = -1 ∨ sb_target i = ev_target ev) ∧
  (sb_target_type i = -1 ∨ sb_target_type i = ev_target_type ev).

#[export] Instance told_dec i ev : Decision (told i ev).
Proof. unfold told. apply _. Defined.

Lemma sub_matches_told i ev : sub_matches i ev = true ↔ told i ev.
Proof. unfold sub_matches, told. rewrite !andb_true_iff, !orb_true_iff, !Z.eqb_eq. tauto. Qed.

(** What one walk delivers: the subscriptions of the event's list that are for
    it, in their order. *)
Definition delivered (listc : Z) (B : list (list entry)) (ev : event) : list (sub_info * event) :=
  (λ e : entry, (e.2, ev)) <$>
    filter (λ e : entry, told e.2 ev) (default [] (B !! Z.to_nat (hash_event listc (ev_event ev)))).

(** What the emission of an event delivers: the events of its groups first. *)
Definition deliveries (proxy : bool) (listc : Z) (B : list (list entry)) (ev : event) : list (sub_info * event) :=
  mjoin (delivered listc B <$> (if proxy then notify_events ev else [ev])).

Section delivery.
Context {W : Type} (f : sub_info → event → W → W).

(** Callbacks that leave the core alone. *)
Definition quiet (i : sub_info) (ev : event) (kw : ncore * W) : outcome (ncore * W) :=
  Done (kw.1, f i ev kw.2).

Definition run (w : W) (ds : list (sub_info * event)) : W := foldl (λ w d, f d.1 d.2 w) w ds.

Lemma emit_walk_quiet fuel ev cur es k w :
  seg (k_heap k) cur es None → (length es < fuel)%nat →
  emit_walk quiet fuel ev cur (k, w) =
  Done (k, run w ((λ e : entry, (e.2, ev)) <$> filter (λ e : entry, told e.2 ev) es)).
Proof.
  revert fuel cur w. induction es as [|e es IH]; intros fuel cur w Hs Hf;
    (destruct fuel as [|fuel]; [simpl in Hf; lia|]); cbn [emit_walk].
  - cbn in Hs. by subst.
  - cbn in Hs. destruct Hs as (-> & next & Hn & Hs). cbn in Hf.
    cbn [fst snd]. rewrite (node_at_Some _ _ _ Hn), bind_Done. cbn [sb_info sb_next]. rewrite filter_cons.
    destruct (sub_matches e.2 ev) eqn:Em.
    + rewrite decide_True by (by apply sub_matches_told). change (quiet e.2 ev (k, w)) with (Done (A := ncore * W) (k, f e.2 ev w)).
      rewrite bind_Done. cbn [fst snd]. rewrite (node_at_Some _ _ _ Hn), bind_Done. cbn [sb_next].
      rewrite IH by (done || lia). done.
    + rewrite decide_False by (rewrite <- sub_matches_told; congruence). apply IH; [done|lia].
Qed.

Context (k : ncore) (B : list (list entry)) (R : repr k B).
Context (fuel : nat) (Hfuel : (size (k_heap k) < fuel)%nat).

Lemma emit_one_quiet ev w :
  emit_one quiet fuel ev (k, w) = Done (k, run w (delivered (k_listc k) B ev)).
Proof using R Hfuel.
  unfold emit_one. cbn [fst snd]. pose proof (hash_range _ (ev_event ev) (r_listc _ _ R)) as Hh.
  destruct (bucket k B R _ Hh) as (cur & es & Hcur & _ & Hes & Hs).
  destruct (bucket_nodup k B R _ _ Hes) as (Hnd & _). pose proof (seg_length _ _ _ _ Hs Hnd) as Hlen.
  rewrite Hcur, bind_Done, (emit_walk_quiet _ _ _ es) by (done || lia).
  unfold delivered. by rewrite Hes.
Qed.

Lemma emit_all_quiet evs w :
  emit_all quiet fuel evs (k, w) = Done (k, run w (mjoin (delivered (k_listc k) B <$> evs))).
Proof using R Hfuel.
  revert w. induction evs as [|ev evs IH]; intros w; cbn [emit_all]; [done|].
  rewrite emit_one_quiet, bind_Done, IH. unfold run. cbn. by rewrite foldl_app.
Qed.

(** C21: an event is delivered to the subscriptions that match it in the order
    they were made, once for each of its groups and then for itself, and the
    delivery ends; with callbacks that leave the core alone the core is as
    before. *)
Theorem emit_delivers (ev : event) (w : W) :
  roar_notify_core_emit quiet fuel ev (k, w) =
  Done (k, run w (deliveries (k_proxy k) (k_listc k) B ev)).
Proof using R Hfuel.
  unfold roar_notify_core_emit. cbn [fst snd]. unfold deliveries, notify_events.
  assert (E : mjoin (delivered (k_listc k) B <$> [ev]) = delivered (k_listc k) B ev)
    by (cbn [fmap list_fmap mjoin list_join]; apply app_nil_r).
  destruct (k_proxy k); cbn [andb]; [destruct (is_proxy ev); cbn [negb app]|].
  - by rewrite E, bind_Done, emit_one_quiet.
  - rewrite emit_all_quiet, bind_Done, emit_one_quiet. unfold run.
    by rewrite fmap_app, join_app, foldl_app, E.
  - by rewrite E, bind_Done, emit_one_quiet.
Qed.
End delivery.

(** Subscriptions before the one in question that do not match are skipped. *)
Lemma emit_walk_skip {W} (cb : sub_info → event → ncore * W → outcome (ncore * W)) fuel ev cur es fin k w :
  seg (k_heap k) cur es fin → Forall (λ e : entry, sub_matches e.2 ev = false) es →
  emit_walk cb (length es + fuel) ev cur (k, w) = emit_walk cb fuel ev fin (k, w).
Proof.
  revert cur. induction es as [|e es IH]; intros cur Hs Hm; cbn in Hs; [by subst|].
  destruct Hs as (-> & next & Hn & Hs). apply Forall_cons in Hm as [Hm Hms].
  cbn [length Nat.add emit_walk fst snd]. rewrite (node_at_Some _ _ _ Hn), bind_Done. cbn [sb_info sb_next].
  rewrite Hm. by apply IH.
Qed.


(** ** Freeing the core *)

Lemma free_list_spec fuel cur es h :
  seg h cur es None → NoDup es.*1 → (length es ≤ fuel)%nat →
  ∃ h', free_list fuel cur h = Done h' ∧ ∀ j, h' !! j = if decide (j ∈ es.*1) then None else h !! j.
Proof.
  revert fuel cur h. induction es as [|e es IH]; intros fuel cur h Hs Hn Hf; cbn in Hs.
  - subst. exists h. split; [by destruct fuel|]. intros j. rewrite decide_False; [done|]. by intros ?%elem_of_nil.
  - destruct Hs as (-> & next & He & Hs). cbn in Hn. apply NoDup_cons in Hn as [Hne Hn].
    destruct fuel as [|fuel]; [simpl in Hf; lia|]. cbn [free_list]. rewrite (node_at_Some _ _ _ He), bind_Done.
    cbn [sb_next]. destruct (IH fuel next (delete e.1 h)) as (h' & -> & Hh'); [|done|simpl in Hf; lia|].
    { eapply seg_ext; [|exact Hs]. intros j Hj. apply lookup_delete_ne. by intros <-. }
    exists h'. split; [done|]. intros j. rewrite Hh'. cbn [fmap list_fmap].
    destruct (decide (j = e.1)) as [->|Hj].
    + rewrite lookup_delete_eq. rewrite (decide_True (P := e.1 ∈ e.1 :: _)) by (by left). by case_decide.
    + rewrite lookup_delete_ne by done. apply decide_ext. rewrite elem_of_cons. tauto.
Qed.

Lemma free_lists_spec ls B h :
  Forall2 (λ cur es, seg h cur es None) ls B → NoDup (mjoin B).*1 →
  ∃ h', free_lists ls h = Done h' ∧ ∀ j, h' !! j = if decide (j ∈ (mjoin B).*1) then None else h !! j.
Proof.
  intros Hls. revert h Hls. revert B. induction ls as [|cur ls IH]; intros B h Hls Hn;
    inversion Hls as [|? es ? B' Hs Hls']; subst.
  - exists h. split; [done|]. intros j. rewrite decide_False; [done|]. by intros ?%elem_of_nil.
  - cbn [mjoin list_join] in Hn |- *. rewrite fmap_app in Hn. apply NoDup_app in Hn as (Hn1 & Hd & Hn2).
    pose proof (seg_length _ _ _ _ Hs Hn1) as Hlen. cbn [free_lists].
    destruct (free_list_spec (walk_fuel h) cur es h Hs Hn1) as (h1 & -> & Hh1); [unfold walk_fuel; lia|].
    rewrite bind_Done. destruct (IH B' h1) as (h' & -> & Hh'); [|done|].
    + apply Forall2_same_length_lookup_2; [by eapply Forall2_length|]. intros i c es' Hc He.
      apply (seg_ext h); [|by eapply (Forall2_lookup_lr _ _ _ _ _ _ Hls')]. intros l Hl. rewrite Hh1.
      apply decide_False. intros Hl'. apply (Hd l Hl'). apply list_elem_of_fmap in Hl as (e & -> & Hin).
      apply list_elem_of_fmap. exists e. split; [done|]. apply list_elem_of_join. exists es'.
      split; [done|]. by eapply list_elem_of_lookup_2.
    + exists h'. split; [done|]. intros j. rewrite Hh', Hh1, fmap_app.
      destruct (decide (j ∈ (mjoin B').*1)); [rewrite decide_True; [done|]; apply elem_of_app; by right|].
      apply decide_ext. rewrite elem_of_app. tauto.
Qed.

(** C23: giving up the last reference frees every subscription of the core and
    nothing else; an earlier one only counts. *)
Theorem unref_frees (k : ncore) (B : list (list entry)) : repr k B → 0 < k_refc k →
  if k_refc k =? 1
  then ∃ h', roar_notify_core_unref k = Done (0, inr h') ∧
         ∀ j, h' !! j = if decide (j ∈ (mjoin B).*1) then None else k_heap k !! j
  else ∃ k', roar_notify_core_unref k = Done (0, inl k') ∧ repr k' B ∧ k_refc k' = k_refc k - 1.
Proof.
  intros R Hrc. unfold roar_notify_core_unref. cbv zeta. rewrite (proj2 (Z.eqb_neq (k_refc k) 0)) by lia.
  destruct (Z.eqb_spec (k_refc k) 1) as [E|E].
  - rewrite E. cbn [Z.sub Z.add Z.opp Z.pos_sub Z.ltb Z.compare].
    destruct (free_lists_spec _ _ _ (r_lists _ _ R) (r_nodup _ _ R)) as (h' & Hf & Hh). exists h'.
    split; [|done]. change (1 - 1) with 0. cbn. by rewrite Hf.
  - rewrite (proj2 (Z.ltb_lt _ _)) by lia. eexists. split_and!; [reflexivity| |by destruct k].
    destruct R as [? ? ? ? ? ?], k; by split.
Qed.

(** A subscription to all events is put in the list of the number that
    stands for them, so it is told of no event of another list. *)
Theorem wildcard_misses {W} (f : sub_info → event → W → W) (k : ncore) (B : list (list entry))
    (pat ev : event) (cb userdata : Z) (w : W) (l : Z) (k' : ncore) (fuel : nat) :
  repr k B → k_proxy k = false → ev_event pat = ROAR_NOTIFY_SPECIAL →
  hash_event (k_listc k) (ev_event ev) ≠ hash_event (k_listc k) ROAR_NOTIFY_SPECIAL →
  roar_notify_core_subscribe k pat cb userdata = Done (l, k') → (S (size (k_heap k)) < fuel)%nat →
  ∃ w', roar_notify_core_emit (quiet f) fuel ev (k', w) = Done (k', w') ∧
        roar_notify_core_emit (quiet f) fuel ev (k, w) = Done (k, w').
Proof.
  intros R Hpx Hpat Hne Hsub Hf. pose proof (subscribe_spec k B R pat cb userdata) as Hs. cbv zeta in Hs.
  destruct Hs as (es & k1 & Hes & Hsub' & R1 & Hsame). rewrite Hsub in Hsub'. injection Hsub' as -> <-.
  destruct Hsame as (Hpx' & Hlc & Hsz).
  exists (run f w (deliveries false (k_listc k) B ev)).
  unfold roar_notify_core_emit. cbn [fst snd]. rewrite Hpx', Hpx. cbn [andb]. rewrite !bind_Done.
  rewrite (emit_one_quiet f k' _ R1), (emit_one_quiet f k _ R) by lia. unfold deliveries, delivered.
  cbn [fmap list_fmap mjoin list_join]. rewrite app_nil_r. rewrite Hlc. split; [|done]. do 6 f_equal.
  pose proof (hash_range _ (ev_event ev) (r_listc _ _ R)).
  pose proof (hash_range _ (ev_event pat) (r_listc _ _ R)).
  apply list_lookup_insert_ne. rewrite Hpat in *. lia.
Qed.

(** ** The properties at work *)

(** A core with two lists and two subscriptions for the event 4. *)
Definition example_sub (emitter : Z) : sub_info := SubInfo 4 emitter (-1) (-1) 1 2 1 0.
Definition example_core : ncore :=
  NCore 2 2 [Some 0; None] false
        (<[0 := Subscriber (example_sub 7) (Some 1)]> {[1 := Subscriber (example_sub (-1)) None]}) 2.
Definition example_bucket : list (list entry) := [[(0, example_sub 7); (1, example_sub (-1))]; []].
Definition example_event : event := simple_event 4 3 5 6 0 0 None (-1).

Lemma example_repr : repr example_core example_bucket.
Proof.
  split; [zdecide|done| |zdecide| |].
  - repeat constructor; cbn; eauto 10.
  - intros [|[|i]] es e [= <-] He; [|by apply elem_of_nil in He].
    by repeat (apply elem_of_cons in He as [->|He]; [done|]); apply elem_of_nil in He.
  - cbn. intros l Hl. apply lookup_insert_is_Some in Hl as [<-|[_ [? [<- _]%lookup_singleton_Some]]]; lia.
Qed.

Lemma subscribe_appends_witness :
  ∃ es k', example_bucket !! 0%nat = Some es ∧
    roar_notify_core_subscribe example_core example_event 9 9 =
      Done (2, k') ∧
    repr k' (<[0%nat := es ++ [(2, subs_of example_core example_event 9 9)]]> example_bucket).
Proof. exact (subscribe_appends example_core example_bucket example_repr example_event 9 9). Defined.

Lemma unsubscribe_removes_witness :
  ∃ k', roar_notify_core_unsubscribe example_core 1 = Done (0, k') ∧
    repr k' [[(0, example_sub 7)]; []] ∧ (k_heap k' !! 1 = None ↔ [(0, example_sub 7)] ≠ []).
Proof.
  exact (unsubscribe_removes example_core example_bucket example_repr 0 [(0, example_sub 7)] [] 1
    (example_sub (-1)) eq_refl).
Defined.

Lemma emit_delivers_witness :
  roar_notify_core_emit (quiet (λ i _ w, sb_emitter i :: w)) 3 example_event (example_core, []) =
  Done (example_core, [-1]).
Proof.
  exact (emit_delivers (λ i _ w, sb_emitter i :: w) example_core example_bucket example_repr 3
    ltac:(vm_compute; lia) example_event []).
Defined.

(** A callback that removes the subscription 1. *)
Definition remove_one (i : sub_info) (ev : event) (kw : ncore * unit) : outcome (ncore * unit) :=
  r ← roar_notify_core_unsubscribe kw.1 1; Done (r.2, kw.2).


Lemma unref_frees_witness :
  ∃ k', roar_notify_core_unref example_core = Done (0, inl k') ∧ repr k' example_bucket ∧ k_refc k' = 1.
Proof. exact (unref_frees example_core example_bucket example_repr ltac:(done)). Defined.

Lemma wildcard_misses_witness :
  ∃ l k', roar_notify_core_subscribe example_core (simple_event ROAR_NOTIFY_SPECIAL (-1) (-1) (-1) 0 0 None 0) 9 9
      = Done (l, k') ∧
  ∃ w', roar_notify_core_emit (quiet (λ i _ n, n + 1)) 4 (simple_event 5 3 5 6 0 0 None 0) (k', 0) = Done (k', w') ∧
        roar_notify_core_emit (quiet (λ i _ n, n + 1)) 4 (simple_event 5 3 5 6 0 0 None 0) (example_core, 0)
        = Done (example_core, w').
Proof.
  do 2 eexists. split; [vm_compute; reflexivity|].
  refine (wildcard_misses (λ i _ n, n + 1) example_core example_bucket
    (simple_event ROAR_NOTIFY_SPECIAL (-1) (-1) (-1) 0 0 None 0) (simple_event 5 3 5 6 0 0 None 0) 9 9 0 2 _ 4
    example_repr eq_refl eq_refl _ _ _); [by vm_compute|by vm_compute|vm_compute; lia].
Defined.
