(* ===== verification/Chanmap.v ===== *)
(** * Channel lists and channel maps ([libroardsp/channels.c])

    Channel identifiers and their names, the standard channel layouts
    ([roardsp_chanlist_init]), the computation of a channel map and its
    application to interleaved PCM.  Channel lists are the [char] arrays of
    [ROAR_MAX_CHANNELS] entries of [struct roardsp_chanmap]. *)
From S2P Require Import Prelude.

Definition ROAR_MAX_CHANNELS : nat := 64.

Definition ROARDSP_CHAN_EOL : Z := -1.
Definition ROARDSP_CHAN_NONE : Z := 0.
Definition ROARDSP_CHAN_FRONT_LEFT : Z := 1.
Definition ROARDSP_CHAN_FRONT_RIGHT : Z := 2.
Definition ROARDSP_CHAN_SIDE_LEFT : Z := 3.
Definition ROARDSP_CHAN_SIDE_RIGHT : Z := 4.
Definition ROARDSP_CHAN_BACK_LEFT : Z := 5.
Definition ROARDSP_CHAN_BACK_RIGHT : Z := 6.
Definition ROARDSP_CHAN_FRONT_CENTER : Z := 7.
Definition ROARDSP_CHAN_SIDE_CENTER : Z := 8.
Definition ROARDSP_CHAN_BACK_CENTER : Z := 9.
Definition ROARDSP_CHAN_LEFT : Z := ROARDSP_CHAN_FRONT_LEFT.
Definition ROARDSP_CHAN_RIGHT : Z := ROARDSP_CHAN_FRONT_RIGHT.
Definition ROARDSP_CHAN_CENTER : Z := ROARDSP_CHAN_FRONT_CENTER.
Definition ROARDSP_CHAN_MONO : Z := ROARDSP_CHAN_CENTER.
Definition ROARDSP_CHAN_MS_MID : Z := 10.
Definition ROARDSP_CHAN_MS_SIDE : Z := 11.
Definition ROARDSP_CHAN_LFE : Z := 12.
Definition ROARDSP_CHAN_MIDI0 : Z := 64.

Definition ROARDSP_CHANLIST_MAP_ROARAUDIO : Z := 0.
Definition ROARDSP_CHANLIST_MAP_VORBIS : Z := 1.
Definition ROARDSP_CHANLIST_MAP_FLAC : Z := 2.
Definition ROARDSP_CHANLIST_MAP_RIFF_WAVE : Z := 3.
Definition ROARDSP_CHANLIST_MAP_OSS : Z := 4.
Definition ROARDSP_CHANLIST_MAP_ALSA : Z := 5.
Definition ROARDSP_CHANLIST_MAP_ESD : Z := 6.
Definition ROARDSP_CHANLIST_MAP_MIDI : Z := 7.

Definition ROARDSP_CHANMAP_IN : Z := 0.
Definition ROARDSP_CHANMAP_OUT : Z := 1.
Definition ROARDSP_CHANMAP_MAP : Z := 2.
Definition ROARDSP_CHANMAP_INVMAP : Z := 3.

(** ** Names *)

(** [_g_chans]: identifier, name and short name, up to the end marker. *)
Definition g_chans : list (Z * string * option string) := [
  (ROARDSP_CHAN_NONE,         "NONE",         Some "NONE");
  (ROARDSP_CHAN_FRONT_LEFT,   "FRONT_LEFT",   Some "FL");
  (ROARDSP_CHAN_FRONT_RIGHT,  "FRONT_RIGHT",  Some "FR");
  (ROARDSP_CHAN_SIDE_LEFT,    "SIDE_LEFT",    Some "SL");
  (ROARDSP_CHAN_SIDE_RIGHT,   "SIDE_RIGHT",   Some "SR");
  (ROARDSP_CHAN_BACK_LEFT,    "BACK_LEFT",    Some "BL");
  (ROARDSP_CHAN_BACK_RIGHT,   "BACK_RIGHT",   Some "BR");
  (ROARDSP_CHAN_FRONT_CENTER, "FRONT_CENTER", Some "FC");
  (ROARDSP_CHAN_SIDE_CENTER,  "SIDE_CENTER",  Some "SC");
  (ROARDSP_CHAN_BACK_CENTER,  "BACK_CENTER",  Some "BC");
  (ROARDSP_CHAN_LEFT,         "LEFT",         Some "L");
  (ROARDSP_CHAN_RIGHT,        "RIGHT",        Some "R");
  (ROARDSP_CHAN_CENTER,       "CENTER",       Some "C");
  (ROARDSP_CHAN_MONO,         "MONO",         Some "M");
  (ROARDSP_CHAN_MS_MID,       "MS_MID",       Some "MID");
  (ROARDSP_CHAN_MS_SIDE,      "MS_SIDE",      Some "SIDE");
  (ROARDSP_CHAN_LFE,          "LFE",          Some "LFE");
  (64, "MIDI0", None); (65, "MIDI1", None); (66, "MIDI2", None);
  (67, "MIDI3", None); (68, "MIDI4", None); (69, "MIDI5", None);
  (70, "MIDI6", None); (71, "MIDI7", None); (72, "MIDI8", None);
  (73, "MIDI9", None); (74, "MIDI10", None); (75, "MIDI11", None);
  (76, "MIDI12", None); (77, "MIDI13", None); (78, "MIDI14", None);
  (79, "MIDI15", None)
]%string.

Definition roardsp_chan2str (chan : Z) : option string :=
  match filter (λ e : Z * string * option string, e.1.1 = chan) g_chans with
  | (_, name, _) :: _ => Some name
  | [] => None
  end.

Definition roardsp_str2chan (str : string) : Z :=
  match filter (λ e : Z * string * option string,
                  strcaseeq e.1.2 str = true ∨
                  (if e.2 is Some sn then strcaseeq sn str else false) = true) g_chans with
  | (id, _, _) :: _ => id
  | [] => -1
  end.

(** [roardsp_chanlist2str]: [size] is the size of the array behind [str],
    [strlen] the length the caller states.  The code appends without looking
    at [strlen], so a text that does not fit the array is undefined. *)
Fixpoint chanlist_text (first : bool) (l : list Z) : string :=
  match l with
  | [] => ""
  | c :: l =>
      ((if first then "" else ",") +:+
       (if roardsp_chan2str c is Some name then name else "<<<INVALID>>>") +:+
       chanlist_text false l)%string
  end.

Definition roardsp_chanlist2str (l : list Z) (size strlen : nat)
  : outcome (Z * option string) :=
  match l with
  | [] => Done (0, if decide (0 < strlen)%nat then Some ""%string else None)
  | _ =>
      if decide (strlen = 0%nat) then Done (-1, None)
      else
        let text := chanlist_text true l in
        if decide (String.length text < size)%nat then Done (0, Some text) else UB
  end.

(** ** Standard layouts *)

(** The tables of the [switch (channels)] blocks: the entries stored to
    [list[0]], [list[1]], ...; [None] is the [default: return -1]. *)
Definition layout_roaraudio (channels : Z) : option (list Z) :=
  if channels =? 3 then Some [ROARDSP_CHAN_LEFT; ROARDSP_CHAN_RIGHT; ROARDSP_CHAN_CENTER]
  else if channels =? 4 then
    Some [ROARDSP_CHAN_FRONT_LEFT; ROARDSP_CHAN_FRONT_RIGHT;
          ROARDSP_CHAN_BACK_LEFT; ROARDSP_CHAN_BACK_RIGHT]
  else if channels =? 5 then
    Some [ROARDSP_CHAN_FRONT_LEFT; ROARDSP_CHAN_FRONT_RIGHT; ROARDSP_CHAN_CENTER;
          ROARDSP_CHAN_BACK_LEFT; ROARDSP_CHAN_BACK_RIGHT]
  else if channels =? 6 then
    Some [ROARDSP_CHAN_FRONT_LEFT; ROARDSP_CHAN_FRONT_RIGHT; ROARDSP_CHAN_CENTER;
          ROARDSP_CHAN_LFE; ROARDSP_CHAN_BACK_LEFT; ROARDSP_CHAN_BACK_RIGHT]
  else if channels =? 7 then
    Some [ROARDSP_CHAN_FRONT_LEFT; ROARDSP_CHAN_FRONT_RIGHT; ROARDSP_CHAN_CENTER;
          ROARDSP_CHAN_LFE; ROARDSP_CHAN_SIDE_LEFT; ROARDSP_CHAN_SIDE_RIGHT;
          ROARDSP_CHAN_BACK_CENTER]
  else if channels =? 8 then
    Some [ROARDSP_CHAN_FRONT_LEFT; ROARDSP_CHAN_FRONT_RIGHT; ROARDSP_CHAN_CENTER;
          ROARDSP_CHAN_LFE; ROARDSP_CHAN_SIDE_LEFT; ROARDSP_CHAN_SIDE_RIGHT;
          ROARDSP_CHAN_BACK_LEFT; ROARDSP_CHAN_BACK_RIGHT]
  else None.

Definition layout_vorbis (channels : Z) : option (list Z) :=
  if channels =? 3 then Some [ROARDSP_CHAN_LEFT; ROARDSP_CHAN_CENTER; ROARDSP_CHAN_RIGHT]
  else if channels =? 4 then
    Some [ROARDSP_CHAN_FRONT_LEFT; ROARDSP_CHAN_FRONT_RIGHT;
          ROARDSP_CHAN_BACK_LEFT; ROARDSP_CHAN_BACK_RIGHT]
  else if channels =? 5 then
    Some [ROARDSP_CHAN_FRONT_LEFT; ROARDSP_CHAN_CENTER; ROARDSP_CHAN_FRONT_RIGHT;
          ROARDSP_CHAN_BACK_LEFT; ROARDSP_CHAN_BACK_RIGHT]
  else if channels =? 6 then
    Some [ROARDSP_CHAN_FRONT_LEFT; ROARDSP_CHAN_CENTER; ROARDSP_CHAN_FRONT_RIGHT;
          ROARDSP_CHAN_BACK_LEFT; ROARDSP_CHAN_BACK_RIGHT; ROARDSP_CHAN_LFE]
  else if channels =? 7 then
    Some [ROARDSP_CHAN_FRONT_LEFT; ROARDSP_CHAN_CENTER; ROARDSP_CHAN_FRONT_RIGHT;
          ROARDSP_CHAN_SIDE_LEFT; ROARDSP_CHAN_SIDE_RIGHT; ROARDSP_CHAN_BACK_CENTER;
          ROARDSP_CHAN_LFE]
  else if channels =? 8 then
    Some [ROARDSP_CHAN_FRONT_LEFT; ROARDSP_CHAN_CENTER; ROARDSP_CHAN_FRONT_RIGHT;
          ROARDSP_CHAN_SIDE_LEFT; ROARDSP_CHAN_SIDE_RIGHT; ROARDSP_CHAN_BACK_LEFT;
          ROARDSP_CHAN_BACK_RIGHT; ROARDSP_CHAN_LFE]
  else None.

(** The fall-through cases of OSS and ALSA fill a prefix of one list. *)
Definition layout_oss (channels : Z) : option (list Z) :=
  if decide (3 ≤ channels ≤ 8) then
    Some (take (Z.to_nat channels)
      [ROARDSP_CHAN_LEFT; ROARDSP_CHAN_RIGHT; ROARDSP_CHAN_CENTER; ROARDSP_CHAN_LFE;
       ROARDSP_CHAN_SIDE_LEFT; ROARDSP_CHAN_SIDE_RIGHT; ROARDSP_CHAN_BACK_LEFT;
       ROARDSP_CHAN_BACK_RIGHT])
  else None.

Definition layout_alsa (channels : Z) : option (list Z) :=
  if decide (3 ≤ channels ≤ 8) then
    Some (take (Z.to_nat channels)
      [ROARDSP_CHAN_LEFT; ROARDSP_CHAN_RIGHT; ROARDSP_CHAN_BACK_LEFT;
       ROARDSP_CHAN_BACK_RIGHT; ROARDSP_CHAN_CENTER; ROARDSP_CHAN_LFE;
       ROARDSP_CHAN_BACK_LEFT; ROARDSP_CHAN_BACK_RIGHT])
  else None.

Definition layout_specific (map channels : Z) : option (list Z) :=
  if (map =? ROARDSP_CHANLIST_MAP_ROARAUDIO) || (map =? ROARDSP_CHANLIST_MAP_FLAC) then
    if (map =? ROARDSP_CHANLIST_MAP_FLAC) && (6 <? channels) then None
    else layout_roaraudio channels
  else if map =? ROARDSP_CHANLIST_MAP_VORBIS then layout_vorbis channels
  else if map =? ROARDSP_CHANLIST_MAP_OSS then layout_oss channels
  else if map =? ROARDSP_CHANLIST_MAP_ALSA then layout_alsa channels
  else None.

(** Stores to [list[0]], [list[1]], ... *)
Definition store_prefix (vals l : list Z) : outcome (list Z) :=
  or_ub (mwrite 0 vals l).

(** The list is the array behind the pointer, [None] a null pointer. *)
Definition roardsp_chanlist_init (lst : option (list Z)) (channels map : Z)
  : outcome (Z * option (list Z)) :=
  if channels =? 0 then Done (0, lst)
  else match lst with
  | None => Done (-1, None)
  | Some l =>
      if Z.of_nat ROAR_MAX_CHANNELS <? channels then Done (-1, Some l)
      else
        l ← (if map =? ROARDSP_CHANLIST_MAP_MIDI
             then store_prefix ((λ i, Z.of_nat i + ROARDSP_CHAN_MIDI0)
                                  <$> seq 0 (Z.to_nat channels)) l
             else Done l);
        if channels =? 1 then
          l ← store_prefix [ROARDSP_CHAN_MONO] l; Done (0, Some l)
        else if channels =? 2 then
          l ← store_prefix [ROARDSP_CHAN_LEFT; ROARDSP_CHAN_RIGHT] l; Done (0, Some l)
        else match layout_specific map channels with
        | None => Done (-1, Some l)
        | Some vals => l ← store_prefix vals l; Done (0, Some l)
        end
  end.

(** ** Channel maps *)

(** [struct roardsp_chanmap] *)
Record chanmap := Chanmap { cm_in : list Z; cm_out : list Z; cm_map : list Z }.

(** The inner loop: the first index [b] with [x == dst[b]]. *)
Definition find_channel (x : Z) (dst : list Z) : option nat :=
  fst <$> list_find (λ y, x = y) dst.

(** The outer loop of [roardsp_chanmap_calc] with source [src] and target
    [dst]; [acc] is the part of [map->map] computed so far.  When
    [err_on_none] stops it, the rest of the map keeps the [memset] value. *)
Fixpoint calc_loop (err_on_none : bool) (src dst acc : list Z) : Z * list Z :=
  match src with
  | [] => (0, acc)
  | x :: src =>
      if x =? ROARDSP_CHAN_NONE then calc_loop err_on_none src dst (acc ++ [-1])
      else match find_channel x dst with
      | Some b => calc_loop err_on_none src dst (acc ++ [Z.of_nat b])
      | None => if err_on_none then (-1, acc ++ replicate (S (length src)) (-1))
                else calc_loop err_on_none src dst (acc ++ [-1])
      end
  end.

Definition roardsp_chanmap_calc (map : option chanmap) (what : Z) (err_on_none : bool)
  : Z * option chanmap :=
  match map with
  | None => (-1, None)
  | Some m =>
      if what =? ROARDSP_CHANMAP_MAP then
        let '(r, l) := calc_loop err_on_none (cm_in m) (cm_out m) [] in
        (r, Some (Chanmap (cm_in m) (cm_out m) l))
      else if what =? ROARDSP_CHANMAP_INVMAP then
        let '(r, l) := calc_loop err_on_none (cm_out m) (cm_in m) [] in
        (r, Some (Chanmap (cm_in m) (cm_out m) l))
      else (-1, Some m)
  end.

(** The inner loop of the [roardsp_chanmap_mappcm*] functions:
    [out[off + map[c]] = in[c]] for the channels [c] of one frame. *)
Fixpoint scatter (off : Z) (map ins out : list Z) : outcome (list Z) :=
  match map, ins with
  | m :: map, x :: ins => out ← aset (off + m) x out; scatter off map ins out
  | _, _ => Done out
  end.

(** [in == out]: each frame is permuted through the zeroed array [buf]. *)
Fixpoint mappcm_inplace (frames chans : nat) (map l : list Z) : outcome (list Z) :=
  match frames with
  | O => Done l
  | S frames =>
      buf ← scatter 0 (take chans map) (take chans l) (replicate ROAR_MAX_CHANNELS 0);
      rest ← mappcm_inplace frames chans map (drop chans l);
      Done (take chans buf ++ rest)
  end.

(** [in != out]: the frames are written to the zeroed output. *)
Fixpoint mappcm_copy (frame frames chans : nat) (map ins out : list Z) : outcome (list Z) :=
  match frames with
  | O => Done out
  | S frames =>
      out ← scatter (Z.of_nat (frame * chans)) (take chans map)
                    (take chans (drop (frame * chans) ins)) out;
      mappcm_copy (S frame) frames chans map ins out
  end.

(** [roardsp_chanmap_mappcm8/16/32] on the samples [l] ([len] is their
    length in octets); the three differ in the sample type only.  A division
    by a zero [chans] is undefined. *)
Definition roardsp_chanmap_mappcm_n (inplace : bool) (l : list Z) (chans : nat)
    (map : chanmap) : outcome (Z * list Z) :=
  if decide (length l = 0%nat) then Done (0, l)
  else if decide (ROAR_MAX_CHANNELS < chans)%nat then Done (-1, l)
  else if decide (chans = 0%nat) then UB
  else
    let frames := (length l / chans)%nat in
    r ← (if inplace then mappcm_inplace frames chans (cm_map map) l
         else mappcm_copy 0 frames chans (cm_map map) l (replicate (length l) 0));
    Done (0, r).

(** [roardsp_chanmap_mappcm], [len] counted in samples. *)
Definition roardsp_chanmap_mappcm (inplace : bool) (l : list Z) (chans : nat)
    (map : chanmap) (bits : Z) : outcome (Z * list Z) :=
  if decide (length l = 0%nat) then Done (0, l)
  else if decide (ROAR_MAX_CHANNELS < chans)%nat then Done (-1, l)
  else if (bits =? 8) || (bits =? 16) || (bits =? 32)
  then roardsp_chanmap_mappcm_n inplace l chans map
  else Done (-1, l).

(** ** Properties *)

Lemma scatter_spec off map : ∀ ins out,
  length map = length ins → NoDup map →
  Forall (λ m, 0 ≤ off + m < Z.of_nat (length out)) map →
  ∃ out', scatter off map ins out = Done out' ∧ length out' = length out ∧
    (∀ c m x, map !! c = Some m → ins !! c = Some x →
       out' !! Z.to_nat (off + m) = Some x) ∧
    (∀ i, (∀ m, m ∈ map → i ≠ Z.to_nat (off + m)) → out' !! i = out !! i).
Proof.
  induction map as [|m map IH]; intros [|x ins] out Hl Hnd Hr; try discriminate Hl.
  { exists out. cbn. split_and!; try done. }
  apply NoDup_cons in Hnd as [Hm Hnd]. apply Forall_cons in Hr as [Hm0 Hr].
  cbn [scatter]. rewrite aset_Done by done. cbn [mbind outcome_bind].
  destruct (IH ins (<[Z.to_nat (off + m):=x]> out)) as (out' & E & Hlen & Hin & Hout);
    [by injection Hl|done|by rewrite length_insert|].
  exists out'. rewrite length_insert in Hlen. split_and!; [done..| |].
  - intros [|c] m' x' Hc Hx; cbn in Hc, Hx; [|by eapply Hin].
    injection Hc as <-. injection Hx as <-.
    rewrite Hout; [apply list_lookup_insert_eq; lia|].
    intros m' Hm'. assert (m' ≠ m) by (intros ->; done).
    rewrite Forall_forall in Hr. specialize (Hr _ Hm'). cbn in Hr. lia.
  - intros i Hi. rewrite Hout by (intros; apply Hi; by right).
    apply list_lookup_insert_ne. intros <-. by eapply Hi; [left|].
Qed.

(** A map whose first [chans] entries permute [0 .. chans-1]. *)
Definition permutes (chans : nat) (map : list Z) : Prop :=
  (chans ≤ length map)%nat ∧ NoDup (take chans map) ∧
  Forall (λ m, 0 ≤ m < Z.of_nat chans) (take chans map).

(** In-place mapping by a permutation: channel [c] of every frame arrives at
    channel [map[c]] of that frame, and an incomplete last frame stays. *)
Lemma mappcm_inplace_spec frames chans map : ∀ l,
  permutes chans map → (chans ≤ ROAR_MAX_CHANNELS)%nat →
  (frames * chans ≤ length l)%nat →
  ∃ r, mappcm_inplace frames chans map l = Done r ∧ length r = length l ∧
    (∀ f c m, (f < frames)%nat → take chans map !! c = Some m →
       r !! (f * chans + Z.to_nat m)%nat = l !! (f * chans + c)%nat) ∧
    drop (frames * chans) r = drop (frames * chans) l.
Proof.
  induction frames as [|frames IH]; intros l Hp Hc Hl.
  { exists l. cbn. split_and!; try done. lia. }
  destruct Hp as (Hpl & Hnd & Hr). cbn [mappcm_inplace].
  destruct (scatter_spec 0 (take chans map) (take chans l)
              (replicate ROAR_MAX_CHANNELS 0)) as (buf & E & Hbl & Hbin & _).
  { rewrite !length_take. lia. }
  { done. }
  { eapply Forall_impl; [exact Hr|]. cbn beta. intros. rewrite length_replicate. lia. }
  rewrite length_replicate in Hbl.
  destruct (IH (drop chans l)) as (r & E' & Hrl & Hrin & Hrd);
    [by split_and!|done|rewrite length_drop; lia|].
  rewrite E, bind_Done, E', bind_Done.
  rewrite length_drop in Hrl.
  assert (length (take chans buf) = chans) as Htl by (rewrite length_take; lia).
  exists (take chans buf ++ r). split_and!; [done|rewrite length_app; lia| |].
  - intros [|f] c m Hf Hcm.
    + assert (Hm : 0 ≤ m < Z.of_nat chans) by (by eapply Forall_lookup_1 in Hr).
      pose proof (lookup_lt_Some _ _ _ Hcm) as Hlt. rewrite length_take in Hlt.
      rewrite Nat.mul_0_l, !Nat.add_0_l, lookup_app_l by lia.
      rewrite lookup_take_lt by lia.
      destruct (lookup_lt_is_Some_2 l c) as [x Hx]; [lia|]. rewrite Hx.
      apply (Hbin c m x); [done|by rewrite lookup_take_lt by lia].
    + rewrite lookup_app_r by lia. rewrite Htl.
      replace (S f * chans + Z.to_nat m - chans)%nat with (f * chans + Z.to_nat m)%nat by lia.
      rewrite (Hrin f c m) by (done || lia). rewrite lookup_drop. f_equal. lia.
  - rewrite drop_app, Htl, (drop_ge (take chans buf)) by (rewrite Htl; lia). cbn [app].
    replace (S frames * chans - chans)%nat with (frames * chans)%nat by lia.
    rewrite Hrd, drop_drop. by f_equal.
Qed.

(** The entry of a calculated map for the source channel [x]. *)
Definition map_entry (dst : list Z) (x : Z) : Z :=
  if x =? ROARDSP_CHAN_NONE then -1
  else if find_channel x dst is Some b then Z.of_nat b else -1.

Lemma calc_loop_lenient src dst acc :
  calc_loop false src dst acc = (0, acc ++ (map_entry dst <$> src)).
Proof.
  revert acc. induction src as [|x src IH]; intros acc; cbn [calc_loop fmap list_fmap].
  { by rewrite app_nil_r. }
  unfold map_entry at 1. case_match; [|case_match]; rewrite IH, <- app_assoc; done.
Qed.

Lemma map_entry_at dst x b :
  NoDup dst → x ≠ ROARDSP_CHAN_NONE → dst !! b = Some x → map_entry dst x = Z.of_nat b.
Proof.
  intros Hnd Hx Hb. unfold map_entry, find_channel.
  rewrite (proj2 (Z.eqb_neq _ _)) by done.
  destruct (list_find (λ y, x = y) dst) as [[i y]|] eqn:E; cbn.
  - apply list_find_Some in E as (Hi & <- & _). by rewrite (NoDup_lookup dst i b x).
  - apply list_find_None in E. rewrite Forall_lookup in E. by destruct (E _ _ Hb).
Qed.

(** Channel lists are compared on the channels in use; an entry past them
    does not hide one of those. *)
Lemma map_entry_take n dst x b :
  NoDup (take n dst) → x ≠ ROARDSP_CHAN_NONE → take n dst !! b = Some x →
  map_entry dst x = Z.of_nat b.
Proof.
  intros Hnd Hx Hb. rewrite <- (map_entry_at (take n dst) x b) by done.
  unfold map_entry, find_channel. rewrite (proj2 (Z.eqb_neq _ _)) by done.
  destruct (list_find (λ y, x = y) (take n dst)) as [[i y]|] eqn:E.
  - apply (list_find_app_l _ _ (drop n dst)) in E. rewrite take_drop in E. by rewrite E.
  - apply list_find_None in E. rewrite Forall_lookup in E. by destruct (E _ _ Hb).
Qed.

Record same_channels (chans : nat) (m : chanmap) : Prop := {
  sc_chans : (0 < chans ≤ ROAR_MAX_CHANNELS)%nat;
  sc_in : length (cm_in m) = ROAR_MAX_CHANNELS;
  sc_nodup_in : NoDup (take chans (cm_in m));
  sc_nodup_out : NoDup (take chans (cm_out m));
  sc_used : ROARDSP_CHAN_NONE ∉ take chans (cm_in m);
  sc_found : ∀ x, x ∈ take chans (cm_in m) → x ∈ take chans (cm_out m)
}.

Lemma same_channels_entry chans m c x :
  same_channels chans m → take chans (cm_in m) !! c = Some x →
  ∃ b, take chans (cm_out m) !! b = Some x ∧ (b < chans)%nat ∧
       map_entry (cm_out m) x = Z.of_nat b.
Proof.
  intros S Hc. assert (Hx : x ∈ take chans (cm_in m)) by by eapply list_elem_of_lookup_2.
  destruct (proj1 (list_elem_of_lookup _ _) (sc_found _ _ S x Hx)) as [b Hb].
  exists b. split_and!; [done| |].
  - apply lookup_lt_Some in Hb. rewrite length_take in Hb. lia.
  - eapply map_entry_take; [by apply S| |exact Hb].
    intros ->. by destruct (sc_used _ _ S).
Qed.

Lemma calculated_map_permutes chans m :
  same_channels chans m → permutes chans (map_entry (cm_out m) <$> cm_in m).
Proof.
  intros S. pose proof (sc_chans _ _ S). pose proof (sc_in _ _ S).
  unfold permutes. rewrite length_fmap, <- fmap_take. split_and!; [lia| |].
  - apply NoDup_alt. intros i j v Hi Hj.
    apply list_lookup_fmap_Some in Hi as (x & -> & Hx).
    apply list_lookup_fmap_Some in Hj as (y & Hv & Hy).
    destruct (same_channels_entry _ _ _ _ S Hx) as (b & Hb & _ & Eb).
    destruct (same_channels_entry _ _ _ _ S Hy) as (b' & Hb' & _ & Eb').
    assert (b = b') as <- by lia. assert (x = y) as <- by congruence.
    by eapply NoDup_lookup; [apply S|..].
  - apply Forall_fmap, Forall_lookup. intros c x Hx. cbn.
    destruct (same_channels_entry _ _ _ _ S Hx) as (b & _ & Hlt & ->). lia.
Qed.

(** C11: a calculated channel map moves every sample to its channel.  For a
    source and a target list with the same [chans] channels in any two
    orders, [roardsp_chanmap_calc] succeeds and mapping PCM in place with the
    result never leaves the buffers and puts the sample of input channel [c]
    of each frame on the output channel [d] that carries the same channel
    identifier. *)
Theorem chanmap_routes_channels (m : chanmap) (l : list Z) (chans : nat)
    (H : same_channels chans m) :
  ∃ m' r,
    roardsp_chanmap_calc (Some m) ROARDSP_CHANMAP_MAP false = (0, Some m') ∧
    roardsp_chanmap_mappcm_n true l chans m' = Done (0, r) ∧
    length r = length l ∧
    ∀ f c d x, (f < length l / chans)%nat →
      take chans (cm_in m) !! c = Some x → take chans (cm_out m) !! d = Some x →
      r !! (f * chans + d)%nat = l !! (f * chans + c)%nat.
Proof.
  pose proof (sc_chans _ _ H) as Hc.
  set (mp := map_entry (cm_out m) <$> cm_in m).
  assert (E : roardsp_chanmap_calc (Some m) ROARDSP_CHANMAP_MAP false
              = (0, Some (Chanmap (cm_in m) (cm_out m) mp))).
  { cbn. by rewrite calc_loop_lenient. }
  pose proof (calculated_map_permutes _ _ H) as Hp.
  destruct (mappcm_inplace_spec (length l / chans) chans mp l) as (r & Er & Hl & Hr & _);
    [done|lia|rewrite Nat.mul_comm; apply Nat.Div0.mul_div_le|].
  exists (Chanmap (cm_in m) (cm_out m) mp).
  unfold roardsp_chanmap_mappcm_n. cbn [cm_map].
  destruct (decide (length l = 0%nat)) as [Hz|Hz].
  { exists l. split_and!; try done. intros f c d x Hf. rewrite Hz in Hf.
    rewrite Nat.Div0.div_0_l in Hf. lia. }
  rewrite !decide_False by lia. rewrite Er.
  exists r. split_and!; try done. intros f c d x Hf Hi Ho.
  destruct (same_channels_entry _ _ _ _ H Hi) as (b & Hb & _ & Eb).
  assert (b = d) as -> by exact (NoDup_lookup _ _ _ _ (sc_nodup_out _ _ H) Hb Ho).
  rewrite <- (Hr f c (Z.of_nat d) Hf); [by rewrite Nat2Z.id|].
  subst mp. rewrite <- fmap_take, list_lookup_fmap, Hi. cbn. by rewrite Eb.
Qed.

Lemma chanmap_routes_channels_witness :
  let m := Chanmap ([1; 7; 2; 5; 6; 12] ++ replicate 58 0) ([1; 2; 7; 12; 5; 6] ++ replicate 58 0)
                   (replicate 64 0) in
  let l := [10; 20; 30; 40; 50; 60; 11; 21; 31; 41; 51; 61] in
  ∃ m' r,
    roardsp_chanmap_calc (Some m) ROARDSP_CHANMAP_MAP false = (0, Some m') ∧
    roardsp_chanmap_mappcm_n true l 6 m' = Done (0, r) ∧
    length r = length l ∧
    ∀ f c d x, (f < length l / 6)%nat →
      take 6 (cm_in m) !! c = Some x → take 6 (cm_out m) !! d = Some x →
      r !! (f * 6 + d)%nat = l !! (f * 6 + c)%nat.
Proof.
  apply chanmap_routes_channels. split; zdecide || idtac.
  intros x Hx. cut (Forall (λ x, x ∈ [1; 2; 7; 12; 5; 6]) [1; 7; 2; 5; 6; 12]);
    [rewrite Forall_forall; intros F; by apply F|zdecide].
Defined.

(** A source channel that the target lacks is mapped to index -1, and mapping
    PCM with such a map stores outside of the buffer. *)
Lemma scatter_out_of_range off map : ∀ ins out c m,
  length map = length ins → map !! c = Some m →
  (off + m < 0 ∨ Z.of_nat (length out) ≤ off + m) →
  scatter off map ins out = UB.
Proof.
  induction map as [|m0 map IH]; intros [|x ins] out c m Hl Hc Hm; try discriminate.
  cbn [scatter]. unfold aset. case_decide as Hd; [|done]. cbn [mbind outcome_bind].
  destruct c as [|c]; cbn in Hc; [injection Hc as <-; lia|].
  eapply (IH ins _ c m); [by injection Hl|done|by rewrite length_insert].
Qed.



Lemma layout_specific_range map channels :
  channels < 3 ∨ 8 < channels → layout_specific map channels = None.
Proof.
  intros H. unfold layout_specific, layout_roaraudio, layout_vorbis, layout_oss, layout_alsa.
  repeat case_decide; try lia;
    repeat match goal with |- context [channels =? ?k] =>
      rewrite (proj2 (Z.eqb_neq channels k)) by lia end;
    repeat case_match; done.
Qed.

Lemma layout_specific_ok map channels vals :
  layout_specific map channels = Some vals →
  Z.of_nat (length vals) = channels ∧ (length vals ≤ 8)%nat ∧
  (map ≠ ROARDSP_CHANLIST_MAP_ALSA → NoDup vals ∧ ROARDSP_CHAN_NONE ∉ vals).
Proof.
  intros E.
  assert (Hr : 3 ≤ channels ≤ 8).
  { destruct (decide (3 ≤ channels ≤ 8)); [done|].
    rewrite layout_specific_range in E by lia. done. }
  assert (channels = 3 ∨ channels = 4 ∨ channels = 5 ∨ channels = 6 ∨ channels = 7 ∨
          channels = 8) as Hc by lia.
  unfold layout_specific, layout_roaraudio, layout_vorbis, layout_oss, layout_alsa in E.
  destruct Hc as [->|[->|[->|[->|[->| ->]]]]]; repeat case_match; try discriminate;
    simplify_eq/=; split_and!; try done; intros;
    repeat match goal with H : (map =? _) = true |- _ => apply Z.eqb_eq in H end;
    try done; zdecide.
Qed.

(** C12: [roardsp_chanlist_init] on a full-size array.  Whatever the number of
    channels and the layout, it never stores outside the array; it succeeds
    exactly for no, one or two channels and for the channel counts the
    layout's table has; on success with three or more channels, for every
    layout but ALSA's, the list starts with that many different channels. *)
Theorem chanlist_init_ok (l : list Z) (channels map : Z)
    (Hl : length l = ROAR_MAX_CHANNELS) :
  ∃ r l', roardsp_chanlist_init (Some l) channels map = Done (r, Some l') ∧
    length l' = ROAR_MAX_CHANNELS ∧
    (r = 0 ↔ 0 ≤ channels ≤ 2 ∨ is_Some (layout_specific map channels)) ∧
    (r = 0 → 0 < channels → map ≠ ROARDSP_CHANLIST_MAP_ALSA →
     NoDup (take (Z.to_nat channels) l') ∧
     ROARDSP_CHAN_NONE ∉ take (Z.to_nat channels) l').
Proof.
  assert (Hpre : ∀ vals, (length vals ≤ 64)%nat → ∀ k, length k = ROAR_MAX_CHANNELS →
    store_prefix vals k = Done (vals ++ drop (length vals) k) ∧
    length (vals ++ drop (length vals) k) = ROAR_MAX_CHANNELS).
  { intros vals Hv k Hk. unfold store_prefix. change ROAR_MAX_CHANNELS with 64%nat in *.
    rewrite mwrite_Some by lia. split; [done|]. rewrite length_app, length_drop. lia. }
  unfold roardsp_chanlist_init.
  destruct (Z.eqb_spec channels 0) as [->|H0].
  { exists 0, l. split_and!; [done|done|split; [left; lia|done]|lia]. }
  destruct (Z.ltb_spec (Z.of_nat ROAR_MAX_CHANNELS) channels) as [Hbig|Hsmall].
  { exists (-1), l. split_and!; [done|done| |done]. split; [done|].
    change (Z.of_nat ROAR_MAX_CHANNELS) with 64 in Hbig.
    rewrite layout_specific_range by lia. intros [?|[? [=]]]; lia. }
  change (Z.of_nat ROAR_MAX_CHANNELS) with 64 in Hsmall.
  assert (∃ k, (if map =? ROARDSP_CHANLIST_MAP_MIDI
                then store_prefix ((λ i, Z.of_nat i + ROARDSP_CHAN_MIDI0)
                                     <$> seq 0 (Z.to_nat channels)) l
                else Done l) = Done k ∧ length k = ROAR_MAX_CHANNELS) as (k & -> & Hk).
  { case_match; [|eauto].
    destruct (Hpre ((λ i, Z.of_nat i + ROARDSP_CHAN_MIDI0) <$> seq 0 (Z.to_nat channels)))
      with (k := l) as [-> ?]; [rewrite length_fmap, length_seq; lia|done|eauto]. }
  rewrite bind_Done.
  destruct (Z.eqb_spec channels 1) as [->|H1].
  { destruct (Hpre [ROARDSP_CHAN_MONO] ltac:(cbn; lia) k Hk) as [-> ?]. rewrite bind_Done.
    exists 0. eexists. split_and!; [done|done|split; [left; lia|done]|].
    intros _ _ _. cbn. split; [apply NoDup_singleton|set_solver]. }
  destruct (Z.eqb_spec channels 2) as [->|H2].
  { destruct (Hpre [ROARDSP_CHAN_LEFT; ROARDSP_CHAN_RIGHT] ltac:(cbn; lia) k Hk) as [-> ?].
    rewrite bind_Done. exists 0. eexists.
    split_and!; [done|done|split; [left; lia|done]|].
    intros _ _ _. cbn. split; zdecide. }
  destruct (layout_specific map channels) as [vals|] eqn:E; cycle 1.
  { exists (-1), k. split_and!; [done|done| |done].
    split; [done|]. intros [?|[? [=]]]. lia. }
  destruct (layout_specific_ok map channels vals E) as (Hv & Hch & Hnd).
  destruct (Hpre vals ltac:(lia) k Hk) as [-> ?]. rewrite bind_Done.
  exists 0. eexists. split_and!; [done|done|split; [eauto|done]|].
  intros _ _ Hm. rewrite <- Hv, Nat2Z.id, take_app_length. auto.
Qed.

Lemma chanlist_init_ok_witness :
  ∃ r l', roardsp_chanlist_init (Some (replicate 64 0)) 6 ROARDSP_CHANLIST_MAP_VORBIS
          = Done (r, Some l') ∧
    length l' = ROAR_MAX_CHANNELS ∧
    (r = 0 ↔ 0 ≤ 6 ≤ 2 ∨ is_Some (layout_specific ROARDSP_CHANLIST_MAP_VORBIS 6)) ∧
    (r = 0 → 0 < 6 → ROARDSP_CHANLIST_MAP_VORBIS ≠ ROARDSP_CHANLIST_MAP_ALSA →
     NoDup (take (Z.to_nat 6) l') ∧ ROARDSP_CHAN_NONE ∉ take (Z.to_nat 6) l').
Proof.
  apply (chanlist_init_ok (replicate 64 0) 6 ROARDSP_CHANLIST_MAP_VORBIS). reflexivity.
Defined.

(** Every name in the table is read back as its identifier. *)
Lemma str2chan_chan2str : Forall (λ e : Z * string * option string,
  roardsp_str2chan e.1.2 = e.1.1 ∧
  (roardsp_str2chan <$> roardsp_chan2str e.1.1) = Some e.1.1) g_chans.
Proof. zdecide. Qed.
