(* ===== verification/Volume.v ===== *)
(** * Mixer settings and their conversion ([roar_conv_volume], [libroar/ctl.c])

    The volumes of a stream, and their conversion to another number of
    channels; the description of a stream's samples. *)
From S2P Require Import Prelude.

(** [struct roar_audio_info]: all [uint_least32_t]. *)
Record audio_info := AudioInfo { rate : Z; bits : Z; channels : Z; codec : Z }.

(** [struct roar_mixer_settings]: all [uint16_t]; [mx_mixer] is the array of
    [ROAR_MAX_CHANNELS] volumes. *)
Record mixer_settings := MixerSettings {
  mx_scale : Z; mx_rpg_mul : Z; mx_rpg_div : Z; mx_mixer : list Z }.

(** The [switch (srcchans)] with its inner [switch (dstchans)]: the values
    stored to [dst->mixer[0]], [dst->mixer[1]], ...; [None] is a [default]
    branch.  [v i] is [src->mixer[i]]. *)
Definition conv_table (srcchans dstchans : Z) (v : nat → Z) : option (list Z) :=
  match srcchans, dstchans with
  | 2, 3 => Some [v 0%nat; v 1%nat; cdiv (v 0%nat + v 1%nat) 2]
  | 2, 4 => Some [v 0%nat; v 1%nat; v 0%nat; v 1%nat]
  | 2, 5 => Some [v 0%nat; v 1%nat; cdiv (v 0%nat + v 1%nat) 2; v 0%nat; v 1%nat]
  | 2, 6 => Some [v 0%nat; v 1%nat; cdiv (v 0%nat + v 1%nat) 2;
                  cdiv (v 0%nat + v 1%nat) 2; v 0%nat; v 1%nat]
  | 3, 2 => Some [v 0%nat; v 1%nat]
  | 3, 4 => Some [v 0%nat; v 1%nat; v 0%nat; v 1%nat]
  | 3, 5 => Some [v 0%nat; v 1%nat; v 2%nat; v 0%nat; v 1%nat]
  | 3, 6 => Some [v 0%nat; v 1%nat; v 2%nat; v 2%nat; v 0%nat; v 1%nat]
  | 4, 2 => Some [cdiv (v 0%nat + v 2%nat) 2; cdiv (v 1%nat + v 3%nat) 2]
  | 4, 3 => let a := cdiv (v 0%nat + v 2%nat) 2 in
            let b := cdiv (v 1%nat + v 3%nat) 2 in Some [a; b; cdiv (a + b) 2]
  | 4, 5 => Some [v 0%nat; v 1%nat; cdiv (v 0%nat + v 2%nat + v 1%nat + v 3%nat) 4;
                  v 2%nat; v 3%nat]
  | 4, 6 => let c := cdiv (v 0%nat + v 2%nat + v 1%nat + v 3%nat) 4 in
            Some [v 0%nat; v 1%nat; c; c; v 2%nat; v 3%nat]
  | 5, 2 => Some [cdiv (v 0%nat + v 3%nat) 2; cdiv (v 1%nat + v 4%nat) 2]
  | 5, 3 => Some [cdiv (v 0%nat + v 3%nat) 2; cdiv (v 1%nat + v 4%nat) 2; v 2%nat]
  | 5, 4 => Some [v 0%nat; v 1%nat; v 3%nat; v 4%nat]
  | 5, 6 => Some [v 0%nat; v 1%nat; v 2%nat; v 2%nat; v 3%nat; v 4%nat]
  | 6, 2 => Some [cdiv (v 0%nat + v 4%nat) 2; cdiv (v 1%nat + v 5%nat) 2]
  | 6, 3 => Some [cdiv (v 0%nat + v 4%nat) 2; cdiv (v 1%nat + v 5%nat) 2; v 2%nat]
  | 6, 4 => Some [v 0%nat; v 1%nat; v 4%nat; v 5%nat]
  | 6, 5 => Some [v 0%nat; v 1%nat; v 2%nat; v 4%nat; v 5%nat]
  | _, _ => None
  end.

(** The values stored to [dst->mixer] when the numbers of channels differ. *)
Definition conv_values (src : list Z) (dstchans srcchans : Z) : outcome (option (list Z)) :=
  if dstchans =? 1 then
    (* N -> 1 *)
    if srcchans =? 0 then UB
    else if decide (srcchans ≤ Z.of_nat (length src)) then
      Done (Some [u16 (u32 (foldr Z.add 0 (take (Z.to_nat srcchans) src)) / srcchans)])
    else UB
  else if srcchans =? 1 then
    m ← or_ub (src !! 0%nat); Done (Some (replicate (Z.to_nat dstchans) m))
  else Done (conv_table srcchans dstchans (λ i, default 0 (src !! i))).

(** [same] is [dst == src]; null pointers are not in the model. *)
Definition roar_conv_volume (same : bool) (dst src : mixer_settings) (dstchans srcchans : Z)
  : outcome (Z * mixer_settings) :=
  if (dstchans <? 0) || (srcchans <? 0) then Done (-1, dst)
  else if dstchans =? srcchans then Done (0, if same then dst else src)
  else
    vals ← conv_values (mx_mixer src) dstchans srcchans;
    match vals with
    | None => Done (-1, dst)
    | Some l =>
        m ← or_ub (mwrite 0 l (mx_mixer dst));
        Done (0, MixerSettings (mx_scale src) (mx_rpg_mul src) (mx_rpg_div src) m)
    end.

(** ** Properties *)

Lemma conv_table_length srcchans dstchans v l :
  conv_table srcchans dstchans v = Some l → Z.of_nat (length l) = dstchans.
Proof. unfold conv_table. repeat case_match; intros [= <-]; done. Qed.

Lemma conv_table_range srcchans dstchans v l lo hi :
  0 ≤ lo → (∀ i, Z.of_nat i < srcchans → lo ≤ v i ≤ hi) →
  conv_table srcchans dstchans v = Some l → Forall (λ x, lo ≤ x ≤ hi) l.
Proof.
  intros Hlo Hv. unfold conv_table.
  assert (Hq2 : ∀ a b, lo ≤ a ≤ hi → lo ≤ b ≤ hi → lo ≤ cdiv (a + b) 2 ≤ hi).
  { intros. rewrite Z.quot_div_nonneg by lia. Z.div_mod_to_equations. lia. }
  assert (Hq4 : ∀ a b c d, lo ≤ a ≤ hi → lo ≤ b ≤ hi → lo ≤ c ≤ hi → lo ≤ d ≤ hi →
    lo ≤ cdiv (a + b + c + d) 4 ≤ hi).
  { intros. rewrite Z.quot_div_nonneg by lia. Z.div_mod_to_equations. lia. }
  repeat case_match; intros [= <-]; subst;
    repeat (apply List.Forall_cons || apply List.Forall_nil);
    repeat (apply Hq2 || apply Hq4 || (apply Hv; lia)).
Qed.

Lemma sum_range (l : list Z) lo hi :
  Forall (λ x, lo ≤ x ≤ hi) l →
  Z.of_nat (length l) * lo ≤ foldr Z.add 0 l ≤ Z.of_nat (length l) * hi.
Proof. induction 1; cbn [foldr length]; lia. Qed.

Lemma conv_values_ok src dstchans srcchans lo hi :
  length src = 64%nat → 0 < srcchans ≤ 64 → 0 < dstchans ≤ 64 → 0 ≤ lo → hi ≤ 65535 →
  Forall (λ x, lo ≤ x ≤ hi) (take (Z.to_nat srcchans) src) →
  ∃ o, conv_values src dstchans srcchans = Done o ∧
    ∀ l, o = Some l → Z.of_nat (length l) = dstchans ∧ Forall (λ x, lo ≤ x ≤ hi) l.
Proof.
  intros Hl Hs Hd Hlo Hhi Hr. unfold conv_values.
  destruct (Z.eqb_spec dstchans 1) as [->|Hd1].
  { rewrite (proj2 (Z.eqb_neq srcchans 0)), decide_True by lia.
    eexists. split; [done|]. intros l [= <-]. split; [done|].
    apply Forall_singleton. pose proof (sum_range _ _ _ Hr) as Hb.
    replace (Z.of_nat (length (take (Z.to_nat srcchans) src))) with srcchans in Hb
      by (rewrite length_take; lia).
    assert (0 ≤ srcchans * lo) by nia. assert (srcchans * hi ≤ 64 * 65535) by nia.
    rewrite (uwrap_id 32) by (change (2 ^ 32) with 4294967296; lia).
    set (q := foldr _ _ _ / srcchans). assert (lo ≤ q ≤ hi) as Hq.
    { subst q. split; [apply Z.div_le_lower_bound; lia|].
      apply Z.lt_succ_r, Z.div_lt_upper_bound; lia. }
    rewrite uwrap_id; [done|]. change (2 ^ 16) with 65536. lia. }
  destruct (Z.eqb_spec srcchans 1) as [->|Hs1].
  { destruct src as [|m src]; [done|]. cbn. eexists. split; [done|].
    intros l [= <-]. rewrite length_replicate. split; [lia|].
    apply Forall_replicate. cbn in Hr. by apply Forall_cons in Hr as [? _]. }
  eexists. split; [done|]. intros l El. split; [by eapply conv_table_length|].
  eapply conv_table_range; [done| |exact El]. intros i Hi.
  destruct (lookup_lt_is_Some_2 src i) as [x Hx]; [lia|]. rewrite Hx. cbn.
  rewrite Forall_lookup in Hr. apply (Hr i). by rewrite lookup_take_lt by lia.
Qed.


