(* ===== verification/Nnode.v ===== *)
(** * Node addresses ([libroar/nnode.c])

    The address of a client's node, its encoding in messages and its
    comparison.  Getting an address from a socket is I/O. *)
From S2P Require Import Prelude.

Definition ROAR_SOCKET_TYPE_UNKNOWN : Z := 0.
Definition ROAR_SOCKET_TYPE_INET : Z := 1.
Definition ROAR_SOCKET_TYPE_UNIX : Z := 2.
Definition ROAR_SOCKET_TYPE_FORK : Z := 3.
Definition ROAR_SOCKET_TYPE_FILE : Z := 4.
Definition ROAR_SOCKET_TYPE_DECNET : Z := 7.
Definition ROAR_SOCKET_TYPE_INET6 : Z := 8.
Definition ROAR_SOCKET_TYPE_IPX : Z := 11.
Definition ROAR_SOCKET_TYPE_MAX : Z := 11.

(** [struct roar_nnode]; [nn_addr] is the storage of the union: 16 octets,
    the first of which are [inet4], or [decnet.area] and [decnet.node]. *)
Record nnode := Nnode { nn_socktype : Z; nn_addr : list Z }.

Definition nnode_wf (n : nnode) : Prop := length (nn_addr n) = 16%nat ∧ Forall octet (nn_addr n).

Definition decnet_area (n : nnode) : Z := s32 (le_val (take 4 (nn_addr n))).
Definition decnet_node (n : nnode) : Z := s32 (le_val (take 4 (drop 4 (nn_addr n)))).
Definition decnet_addr (area node : Z) : list Z :=
  le_bytes 4 area ++ le_bytes 4 node ++ replicate 8 0.

Definition roar_nnode_new (socktype : Z) : nnode := Nnode socktype (replicate 16 0).

Definition roar_nnode_get_socktype (n : nnode) : Z := nn_socktype n.

(** The [switch (socktype)] of [roar_nnode_from_blob]. *)
Definition from_blob_switch (socktype : Z) (blob : list Z) (len : Z)
  : outcome (Z * option nnode * Z) :=
  let n := roar_nnode_new socktype in
  if socktype =? ROAR_SOCKET_TYPE_UNIX then Done (0, Some n, 2)
  else if socktype =? ROAR_SOCKET_TYPE_INET then
    if len <? 6 then Done (-1, Some n, len)
    else
      a ← or_ub (mread 2 4 blob);
      Done (0, Some (Nnode socktype (a ++ replicate 12 0)), 6)
  else if socktype =? ROAR_SOCKET_TYPE_DECNET then
    if len <? 4 then Done (-1, Some n, len)
    else
      _ ← aget blob 2;
      b3 ← aget blob 3;
      Done (0, Some (Nnode socktype
        (decnet_addr (Z.shiftr b3 2) (Z.shiftl (Z.land b3 0x03) 8))), 4)
  else if socktype =? ROAR_SOCKET_TYPE_INET6 then
    if len <? 18 then Done (-1, Some n, len)
    else
      a ← or_ub (mread 2 16 blob);
      Done (0, Some (Nnode socktype a), 18)
  else Done (-1, Some n, len).

(** [blob] are the octets from the pointer on, [len] the value behind the
    length pointer: return value, node (if it was set) and new length. *)
Definition roar_nnode_from_blob (blob : list Z) (len : Z) : outcome (Z * option nnode * Z) :=
  if len <? 2 then Done (-1, None, len)
  else
    bs ← or_ub (mread 0 2 blob);
    from_blob_switch (bswap 2 (le_val bs)) blob len.

(** Return value, the octets stored to [blob], and the new length. *)
Definition roar_nnode_to_blob (n : nnode) (len : Z) : Z * list Z * Z :=
  if len <? 2 then (-1, [], len)
  else
    let head := le_bytes 2 (bswap 2 (nn_socktype n)) in
    let t := nn_socktype n in
    if t =? ROAR_SOCKET_TYPE_UNIX then (0, head, 2)
    else if t =? ROAR_SOCKET_TYPE_INET then
      if len <? 6 then (-1, head, len) else (0, head ++ take 4 (nn_addr n), 6)
    else if t =? ROAR_SOCKET_TYPE_DECNET then
      if len <? 4 then (-1, head, len)
      else (-1, head ++ [u8 (Z.land (decnet_node n) 0x00FF);
                         u8 (Z.lor (Z.shiftr (Z.land (decnet_node n) 0x0300) 8)
                                   (Z.shiftl (decnet_area n) 2))], 4)
    else if t =? ROAR_SOCKET_TYPE_INET6 then
      if len <? 18 then (-1, head, len) else (0, head ++ take 16 (nn_addr n), 18)
    else (-1, head, len).

Definition roar_nnode_cmp (n0 n1 : nnode) : Z :=
  if negb (nn_socktype n0 =? nn_socktype n1) then 1
  else
    let t := nn_socktype n0 in
    if t =? ROAR_SOCKET_TYPE_UNIX then 0
    else if t =? ROAR_SOCKET_TYPE_INET then
      if decide (take 4 (nn_addr n0) = take 4 (nn_addr n1)) then 0 else 1
    else if t =? ROAR_SOCKET_TYPE_DECNET then
      if negb (decnet_area n0 =? decnet_area n1) || negb (decnet_node n0 =? decnet_node n1)
      then 1 else 0
    else if t =? ROAR_SOCKET_TYPE_INET6 then
      if decide (nn_addr n0 = nn_addr n1) then 0 else 1
    else -1.

(** ** Encoding *)

Ltac bools := repeat match goal with
  | H : (_ <? _) = true |- _ => apply Z.ltb_lt in H
  | H : (_ <? _) = false |- _ => apply Z.ltb_ge in H
  end.

(** What [roar_nnode_to_blob] stores never exceeds the room it was given. *)
Lemma to_blob_length n len r bs len' :
  nnode_wf n → roar_nnode_to_blob n len = (r, bs, len') →
  Z.of_nat (length bs) ≤ Z.max 0 len ∧ (r = 0 → len' = Z.of_nat (length bs) ∧ 2 ≤ len').
Proof.
  intros [Hl _]. unfold roar_nnode_to_blob.
  repeat case_match; intros [= <- <- <-]; bools; cbn [length app]; simpl;
    rewrite ?length_take, ?Hl; lia.
Qed.

Lemma from_blob_head t rest len :
  0 ≤ t < 65536 → 2 ≤ len →
  roar_nnode_from_blob (be_bytes 2 t ++ rest) len = from_blob_switch t (be_bytes 2 t ++ rest) len.
Proof.
  intros Ht Hlen. unfold roar_nnode_from_blob.
  rewrite mread_0 by (by rewrite ?length_be_bytes).
  destruct (Z.ltb_spec len 2); [lia|].
  cbn [or_ub]. rewrite bind_Done. rewrite <- (length_be_bytes 2 t) at 1.
  rewrite load_bswap by apply be_bytes_octets. rewrite be_val_bytes. by rewrite Z.mod_small.
Qed.

(** A receiver gets an address that compares equal to the one sent, of the
    types that are sent at all. *)
Lemma nnode_blob_cmp n len bs len' rest len0 :
  nnode_wf n → roar_nnode_to_blob n len = (0, bs, len') → len' ≤ len0 →
  ∃ n', roar_nnode_from_blob (bs ++ rest) len0 = Done (0, Some n', len') ∧ roar_nnode_cmp n n' = 0 ∧ nnode_wf n'.
Proof.
  intros [Hl Ho] Hb Hlen. unfold roar_nnode_to_blob in Hb. rewrite store_bswap in Hb.
  destruct (Z.ltb_spec len 2); [by simplify_eq|].
  destruct (Z.eqb_spec (nn_socktype n) ROAR_SOCKET_TYPE_UNIX) as [Ht|Ht1].
  { rewrite Ht in Hb. simplify_eq. eexists. rewrite from_blob_head by (done || lia). split; [reflexivity|].
    split; [|split; [done|by apply Forall_replicate]]. unfold roar_nnode_cmp. by rewrite Ht. }
  destruct (Z.eqb_spec (nn_socktype n) ROAR_SOCKET_TYPE_INET) as [Ht|Ht2].
  { rewrite Ht in Hb. destruct (len <? 6); [by simplify_eq|]. simplify_eq.
    assert (Ha : length (take 4 (nn_addr n)) = 4%nat) by (rewrite length_take; lia).
    exists (Nnode ROAR_SOCKET_TYPE_INET (take 4 (nn_addr n) ++ replicate 12 0)).
    rewrite <- app_assoc, from_blob_head by (done || lia). split_and!; [| |split; cbn [nn_addr]].
    - unfold from_blob_switch. cbn -[mread be_bytes].
      rewrite (mread_at (be_bytes 2 _) (take 4 (nn_addr n))) by (by rewrite ?length_be_bytes, ?Ha).
      by destruct (Z.ltb_spec len0 6); [lia|].
    - unfold roar_nnode_cmp. rewrite Ht. cbn [nn_socktype nn_addr].
      rewrite take_app_length' by done. cbn. by rewrite decide_True.
    - by rewrite length_app, Ha.
    - apply Forall_app_2; [by apply Forall_take|by apply Forall_replicate]. }
  destruct (Z.eqb_spec (nn_socktype n) ROAR_SOCKET_TYPE_DECNET) as [Ht|Ht3].
  { destruct (len <? 4); simplify_eq. }
  destruct (Z.eqb_spec (nn_socktype n) ROAR_SOCKET_TYPE_INET6) as [Ht|Ht4]; [|by simplify_eq].
  rewrite Ht in Hb. destruct (len <? 18); [by simplify_eq|]. simplify_eq.
  assert (Ha : take 16 (nn_addr n) = nn_addr n) by (apply take_ge; lia). rewrite Ha.
  exists (Nnode ROAR_SOCKET_TYPE_INET6 (nn_addr n)).
  rewrite <- app_assoc, from_blob_head by (done || lia). split_and!; [| |split; cbn [nn_addr]; done].
  - unfold from_blob_switch. cbn -[mread be_bytes].
    rewrite (mread_at (be_bytes 2 _) (nn_addr n)) by (by rewrite ?length_be_bytes, ?Hl).
    by destruct (Z.ltb_spec len0 18); [lia|].
  - unfold roar_nnode_cmp. rewrite Ht. cbn. by rewrite decide_True.
Qed.
