(* ===== verification/Buffer.v ===== *)
(** * Buffers ([libroar/buffer.c])

    A [struct roar_buffer] is a window on a block of memory and a link to the
    next buffer; chains of them are queues of octets, and a single one can be
    a ring.  Buffers and blocks live in an explicit memory with [malloc] and
    [free], so leaks, double frees and stale pointers are visible. *)
From S2P Require Import Prelude.

(** ** Memory *)

(** The [union] of [struct roar_buffer]; reading another member than the one
    that was written is undefined here. *)
Inductive bmeta :=
  | MetaNone
  | MetaVp (vp : Z)
  | MetaI32 (i32 : Z)
  | MetaRing (read_pos write_pos : Z).

(** [struct roar_buffer]; [rb_data] is a block, [rb_user] a block and an
    offset into it. *)
Record rbuf := RBuf {
  rb_len : Z; rb_user_len : Z; rb_flags : Z; rb_data : Z; rb_user : Z * Z;
  rb_meta : bmeta; rb_next : option Z }.

(** Addresses are given out in order, [bm_brk] is the next.  [bm_fail] says
    which of the next allocations fail, [bm_garbage] what a fresh block
    holds. *)
Record bmem := BMem {
  bm_bufs : gmap Z rbuf; bm_blocks : gmap Z (list Z); bm_brk : Z;
  bm_fail : list bool; bm_garbage : Z → nat → Z }.

Definition BM (A : Type) : Type := bmem → outcome (A * bmem).
#[export] Instance BM_ret : MRet BM := λ A a m, Done (a, m).
#[export] Instance BM_bind : MBind BM := λ A B f x m, am ← x m; f am.1 am.2.

Definition bgets {A} (f : bmem → A) : BM A := λ m, Done (f m, m).
Definition bmodify (f : bmem → bmem) : BM () := λ m, Done ((), f m).
Definition blift {A} (o : outcome A) : BM A := λ m, a ← o; Done (a, m).

Definition buf_at (l : Z) : BM rbuf := λ m, b ← or_ub (bm_bufs m !! l); Done (b, m).
Definition upd_buf (l : Z) (f : rbuf → rbuf) : BM () :=
  b ← buf_at l; bmodify (λ m, m<|bm_bufs := <[l := f b]> (bm_bufs m)|>).
Definition free_buf (l : Z) : BM () :=
  buf_at l ;; bmodify (λ m, m<|bm_bufs := delete l (bm_bufs m)|>).
Definition block_at (d : Z) : BM (list Z) := λ m, b ← or_ub (bm_blocks m !! d); Done (b, m).
Definition free_block (d : Z) : BM () :=
  block_at d ;;
  bmodify (λ m, m<|bm_blocks := delete d (bm_blocks m)|>).

(** The access to [n] octets behind a pointer. *)
Definition mem_read (p : Z * Z) (n : Z) : BM (list Z) := λ m,
  blk ← or_ub (bm_blocks m !! p.1);
  bs ← (if decide (0 ≤ p.2 ∧ 0 ≤ n) then or_ub (mread (Z.to_nat p.2) (Z.to_nat n) blk) else UB);
  Done (bs, m).
Definition mem_write (p : Z * Z) (bs : list Z) : BM () := λ m,
  blk ← or_ub (bm_blocks m !! p.1);
  blk ← (if decide (0 ≤ p.2) then or_ub (mwrite (Z.to_nat p.2) bs blk) else UB);
  Done ((), m<|bm_blocks := <[p.1 := blk]> (bm_blocks m)|>).

Definition malloc_fails : BM bool := λ m,
  match bm_fail m with
  | [] => Done (false, m)
  | f :: fs => Done (f, m<|bm_fail := fs|>)
  end.
Definition fresh_block (m : bmem) (len : Z) : list Z := bm_garbage m (bm_brk m) <$> seq 0 (Z.to_nat len).
Definition malloc_block (len : Z) : BM (option Z) :=
  f ← malloc_fails;
  if f : bool then mret None
  else d ← bgets bm_brk;
       bmodify (λ m, m<|bm_blocks := <[d := fresh_block m len]> (bm_blocks m)|><|bm_brk := d + 1|>) ;;
       mret (Some d).
Definition malloc_buf (b : rbuf) : BM (option Z) :=
  f ← malloc_fails;
  if f : bool then mret None
  else l ← bgets bm_brk;
       bmodify (λ m, m<|bm_bufs := <[l := b]> (bm_bufs m)|><|bm_brk := l + 1|>) ;;
       mret (Some l).

(** [roar_mm_realloc]: the old block is gone unless the allocation fails. *)
Definition realloc_block (d len : Z) : BM (option Z) :=
  blk ← block_at d;
  o ← malloc_block len;
  match o with
  | None => mret None
  | Some d' =>
      new ← block_at d';
      bmodify (λ m, m<|bm_blocks := <[d' := take (Z.to_nat len) blk ++ drop (length blk) new]> (bm_blocks m)|>) ;;
      free_block d ;;
      mret (Some d')
  end.

Definition no_bfuel {A} : BM A := λ m, Fuel.

(** Enough rounds for any chain without a cycle. *)
Definition chain_fuel (m : bmem) : nat := S (size (bm_bufs m)).

(** ** Operations *)

Definition ROAR_BUFFER_FLAG_NOFREE : Z := 1.
Definition ROAR_BUFFER_FLAG_RING : Z := 2.
Definition ROAR_BUFFER_FLAG_FREE_RUNNING : Z := 4.

(** The checks for the null pointer. *)
Definition non_null {A} (buf : option Z) (ret : A) (f : Z → BM A) : BM A :=
  match buf with None => mret ret | Some l => f l end.

(** The return value and [*buf]. *)
Definition roar_buffer_new_no_ma (len : Z) (data : option Z) : BM (Z * option Z) :=
  match data with
  | None => mret (-1, None)
  | Some d =>
      new ← malloc_buf (RBuf len len ROAR_BUFFER_FLAG_NOFREE d (d, 0) MetaNone None);
      match new with None => mret (-1, None) | Some l => mret (0, Some l) end
  end.

Definition roar_buffer_set_flag (buf : option Z) (flag : Z) (reset : bool) : BM Z :=
  non_null buf (-1) (λ l,
    upd_buf l (λ b, b<|rb_flags := Z.lor (rb_flags b) flag|>) ;;
    (if reset then upd_buf l (λ b, b<|rb_flags := rb_flags b - flag|>) else mret ()) ;;
    mret 0).

Definition roar_buffer_get_flag (buf : option Z) (flag : Z) : BM Z :=
  non_null buf (-1) (λ l, b ← buf_at l; mret (Z.land (rb_flags b) flag)).

(** [if ( roar_buffer_get_flag(buf, NOFREE) != 1 ) free(buf->data); free(buf);] *)
Definition release (l : Z) : BM () :=
  f ← roar_buffer_get_flag (Some l) ROAR_BUFFER_FLAG_NOFREE;
  b ← buf_at l;
  (if f =? 1 then mret () else free_block (rb_data b)) ;;
  free_buf l.

Fixpoint free_loop (fuel : nat) (l : Z) : BM Z :=
  match fuel with
  | O => no_bfuel
  | S fuel =>
      b ← buf_at l;
      release l ;;
      match rb_next b with None => mret 0 | Some next => free_loop fuel next end
  end.

Definition roar_buffer_free (buf : option Z) : BM Z :=
  non_null buf (-1) (λ l, fuel ← bgets chain_fuel; free_loop fuel l).

(** The return value, [*buf] and [*data]. *)
Definition roar_buffer_new_data (len : Z) : BM (Z * option Z * option Z) :=
  o ← malloc_block len;
  match o with
  | None => mret (-1, None, None)
  | Some d =>
      '(r, buf) ← roar_buffer_new_no_ma len (Some d);
      if r =? -1 then free_block d ;; mret (-1, None, None)
      else
        r ← roar_buffer_set_flag buf ROAR_BUFFER_FLAG_NOFREE true;
        if r =? -1 then roar_buffer_free buf ;; free_block d ;; mret (-1, None, None)
        else mret (0, buf, Some d)
  end.

Definition roar_buffer_new (len : Z) : BM (Z * option Z) :=
  '(r, buf, _) ← roar_buffer_new_data len; mret (r, buf).

(** [*next] is always stored. *)
Definition roar_buffer_delete (buf : option Z) : BM (Z * option Z) :=
  non_null buf (-1, None) (λ l, b ← buf_at l; release l ;; mret (0, rb_next b)).

(** [roar_buffer_next(&cur)]: the new [cur]. *)
Definition roar_buffer_next (buf : option Z) : BM (Z * option Z) := roar_buffer_delete buf.

(** The [while] loop; that [next] is met on the way is reported and ignored. *)
Fixpoint last_buf (fuel : nat) (l : Z) : BM Z :=
  match fuel with
  | O => no_bfuel
  | S fuel =>
      b ← buf_at l;
      match rb_next b with None => mret l | Some l' => last_buf fuel l' end
  end.

Definition roar_buffer_add (buf next : option Z) : BM Z :=
  non_null buf (-1) (λ l,
    b ← buf_at l;
    if has_flag (rb_flags b) ROAR_BUFFER_FLAG_RING then mret (-1)
    else if decide (buf = next) then mret (-1)
    else
      fuel ← bgets chain_fuel;
      e ← last_buf fuel l;
      upd_buf e (λ b, b<|rb_next := next|>) ;;
      mret 0).

Definition roar_buffer_get_next (buf : option Z) : BM (Z * option Z) :=
  non_null buf (-1, None) (λ l, b ← buf_at l; mret (0, rb_next b)).

Definition roar_buffer_get_data (buf : option Z) : BM (Z * (Z * Z)) :=
  non_null buf (-1, (0, 0)) (λ l, b ← buf_at l; mret (0, rb_user b)).

Definition roar_buffer_set_offset (buf : option Z) (off : Z) : BM Z :=
  non_null buf (-1) (λ l,
    upd_buf l (λ b, b<|rb_user_len := u64 (rb_user_len b - off)|>
                     <|rb_user := ((rb_user b).1, (rb_user b).2 + off)|>) ;;
    mret 0).

Definition roar_buffer_get_len (buf : option Z) : BM (Z * Z) :=
  non_null buf (-1, 0) (λ l, b ← buf_at l; mret (0, rb_user_len b)).

(** The loop of [roar_buffer_shift_out]: the octets stored at [data] so far
    and [cur]. *)
Fixpoint shift_loop (fuel : nat) (todo : Z) (cur : option Z) (acc : list Z) : BM (list Z * option Z) :=
  match fuel with
  | O => no_bfuel
  | S fuel =>
      if (todo =? 0) || bool_decide (cur = None) then mret (acc, cur)
      else
        '(_, cl) ← roar_buffer_get_len cur;
        '(_, cd) ← roar_buffer_get_data cur;
        if todo <? cl then
          bs ← mem_read cd todo;
          roar_buffer_set_offset cur todo ;;
          shift_loop fuel 0 cur (acc ++ bs)
        else
          bs ← mem_read cd cl;
          '(_, next) ← roar_buffer_next cur;
          shift_loop fuel (todo - cl) next (acc ++ bs)
  end.

(** The return value, the [*len] octets at [data], and [*buf]. *)
Definition roar_buffer_shift_out (buf : option Z) (len : Z) : BM (Z * list Z * option Z) :=
  match buf with
  | None => mret (-1, [], None)
  | Some _ =>
      fuel ← bgets chain_fuel;
      '(bs, cur) ← shift_loop (S fuel) len buf [];
      mret (0, bs, cur)
  end.

Definition roar_buffer_set_meta (buf : option Z) (meta : Z) : BM Z :=
  non_null buf (-1) (λ l, upd_buf l (λ b, b<|rb_meta := MetaVp meta|>) ;; mret 0).
Definition roar_buffer_get_meta (buf : option Z) : BM (Z * Z) :=
  non_null buf (-1, 0) (λ l, b ← buf_at l;
    match rb_meta b with MetaVp vp => mret (0, vp) | _ => blift UB end).
Definition roar_buffer_set_meta_i32 (buf : option Z) (meta : Z) : BM Z :=
  non_null buf (-1) (λ l, upd_buf l (λ b, b<|rb_meta := MetaI32 meta|>) ;; mret 0).
Definition roar_buffer_get_meta_i32 (buf : option Z) : BM (Z * Z) :=
  non_null buf (-1, 0) (λ l, b ← buf_at l;
    match rb_meta b with MetaI32 i => mret (0, i) | _ => blift UB end).

Definition roar_buffer_set_len (buf : option Z) (len : Z) : BM Z :=
  non_null buf (-1) (λ l,
    b ← buf_at l;
    (if negb (len =? 0) && (rb_user_len b =? 0)
     then upd_buf l (λ b, b<|rb_user := (rb_data b, 0)|><|rb_user_len := rb_len b|>) else mret ()) ;;
    b ← buf_at l;
    if rb_user_len b <? len then
      if has_flag (rb_flags b) ROAR_BUFFER_FLAG_NOFREE then mret (-1)
      else
        let totlen := u64 (rb_len b - rb_user_len b + len) in
        newbuf ← realloc_block (rb_data b) totlen;
        match newbuf with
        | None => mret (-1)
        | Some d => upd_buf l (λ b, b<|rb_data := d|><|rb_user_len := len|>) ;; mret 0
        end
    else upd_buf l (λ b, b<|rb_user_len := len|>) ;; mret 0).

(** The loop of [roar_buffer_duplicate]: the return value and [*copy]. *)
Fixpoint duplicate_loop (fuel : nat) (cur copy : option Z) : BM (Z * option Z) :=
  match fuel, cur with
  | _, None => mret (0, copy)
  | O, _ => no_bfuel
  | S fuel, Some l =>
      b ← buf_at l;
      '(r, new) ← roar_buffer_new (rb_user_len b);
      if r =? -1 then roar_buffer_free copy ;; mret (-1, copy)
      else
        let copy := match copy with None => new | _ => copy end in
        '(_, od) ← roar_buffer_get_data cur;
        '(_, nd) ← roar_buffer_get_data new;
        bs ← mem_read od (rb_user_len b);
        mem_write nd bs ;;
        roar_buffer_add copy new ;;
        b ← buf_at l;
        duplicate_loop fuel (rb_next b) copy
  end.

Definition roar_buffer_duplicate (buf : option Z) : BM (Z * option Z) :=
  fuel ← bgets chain_fuel; duplicate_loop fuel buf None.

(** [struct roar_buffer_stats]; a [struct roar_buffer] has 64 octets. *)
Record bstats := BStats { bs_parts : Z; bs_bytes : Z; bs_memory_usage : Z }.
Definition SIZEOF_ROAR_BUFFER : Z := 64.

Fixpoint stats_loop (fuel : nat) (buf : option Z) (st : bstats) : BM bstats :=
  match fuel, buf with
  | _, None => mret st
  | O, _ => no_bfuel
  | S fuel, Some l =>
      b ← buf_at l;
      stats_loop fuel (rb_next b)
        (BStats (bs_parts st + 1) (s32 (bs_bytes st + rb_user_len b))
                (s32 (bs_memory_usage st + rb_len b + SIZEOF_ROAR_BUFFER)))
  end.

Definition roar_buffer_ring_stats (buf : option Z) : BM (Z * bstats) :=
  non_null buf (-1, BStats 0 0 0) (λ l,
    fuel ← bgets chain_fuel; st ← stats_loop fuel buf (BStats 0 0 0); mret (0, st)).

(** ** Rings *)

Definition roar_buffer_ring_new (len : Z) (free_running : bool) : BM (Z * option Z) :=
  if (len =? 0) || negb free_running then mret (-1, None)
  else
    '(r, n) ← roar_buffer_new len;
    if r =? -1 then mret (-1, None)
    else non_null n (-1, None) (λ l,
      upd_buf l (λ b, b<|rb_flags := Z.lor (Z.lor (rb_flags b) ROAR_BUFFER_FLAG_RING) ROAR_BUFFER_FLAG_FREE_RUNNING|>
                       <|rb_meta := MetaRing 0 0|>) ;;
      b ← buf_at l;
      mem_write (rb_data b, 0) (replicate (Z.to_nat (rb_len b)) 0) ;;
      mret (0, Some l)).

Definition ring_pos (b : rbuf) : BM (Z * Z) :=
  match rb_meta b with MetaRing r w => mret (r, w) | _ => blift UB end.

Definition skip (p : Z * Z) (n : Z) : Z * Z := (p.1, p.2 + n).

(** [data] is what the caller's room of [*len] octets holds before; the return
    value and what it holds after. *)
Definition roar_buffer_ring_read (buf : option Z) (data : list Z) : BM (Z * list Z) :=
  let len := Z.of_nat (length data) in
  non_null buf (-1, data) (λ l,
    b ← buf_at l;
    if negb (has_flag (rb_flags b) ROAR_BUFFER_FLAG_RING) then mret (-1, data)
    else if len =? 0 then mret (0, data)
    else if rb_user_len b <? len then mret (-1, data)
    else
      '(r, w) ← ring_pos b;
      let r := if rb_user_len b <=? r then r - rb_user_len b else r in
      if rb_user_len b <? len + r then
        part1 ← mem_read (skip (rb_user b) r) (rb_user_len b - r);
        data ← blift (or_ub (mwrite 0 part1 data));
        part2 ← mem_read (rb_user b) (len + r - rb_user_len b);
        data ← blift (or_ub (mwrite 0 part2 data));
        upd_buf l (λ b, b<|rb_meta := MetaRing (r + len - rb_user_len b) w|>) ;;
        mret (0, data)
      else
        bs ← mem_read (skip (rb_user b) r) len;
        upd_buf l (λ b, b<|rb_meta := MetaRing (r + len) w|>) ;;
        mret (0, bs)).

Definition roar_buffer_ring_write (buf : option Z) (data : list Z) : BM Z :=
  let len := Z.of_nat (length data) in
  non_null buf (-1) (λ l,
    b ← buf_at l;
    if negb (has_flag (rb_flags b) ROAR_BUFFER_FLAG_RING) then mret (-1)
    else if len =? 0 then mret 0
    else if rb_user_len b <? len then mret (-1)
    else
      '(r, w) ← ring_pos b;
      let w := if rb_user_len b <=? w then w - rb_user_len b else w in
      if rb_user_len b <? len + w then
        mem_write (skip (rb_user b) w) (take (Z.to_nat (rb_user_len b - w)) data) ;;
        mem_write (rb_user b) (take (Z.to_nat (len + w - rb_user_len b)) data) ;;
        upd_buf l (λ b, b<|rb_meta := MetaRing r (w + len - rb_user_len b)|>) ;;
        mret 0
      else
        mem_write (skip (rb_user b) w) data ;;
        upd_buf l (λ b, b<|rb_meta := MetaRing r (w + len)|>) ;;
        mret 0).

(** ** Chains as sequences *)

Lemma bm_bind {A B} (x : BM A) (f : A → BM B) m a m' : x m = Done (a, m') → (x ≫= f) m = f a m'.
Proof. unfold mbind, BM_bind. by intros ->. Qed.

(** One step of a computation whose first part is known. *)
Ltac bstep H := rewrite (bm_bind _ _ _ _ _ H).

Lemma blift_Done {A} (x : A) m : blift (Done x) m = Done (x, m).
Proof. done. Qed.

Lemma buf_at_Some m l b : bm_bufs m !! l = Some b → buf_at l m = Done (b, m).
Proof. unfold buf_at. by intros ->. Qed.

Lemma block_at_Some m d blk : bm_blocks m !! d = Some blk → block_at d m = Done (blk, m).
Proof. unfold block_at. by intros ->. Qed.

Definition with_buf (l : Z) (b : rbuf) (m : bmem) : bmem := m<|bm_bufs := <[l := b]> (bm_bufs m)|>.

Lemma upd_buf_Some m l b f : bm_bufs m !! l = Some b → upd_buf l f m = Done ((), with_buf l (f b) m).
Proof. intros H. unfold upd_buf. by bstep (buf_at_Some _ _ _ H). Qed.

(** A buffer's address, its block, and the octets of its window. *)
Abbreviation bent := (Z * Z * list Z)%type.
Definition contents (es : list bent) : list Z := mjoin es.*2.
Abbreviation addrs es := (fst <$> es.*1).
Abbreviation blks es := (snd <$> es.*1).

(** A buffer of a chain: one that owns its block and is no ring. *)
Record holds (m : bmem) (e : bent) (next : option Z) (b : rbuf) (blk : list Z) (off : nat) : Prop := {
  h_buf : bm_bufs m !! e.1.1 = Some b;
  h_data : rb_data b = e.1.2;
  h_blk : bm_blocks m !! e.1.2 = Some blk;
  h_user : rb_user b = (e.1.2, Z.of_nat off);
  h_len : rb_user_len b = Z.of_nat (length e.2);
  h_max : Z.of_nat (length e.2) < 2 ^ 64;
  h_bytes : mread off (length e.2) blk = Some e.2;
  h_free : Z.land (rb_flags b) ROAR_BUFFER_FLAG_NOFREE = 0;
  h_ring : has_flag (rb_flags b) ROAR_BUFFER_FLAG_RING = false;
  h_next : rb_next b = next
}.

Fixpoint chain (m : bmem) (cur : option Z) (es : list bent) (fin : option Z) : Prop :=
  match es with
  | [] => cur = fin
  | e :: es => cur = Some e.1.1 ∧ ∃ next b blk off, holds m e next b blk off ∧ chain m next es fin
  end.

(** The buffers [L] and the blocks [D] are the same in both memories. *)
Definition same_at (m m' : bmem) (L D : list Z) : Prop :=
  (∀ l, l ∈ L → bm_bufs m' !! l = bm_bufs m !! l) ∧ (∀ d, d ∈ D → bm_blocks m' !! d = bm_blocks m !! d).

(** Nothing else than the buffers [L] and the blocks [D] is changed. *)
Definition only (m m' : bmem) (L D : list Z) : Prop :=
  (∀ l, l ∉ L → bm_bufs m' !! l = bm_bufs m !! l) ∧ (∀ d, d ∉ D → bm_blocks m' !! d = bm_blocks m !! d).

Lemma holds_ext m m' e next b blk off :
  bm_bufs m' !! e.1.1 = bm_bufs m !! e.1.1 → bm_blocks m' !! e.1.2 = bm_blocks m !! e.1.2 →
  holds m e next b blk off → holds m' e next b blk off.
Proof. intros E1 E2 []. split; congruence. Qed.

Lemma chain_ext m m' cur es fin : same_at m m' (addrs es) (blks es) → chain m cur es fin → chain m' cur es fin.
Proof.
  revert cur. induction es as [|e es IH]; intros cur [Hl Hd]; cbn; [done|].
  intros (-> & next & b & blk & off & Hh & Hc). split; [done|]. exists next, b, blk, off. split.
  - eapply holds_ext; [| |exact Hh]; [apply Hl|apply Hd]; by left.
  - apply IH; [|done]. split; intros; [apply Hl|apply Hd]; by right.
Qed.

Lemma chain_app m cur es1 es2 fin :
  chain m cur (es1 ++ es2) fin ↔ ∃ mid, chain m cur es1 mid ∧ chain m mid es2 fin.
Proof.
  revert cur. induction es1 as [|e es1 IH]; intros cur; cbn.
  - split; [eauto|]. by intros (mid & -> & ?).
  - split.
    + intros (-> & next & b & blk & off & Hh & (mid & H1 & H2)%IH). eauto 12.
    + intros (mid & (-> & next & b & blk & off & Hh & H1) & H2). split; [done|]. exists next, b, blk, off.
      split; [done|]. apply IH. eauto.
Qed.

Lemma chain_live m cur es fin : chain m cur es fin →
  (∀ l, l ∈ addrs es → is_Some (bm_bufs m !! l)) ∧ (∀ d, d ∈ blks es → is_Some (bm_blocks m !! d)).
Proof.
  revert cur. induction es as [|e es IH]; intros cur; cbn; [by split; intros ? ?%elem_of_nil|].
  intros (_ & next & b & blk & off & [] & [H1 H2]%IH).
  split; intros ? [->|?]%elem_of_cons; eauto.
Qed.

Lemma chain_length m cur es fin : chain m cur es fin → NoDup (addrs es) → (length es ≤ size (bm_bufs m))%nat.
Proof.
  intros Hs Hn. apply chain_live in Hs as [Hs _]. rewrite <- (length_fmap fst es), <- (length_fmap fst es.*1), <- size_dom.
  rewrite <- (size_list_to_set (C := gset Z)) by done. apply subseteq_size.
  intros l Hl%elem_of_list_to_set. apply elem_of_dom. eauto.
Qed.

Lemma mread_take off n k blk bs : mread off n blk = Some bs → (k ≤ n)%nat → mread off k blk = Some (take k bs).
Proof.
  unfold mread. case_decide; [intros [= <-]|done]. intros. rewrite decide_True by lia. f_equal.
  by rewrite take_take, Nat.min_l.
Qed.

Lemma mread_drop off n k blk bs :
  mread off n blk = Some bs → (k ≤ n)%nat → mread (off + k) (n - k) blk = Some (drop k bs).
Proof.
  unfold mread. case_decide; [intros [= <-]|done]. intros. rewrite decide_True by lia. f_equal.
  by rewrite skipn_firstn_comm, drop_drop.
Qed.

(** ** What the operations do to chains *)

Definition without (l d : Z) (m : bmem) : bmem :=
  m<|bm_bufs := delete l (bm_bufs m)|><|bm_blocks := delete d (bm_blocks m)|>.

Section single.
Context (m : bmem) (e : bent) (next : option Z) (b : rbuf) (blk : list Z) (off : nat).
Context (H : holds m e next b blk off).

Lemma get_len_run : roar_buffer_get_len (Some e.1.1) m = Done (0, Z.of_nat (length e.2), m).
Proof using H. unfold roar_buffer_get_len. cbn. bstep (buf_at_Some _ _ _ (h_buf _ _ _ _ _ _ H)). by rewrite (h_len _ _ _ _ _ _ H). Qed.

Lemma get_data_run : roar_buffer_get_data (Some e.1.1) m = Done (0, (e.1.2, Z.of_nat off), m).
Proof using H. unfold roar_buffer_get_data. cbn. bstep (buf_at_Some _ _ _ (h_buf _ _ _ _ _ _ H)). by rewrite (h_user _ _ _ _ _ _ H). Qed.

Lemma mem_read_run k : 0 ≤ k ≤ Z.of_nat (length e.2) →
  mem_read (e.1.2, Z.of_nat off) k m = Done (take (Z.to_nat k) e.2, m).
Proof using H.
  intros Hk. unfold mem_read. cbn [fst snd]. rewrite (h_blk _ _ _ _ _ _ H). cbn [or_ub]. rewrite bind_Done.
  rewrite decide_True, Nat2Z.id by lia.
  by rewrite (mread_take _ _ _ _ _ (h_bytes _ _ _ _ _ _ H)) by lia.
Qed.

Lemma release_run : release e.1.1 m = Done ((), without e.1.1 e.1.2 m).
Proof using H.
  unfold release, roar_buffer_get_flag. cbn [non_null].
  bstep (bm_bind (buf_at e.1.1) (λ b, mret (Z.land (rb_flags b) ROAR_BUFFER_FLAG_NOFREE)) m b m
           (buf_at_Some _ _ _ (h_buf _ _ _ _ _ _ H))).
  rewrite (h_free _ _ _ _ _ _ H). bstep (buf_at_Some _ _ _ (h_buf _ _ _ _ _ _ H)). cbn [Z.eqb].
  rewrite (h_data _ _ _ _ _ _ H). unfold free_block, free_buf.
  unfold mbind, BM_bind. rewrite (block_at_Some _ _ _ (h_blk _ _ _ _ _ _ H)). cbn [mbind outcome_bind fst snd].
  unfold bmodify, buf_at, without. cbn [fst snd]. pose proof (h_buf _ _ _ _ _ _ H) as Hb.
  destruct m. cbn in *. by rewrite Hb.
Qed.

Lemma delete_run : roar_buffer_delete (Some e.1.1) m = Done (0, next, without e.1.1 e.1.2 m).
Proof using H.
  unfold roar_buffer_delete. cbn [non_null]. bstep (buf_at_Some _ _ _ (h_buf _ _ _ _ _ _ H)).
  bstep release_run. by rewrite (h_next _ _ _ _ _ _ H).
Qed.

Lemma set_offset_run k : 0 ≤ k ≤ Z.of_nat (length e.2) →
  ∃ b', roar_buffer_set_offset (Some e.1.1) k m = Done (0, with_buf e.1.1 b' m) ∧
    holds (with_buf e.1.1 b' m) (e.1, drop (Z.to_nat k) e.2) next b' blk (off + Z.to_nat k).
Proof using H.
  intros Hk. unfold roar_buffer_set_offset. cbn [non_null].
  eexists. split; [bstep (upd_buf_Some _ _ _ (λ b, b<|rb_user_len := u64 (rb_user_len b - k)|>
    <|rb_user := ((rb_user b).1, (rb_user b).2 + k)|>) (h_buf _ _ _ _ _ _ H)); reflexivity|].
  pose proof H as H'. destruct H' as [H1 H2 H3 H4 H5 H6 H7 H8 H9 H10]. destruct b as [bl bu bf bd bur bm bn].
  unfold with_buf. destruct m as [bufs blocks brk fails garb]. cbn in *. subst.
  split; cbn; try done.
  - by rewrite lookup_insert_eq.
  - f_equal. lia.
  - rewrite length_drop. rewrite uwrap_id; lia.
  - rewrite length_drop. lia.
  - rewrite length_drop. apply mread_drop; [done|lia].
Qed.
End single.

(** [m'] is [m] after the front of the chain [es] was taken away and [es'] is
    left: whole buffers are freed with their blocks, nothing else changes. *)
Record consumed (m m' : bmem) (es es' : list bent) : Prop := {
  c_suffix : ∃ k, es'.*1 = drop k es.*1 ∧
    ∀ x, x ∈ take k es.*1 → bm_bufs m' !! x.1 = None ∧ bm_blocks m' !! x.2 = None;
  c_only : only m m' (addrs es) (blks es);
  c_brk : bm_brk m' = bm_brk m;
  c_fail : bm_fail m' = bm_fail m;
  c_garbage : bm_garbage m' = bm_garbage m
}.

Lemma consumed_refl m es : consumed m m es es.
Proof. split; try done. exists 0%nat. rewrite drop_0. split; [done|]. by intros x ?%elem_of_nil. Qed.

Lemma consumed_cons m m1 m' e es es' :
  m1 = without e.1.1 e.1.2 m → NoDup (addrs (e :: es)) → NoDup (blks (e :: es)) →
  consumed m1 m' es es' → consumed m m' (e :: es) es'.
Proof.
  intros -> [Hna _]%NoDup_cons [Hnb _]%NoDup_cons [(k & Hk & Hg) [Ho1 Ho2] H3 H4 H5]. destruct m as [bufs blocks brk fa ga].
  cbn in *. split; cbn; try done.
  - exists (S k). split; [done|]. cbn. intros x [->|Hx]%elem_of_cons; [|auto].
    split; [rewrite Ho1 by done|rewrite Ho2 by done]; apply lookup_delete_eq.
  - split; intros l [Hne Hl]%not_elem_of_cons; [rewrite Ho1 by done|rewrite Ho2 by done]; by apply lookup_delete_ne.
Qed.

Lemma shift_loop_spec fuel todo cur es acc m :
  chain m cur es None → NoDup (addrs es) → NoDup (blks es) → 0 ≤ todo → (S (length es) < fuel)%nat →
  ∃ cur' es' m', shift_loop fuel todo cur acc m = Done (acc ++ take (Z.to_nat todo) (contents es), cur', m') ∧
    chain m' cur' es' None ∧ contents es' = drop (Z.to_nat todo) (contents es) ∧ consumed m m' es es'.
Proof.
  revert fuel todo cur acc m. induction es as [|e es IH]; intros fuel todo cur acc m Hc Ha Hb Ht Hf;
    (destruct fuel as [|fuel]; [lia|]); cbn [shift_loop].
  - cbn in Hc. subst. exists None, [], m. rewrite orb_true_r. cbn. rewrite take_nil, app_nil_r, drop_nil.
    split_and!; [done..|]. apply consumed_refl.
  - destruct Hc as (-> & next & b & blk & off & H & Hc). destruct (Z.eqb_spec todo 0) as [->|Hne]; cbn [orb].
    { exists (Some e.1.1), (e :: es), m. cbn [Z.to_nat take drop]. rewrite app_nil_r. split_and!; [done| |done|].
      - cbn. eauto 10.
      - apply consumed_refl. }
    rewrite bool_decide_eq_false_2 by done. cbn [orb]. bstep (get_len_run _ _ _ _ _ _ H). bstep (get_data_run _ _ _ _ _ _ H).
    change (contents (e :: es)) with (e.2 ++ contents es). destruct (Z.ltb_spec todo (Z.of_nat (length e.2))) as [Hlt|Hge].
    + bstep (mem_read_run _ _ _ _ _ _ H todo ltac:(lia)).
      destruct (set_offset_run _ _ _ _ _ _ H todo ltac:(lia)) as (b' & E & H'). bstep E.
      destruct fuel as [|fuel]; [lia|]. cbn [shift_loop Z.eqb orb].
      exists (Some e.1.1), ((e.1, drop (Z.to_nat todo) e.2) :: es), (with_buf e.1.1 b' m).
      rewrite take_app_le, drop_app_le by lia. split_and!; [done| |done|].
      * cbn. split; [done|]. exists next, b', blk, (off + Z.to_nat todo)%nat. split; [done|].
        eapply chain_ext; [|exact Hc]. cbn in Ha. apply NoDup_cons in Ha as [Ha _].
        destruct m. split; cbn; [|done]. intros l Hl. apply lookup_insert_ne. by intros <-.
      * destruct m. split; try done.
        -- exists 0%nat. split; [done|]. by intros x ?%elem_of_nil.
        -- split; cbn; [|done]. intros l [Hl _]%not_elem_of_cons. by apply lookup_insert_ne.
    + bstep (mem_read_run _ _ _ _ _ _ H (Z.of_nat (length e.2)) ltac:(lia)).
      unfold roar_buffer_next. bstep (delete_run _ _ _ _ _ _ H). rewrite Nat2Z.id, take_ge by lia.
      destruct (IH fuel (todo - Z.of_nat (length e.2)) next (acc ++ e.2) (without e.1.1 e.1.2 m))
        as (cur' & es' & m' & -> & H1 & H2 & H3).
      * cbn in Ha, Hb. apply NoDup_cons in Ha as [Ha _], Hb as [Hb _]. eapply chain_ext; [|exact Hc].
        destruct m. split; cbn; intros l Hl; apply lookup_delete_ne; by intros <-.
      * by apply NoDup_cons in Ha as [_ Ha].
      * by apply NoDup_cons in Hb as [_ Hb].
      * lia.
      * simpl in Hf. lia.
      * exists cur', es', m'. split_and!; [|done| |by eapply consumed_cons].
        -- rewrite take_app_ge by lia. rewrite <- app_assoc. do 6 f_equal. lia.
        -- rewrite H2, drop_app_ge by lia. f_equal. lia.
Qed.

Lemma shift_out_run (m : bmem) (cur : option Z) (es : list bent) (len : Z) :
  chain m cur es None → NoDup (addrs es) → NoDup (blks es) → cur ≠ None → 0 ≤ len →
  ∃ cur' es' m',
    roar_buffer_shift_out cur len m = Done (0, take (Z.to_nat len) (contents es), cur', m') ∧
    chain m' cur' es' None ∧ contents es' = drop (Z.to_nat len) (contents es) ∧ consumed m m' es es'.
Proof.
  intros Hc Ha Hb Hcur Hl. destruct cur as [l|]; [|done]. unfold roar_buffer_shift_out.
  unfold mbind at 1, BM_bind at 1, bgets. cbn [mbind outcome_bind fst snd].
  destruct (shift_loop_spec (S (chain_fuel m)) len (Some l) es [] m) as (cur' & es' & m' & E & H); try done.
  { pose proof (chain_length _ _ _ _ Hc Ha). unfold chain_fuel. lia. }
  exists cur', es', m'. split; [|done]. bstep E. done.
Qed.

(** C27: [roar_buffer_shift_out] takes exactly the first [len] octets of a
    chain, or all there are, in order and across buffers; what is left is the
    rest of the octets, buffers that were used up are freed with their memory,
    and nothing else is touched. *)
Theorem shift_out_takes_front (m : bmem) (cur : option Z) (es : list bent) (len : Z) :
  chain m cur es None → NoDup (addrs es) → NoDup (blks es) → cur ≠ None → 0 ≤ len →
  ∃ cur' es' m',
    roar_buffer_shift_out cur len m = Done (0, take (Z.to_nat len) (contents es), cur', m') ∧
    chain m' cur' es' None ∧ contents es' = drop (Z.to_nat len) (contents es) ∧ consumed m m' es es'.
Proof. apply shift_out_run. Qed.

(** *** Release *)

Lemma free_loop_spec fuel l es m :
  chain m (Some l) es None → NoDup (addrs es) → NoDup (blks es) → (length es ≤ fuel)%nat →
  ∃ m', free_loop fuel l m = Done (0, m') ∧ consumed m m' es [].
Proof.
  revert fuel l m. induction es as [|e es IH]; intros fuel l m Hc Ha Hb Hf; [done|].
  destruct fuel as [|fuel]; [simpl in Hf; lia|]. destruct Hc as ([= ->] & next & b & blk & off & H & Hc).
  cbn [free_loop]. bstep (buf_at_Some _ _ _ (h_buf _ _ _ _ _ _ H)). bstep (release_run _ _ _ _ _ _ H).
  rewrite (h_next _ _ _ _ _ _ H).
  assert (Hc' : chain (without e.1.1 e.1.2 m) next es None).
  { cbn in Ha, Hb. apply NoDup_cons in Ha as [Ha _], Hb as [Hb _]. eapply chain_ext; [|exact Hc].
    destruct m. split; cbn; intros j Hj; apply lookup_delete_ne; by intros <-. }
  destruct next as [n|].
  - destruct (IH fuel n (without e.1.1 e.1.2 m) Hc') as (m' & -> & Hm'); [by apply NoDup_cons in Ha as [_ Ha]|
      by apply NoDup_cons in Hb as [_ Hb]|simpl in Hf; lia|].
    exists m'. split; [done|]. by eapply consumed_cons.
  - assert (es = []) as -> by (destruct es as [|x ?]; [done|]; by destruct Hc' as [[=] _]).
    eexists. split; [done|]. eapply consumed_cons; [done..|apply consumed_refl].
Qed.

Lemma free_run m l es : chain m (Some l) es None → NoDup (addrs es) → NoDup (blks es) →
  ∃ m', roar_buffer_free (Some l) m = Done (0, m') ∧ consumed m m' es [].
Proof.
  intros Hc Ha Hb. unfold roar_buffer_free. cbn [non_null]. unfold mbind, BM_bind, bgets. cbn [mbind outcome_bind fst snd].
  apply free_loop_spec; try done. pose proof (chain_length _ _ _ _ Hc Ha). unfold chain_fuel. lia.
Qed.

(** *** Appending *)

Lemma last_buf_spec fuel l es e fin m :
  chain m (Some l) (es ++ [e]) fin → fin = None → (length es < fuel)%nat → last_buf fuel l m = Done (e.1.1, m).
Proof.
  intros Hc ->. revert fuel l Hc. induction es as [|e0 es IH]; intros fuel l Hc Hf; (destruct fuel as [|fuel]; [lia|]);
    cbn in Hc; destruct Hc as ([= ->] & next & b & blk & off & H & Hc); cbn [last_buf];
    bstep (buf_at_Some _ _ _ (h_buf _ _ _ _ _ _ H)); rewrite (h_next _ _ _ _ _ _ H).
  - by subst.
  - destruct next as [n|]; [|by destruct es; destruct Hc]. apply IH; [done|]. simpl in Hf. lia.
Qed.

(** Only the link of the last buffer changes. *)
Lemma add_spec m l es e next :
  chain m (Some l) (es ++ [e]) None → NoDup (addrs (es ++ [e])) → next ≠ Some l →
  ∃ b, roar_buffer_add (Some l) next m = Done (0, with_buf e.1.1 b m) ∧
    chain (with_buf e.1.1 b m) (Some l) (es ++ [e]) next.
Proof.
  intros Hc Ha Hne. pose proof Hc as (mid & H1 & H2)%chain_app. cbn in H2.
  destruct H2 as (-> & next0 & b & blk & off & H & ->).
  assert (Hl : ∃ b0, bm_bufs m !! l = Some b0 ∧ has_flag (rb_flags b0) ROAR_BUFFER_FLAG_RING = false).
  { destruct (es ++ [e]) as [|x xs]; [by destruct es|]. destruct Hc as ([= ->] & ? & bx & ? & ? & [] & _). eauto. }
  destruct Hl as (b0 & Hb0 & Hring). exists (b<|rb_next := next|>). unfold roar_buffer_add. cbn [non_null].
  split.
  - bstep (buf_at_Some _ _ _ Hb0). rewrite Hring, decide_False by congruence.
    unfold mbind at 1, BM_bind at 1, bgets. cbn [mbind outcome_bind fst snd].
    bstep (last_buf_spec (chain_fuel m) l es e None m Hc eq_refl
      ltac:(pose proof (chain_length _ _ _ _ Hc Ha); rewrite length_app in *; simpl in *; unfold chain_fuel; lia)).
    by bstep (upd_buf_Some m _ b (λ b, b<|rb_next := next|>) (h_buf _ _ _ _ _ _ H)).
  - apply chain_app. exists (Some e.1.1). rewrite !fmap_app in Ha. apply NoDup_app in Ha as (_ & Hd & _). split.
    + eapply chain_ext; [|exact H1]. destruct m. split; cbn; [|done]. intros j Hj. apply lookup_insert_ne.
      intros <-. apply (Hd _ Hj). cbn. by left.
    + cbn. split; [done|]. exists next, (b<|rb_next := next|>), blk, off. split; [|done].
      destruct H as [? ? ? ? ? ? ? ? ? ?], b, m. cbn in *. split; cbn; try done. by rewrite lookup_insert_eq.
Qed.

(** A chain behind another. *)
Lemma add_chain (m : bmem) (l : Z) (next : option Z) (es1 es2 : list bent) :
  chain m (Some l) es1 None → chain m next es2 None → NoDup (addrs (es1 ++ es2)) →
  ∃ m', roar_buffer_add (Some l) next m = Done (0, m') ∧ chain m' (Some l) (es1 ++ es2) None ∧
    only m m' (addrs es1) [] ∧ bm_brk m' = bm_brk m ∧ bm_fail m' = bm_fail m.
Proof.
  intros H1 H2 Hn. destruct es1 as [|e0 es1'] using rev_ind; [done|]. clear IHes1'.
  rewrite !fmap_app in Hn. apply NoDup_app in Hn as (Ha & Hd & _). rewrite <- !fmap_app in *.
  assert (Hhd : l ∈ addrs (es1' ++ [e0])).
  { destruct (es1' ++ [e0]) as [|x xs] eqn:E; [by destruct es1'|]. destruct H1 as ([= ->] & _). cbn. by left. }
  destruct (add_spec m l es1' e0 next H1 Ha) as (b & E & Hc).
  { intros ->. apply (Hd l Hhd). destruct es2 as [|x xs]; [done|]. destruct H2 as ([= ->] & _). cbn. by left. }
  assert (Hl : e0.1.1 ∈ addrs (es1' ++ [e0])) by (rewrite !fmap_app; apply elem_of_app; right; by left).
  exists (with_buf e0.1.1 b m). split_and!; [done| | |by destruct m..].
  - apply chain_app. exists next. split; [done|]. eapply chain_ext; [|exact H2]. destruct m. split; cbn; [|done].
    intros j Hj. apply lookup_insert_ne. intros <-. by apply (Hd _ Hl).
  - destruct m. split; cbn; [|done]. intros j Hj. apply lookup_insert_ne. by intros <-.
Qed.


Lemma stats_loop_forever (L : list Z) m :
  (∀ l, l ∈ L → ∃ b l', bm_bufs m !! l = Some b ∧ rb_next b = Some l' ∧ l' ∈ L) →
  ∀ fuel l st, l ∈ L → stats_loop fuel (Some l) st m = Fuel.
Proof.
  intros HL fuel. induction fuel as [|fuel IH]; intros l st Hl; [done|]. cbn [stats_loop].
  destruct (HL l Hl) as (b & l' & Hb & Hn & Hl'). bstep (buf_at_Some _ _ _ Hb). rewrite Hn. by apply IH.
Qed.

(** A buffer that is already in the chain is linked again all the same
    (the loop that is found is only reported), and every later walk of the
    chain goes on for ever. *)
Theorem add_loop_hangs (m : bmem) (l : Z) (es : list bent) (x : Z) :
  chain m (Some l) es None → NoDup (addrs es) → x ∈ addrs es → x ≠ l →
  ∃ m', roar_buffer_add (Some l) (Some x) m = Done (0, m') ∧
    ∀ fuel, stats_loop fuel (Some l) (BStats 0 0 0) m' = Fuel.
Proof.
  intros Hc Ha Hx Hne. destruct es as [|e es] using rev_ind; [by apply elem_of_nil in Hx|]. clear IHes.
  destruct (add_spec m l es e (Some x) Hc Ha) as (b & E & Hc'); [congruence|].
  exists (with_buf e.1.1 b m). split; [done|]. intros fuel. apply (stats_loop_forever (addrs (es ++ [e]))).
  2: { destruct (es ++ [e]) as [|y ys] eqn:Ee; [by destruct es|]. destruct Hc as ([= ->] & _). cbn. by left. }
  revert Hx Hc'. generalize (with_buf e.1.1 b m) (Some l). generalize (es ++ [e]). clear.
  intros es m c Hx Hc l Hl. apply list_elem_of_fmap in Hl as ([l' d] & -> & Hl). apply list_elem_of_fmap in Hl as (e & He & Hin).
  apply list_elem_of_split in Hin as (es1 & es2 & ->). apply chain_app in Hc as (mid & _ & -> & next & b & blk & off & H & Hc).
  cbn [fst]. assert (El : l' = e.1.1) by (by rewrite <- He). subst l'.
  pose proof (h_buf _ _ _ _ _ _ H) as Hb. exists b. destruct es2 as [|e2 es2].
  - cbn in Hc. subst. exists x. split_and!; [done|by rewrite (h_next _ _ _ _ _ _ H)|done].
  - destruct Hc as (-> & _). exists e2.1.1. split_and!; [done|by rewrite (h_next _ _ _ _ _ _ H)|].
    rewrite !fmap_app. apply elem_of_app. right. cbn. right. by left.
Qed.

(** ** Allocation *)

(** No address is given out that is not in use. *)
Definition mem_ok (m : bmem) : Prop :=
  (∀ l, is_Some (bm_bufs m !! l) → l < bm_brk m) ∧ (∀ d, is_Some (bm_blocks m !! d) → d < bm_brk m).

Lemma mem_ok_fresh m l : mem_ok m → bm_brk m ≤ l → bm_bufs m !! l = None ∧ bm_blocks m !! l = None.
Proof.
  intros [H1 H2] Hl. split; apply eq_None_not_Some; intros Hs; [apply H1 in Hs|apply H2 in Hs]; lia.
Qed.

Lemma mem_ok_only m m' L D :
  mem_ok m → only m m' L D → (∀ l, l ∈ L → l < bm_brk m') → (∀ d, d ∈ D → d < bm_brk m') → bm_brk m ≤ bm_brk m' →
  mem_ok m'.
Proof.
  intros [Hb Hd] [Ho1 Ho2] HL HD Hle. split; intros l Hl.
  - destruct (decide (l ∈ L)) as [?|Hn]; [auto|]. rewrite (Ho1 _ Hn) in Hl. apply Hb in Hl. lia.
  - destruct (decide (l ∈ D)) as [?|Hn]; [auto|]. rewrite (Ho2 _ Hn) in Hl. apply Hd in Hl. lia.
Qed.

Lemma chain_brk m cur es fin : mem_ok m → chain m cur es fin →
  (∀ l, l ∈ addrs es → l < bm_brk m) ∧ (∀ d, d ∈ blks es → d < bm_brk m).
Proof. intros [Hb Hd] [H1 H2]%chain_live. auto. Qed.

(** Two buffers and their data are the same, as far as they can be seen. *)
Definition same_memory (m m' : bmem) : Prop :=
  bm_bufs m' = bm_bufs m ∧ bm_blocks m' = bm_blocks m ∧ bm_brk m ≤ bm_brk m' ∧ bm_garbage m' = bm_garbage m.

Definition grown (m : bmem) (len : Z) : bmem :=
  let d := bm_brk m in
  BMem (<[d + 1 := RBuf len len 0 d (d, 0) MetaNone None]> (bm_bufs m))
       (<[d := fresh_block m len]> (bm_blocks m)) (d + 2) (drop 2 (bm_fail m)) (bm_garbage m).

Lemma malloc_block_run m len :
  malloc_block len m =
  if hd false (bm_fail m) then Done (None, m<|bm_fail := tail (bm_fail m)|>)
  else Done (Some (bm_brk m), BMem (bm_bufs m) (<[bm_brk m := fresh_block m len]> (bm_blocks m)) (bm_brk m + 1)
                                   (tail (bm_fail m)) (bm_garbage m)).
Proof. by destruct m as [? ? ? [|[|] ?] ?]. Qed.

Lemma malloc_buf_run m b :
  malloc_buf b m =
  if hd false (bm_fail m) then Done (None, m<|bm_fail := tail (bm_fail m)|>)
  else Done (Some (bm_brk m), BMem (<[bm_brk m := b]> (bm_bufs m)) (bm_blocks m) (bm_brk m + 1)
                                   (tail (bm_fail m)) (bm_garbage m)).
Proof. by destruct m as [? ? ? [|[|] ?] ?]. Qed.

Lemma free_block_run m d blk : bm_blocks m !! d = Some blk →
  free_block d m = Done ((), m<|bm_blocks := delete d (bm_blocks m)|>).
Proof. intros H. unfold free_block. by bstep (block_at_Some _ _ _ H). Qed.

Lemma set_flag_run m l b flag (reset : bool) : bm_bufs m !! l = Some b →
  roar_buffer_set_flag (Some l) flag reset m =
  Done (0, with_buf l (b<|rb_flags := if reset then Z.lor (rb_flags b) flag - flag else Z.lor (rb_flags b) flag|>) m).
Proof.
  intros H. unfold roar_buffer_set_flag. cbn [non_null]. bstep (upd_buf_Some _ _ _ (λ b, b<|rb_flags := Z.lor (rb_flags b) flag|>) H).
  destruct reset; [|done]. set (m1 := with_buf l _ m). unfold mbind at 1, BM_bind at 1.
  rewrite (upd_buf_Some m1 l (b<|rb_flags := Z.lor (rb_flags b) flag|>)).
  - subst m1. unfold with_buf. destruct m, b. cbn. by rewrite insert_insert_eq.
  - subst m1. destruct m. apply lookup_insert_eq.
Qed.

(** One of the two allocations fails. *)
Definition new_fails (m : bmem) : bool := hd false (bm_fail m) || hd false (tail (bm_fail m)).

Lemma new_data_run m len : mem_ok m →
  if new_fails m
  then ∃ m', roar_buffer_new_data len m = Done (-1, None, None, m') ∧ same_memory m m' ∧
         ∃ k, bm_fail m' = drop k (bm_fail m)
  else roar_buffer_new_data len m = Done (0, Some (bm_brk m + 1), Some (bm_brk m), grown m len).
Proof.
  intros Hok. destruct (mem_ok_fresh m (bm_brk m) Hok ltac:(lia)) as [_ Hf]. unfold new_fails, roar_buffer_new_data.
  pose proof (malloc_block_run m len) as E1. destruct (hd false (bm_fail m)); cbn [orb].
  { bstep E1. eexists. split; [done|]. split; [by destruct m|]. exists 1%nat. by destruct m as [? ? ? [|] ?]. }
  bstep E1. unfold roar_buffer_new_no_ma. match type of E1 with _ = Done (_, ?m1) => set (m1' := m1) in * end.
  pose proof (malloc_buf_run m1' (RBuf len len ROAR_BUFFER_FLAG_NOFREE (bm_brk m) (bm_brk m, 0) MetaNone None)) as E2.
  cbn [m1' bm_fail] in E2. destruct (hd false (tail (bm_fail m))).
  - unfold mbind at 1, BM_bind at 1. bstep E2. cbn [mret BM_ret mbind outcome_bind fst snd Z.eqb Z.opp Pos.eqb].
    eexists. split_and!.
    + bstep (free_block_run (m1'<|bm_fail := tail (tail (bm_fail m))|>) (bm_brk m) (fresh_block m len)
        (lookup_insert_eq _ _ _)). reflexivity.
    + clear E1 E2. subst m1'. destruct m as [bufs blocks brk fails ga]. unfold same_memory. cbn in *.
      split_and!; [done| |lia|done].
      by rewrite delete_insert_id.
    + clear E1 E2. subst m1'. exists 2%nat. by destruct m as [? ? ? [|? [|]] ?].
  - unfold mbind at 1, BM_bind at 1. bstep E2. cbn [mret BM_ret mbind outcome_bind fst snd Z.eqb Z.opp Pos.eqb].
    match goal with |- context [BMem ?a ?b ?c ?d ?e] => set (m2 := BMem a b c d e) end.
    bstep (set_flag_run m2 (bm_brk m1') (RBuf len len ROAR_BUFFER_FLAG_NOFREE (bm_brk m) (bm_brk m, 0) MetaNone None)
      ROAR_BUFFER_FLAG_NOFREE true (lookup_insert_eq _ _ _)).
    clear E1 E2. subst m2 m1'. unfold with_buf, grown. cbn. rewrite insert_insert_eq. replace (bm_brk m + 1 + 1) with (bm_brk m + 2) by lia.
    replace (drop 2 (bm_fail m)) with (tail (tail (bm_fail m))) by (by destruct (bm_fail m) as [|? [|]]). done.
Qed.

(** ** Copies *)

(** [m] is [m0] and a chain [esc] of buffers and blocks that are new. *)
Record copied (m0 m : bmem) (copy : option Z) (esc : list bent) : Prop := {
  cp_ok : mem_ok m;
  cp_brk : bm_brk m0 ≤ bm_brk m;
  cp_old : ∀ l, l < bm_brk m0 → bm_bufs m !! l = bm_bufs m0 !! l ∧ bm_blocks m !! l = bm_blocks m0 !! l;
  cp_new : ∀ l, bm_brk m0 ≤ l →
    (l ∉ addrs esc → bm_bufs m !! l = None) ∧ (l ∉ blks esc → bm_blocks m !! l = None);
  cp_chain : chain m copy esc None;
  cp_addrs : NoDup (addrs esc);
  cp_blks : NoDup (blks esc);
  cp_fresh : (∀ l, l ∈ addrs esc → bm_brk m0 ≤ l < bm_brk m) ∧ (∀ d, d ∈ blks esc → bm_brk m0 ≤ d < bm_brk m)
}.

Lemma copied_refl m : mem_ok m → copied m m None [].
Proof.
  intros Hok. split; try done; try constructor.
  - intros _. by apply mem_ok_fresh.
  - intros _. by apply mem_ok_fresh.
  - by intros l ?%elem_of_nil.
  - by intros l ?%elem_of_nil.
Qed.

(** The same memory as far as the live objects go. *)
Definition same_objects (m m' : bmem) : Prop :=
  ∀ l, bm_bufs m' !! l = bm_bufs m !! l ∧ bm_blocks m' !! l = bm_blocks m !! l.

(** Without the copy the memory is as it was. *)
Lemma copied_dropped m0 m copy esc m' :
  mem_ok m0 → copied m0 m copy esc → consumed m m' esc [] → same_objects m0 m'.
Proof.
  intros Hok [C1 C2 C3 C4 C5 C6 C7 [C8 C9]] [(k & Hk & Hg) [Ho1 Ho2] _ _ _] l.
  rewrite take_ge in Hg by (apply (f_equal length) in Hk; rewrite length_drop in Hk; simpl in Hk; lia).
  assert (Hold : bm_brk m0 ≤ l → bm_bufs m0 !! l = None ∧ bm_blocks m0 !! l = None) by (by apply mem_ok_fresh).
  destruct (decide (l < bm_brk m0)) as [Hl|Hl].
  - destruct (C3 l Hl) as [<- <-]. split; [apply Ho1; intros ?%C8; lia|apply Ho2; intros ?%C9; lia].
  - destruct (Hold ltac:(lia)) as [-> ->]. destruct (C4 l ltac:(lia)) as [Hn1 Hn2]. split.
    + destruct (decide (l ∈ addrs esc)) as [Hin|Hin]; [|rewrite Ho1 by done; auto].
      apply list_elem_of_fmap in Hin as (x & -> & Hx). by apply Hg.
    + destruct (decide (l ∈ blks esc)) as [Hin|Hin]; [|rewrite Ho2 by done; auto].
      apply list_elem_of_fmap in Hin as (x & -> & Hx). by apply Hg.
Qed.

(** A fresh buffer with its octets is a chain of its own. *)
Lemma grown_chain m bs : mem_ok m → Z.of_nat (length bs) < 2 ^ 64 →
  ∃ m', mem_write (bm_brk m, 0) bs (grown m (Z.of_nat (length bs))) = Done ((), m') ∧
    chain m' (Some (bm_brk m + 1)) [(bm_brk m + 1, bm_brk m, bs)] None ∧ mem_ok m' ∧
    bm_brk m' = bm_brk m + 2 ∧ bm_fail m' = drop 2 (bm_fail m) ∧
    only m m' [bm_brk m + 1] [bm_brk m].
Proof.
  intros [Hb Hd] Hmax. destruct m as [bufs blocks brk fails ga]. unfold mem_write, grown, fresh_block. cbn in *.
  rewrite lookup_insert_eq. cbn. rewrite mwrite_Some by (rewrite length_fmap, length_seq; cbn; lia).
  cbn. rewrite Nat2Z.id, (drop_ge (ga brk <$> _)), app_nil_r by (rewrite length_fmap, length_seq; lia).
  eexists. split; [reflexivity|]. split; [|split; [|split; [done|split; [done|]]]].
  - split; [done|]. exists None. 
    exists (RBuf (Z.of_nat (length bs)) (Z.of_nat (length bs)) 0 brk (brk, 0) MetaNone None), bs, 0%nat.
    split; [|done]. split; cbn; try done.
    + by rewrite lookup_insert_eq.
    + by rewrite lookup_insert_eq.
    + by rewrite mread_Some, take_ge by done.
  - split; cbn; intros l.
    + intros [<-|[_ Hl]]%lookup_insert_is_Some; [lia|]. apply Hb in Hl. lia.
    + rewrite insert_insert_eq. intros [<-|[_ Hl]]%lookup_insert_is_Some; [lia|]. apply Hd in Hl. lia.
  - split; cbn; intros l Hl%not_elem_of_cons; destruct Hl as [Hl _].
    + by apply lookup_insert_ne.
    + rewrite insert_insert_eq. by apply lookup_insert_ne.
Qed.

(** The copy grows by one buffer. *)
Lemma copied_snoc m0 m copy esc bs m1 m2 :
  copied m0 m copy esc →
  let n := bm_brk m + 1 in
  chain m1 (Some n) [(n, bm_brk m, bs)] None → mem_ok m1 → bm_brk m1 = bm_brk m + 2 →
  only m m1 [n] [bm_brk m] →
  match copy with
  | None => m2 = m1
  | Some l => chain m2 (Some l) (esc ++ [(n, bm_brk m, bs)]) None ∧ only m1 m2 (addrs esc) [] ∧
              bm_brk m2 = bm_brk m1
  end →
  copied m0 m2 (match copy with None => Some n | _ => copy end) (esc ++ [(n, bm_brk m, bs)]).
Proof.
  intros [C1 C2 C3 C4 C5 C6 C7 [C8 C9]] n Hc1 [Hb1 Hd1] Hbrk [Ho1 Ho2] H2.
  assert (K : chain m2 (match copy with None => Some n | _ => copy end) (esc ++ [(n, bm_brk m, bs)]) None ∧
    only m1 m2 (addrs esc) [] ∧ bm_brk m2 = bm_brk m + 2).
  { destruct copy as [l|]; [destruct H2 as (? & ? & ->); done|]. subst.
    destruct esc as [|x xs]; [done|]. by destruct C5 as [[=] _]. }
  destruct K as (Hc2 & [Hp1 Hp2] & Hbrk2). rewrite Hbrk in *.
  assert (Hin : ∀ l, (l ∈ addrs (esc ++ [(n, bm_brk m, bs)]) ↔ l ∈ addrs esc ∨ l = n) ∧
    (l ∈ blks (esc ++ [(n, bm_brk m, bs)]) ↔ l ∈ blks esc ∨ l = bm_brk m)).
  { intros l. rewrite !fmap_app, !elem_of_app. cbn. rewrite !list_elem_of_singleton. done. }
  split.
  - split; intros l Hl.
    + destruct (decide (l ∈ addrs esc)) as [Hin'|Hin']; [apply C8 in Hin'; lia|].
      rewrite Hp1 in Hl by done. apply Hb1 in Hl. lia.
    + rewrite Hp2 in Hl by apply not_elem_of_nil. apply Hd1 in Hl. lia.
  - lia.
  - intros l Hl. destruct (C3 l Hl) as [<- <-]. split.
    + rewrite Hp1 by (intros ?%C8; lia). apply Ho1. intros ->%list_elem_of_singleton. unfold n in Hl. lia.
    + rewrite Hp2 by apply not_elem_of_nil. apply Ho2. intros ->%list_elem_of_singleton. lia.
  - intros l Hl. destruct (C4 l Hl) as [Hn1 Hn2]. destruct (Hin l) as [-> ->]. split; intros Hno.
    + rewrite Hp1 by tauto. rewrite Ho1 by (rewrite list_elem_of_singleton; tauto). tauto.
    + rewrite Hp2 by apply not_elem_of_nil. rewrite Ho2 by (rewrite list_elem_of_singleton; tauto). tauto.
  - done.
  - rewrite !fmap_app. apply NoDup_app. split_and!; [done| |apply NoDup_singleton].
    intros l Hl%C8 ->%list_elem_of_singleton. cbn in Hl. unfold n in Hl. lia.
  - rewrite !fmap_app. apply NoDup_app. split_and!; [done| |apply NoDup_singleton].
    intros l Hl%C9 ->%list_elem_of_singleton. cbn in Hl. lia.
  - rewrite Hbrk2. split; intros l Hl; apply (Hin l) in Hl as [Hl| ->]; try apply C8 in Hl; try apply C9 in Hl;
      unfold n; lia.
Qed.

Lemma old_holds m0 m copy esc e next b blk off :
  mem_ok m0 → copied m0 m copy esc → holds m0 e next b blk off → holds m e next b blk off.
Proof.
  intros [Hb Hd] C H. eapply holds_ext; [| |exact H]; apply (cp_old _ _ _ _ C).
  - apply Hb. rewrite (h_buf _ _ _ _ _ _ H). eauto.
  - apply Hd. rewrite (h_blk _ _ _ _ _ _ H). eauto.
Qed.

(** A failed allocation is no change. *)
Lemma copied_same m0 m m1 copy esc : same_memory m m1 → copied m0 m copy esc → copied m0 m1 copy esc.
Proof.
  intros (S1 & S2 & S3 & S4) [[C1 C1'] C2 C3 C4 C5 C6 C7 [C8 C9]]. split; rewrite ?S1, ?S2; try done.
  - split; rewrite ?S1, ?S2; intros l Hl; [apply C1 in Hl|apply C1' in Hl]; lia.
  - lia.
  - eapply chain_ext; [|exact C5]. split; congruence.
  - split; intros l Hl; [apply C8 in Hl|apply C9 in Hl]; lia.
Qed.

(** The copy of one buffer is linked. *)
Lemma link_copy m0 m copy esc bs m1 :
  copied m0 m copy esc → let n := bm_brk m + 1 in
  chain m1 (Some n) [(n, bm_brk m, bs)] None → mem_ok m1 → bm_brk m1 = bm_brk m + 2 →
  only m m1 [n] [bm_brk m] →
  let copy' := match copy with None => Some n | _ => copy end in
  ∃ r m2, roar_buffer_add copy' (Some n) m1 = Done (r, m2) ∧ copied m0 m2 copy' (esc ++ [(n, bm_brk m, bs)]) ∧
    bm_fail m2 = bm_fail m1.
Proof.
  intros C n Hc1 Hok1 Hbrk1 Ho copy'. destruct copy as [c|]; subst copy'.
  - pose proof (cp_fresh _ _ _ _ C) as [F1 F2].
    destruct (add_chain m1 c (Some n) esc [(n, bm_brk m, bs)]) as (m2 & E & H1 & H2 & H3 & H4).
    + eapply chain_ext; [|exact (cp_chain _ _ _ _ C)]. destruct Ho as [Ho1 Ho2]. split; intros l Hl.
      * apply Ho1. intros ->%list_elem_of_singleton. apply F1 in Hl. unfold n in Hl. lia.
      * apply Ho2. intros ->%list_elem_of_singleton. apply F2 in Hl. lia.
    + done.
    + rewrite !fmap_app. apply NoDup_app. split_and!; [exact (cp_addrs _ _ _ _ C)| |apply NoDup_singleton].
      intros l Hl%F1 ->%list_elem_of_singleton. cbn in Hl. unfold n in Hl. lia.
    + exists 0, m2. split_and!; [done| |done]. by apply (copied_snoc m0 m (Some c) esc bs m1).
  - exists (-1), m1. split_and!; [|by apply (copied_snoc m0 m None esc bs m1)|done].
    destruct Hc1 as (_ & next & b & blk & off & H & _). unfold roar_buffer_add. cbn [non_null].
    bstep (buf_at_Some _ _ _ (h_buf _ _ _ _ _ _ H)). rewrite (h_ring _ _ _ _ _ _ H). by rewrite decide_True.
Qed.

Lemma duplicate_loop_spec fuel m0 m cur es copy esc :
  mem_ok m0 → chain m0 cur es None → copied m0 m copy esc → (length es ≤ fuel)%nat →
  match duplicate_loop fuel cur copy m with
  | Done (r, copy', m') =>
      r = 0 ∧ (∃ es', copied m0 m' copy' (esc ++ es') ∧ es'.*2 = es.*2) ∨
      r = -1 ∧ bm_fail m ≠ [] ∧ same_objects m0 m'
  | UB | Fuel => False
  end.
Proof.
  intros Hok. revert fuel m cur copy esc. induction es as [|e es IH]; intros fuel m cur copy esc Hc C Hf.
  { cbn in Hc. subst. destruct fuel; left; (split; [done|]); exists []; by rewrite app_nil_r. }
  destruct fuel as [|fuel]; [simpl in Hf; lia|].
  destruct Hc as (-> & next & b & blk & off & H0 & Hc). pose proof (old_holds _ _ _ _ _ _ _ _ _ Hok C H0) as H.
  cbn [duplicate_loop]. bstep (buf_at_Some _ _ _ (h_buf _ _ _ _ _ _ H)). rewrite (h_len _ _ _ _ _ _ H).
  pose proof (new_data_run m (Z.of_nat (length e.2)) (cp_ok _ _ _ _ C)) as Hnew. unfold roar_buffer_new.
  destruct (new_fails m) eqn:Efail.
  - destruct Hnew as (m1 & Hnew & Hsame & _). assert (Hne : bm_fail m ≠ []) by (by destruct m as [? ? ? [|] ?]).
    unfold mbind at 1, BM_bind at 1. bstep Hnew. cbn [mret BM_ret mbind outcome_bind fst snd Z.eqb Z.opp Pos.eqb].
    pose proof (copied_same _ _ _ _ _ Hsame C) as C1. destruct copy as [c|].
    + destruct (free_run m1 c esc (cp_chain _ _ _ _ C1) (cp_addrs _ _ _ _ C1) (cp_blks _ _ _ _ C1)) as (m' & Hfree & Hm').
      bstep Hfree. right. split_and!; [done..|]. by eapply copied_dropped.
    + right. split_and!; [done..|]. assert (esc = []) as ->.
      { destruct esc as [|x xs]; [done|]. by destruct (cp_chain _ _ _ _ C1) as [[=] _]. }
      eapply (copied_dropped m0 m1); [done|exact C1|apply consumed_refl].
  - unfold mbind at 1, BM_bind at 1. bstep Hnew. cbn [mret BM_ret mbind outcome_bind fst snd Z.eqb Z.opp Pos.eqb].
    set (n := bm_brk m + 1). set (g := grown m (Z.of_nat (length e.2))).
    assert (Hg : holds g e next b blk off).
    { destruct (cp_ok _ _ _ _ C) as [Hb Hd]. eapply holds_ext; [| |exact H]; unfold g, grown; cbn; apply lookup_insert_ne; intros Heq.
      - specialize (Hb e.1.1 ltac:(eexists; apply (h_buf _ _ _ _ _ _ H))). lia.
      - specialize (Hd e.1.2 ltac:(eexists; apply (h_blk _ _ _ _ _ _ H))). lia. }
    assert (Hnd : roar_buffer_get_data (Some n) g = Done (0, (bm_brk m, 0), g)).
    { unfold roar_buffer_get_data. cbn [non_null].
      by bstep (buf_at_Some g n (RBuf (Z.of_nat (length e.2)) (Z.of_nat (length e.2)) 0 (bm_brk m) (bm_brk m, 0) MetaNone None)
                  (lookup_insert_eq _ _ _)). }
    bstep (get_data_run _ _ _ _ _ _ Hg). cbv zeta. cbn [mret].
    replace (match copy with Some _ => copy | None => Some n end) with (match copy with None => Some n | _ => copy end) by (by destruct copy).
    bstep Hnd. bstep (mem_read_run _ _ _ _ _ _ Hg (Z.of_nat (length e.2)) ltac:(lia)). rewrite Nat2Z.id, (take_ge e.2) by lia.
    destruct (grown_chain m e.2 (cp_ok _ _ _ _ C) (h_max _ _ _ _ _ _ H)) as (m1 & Hw & Hc1 & Hok1 & Hbrk1 & Hfail1 & Ho1).
    bstep Hw. destruct (link_copy m0 m copy esc e.2 m1 C Hc1 Hok1 Hbrk1 Ho1) as (r & m2 & Hadd & C2 & Hfail2).
    fold n in Hadd, C2. bstep Hadd. pose proof (old_holds _ _ _ _ _ _ _ _ _ Hok C2 H0) as H2.
    bstep (buf_at_Some _ _ _ (h_buf _ _ _ _ _ _ H2)). rewrite (h_next _ _ _ _ _ _ H2).
    specialize (IH fuel m2 next _ _ Hc C2 ltac:(simpl in Hf; lia)).
    destruct (duplicate_loop fuel next _ m2) as [[[r' copy'] m']| |]; [|done..].
    destruct IH as [(-> & es' & C' & Hes)|(-> & Hne & Hs)].
    + left. split; [done|]. exists ((n, bm_brk m, e.2) :: es'). split; [|cbn; by rewrite Hes]. by rewrite <- app_assoc in C'.
    + right. split_and!; [done| |done]. rewrite Hfail2, Hfail1 in Hne. intros Hno. by rewrite Hno in Hne.
Qed.


(** ** Growing a buffer *)

Lemma realloc_run m d len blk : mem_ok m → bm_blocks m !! d = Some blk → hd false (bm_fail m) = false →
  ∃ m', realloc_block d len m = Done (Some (bm_brk m), m') ∧ bm_bufs m' = bm_bufs m ∧ bm_blocks m' !! d = None.
Proof.
  intros [_ Hd] Hblk Hf. unfold realloc_block. bstep (block_at_Some _ _ _ Hblk).
  pose proof (malloc_block_run m len) as E. rewrite Hf in E. bstep E.
  match type of E with _ = Done (_, ?m1) => set (m1' := m1) in * end.
  bstep (block_at_Some m1' (bm_brk m) (fresh_block m len) (lookup_insert_eq _ _ _)).
  unfold mbind at 1, BM_bind at 1, bmodify at 1. cbn [mbind outcome_bind fst snd].
  match goal with |- ∃ _, (free_block d ≫= _) ?m2 = _ ∧ _ => set (m2' := m2) end.
  assert (Hne : bm_brk m ≠ d) by (intros <-; specialize (Hd (bm_brk m) ltac:(eauto)); lia).
  bstep (free_block_run m2' d blk ltac:(unfold m2', m1'; cbn; by rewrite !lookup_insert_ne)).
  eexists. split; [reflexivity|]. split; [done|]. apply lookup_delete_eq.
Qed.

(** [roar_buffer_set_len] shortens the window of a buffer to its front.
    To make it longer it reallocates the data, but [user_data] keeps pointing
    to the old block, so that any access to the longer window is undefined. *)
Theorem set_len_window (m : bmem) (e : bent) (next : option Z) (b : rbuf) (blk : list Z) (off : nat) (len : Z) :
  mem_ok m → holds m e next b blk off → 0 ≤ len →
  (len ≤ Z.of_nat (length e.2) → ∃ b',
     roar_buffer_set_len (Some e.1.1) len m = Done (0, with_buf e.1.1 b' m) ∧
     holds (with_buf e.1.1 b' m) (e.1, take (Z.to_nat len) e.2) next b' blk off) ∧
  (0 < Z.of_nat (length e.2) < len → hd false (bm_fail m) = false → ∃ m' p,
     roar_buffer_set_len (Some e.1.1) len m = Done (0, m') ∧
     roar_buffer_get_data (Some e.1.1) m' = Done (0, p, m') ∧
     ∀ n, mem_read p n m' = UB).
Proof.
  intros Hok H Hlen. pose proof H as [H1 H2 H3 H4 H5 H6 H7 H8 H9 H10]. unfold roar_buffer_set_len. cbn [non_null].
  bstep (buf_at_Some _ _ _ H1). rewrite H5. split.
  - intros Hle. assert (E : negb (len =? 0) && (Z.of_nat (length e.2) =? 0) = false).
    { destruct (Z.eqb_spec len 0), (Z.eqb_spec (Z.of_nat (length e.2)) 0); try done. lia. }
    rewrite E. unfold mbind at 1, BM_bind at 1. cbn [mret BM_ret mbind outcome_bind fst snd].
    bstep (buf_at_Some _ _ _ H1). rewrite H5, (proj2 (Z.ltb_ge _ _)) by lia.
    eexists. split; [bstep (upd_buf_Some _ _ _ (λ b, b<|rb_user_len := len|>) H1); reflexivity|].
    destruct m, b. cbn in *. split; cbn; try done.
    + apply lookup_insert_eq.
    + rewrite length_take. lia.
    + rewrite length_take. lia.
    + rewrite length_take, Nat.min_l by lia. eapply mread_take; [done|lia].
  - intros Hgt Hf. rewrite (proj2 (Z.eqb_neq (Z.of_nat (length e.2)) 0)), andb_false_r by lia.
    unfold mbind at 1, BM_bind at 1. cbn [mret BM_ret mbind outcome_bind fst snd].
    bstep (buf_at_Some _ _ _ H1). rewrite H5, (proj2 (Z.ltb_lt _ _)) by lia.
    assert (Hnf : has_flag (rb_flags b) ROAR_BUFFER_FLAG_NOFREE = false) by (unfold has_flag; by rewrite H8).
    rewrite Hnf, H2. destruct (realloc_run m e.1.2 (u64 (rb_len b - Z.of_nat (length e.2) + len)) blk Hok H3 Hf)
      as (m1 & Er & Eb & Egone).
    cbv zeta. bstep Er. assert (H1' : bm_bufs m1 !! e.1.1 = Some b) by (by rewrite Eb).
    bstep (upd_buf_Some m1 _ b (λ b, b<|rb_data := bm_brk m|><|rb_user_len := len|>) H1').
    eexists _, (e.1.2, Z.of_nat off). split; [reflexivity|]. split.
    + unfold roar_buffer_get_data. cbn [non_null]. unfold with_buf at 1.
      bstep (buf_at_Some (with_buf e.1.1 (b<|rb_data := bm_brk m|><|rb_user_len := len|>) m1) e.1.1 _ (lookup_insert_eq _ _ _)).
      destruct b. cbn in *. by rewrite H4.
    + intros n. unfold mem_read. cbn [fst]. unfold with_buf. destruct m1. cbn in *. by rewrite Egone.
Qed.

(** ** Rings *)

(** A ring with the octets [u], read position [r] and write position [w]. *)
Record ring_at (m : bmem) (l : Z) (b : rbuf) (u : list Z) (r w : Z) : Prop := {
  ra_buf : bm_bufs m !! l = Some b;
  ra_flag : has_flag (rb_flags b) ROAR_BUFFER_FLAG_RING = true;
  ra_user : rb_user b = (rb_data b, 0);
  ra_len : rb_user_len b = Z.of_nat (length u);
  ra_blk : bm_blocks m !! rb_data b = Some u;
  ra_meta : rb_meta b = MetaRing r w
}.

Lemma ring_mem_read m l b u r w p n : ring_at m l b u r w → 0 ≤ p → 0 ≤ n → p + n ≤ Z.of_nat (length u) →
  mem_read (skip (rb_user b) p) n m = Done (take (Z.to_nat n) (drop (Z.to_nat p) u), m).
Proof.
  intros [] Hp Hn Hpn. unfold mem_read. rewrite ra_user0. cbn [skip fst snd]. rewrite ra_blk0. cbn [or_ub]. rewrite bind_Done.
  rewrite decide_True by lia. by rewrite mread_Some by lia.
Qed.

Lemma ring_mem_write m l b u r w p bs : ring_at m l b u r w → 0 ≤ p → p + Z.of_nat (length bs) ≤ Z.of_nat (length u) →
  ∃ m', mem_write (skip (rb_user b) p) bs m = Done ((), m') ∧
    ring_at m' l b (take (Z.to_nat p) u ++ bs ++ drop (Z.to_nat p + length bs) u) r w.
Proof.
  intros [] Hp Hpn. unfold mem_write. rewrite ra_user0. cbn [skip fst snd]. rewrite ra_blk0. cbn [or_ub]. rewrite bind_Done.
  rewrite decide_True, Z.add_0_l by lia. rewrite mwrite_Some by lia. cbn [or_ub]. rewrite bind_Done. eexists. split; [reflexivity|].
  destruct m. cbn in *. split; cbn; try done.
  - rewrite ra_len0, !length_app, length_take, length_drop. lia.
  - by rewrite lookup_insert_eq.
Qed.

Lemma ring_set_pos m l b u r w r' w' : ring_at m l b u r w →
  ring_at (with_buf l (b<|rb_meta := MetaRing r' w'|>) m) l (b<|rb_meta := MetaRing r' w'|>) u r' w'.
Proof. intros []. destruct m, b. cbn in *. split; cbn; try done. apply lookup_insert_eq. Qed.

Lemma skip_0 p : skip p 0 = p.
Proof. destruct p. unfold skip. cbn. f_equal. lia. Qed.

(** What is in the ring after a write at [w]: the octets that do not fit behind
    [w] are not written, the front of the data is stored at the start again. *)
Definition ring_after_write (u data : list Z) (w : nat) : list Z :=
  let k := (length data + w - length u)%nat in
  take k data ++ drop k (take w u) ++ take (length u - w) data ++ drop (w + length data) u.

Lemma ring_write_run m l b u r w data :
  ring_at m l b u r w → 0 ≤ w < Z.of_nat (length u) → data ≠ [] → (length data ≤ length u)%nat →
  ∃ m' b' w', roar_buffer_ring_write (Some l) data m = Done (0, m') ∧
    ring_at m' l b' (ring_after_write u data (Z.to_nat w)) r w'.
Proof.
  intros R Hw Hne Hle. unfold roar_buffer_ring_write. cbn [non_null].
  assert (Hlen : (0 < length data)%nat) by (by destruct data; [|simpl; lia]).
  bstep (buf_at_Some _ _ _ (ra_buf _ _ _ _ _ _ R)). rewrite (ra_flag _ _ _ _ _ _ R), (ra_len _ _ _ _ _ _ R). cbn [negb].
  rewrite (proj2 (Z.eqb_neq _ _)), (proj2 (Z.ltb_ge _ _)) by lia. unfold ring_pos. rewrite (ra_meta _ _ _ _ _ _ R).
  unfold mbind at 1, BM_bind at 1. cbn [mret BM_ret mbind outcome_bind fst snd].
  rewrite (proj2 (Z.leb_gt _ _)) by lia. unfold ring_after_write. destruct (Z.ltb_spec (Z.of_nat (length u)) (Z.of_nat (length data) + w)) as [Hwrap|Hfit].
  - set (k := (length data + Z.to_nat w - length u)%nat).
    destruct (ring_mem_write _ _ _ _ _ _ w (take (Z.to_nat (Z.of_nat (length u) - w)) data) R) as (m1 & E1 & R1);
      [lia|rewrite length_take; lia|]. bstep E1.
    destruct (ring_mem_write _ _ _ _ _ _ 0 (take (Z.to_nat (Z.of_nat (length data) + w - Z.of_nat (length u))) data) R1) as (m2 & E2 & R2);
      [lia|rewrite !length_app, !length_take, length_drop; lia|].
    rewrite skip_0 in E2. bstep E2. bstep (upd_buf_Some m2 l b (λ b0, b0<|rb_meta := MetaRing r (w + Z.of_nat (length data) - rb_user_len b0)|>)
      (ra_buf _ _ _ _ _ _ R2)).
    eexists _, _, _. split; [reflexivity|]. replace (_ ++ _ ++ _ ++ drop (Z.to_nat w + length data) u) with
      (take (Z.to_nat 0) (take (Z.to_nat w) u ++ take (Z.to_nat (Z.of_nat (length u) - w)) data ++
         drop (Z.to_nat w + length (take (Z.to_nat (Z.of_nat (length u) - w)) data)) u) ++
       take (Z.to_nat (Z.of_nat (length data) + w - Z.of_nat (length u))) data ++
       drop (Z.to_nat 0 + length (take (Z.to_nat (Z.of_nat (length data) + w - Z.of_nat (length u))) data))
        (take (Z.to_nat w) u ++ take (Z.to_nat (Z.of_nat (length u) - w)) data ++
         drop (Z.to_nat w + length (take (Z.to_nat (Z.of_nat (length u) - w)) data)) u)); [eapply ring_set_pos, R2|].
    replace (Z.to_nat (Z.of_nat (length data) + w - Z.of_nat (length u))) with k by lia.
    replace (Z.to_nat (Z.of_nat (length u) - w)) with (length u - Z.to_nat w)%nat by lia.
    rewrite !length_take, (Nat.min_l k) by lia. change (Z.to_nat 0) with 0%nat. rewrite take_0. cbn [app Nat.add]. f_equal.
    rewrite !(drop_ge u) by lia. rewrite !app_nil_r.
    apply drop_app_le. rewrite length_take. lia.
  - destruct (ring_mem_write _ _ _ _ _ _ w data R) as (m1 & E1 & R1); [lia..|]. bstep E1.
    bstep (upd_buf_Some m1 l b (λ b0, b0<|rb_meta := MetaRing r (w + Z.of_nat (length data))|>) (ra_buf _ _ _ _ _ _ R1)).
    eexists _, _, _. split; [reflexivity|].
    replace (length data + Z.to_nat w - length u)%nat with 0%nat by lia. rewrite take_0, drop_0. cbn [app].
    rewrite (take_ge data) by lia. eapply ring_set_pos, R1.
Qed.

(** What a read of [length old] octets at [r] gives: the second part of a
    wrapped read is stored over the first. *)
Definition ring_read_result (u old : list Z) (r : nat) : list Z :=
  let n := length old in
  let k := (n + r - length u)%nat in
  if decide (n + r ≤ length u)%nat then take n (drop r u)
  else take k u ++ drop k (drop r u ++ drop (length u - r) old).

Lemma ring_read_run m l b u r w old :
  ring_at m l b u r w → 0 ≤ r < Z.of_nat (length u) → old ≠ [] → (length old ≤ length u)%nat →
  ∃ m', roar_buffer_ring_read (Some l) old m = Done (0, ring_read_result u old (Z.to_nat r), m').
Proof.
  intros R Hr Hne Hle. unfold roar_buffer_ring_read. cbn [non_null].
  assert (Hlen : (0 < length old)%nat) by (by destruct old; [|simpl; lia]).
  bstep (buf_at_Some _ _ _ (ra_buf _ _ _ _ _ _ R)). rewrite (ra_flag _ _ _ _ _ _ R), (ra_len _ _ _ _ _ _ R). cbn [negb].
  rewrite (proj2 (Z.eqb_neq _ _)), (proj2 (Z.ltb_ge _ _)) by lia. unfold ring_pos. rewrite (ra_meta _ _ _ _ _ _ R).
  unfold mbind at 1, BM_bind at 1. cbn [mret BM_ret mbind outcome_bind fst snd].
  rewrite (proj2 (Z.leb_gt _ _)) by lia. unfold ring_read_result.
  destruct (Z.ltb_spec (Z.of_nat (length u)) (Z.of_nat (length old) + r)) as [Hwrap|Hfit].
  - rewrite decide_False by lia. bstep (ring_mem_read _ _ _ _ _ _ r (Z.of_nat (length u) - r) R ltac:(lia) ltac:(lia) ltac:(lia)).
    rewrite (take_ge (drop (Z.to_nat r) u)) by (rewrite length_drop; lia).
    rewrite mwrite_Some by (rewrite length_drop; lia). cbn [or_ub]. bstep (blift_Done (drop (Z.to_nat r) u ++ drop (0 + length (drop (Z.to_nat r) u)) old) m).
    rewrite length_drop. cbn [Nat.add].
    pose proof (ring_mem_read _ _ _ _ _ _ 0 (Z.of_nat (length old) + r - Z.of_nat (length u)) R ltac:(lia) ltac:(lia) ltac:(lia)) as E.
    rewrite skip_0 in E. bstep E. rewrite mwrite_Some; [|rewrite length_take, length_app, !length_drop; lia].
    cbn [or_ub]. change (Z.to_nat 0) with 0%nat. rewrite take_0, drop_0, length_take, Nat.min_l by lia. cbn [app Nat.add].
    match goal with |- context [blift (Done ?x)] => bstep (blift_Done x m) end.
    bstep (upd_buf_Some m l b (λ b0, b0<|rb_meta := MetaRing (r + Z.of_nat (length old) - rb_user_len b0) w|>) (ra_buf _ _ _ _ _ _ R)).
    eexists. cbn [mret BM_ret]. do 3 f_equal.
    replace (Z.to_nat (Z.of_nat (length old) + r - Z.of_nat (length u))) with (length old + Z.to_nat r - length u)%nat by lia. done.
  - rewrite decide_True by lia. bstep (ring_mem_read _ _ _ _ _ _ r (Z.of_nat (length old)) R ltac:(lia) ltac:(lia) ltac:(lia)).
    bstep (upd_buf_Some m l b (λ b0, b0<|rb_meta := MetaRing (r + Z.of_nat (length old)) w|>) (ra_buf _ _ _ _ _ _ R)).
    eexists. rewrite Nat2Z.id. done.
Qed.

(** C30: what is written to a ring and read again at the same position is read
    unchanged as long as the transfer does not wrap.  One that wraps gives only
    its first octets, the larger of the two parts it is split into, and leaves
    the rest of the reader's room as it was. *)
Theorem ring_transfer (m : bmem) (l : Z) (b : rbuf) (u : list Z) (p : Z) (data old : list Z) :
  ring_at m l b u p p → 0 ≤ p < Z.of_nat (length u) → data ≠ [] → (length data ≤ length u)%nat →
  length old = length data →
  ∃ m1 m2, roar_buffer_ring_write (Some l) data m = Done (0, m1) ∧
    roar_buffer_ring_read (Some l) old m1 = Done (0,
      let n := length data in let p := Z.to_nat p in let t := Nat.max (length u - p) (n + p - length u) in
      if decide (n + p ≤ length u)%nat then data else take t data ++ drop t old, m2).
Proof.
  intros R Hp Hne Hle Hold. destruct (ring_write_run _ _ _ _ _ _ data R Hp Hne Hle) as (m1 & b1 & w' & E1 & R1).
  set (q := Z.to_nat p). assert (Hq : (q < length u)%nat) by lia. set (u1 := ring_after_write u data q) in *.
  assert (Hu1 : length u1 = length u) by (unfold u1, ring_after_write; rewrite !length_app, !length_take, !length_drop, length_take; lia).
  destruct (ring_read_run _ _ _ _ _ _ old R1 ltac:(fold q; fold u1; lia)) as (m2 & E2);
    [by destruct old, data|fold q; fold u1; lia|].
  exists m1, m2. split; [done|]. rewrite E2. do 3 f_equal. fold q. fold u1. unfold ring_read_result. rewrite Hold, Hu1.
  cbv zeta. case_decide as Hd.
  - unfold u1, ring_after_write. replace (length data + q - length u)%nat with 0%nat by lia. rewrite take_0, drop_0. cbn [app].
    rewrite (take_ge data) by lia. rewrite drop_app_length' by (rewrite length_take; lia). by rewrite take_app_length.
  - set (k := (length data + q - length u)%nat).
    assert (Hd1 : drop q u1 = take (length u - q) data).
    { unfold u1, ring_after_write. fold k. rewrite app_assoc, drop_app_length'.
      - by rewrite (drop_ge u), app_nil_r by lia.
      - rewrite length_app, length_take, length_drop, length_take. lia. }
    assert (Ht1 : take k u1 = take k data).
    { unfold u1, ring_after_write. fold k. by rewrite take_app_length' by (rewrite length_take; lia). }
    rewrite Hd1, Ht1. set (j := (length u - q)%nat) in *.
    assert (Hj : length (take j data) = j) by (rewrite length_take; lia).
    destruct (Nat.max_spec j k) as [[Hjk ->]|[Hjk ->]].
    + rewrite drop_app_ge by lia. rewrite Hj, drop_drop. do 2 f_equal. lia.
    + rewrite drop_app_le by lia. rewrite app_assoc. f_equal.
      rewrite <- (take_drop k (take j data)) at 2. f_equal. rewrite take_take. f_equal. lia.
Qed.

(** ** The properties at work *)

(** Two buffers, the first with one octet shifted out already. *)
Definition example_mem : bmem :=
  BMem (<[1 := RBuf 4 3 0 0 (0, 1) MetaNone (Some 3)]> {[3 := RBuf 2 2 0 2 (2, 0) MetaNone None]})
       (<[0 := [9; 1; 2; 3]]> {[2 := [4; 5]]}) 4 [] (λ _ _, 0).
Definition example_chain : list bent := [(1, 0, [1; 2; 3]); (3, 2, [4; 5])].

Lemma example_chain_ok : chain example_mem (Some 1) example_chain None.
Proof.
  split; [done|]. exists (Some 3), (RBuf 4 3 0 0 (0, 1) MetaNone (Some 3)), [9; 1; 2; 3], 1%nat.
  split; [by split|]. split; [done|]. exists None, (RBuf 2 2 0 2 (2, 0) MetaNone None), [4; 5], 0%nat.
  split; [by split|done].
Qed.

Lemma example_mem_ok : mem_ok example_mem.
Proof.
  split; intros l; cbn; intros [<-|[_ [? [<- _]%lookup_singleton_Some]]]%lookup_insert_is_Some; lia.
Qed.

Lemma shift_out_takes_front_witness :
  ∃ cur' es' m', roar_buffer_shift_out (Some 1) 4 example_mem = Done (0, [1; 2; 3; 4], cur', m') ∧
    chain m' cur' es' None ∧ contents es' = [5] ∧ consumed example_mem m' example_chain es'.
Proof. apply (shift_out_takes_front example_mem (Some 1) example_chain 4 example_chain_ok); [zdecide|zdecide|done|done]. Defined.


Lemma add_loop_hangs_witness :
  ∃ m', roar_buffer_add (Some 1) (Some 3) example_mem = Done (0, m') ∧
    ∀ fuel : nat, stats_loop fuel (Some 1) (BStats 0 0 0) m' = Fuel.
Proof. apply (add_loop_hangs example_mem 1 example_chain 3 example_chain_ok); [zdecide|zdecide|done]. Defined.


Lemma set_len_window_witness :
  ∃ m' p, roar_buffer_set_len (Some 3) 6 example_mem = Done (0, m') ∧
    roar_buffer_get_data (Some 3) m' = Done (0, p, m') ∧ mem_read p 6 m' = UB.
Proof.
  destruct (set_len_window example_mem (3, 2, [4; 5]) None (RBuf 2 2 0 2 (2, 0) MetaNone None) [4; 5] 0 6 example_mem_ok
    ltac:(by split) ltac:(done)) as [_ H]. destruct (H ltac:(done) eq_refl) as (m' & p & E1 & E2 & E3).
  exists m', p. auto.
Defined.

(** A ring of four octets, to be used from its last octet on. *)
Definition example_ring : bmem :=
  BMem {[1 := RBuf 4 4 6 0 (0, 0) (MetaRing 3 3) None]} {[0 := [0; 0; 0; 0]]} 2 [] (λ _ _, 0).

Lemma ring_transfer_witness :
  ∃ m1 m2, roar_buffer_ring_write (Some 1) [1; 2; 3] example_ring = Done (0, m1) ∧
    roar_buffer_ring_read (Some 1) [7; 8; 9] m1 = Done (0, [1; 2; 9], m2).
Proof.
  exact (ring_transfer example_ring 1 (RBuf 4 4 6 0 (0, 0) (MetaRing 3 3) None) [0; 0; 0; 0] 3 [1; 2; 3] [7; 8; 9]
    ltac:(by split) ltac:(done) ltac:(done) ltac:(simpl; lia) eq_refl).
Defined.
