(* ===== verification/VioPipe.v ===== *)
(** * Pipes over buffers ([libroar/vio_pipe.c])

    A pipe has two ends; what is written at one is read at the other.  The
    pipes of type BUFFER keep the octets of each direction in a chain of
    buffers; those of the types PIPE and SOCKET pass all calls to the
    operating system and are not modelled.  [roar_vio_open_pipe] refuses type
    BUFFER; the functions below are what an open pipe of that type would do. *)
From S2P Require Import Prelude Vio Proto Buffer.

Definition O_RDONLY : Z := 0.
Definition O_WRONLY : Z := 1.
Definition O_RDWR : Z := 2.
Definition ROAR_VIO_PIPE_TYPE_BUFFER : Z := 1.

(** [struct roar_vio_pipe]; [vp_b0] and [vp_b1] are the chains read at the end
    0 and at the end 1. *)
Record vio_pipe := VioPipe { vp_refcount : Z; vp_type : Z; vp_flags : Z; vp_b0 : option Z; vp_b1 : option Z }.

(** An end of the pipe; [ROAR_VIO_PIPE_S] and [ROAR_VIO_PIPE_SR]. *)
Inductive pipe_end := End0 | End1.
Definition other_end (s : pipe_end) : pipe_end := match s with End0 => End1 | End1 => End0 end.
Definition vp_b (p : vio_pipe) (s : pipe_end) : option Z := match s with End0 => vp_b0 p | End1 => vp_b1 p end.
Definition set_b (s : pipe_end) (b : option Z) (p : vio_pipe) : vio_pipe :=
  match s with End0 => p<|vp_b0 := b|> | End1 => p<|vp_b1 := b|> end.

(** The direction of a pipe opened for one way only does not allow the chain
    [idx] to be used. *)
Definition wrong_way (idx : pipe_end) (flags : Z) : bool :=
  (match idx with End0 => O_WRONLY | End1 => O_RDONLY end) =? Z.land flags 3.

(** The BUFFER branch: the return value, the octets, and the pipe. *)
Definition roar_vio_pipe_read (s : pipe_end) (count : Z) (p : vio_pipe) : BM (Z * list Z * vio_pipe) :=
  if wrong_way s (vp_flags p) then mret (-1, [], p)
  else match vp_b p s with
       | None => mret (0, [], p)
       | Some _ =>
           '(r, bs, b) ← roar_buffer_shift_out (vp_b p s) count;
           if r =? -1 then mret (-1, [], p) else mret (Z.of_nat (length bs), bs, set_b s b p)
       end.

Definition roar_vio_pipe_write (s : pipe_end) (buf : list Z) (p : vio_pipe) : BM (Z * vio_pipe) :=
  let count := Z.of_nat (length buf) in
  let idx := other_end s in
  if vp_refcount p <? 2 then mret (-1, p)
  else if wrong_way idx (vp_flags p) then mret (-1, p)
  else
    '(r, next, data) ← roar_buffer_new_data count;
    if r =? -1 then mret (-1, p)
    else
      d ← blift (or_ub data);
      mem_write (d, 0) buf ;;
      match vp_b p idx with
      | None => mret (count, set_b idx next p)
      | Some _ =>
          r ← roar_buffer_add (vp_b p idx) next;
          if r =? -1 then roar_buffer_free next ;; mret (-1, p) else mret (count, p)
      end.

(** [roar_vio_pipe_close]: the buffers are not freed. *)
Definition roar_vio_pipe_close (p : vio_pipe) : Z * option vio_pipe :=
  let p := p<|vp_refcount := vp_refcount p - 1|> in
  (0, if vp_refcount p =? 0 then None else Some p).

(** ** A pipe is a pair of queues *)

#[export] Instance pipe_end_eq_dec : EqDecision pipe_end.
Proof. solve_decision. Defined.

Definition upd_end {A} (s : pipe_end) (x : A) (q : pipe_end → A) : pipe_end → A :=
  λ s', if decide (s' = s) then x else q s'.

Lemma upd_end_eq {A} s (x : A) q : upd_end s x q s = x.
Proof. unfold upd_end. by rewrite decide_True. Qed.
Lemma upd_end_ne {A} s s' (x : A) q : s' ≠ s → upd_end s x q s' = q s'.
Proof. intros. unfold upd_end. by rewrite decide_False. Qed.

(** [q s] is what can be read at the end [s]. *)
Record pipe_chains (m : bmem) (p : vio_pipe) (es : pipe_end → list bent) : Prop := {
  pc_ok : mem_ok m;
  pc_fail : bm_fail m = [];
  pc_refcount : vp_refcount p = 2;
  pc_flags : Z.land (vp_flags p) 3 = O_RDWR;
  pc_chain : ∀ s, chain m (vp_b p s) (es s) None;
  pc_addrs : ∀ s, NoDup (addrs (es s));
  pc_blks : ∀ s, NoDup (blks (es s));
  pc_disj : ∀ l s s', s ≠ s' → l ∈ addrs (es s) → l ∉ addrs (es s');
  pc_disjb : ∀ d s s', s ≠ s' → d ∈ blks (es s) → d ∉ blks (es s')
}.
Definition pipe_rep (m : bmem) (p : vio_pipe) (q : pipe_end → list Z) : Prop :=
  ∃ es, pipe_chains m p es ∧ ∀ s, contents (es s) = q s.

Lemma wrong_way_rdwr s flags : Z.land flags 3 = O_RDWR → wrong_way s flags = false.
Proof. unfold wrong_way. intros ->. by destruct s. Qed.

Lemma vp_b_set s s' b p : vp_b (set_b s b p) s' = if decide (s' = s) then b else vp_b p s'.
Proof. by destruct s, s', p. Qed.

(** One chain of the pipe changes. *)
Lemma pipe_chains_update m p es m' p' s es' :
  pipe_chains m p es → mem_ok m' → bm_fail m' = [] → vp_refcount p' = 2 → vp_flags p' = vp_flags p →
  (∀ s', s' ≠ s → vp_b p' s' = vp_b p s') → chain m' (vp_b p' s) es' None → NoDup (addrs es') → NoDup (blks es') →
  (∀ l, l ∈ addrs es' → l ∈ addrs (es s) ∨ bm_brk m ≤ l) → (∀ d, d ∈ blks es' → d ∈ blks (es s) ∨ bm_brk m ≤ d) →
  (∀ l, l ∉ addrs (es s) → l < bm_brk m → bm_bufs m' !! l = bm_bufs m !! l) →
  (∀ d, d ∉ blks (es s) → d < bm_brk m → bm_blocks m' !! d = bm_blocks m !! d) →
  pipe_chains m' p' (upd_end s es' es).
Proof.
  intros [P1 P2 P3 P4 P5 P6 P7 P8 P9] Hok Hf Hr Hfl Hb Hc Ha Hbl Hin Hinb Ho Hob.
  assert (HL : ∀ s' l, l ∈ addrs (es s') → l < bm_brk m) by (intros s'; apply (chain_brk _ _ _ _ P1 (P5 s'))).
  assert (HD : ∀ s' l, l ∈ blks (es s') → l < bm_brk m) by (intros s'; apply (chain_brk _ _ _ _ P1 (P5 s'))).
  assert (Hcross : ∀ l s', s' ≠ s → l ∈ addrs es' → l ∉ addrs (es s')).
  { intros l s' Hs [Hl|Hl]%Hin Hl'; [by apply (P8 l s s')|]. apply HL in Hl'. lia. }
  assert (Hcrossb : ∀ l s', s' ≠ s → l ∈ blks es' → l ∉ blks (es s')).
  { intros l s' Hs [Hl|Hl]%Hinb Hl'; [by apply (P9 l s s')|]. apply HD in Hl'. lia. }
  split; try done; [congruence|..].
  - intros s'. destruct (decide (s' = s)) as [->|Hs]; [by rewrite upd_end_eq|]. rewrite upd_end_ne, Hb by done.
    eapply chain_ext; [|apply P5]. split; intros l Hl.
    + apply Ho; [by apply (P8 l s')|by eapply HL].
    + apply Hob; [by apply (P9 l s')|by eapply HD].
  - intros s'. destruct (decide (s' = s)) as [->|Hs]; [by rewrite upd_end_eq|by rewrite upd_end_ne].
  - intros s'. destruct (decide (s' = s)) as [->|Hs]; [by rewrite upd_end_eq|by rewrite upd_end_ne].
  - intros l s1 s2 Hne. unfold upd_end. repeat case_decide; subst; try done; [by apply Hcross| |by apply P8].
    intros H1 H2. by apply (Hcross l s1).
  - intros l s1 s2 Hne. unfold upd_end. repeat case_decide; subst; try done; [by apply Hcrossb| |by apply P9].
    intros H1 H2. by apply (Hcrossb l s1).
Qed.

Lemma contents_snoc es l d bs : contents (es ++ [(l, d, bs)]) = contents es ++ bs.
Proof. unfold contents. rewrite fmap_app, join_app. cbn. by rewrite app_nil_r. Qed.

Lemma pipe_write_run m p q s bs : pipe_rep m p q → Z.of_nat (length bs) < 2 ^ 63 →
  ∃ p' m', roar_vio_pipe_write s bs p m = Done (Z.of_nat (length bs), p', m') ∧
    pipe_rep m' p' (upd_end (other_end s) (q (other_end s) ++ bs) q).
Proof.
  intros (es & P & Hq) Hmax. set (idx := other_end s). pose proof P as [P1 P2 P3 P4 P5 P6 P7 P8 P9].
  unfold roar_vio_pipe_write. cbv zeta. rewrite P3, (wrong_way_rdwr _ _ P4). cbn [Z.ltb Z.compare Pos.compare Pos.compare_cont].
  fold idx. pose proof (new_data_run m (Z.of_nat (length bs)) P1) as Hnew. unfold new_fails in Hnew. rewrite P2 in Hnew.
  cbn [hd tail orb] in Hnew. bstep Hnew. cbn [Z.eqb Z.opp]. set (n := bm_brk m + 1) in *.
  destruct (grown_chain m bs P1 ltac:(lia)) as (m1 & Hw & Hc1 & Hok1 & Hbrk1 & Hfail1 & Ho1). fold n in Hc1, Ho1.
  cbn [or_ub]. rewrite P2 in Hfail1. cbn [drop] in Hfail1.
  bstep (blift_Done (bm_brk m) (grown m (Z.of_nat (length bs)))). bstep Hw.
  pose proof (chain_brk _ _ _ _ P1 (P5 idx)) as [HL HD].
  destruct (vp_b p idx) as [c|] eqn:Eb.
  - destruct (add_chain m1 c (Some n) (es idx) [(n, bm_brk m, bs)]) as (m2 & E & H1 & H2 & H3 & H4); [|done| |].
    + eapply chain_ext; [|rewrite <- Eb; apply P5]. destruct Ho1 as [Ho1 Ho1b]. split; intros l Hl.
      * apply Ho1. intros ->%list_elem_of_singleton. apply HL in Hl. lia.
      * apply Ho1b. intros ->%list_elem_of_singleton. apply HD in Hl. lia.
    + rewrite !fmap_app. apply NoDup_app. split_and!; [apply P6| |apply NoDup_singleton].
      intros l Hl%HL ->%list_elem_of_singleton. cbn in Hl. lia.
    + bstep E. cbn [Z.eqb]. exists p, m2. split; [done|]. exists (upd_end idx (es idx ++ [(n, bm_brk m, bs)]) es). split.
      * destruct Ho1 as [Ho1 Ho1b], H2 as [Ho2 Ho2b]. apply (pipe_chains_update m p); try done.
        -- apply (mem_ok_only m1 m2 (addrs (es idx)) []); [done..| | |lia]; intros l Hl; [apply HL in Hl; lia|by apply elem_of_nil in Hl].
        -- congruence.
        -- by rewrite Eb.
        -- rewrite !fmap_app. apply NoDup_app. split_and!; [apply P6| |apply NoDup_singleton].
           intros l Hl%HL ->%list_elem_of_singleton. cbn in Hl. lia.
        -- rewrite !fmap_app. apply NoDup_app. split_and!; [apply P7| |apply NoDup_singleton].
           intros l Hl%HD ->%list_elem_of_singleton. cbn in Hl. lia.
        -- intros l. rewrite !fmap_app. intros [Hl| ->%list_elem_of_singleton]%elem_of_app; [by left|right; cbn; lia].
        -- intros l. rewrite !fmap_app. intros [Hl| ->%list_elem_of_singleton]%elem_of_app; [by left|right; cbn; lia].
        -- intros l Hl Hlt. rewrite Ho2 by done. apply Ho1. intros ->%list_elem_of_singleton. lia.
        -- intros l Hl Hlt. rewrite Ho2b by apply not_elem_of_nil. apply Ho1b. intros ->%list_elem_of_singleton. lia.
      * intros s'. destruct (decide (s' = idx)) as [->|Hs]; [|by rewrite !upd_end_ne].
        rewrite !upd_end_eq, contents_snoc. by rewrite Hq.
  - assert (Ees : es idx = []) by (specialize (P5 idx); rewrite Eb in P5; destruct (es idx); [done|by destruct P5 as [[=] _]]).
    eexists _, m1. split; [reflexivity|]. exists (upd_end idx [(n, bm_brk m, bs)] es). split.
    + destruct Ho1 as [Ho1 Ho1b]. apply (pipe_chains_update m p); try done.
      * by destruct idx, p.
      * by destruct idx, p.
      * intros s' Hs. rewrite vp_b_set. by rewrite decide_False.
      * rewrite vp_b_set. by rewrite decide_True.
      * apply NoDup_singleton.
      * apply NoDup_singleton.
      * intros l ->%list_elem_of_singleton. right. cbn. lia.
      * intros l ->%list_elem_of_singleton. right. cbn. lia.
      * intros l Hl Hlt. apply Ho1. intros ->%list_elem_of_singleton. lia.
      * intros l Hl Hlt. apply Ho1b. intros ->%list_elem_of_singleton. lia.
    + intros s'. destruct (decide (s' = idx)) as [->|Hs]; [|by rewrite !upd_end_ne].
      rewrite !upd_end_eq, <- Hq, Ees. unfold contents. cbn. by rewrite app_nil_r.
Qed.

Lemma pipe_read_run m p q s count : pipe_rep m p q → 0 ≤ count →
  ∃ p' m', roar_vio_pipe_read s count p m =
      Done (Z.of_nat (length (take (Z.to_nat count) (q s))), take (Z.to_nat count) (q s), p', m') ∧
    pipe_rep m' p' (upd_end s (drop (Z.to_nat count) (q s)) q).
Proof.
  intros (es & P & Hq) Hcount. pose proof P as [P1 P2 P3 P4 P5 P6 P7 P8 P9]. unfold roar_vio_pipe_read.
  rewrite (wrong_way_rdwr _ _ P4). destruct (vp_b p s) as [c|] eqn:Eb.
  - pose proof (chain_brk _ _ _ _ P1 (P5 s)) as [HL HD].
    destruct (shift_out_run m (Some c) (es s) count) as (cur' & es' & m' & E & H1 & H2 & [(k & Hk & _) [Ho1 Ho2] H3 H4 _]);
      [by rewrite <- Eb|done..|].
    bstep E. cbn [Z.eqb]. rewrite Hq in *. eexists _, m'. split; [reflexivity|]. exists (upd_end s es' es).
    assert (Hsub : addrs es' = drop k (addrs (es s)) ∧ blks es' = drop k (blks (es s))).
    { rewrite Hk, <- !fmap_drop. done. }
    destruct Hsub as [Hsa Hsb].
    split.
    + apply (pipe_chains_update m p); try done; try lia.
      * apply (mem_ok_only m m' (addrs (es s)) (blks (es s))); try done; rewrite H3; auto; lia.
      * congruence.
      * by destruct s, p.
      * by destruct s, p.
      * intros s' Hs. rewrite vp_b_set. by rewrite decide_False.
      * rewrite vp_b_set. by rewrite decide_True.
      * rewrite Hsa. eapply sublist_NoDup; [apply P6|apply sublist_drop].
      * rewrite Hsb. eapply sublist_NoDup; [apply P7|apply sublist_drop].
      * intros l. rewrite Hsa. intros Hl. left. by eapply subseteq_drop.
      * intros l. rewrite Hsb. intros Hl. left. by eapply subseteq_drop.
      * auto.
      * auto.
    + intros s'. destruct (decide (s' = s)) as [->|Hs]; [|by rewrite !upd_end_ne]. by rewrite !upd_end_eq.
  - assert (Ees : es s = []) by (specialize (P5 s); rewrite Eb in P5; destruct (es s); [done|by destruct P5 as [[=] _]]).
    assert (Eq : q s = []) by (by rewrite <- Hq, Ees). rewrite Eq, take_nil, drop_nil. exists p, m. split; [done|].
    exists es. split; [done|]. intros s'. destruct (decide (s' = s)) as [->|Hs]; [by rewrite upd_end_eq, Hq|by rewrite upd_end_ne].
Qed.


(** The direction from end 0 to end 1 as a VIO. *)
Record pipe_dir := PipeDir { pd_mem : bmem; pd_pipe : vio_pipe }.

#[export] Instance pipe_vio : Vio pipe_dir := {
  vio_read n v :=
    res ← roar_vio_pipe_read End1 (Z.of_nat n) (pd_pipe v) (pd_mem v);
    let '(r, bs, p, m) := res in Done (r, bs, PipeDir m p);
  vio_write bs v :=
    res ← roar_vio_pipe_write End0 bs (pd_pipe v) (pd_mem v);
    let '(r, p, m) := res in Done (r, PipeDir m p)
}.

#[export] Program Instance pipe_fifo : Fifo pipe_dir := {
  fifo_rep v q := ∃ qs, pipe_rep (pd_mem v) (pd_pipe v) qs ∧ qs End1 = q
}.
Next Obligation.
  intros [m p] q bs (qs & R & <-) Hlen. cbn in R.
  destruct (pipe_write_run m p qs End0 bs R Hlen) as (p' & m' & E & R'). exists (PipeDir m' p'). split.
  - cbn [vio_write pipe_vio pd_mem pd_pipe]. by rewrite E.
  - eexists. split; [exact R'|]. apply upd_end_eq.
Qed.
Next Obligation.
  intros [m p] q n (qs & R & <-). cbn in R.
  destruct (pipe_read_run m p qs End1 (Z.of_nat n) R ltac:(lia)) as (p' & m' & E & R'). rewrite Nat2Z.id in *.
  exists (PipeDir m' p'). split.
  - cbn [vio_read pipe_vio pd_mem pd_pipe]. by rewrite E.
  - eexists. split; [exact R'|]. apply upd_end_eq.
Qed.


(** ** The properties at work *)

Definition fresh_pipe : vio_pipe := VioPipe 2 ROAR_VIO_PIPE_TYPE_BUFFER O_RDWR None None.
Definition empty_mem : bmem := BMem ∅ ∅ 0 [] (λ _ _, 0).

Lemma fresh_pipe_rep : pipe_rep empty_mem fresh_pipe (λ _, []).
Proof.
  exists (λ _, []). split; [|done]. split; try done.
  - split; intros l [? Hl]; cbn in Hl; by rewrite lookup_empty in Hl.
  - by intros [].
  - intros _. constructor.
  - intros _. constructor.
  - by intros l s s' _ ?%elem_of_nil.
  - by intros l s s' _ ?%elem_of_nil.
Qed.


