(* ===== verification/Convert.v ===== *)
(** * Conversion of PCM ([libroardsp/convert.c])

    Sample width, number of channels, signedness and byte order, and the
    pipeline [roar_conv2].  All of them may be told to work
    in place, and the pipeline does that from its second step on, so the
    input and the output are addresses in one memory.  The hosts are
    little-endian with a signed [char].  The conversions of the sample rate
    compute with [float]s and are a parameter of the pipeline. *)
From S2P Require Import Prelude Volume.

(** ** Memory *)

(** The octets of one object; the functions work on it by addresses. *)
Abbreviation mem := (list Z).

Definition mread_at (p n : Z) (m : mem) : outcome (list Z) :=
  if decide (0 ≤ p ∧ 0 ≤ n) then or_ub (mread (Z.to_nat p) (Z.to_nat n) m) else UB.
Definition mwrite_to (p : Z) (bs : list Z) (m : mem) : outcome mem :=
  if decide (0 ≤ p) then or_ub (mwrite (Z.to_nat p) bs m) else UB.

(** [memcpy]; overlapping areas are not an issue where the code calls it. *)
Definition memcpy (out inp n : Z) (m : mem) : outcome mem :=
  bs ← mread_at inp n m; mwrite_to out bs m.

(** [((intW_t * )p)[i]] and [((uintW_t * )p)[i]] of [w] octets. *)
Definition ldS (w p i : Z) (m : mem) : outcome Z :=
  bs ← mread_at (p + w * i) w m; Done (swrap (8 * w) (le_val bs)).
Definition ldU (w p i : Z) (m : mem) : outcome Z :=
  bs ← mread_at (p + w * i) w m; Done (le_val bs).
Definition st (w p i v : Z) (m : mem) : outcome mem :=
  mwrite_to (p + w * i) (le_bytes (Z.to_nat w) v) m.

(** ** Loops *)

Fixpoint mloop (idx : list Z) (body : Z → mem → outcome mem) (m : mem) : outcome mem :=
  match idx with
  | [] => Done m
  | i :: idx => m ← body i m; mloop idx body m
  end.

(** [for (i = 0; i < n; i += k)] and [for (i = n; i >= 0; i -= k)]. *)
Definition up_by (k n : Z) : list Z := Z.mul k <$> seqZ 0 ((n + k - 1) / k).
Definition up (n : Z) : list Z := seqZ 0 n.
Definition down (n : Z) : list Z := reverse (seqZ 0 n).

(** ** Width *)

Definition roar_conv_bits_8to16 (out inp samples : Z) (m : mem) : outcome mem :=
  mloop (down samples) (λ i m, x ← ldS 1 inp i m; st 2 out i (Z.shiftl x 8) m) m.
Definition roar_conv_bits_8to32 (out inp samples : Z) (m : mem) : outcome mem :=
  mloop (down samples) (λ i m, x ← ldS 1 inp i m; st 4 out i (Z.shiftl x 24) m) m.
Definition roar_conv_bits_16to8 (out inp samples : Z) (m : mem) : outcome mem :=
  mloop (up samples) (λ i m, x ← ldS 2 inp i m; st 1 out i (Z.shiftr x 8) m) m.
Definition roar_conv_bits_16to32 (out inp samples : Z) (m : mem) : outcome mem :=
  mloop (down samples) (λ i m, x ← ldS 2 inp i m; st 4 out i (Z.shiftl x 16) m) m.
Definition roar_conv_bits_32to8 (out inp samples : Z) (m : mem) : outcome mem :=
  mloop (up samples) (λ i m, x ← ldS 4 inp i m; st 1 out i (Z.shiftr x 24) m) m.
Definition roar_conv_bits_32to16 (out inp samples : Z) (m : mem) : outcome mem :=
  mloop (up samples) (λ i m, x ← ldS 4 inp i m; st 2 out i (Z.shiftr x 16) m) m.

(** The pointer moves down from the first octet of the last sample; octet 0 of
    the union stays 0. *)
Fixpoint conv_24to32_loop (idx : list Z) (out ip : Z) (m : mem) : outcome mem :=
  match idx with
  | [] => Done m
  | i :: idx =>
      c2 ← ldU 1 ip 0 m; c3 ← ldU 1 ip (-1) m; c1 ← ldU 1 ip (-2) m;
      m ← st 4 out i (le_val [0; c1; c2; c3]) m;
      conv_24to32_loop idx out (ip - 3) m
  end.
Definition roar_conv_bits_24to32 (out inp samples : Z) (m : mem) : outcome mem :=
  conv_24to32_loop (down samples) out (inp + 3 * (samples - 1)) m.

(** The return value and the memory; [ENOSYS] for other formats. *)
Definition ok (m : outcome mem) : outcome (Z * mem) := m ← m; Done (0, m).

Definition roar_conv_bits (out inp samples from to : Z) (m : mem) : outcome (Z * mem) :=
  if from =? to then
    if inp =? out then Done (0, m) else ok (memcpy out inp (cdiv (samples * from) 8) m)
  else
    let format := Z.shiftl (cdiv from 8) 4 + cdiv to 8 in
    if format =? 0x12 then ok (roar_conv_bits_8to16 out inp samples m)
    else if format =? 0x14 then ok (roar_conv_bits_8to32 out inp samples m)
    else if format =? 0x21 then ok (roar_conv_bits_16to8 out inp samples m)
    else if format =? 0x24 then ok (roar_conv_bits_16to32 out inp samples m)
    else if format =? 0x34 then ok (roar_conv_bits_24to32 out inp samples m)
    else if format =? 0x41 then ok (roar_conv_bits_32to8 out inp samples m)
    else if format =? 0x42 then ok (roar_conv_bits_32to16 out inp samples m)
    else Done (-1, m).

(** ** Channels *)

(** One sample to [to] channels, for samples of [w] octets. *)
Definition conv_1ton (w out inp samples to : Z) (m : mem) : outcome mem :=
  mloop (down samples) (λ i, mloop (down to) (λ c m, x ← ldS w inp i m; st w out (i * to + c) x m)) m.
Definition roar_conv_chans_1ton8 := conv_1ton 1.
Definition roar_conv_chans_1ton16 := conv_1ton 2.
Definition roar_conv_chans_1ton32 := conv_1ton 4.

(** One sample to two channels. *)
Definition conv_1to2 (w out inp samples : Z) (m : mem) : outcome mem :=
  mloop (down samples) (λ h m,
    x ← ldS w inp h m; m ← st w out (2 * h) x m;
    x ← ldS w inp h m; st w out (2 * h + 1) x m) m.
Definition roar_conv_chans_1to28 := conv_1to2 1.
Definition roar_conv_chans_1to216 := conv_1to2 2.

(** [from] channels to one: the mean, rounded towards zero.  The sum is an
    [int]. *)
Fixpoint sum_channels (w inp base : Z) (cs : list Z) (s : Z) (m : mem) : outcome Z :=
  match cs with
  | [] => Done s
  | c :: cs =>
      x ← ldS w inp (base + c) m;
      if decide (- 2 ^ 31 ≤ s + x < 2 ^ 31) then sum_channels w inp base cs (s + x) m else UB
  end.
Definition conv_nto1 (w out inp samples from : Z) (m : mem) : outcome mem :=
  if from =? 0 then UB
  else mloop (up (cdiv samples from)) (λ i m,
         s ← sum_channels w inp (i * from) (up from) 0 m; st w out i (cdiv s from) m) m.
Definition roar_conv_chans_nto18 := conv_nto1 1.
Definition roar_conv_chans_nto116 := conv_nto1 2.
Definition roar_conv_chans_nto132 := conv_nto1 4.

(** Two channels to one. *)
Definition conv_2to1 (w out inp samples : Z) (m : mem) : outcome mem :=
  mloop (up ((samples + 1) / 2)) (λ h m,
    x ← ldS w inp (2 * h) m; y ← ldS w inp (2 * h + 1) m; st w out h (cdiv (x + y) 2) m) m.
Definition roar_conv_chans_2to18 := conv_2to1 1.
Definition roar_conv_chans_2to116 := conv_2to1 2.

(** [for (i = samples, h = samples/2 * k; i >= 0; i -= 2, h -= k)] after
    [samples -= 2]: the values of [i] with those of [h]. *)
Definition frames2 (samples k : Z) : list (Z * Z) :=
  let s := samples - 2 in
  (λ j, (s - 2 * j, cdiv s 2 * k - k * j)) <$> seqZ 0 (s / 2 + 1).

Fixpoint mloop2 (ihs : list (Z * Z)) (body : Z → Z → mem → outcome mem) (m : mem) : outcome mem :=
  match ihs with
  | [] => Done m
  | (i, h) :: ihs => m ← body i h m; mloop2 ihs body m
  end.

(** [op[h+k] = ip[i+j]] and [op[h+k] = (ip[i] + ip[i+1]) / 2]. *)
Definition put16 (out inp k j i h : Z) (m : mem) : outcome mem := x ← ldS 2 inp (i + j) m; st 2 out (h + k) x m.
Definition put16_mean (out inp k i h : Z) (m : mem) : outcome mem :=
  x ← ldS 2 inp i m; y ← ldS 2 inp (i + 1) m; st 2 out (h + k) (cdiv (x + y) 2) m.

Definition roar_conv_chans_2to316 (out inp samples : Z) (m : mem) : outcome mem :=
  mloop2 (frames2 samples 3) (λ i h m,
    m ← put16 out inp 0 0 i h m; m ← put16 out inp 1 1 i h m; put16_mean out inp 2 i h m) m.
Definition roar_conv_chans_2to416 (out inp samples : Z) (m : mem) : outcome mem :=
  mloop2 (frames2 samples 4) (λ i h m,
    m ← put16 out inp 0 0 i h m; m ← put16 out inp 1 1 i h m;
    m ← put16 out inp 2 0 i h m; put16 out inp 3 1 i h m) m.
Definition roar_conv_chans_2to516 (out inp samples : Z) (m : mem) : outcome mem :=
  mloop2 (frames2 samples 5) (λ i h m,
    m ← put16 out inp 0 0 i h m; m ← put16 out inp 1 1 i h m; m ← put16_mean out inp 2 i h m;
    m ← put16 out inp 3 0 i h m; put16 out inp 4 1 i h m) m.
Definition roar_conv_chans_2to616 (out inp samples : Z) (m : mem) : outcome mem :=
  mloop2 (frames2 samples 6) (λ i h m,
    m ← put16 out inp 0 0 i h m; m ← put16 out inp 1 1 i h m; m ← put16_mean out inp 2 i h m;
    x ← ldS 2 out (h + 2) m; m ← st 2 out (h + 3) x m;
    m ← put16 out inp 4 0 i h m; put16 out inp 5 1 i h m) m.

(** Four channels to two; the loop ends before the last frame. *)
Definition roar_conv_chans_4to216 (out inp samples : Z) (m : mem) : outcome mem :=
  mloop (up_by 4 (samples - 4)) (λ i m,
    let h := cdiv i 2 in
    x ← ldS 2 inp i m; y ← ldS 2 inp (i + 2) m; m ← st 2 out h (cdiv (x + y) 2) m;
    x ← ldS 2 inp (i + 1) m; y ← ldS 2 inp (i + 3) m; st 2 out (h + 1) (cdiv (x + y) 2) m) m.

Definition roar_conv_chans (out inp samples from to bits : Z) (m : mem) : outcome (Z * mem) :=
  if from =? to then
    if inp =? out then Done (0, m) else ok (memcpy out inp (cdiv (samples * from * bits) 8) m)
  else if bits =? 8 then
    if from =? 1 then
      if to =? 2 then ok (roar_conv_chans_1to28 out inp samples m)
      else ok (roar_conv_chans_1ton8 out inp samples to m)
    else if from =? 2 then
      if to =? 1 then ok (roar_conv_chans_2to18 out inp samples m) else Done (-1, m)
    else if to =? 1 then ok (roar_conv_chans_nto18 out inp samples from m) else Done (-1, m)
  else if bits =? 16 then
    if from =? 1 then
      if to =? 2 then ok (roar_conv_chans_1to216 out inp samples m)
      else ok (roar_conv_chans_1ton16 out inp samples to m)
    else if from =? 2 then
      if to =? 1 then ok (roar_conv_chans_2to116 out inp samples m)
      else if to =? 3 then ok (roar_conv_chans_2to316 out inp samples m)
      else if to =? 4 then ok (roar_conv_chans_2to416 out inp samples m)
      else if to =? 5 then ok (roar_conv_chans_2to516 out inp samples m)
      else if to =? 6 then ok (roar_conv_chans_2to616 out inp samples m)
      else Done (-1, m)
    else if from =? 4 then
      if to =? 1 then ok (roar_conv_chans_nto116 out inp samples 4 m)
      else if to =? 2 then ok (roar_conv_chans_4to216 out inp samples m)
      else Done (-1, m)
    else if to =? 1 then ok (roar_conv_chans_nto116 out inp samples from m) else Done (-1, m)
  else if bits =? 32 then
    if from =? 1 then ok (roar_conv_chans_1ton32 out inp samples to m)
    else if to =? 1 then ok (roar_conv_chans_nto132 out inp samples from m) else Done (-1, m)
  else Done (-1, m).

(** ** Signedness *)

Definition roar_conv_codec_s2u8 (out inp samples : Z) (m : mem) : outcome mem :=
  mloop (up samples) (λ i m, x ← ldS 1 inp i m; st 1 out i (x + 128) m) m.
Definition roar_conv_codec_s2u16 (out inp samples : Z) (m : mem) : outcome mem :=
  mloop (up samples) (λ i m, x ← ldS 2 inp i m; st 2 out i (x + 32768) m) m.
Definition roar_conv_codec_s2u32 (out inp samples : Z) (m : mem) : outcome mem :=
  mloop (up samples) (λ i m, x ← ldS 4 inp i m; st 4 out i (u32 (x + 2147483648)) m) m.
Definition roar_conv_codec_u2s8 (out inp samples : Z) (m : mem) : outcome mem :=
  mloop (up samples) (λ i m, x ← ldU 1 inp i m; st 1 out i (x - 128) m) m.
Definition roar_conv_codec_u2s16 (out inp samples : Z) (m : mem) : outcome mem :=
  mloop (up samples) (λ i m, x ← ldU 2 inp i m; st 2 out i (x - 32768) m) m.
Definition roar_conv_codec_u2s32 (out inp samples : Z) (m : mem) : outcome mem :=
  mloop (up samples) (λ i m, x ← ldU 4 inp i m; st 4 out i (u32 (x - 2147483648)) m) m.

(** [from] and [to] tell whether the samples are signed. *)
Definition roar_conv_signedness (out inp samples : Z) (from to : bool) (bits : Z) (m : mem) : outcome (Z * mem) :=
  match from, to with
  | true, false =>
      if bits =? 8 then ok (roar_conv_codec_s2u8 out inp samples m)
      else if bits =? 16 then ok (roar_conv_codec_s2u16 out inp samples m)
      else if bits =? 32 then ok (roar_conv_codec_s2u32 out inp samples m)
      else Done (-1, m)
  | false, true =>
      if bits =? 8 then ok (roar_conv_codec_u2s8 out inp samples m)
      else if bits =? 16 then ok (roar_conv_codec_u2s16 out inp samples m)
      else if bits =? 32 then ok (roar_conv_codec_u2s32 out inp samples m)
      else Done (-1, m)
  | _, _ =>
      if out =? inp then Done (0, m) else ok (memcpy out inp (cdiv (samples * bits) 8) m)
  end.

(** ** Byte order *)

Definition ROAR_CODEC_LE : Z := 1.
Definition ROAR_CODEC_BE : Z := 2.
Definition ROAR_CODEC_PDP : Z := 3.
Definition ROAR_CODEC_UNSIGNED : Z := 4.
Definition ROAR_CODEC_NATIVE_ENDIAN : Z := ROAR_CODEC_LE.
Definition ROAR_CODEC_PCM_S_LE : Z := 1.
Definition ROAR_CODEC_IS_SIGNED (codec : Z) : bool := Z.land codec ROAR_CODEC_UNSIGNED =? 0.
Definition ROAR_CODEC_BYTE_ORDER (codec : Z) : Z := Z.land codec 3.

(** An octet. *)
Definition ld1 (p i : Z) (m : mem) : outcome Z := ldU 1 p i m.
Definition st1 (p i v : Z) (m : mem) : outcome mem := st 1 p i v m.

(** The loops of the 16 and 24 bit swaps: the octets [i] and [i + k] change
    places, every [w] octets; out of place an octet between them is not
    copied. *)
Definition conv_endian_swap (w k out inp samples : Z) (m : mem) : outcome mem :=
  mloop (up_by w (samples * w)) (λ i m,
    if negb (out =? inp) then
      x ← ld1 inp (i + k) m; m ← st1 out i x m;
      x ← ld1 inp i m; st1 out (i + k) x m
    else
      c ← ld1 inp (i + k) m; x ← ld1 inp i m;
      m ← st1 out (i + k) x m; st1 out i c m) m.
Definition roar_conv_endian_16 := conv_endian_swap 2 1.
Definition roar_conv_endian_24 := conv_endian_swap 3 2.

Definition roar_conv_endian_32 (out inp samples : Z) (m : mem) : outcome mem :=
  mloop (up samples) (λ i m, x ← ldU 4 inp i m; st 4 out i (le_val (reverse (le_bytes 4 x))) m) m.

Definition le_or_be (e : Z) : bool := (e =? ROAR_CODEC_LE) || (e =? ROAR_CODEC_BE).

Definition roar_conv_endian (out inp samples from to bits : Z) (m : mem) : outcome (Z * mem) :=
  let pdp_le e := if e =? ROAR_CODEC_PDP then ROAR_CODEC_LE else e in
  let '(from, to) :=
    if bits =? 8 then (ROAR_CODEC_NATIVE_ENDIAN, ROAR_CODEC_NATIVE_ENDIAN)
    else if bits =? 16 then (pdp_le from, pdp_le to)
    else (from, to) in
  if from =? to then
    if inp =? out then Done (0, m) else ok (memcpy out inp (cdiv (samples * bits) 8) m)
  else if bits =? 16 then ok (roar_conv_endian_16 out inp samples m)
  else if bits =? 24 then
    if le_or_be from && le_or_be to then ok (roar_conv_endian_24 out inp samples m) else Done (-1, m)
  else if bits =? 32 then
    if le_or_be from && le_or_be to then ok (roar_conv_endian_32 out inp samples m)
    else
      m ← (if from =? ROAR_CODEC_BE then roar_conv_endian_32 out inp samples m else Done m);
      m ← roar_conv_endian_16 out inp (samples * 2) m;
      m ← (if to =? ROAR_CODEC_BE then roar_conv_endian_32 out inp samples m else Done m);
      Done (0, m)
  else Done (-1, m).

(** The result of the byte order conversion is not looked at. *)
Definition roar_conv_codec (out inp samples from to bits : Z) (m : mem) : outcome (Z * mem) :=
  '(_, m) ← roar_conv_endian out inp samples (ROAR_CODEC_BYTE_ORDER from) (ROAR_CODEC_BYTE_ORDER to) bits m;
  roar_conv_signedness out inp samples (ROAR_CODEC_IS_SIGNED from) (ROAR_CODEC_IS_SIGNED to) bits m.

(** ** The pipeline *)


Section pipeline.
(** [roar_conv_rate2(out, in, outsamples, samples, bits, channels)]. *)
Variable roar_conv_rate2 : Z → Z → Z → Z → Z → Z → mem → outcome (Z * mem).

(** What the steps of [roar_conv2] pass on: where the samples are, how many
    they are, what they are like, and the memory. *)
Record conv_state := CS { cs_in : Z; cs_samples : Z; cs_info : audio_info; cs_mem : mem }.

(** A step that is skipped, or that ends the conversion with -1 on failure. *)
Definition conv_step (cond : bool) (f : conv_state → outcome (Z * mem)) (after : mem → conv_state → conv_state)
    (k : conv_state → outcome (Z * mem)) (s : conv_state) : outcome (Z * mem) :=
  if cond then '(r, m) ← f s; if r =? -1 then Done (-1, m) else k (after m s) else k s.

Definition roar_conv2 (out inp inlen : Z) (from to : audio_info) (bufsize : Z) (m : mem) : outcome (Z * mem) :=
  if bits from =? 0 then UB
  else
  let samples := cdiv (inlen * 8) (bits from) in
  let need_signed := negb (rate from =? rate to) || negb (channels from =? channels to) in
  let here m s := (s<|cs_in := out|>)<|cs_mem := m|> in
  let info f s := s<|cs_info := f (cs_info s)|> in
  let more_channels := channels from <? channels to in
  conv_step (negb (ROAR_CODEC_BYTE_ORDER (codec from) =? ROAR_CODEC_NATIVE_ENDIAN))
    (λ s, roar_conv_endian out (cs_in s) (cs_samples s) (ROAR_CODEC_BYTE_ORDER (codec from))
            ROAR_CODEC_NATIVE_ENDIAN (bits from) (cs_mem s)) here (λ s,
  conv_step (bits from <? bits to)
    (λ s, roar_conv_bits out (cs_in s) (cs_samples s) (bits from) (bits to) (cs_mem s))
    (λ m s, info (λ i, i<|bits := bits to|>) (here m s)) (λ s,
  conv_step (need_signed && negb (ROAR_CODEC_IS_SIGNED (codec from)))
    (λ s, roar_conv_signedness out (cs_in s) (cs_samples s) (ROAR_CODEC_IS_SIGNED (codec from))
            (ROAR_CODEC_IS_SIGNED (codec to)) (bits (cs_info s)) (cs_mem s))
    (λ m s, info (λ i, i<|codec := ROAR_CODEC_PCM_S_LE|>) (here m s)) (λ s,
  conv_step more_channels
    (λ s, roar_conv_chans out (cs_in s) (cs_samples s) (channels from) (channels to) (bits (cs_info s)) (cs_mem s))
    (λ m s, info (λ i, i<|channels := channels to|>)
              ((here m s)<|cs_samples := cdiv (cs_samples s * channels to) (channels (cs_info s))|>)) (λ s,
  let outsamples s :=
    let o := bufsize in
    let o := if channels (cs_info s) =? channels to then o else cdiv (o * channels (cs_info s)) (channels to) in
    let o := if bits (cs_info s) =? bits to then o else cdiv (o * bits (cs_info s)) (bits to) in
    cdiv o (cdiv (bits (cs_info s)) 8) in
  conv_step (negb (rate from =? rate to))
    (λ s, if (cdiv (bits (cs_info s)) 8 =? 0) ||
             (negb (channels (cs_info s) =? channels to) && (channels to =? 0)) ||
             (negb (bits (cs_info s) =? bits to) && (bits to =? 0)) then UB
          else roar_conv_rate2 out (cs_in s) (outsamples s) (cs_samples s) (bits (cs_info s)) (channels (cs_info s)) (cs_mem s))
    (λ m s, info (λ i, i<|rate := rate to|>) ((here m s)<|cs_samples := outsamples s|>)) (λ s,
  conv_step (negb (channels (cs_info s) =? channels to))
    (λ s, roar_conv_chans out (cs_in s) (cs_samples s) (channels (cs_info s)) (channels to) (bits (cs_info s)) (cs_mem s))
    (λ m s, info (λ i, i<|channels := channels to|>)
              ((here m s)<|cs_samples := cdiv (cs_samples s * channels to) (channels (cs_info s))|>)) (λ s,
  conv_step (negb (Bool.eqb (ROAR_CODEC_IS_SIGNED (codec (cs_info s))) (ROAR_CODEC_IS_SIGNED (codec to))))
    (λ s, roar_conv_signedness out (cs_in s) (cs_samples s) (ROAR_CODEC_IS_SIGNED (codec (cs_info s)))
            (ROAR_CODEC_IS_SIGNED (codec to)) (bits (cs_info s)) (cs_mem s))
    (λ m s, info (λ i, i<|codec := codec to|>) (here m s)) (λ s,
  conv_step (negb (bits (cs_info s) =? bits to))
    (λ s, roar_conv_bits out (cs_in s) (cs_samples s) (bits (cs_info s)) (bits to) (cs_mem s))
    (λ m s, info (λ i, i<|bits := bits to|>) (here m s)) (λ s,
  conv_step (negb (ROAR_CODEC_BYTE_ORDER (codec to) =? ROAR_CODEC_NATIVE_ENDIAN))
    (λ s, roar_conv_endian out (cs_in s) (cs_samples s) ROAR_CODEC_NATIVE_ENDIAN
            (ROAR_CODEC_BYTE_ORDER (codec to)) (bits to) (cs_mem s)) here (λ s,
  Done (0, cs_mem s)) s) s) s) s) s) s) s) s) (CS inp samples from m).
End pipeline.

(** ** Areas of memory *)

Lemma mread_at_Some p n m : 0 ≤ p → 0 ≤ n → p + n ≤ Z.of_nat (length m) →
  mread_at p n m = Done (take (Z.to_nat n) (drop (Z.to_nat p) m)).
Proof. intros. unfold mread_at. rewrite decide_True by lia. by rewrite mread_Some by lia. Qed.

Lemma mread_at_Done p n m bs : mread_at p n m = Done bs →
  0 ≤ p ∧ 0 ≤ n ∧ p + n ≤ Z.of_nat (length m) ∧ bs = take (Z.to_nat n) (drop (Z.to_nat p) m).
Proof.
  unfold mread_at. case_decide as Hd; [|done]. unfold mread. case_decide as Hl; [|done].
  intros [= <-]. split_and!; try done; lia.
Qed.

Lemma mwrite_to_Some p bs m : 0 ≤ p → p + Z.of_nat (length bs) ≤ Z.of_nat (length m) →
  mwrite_to p bs m = Done (take (Z.to_nat p) m ++ bs ++ drop (Z.to_nat p + length bs) m).
Proof. intros. unfold mwrite_to. rewrite decide_True by lia. by rewrite mwrite_Some by lia. Qed.

Lemma mwrite_to_Done p bs m m' : mwrite_to p bs m = Done m' →
  0 ≤ p ∧ p + Z.of_nat (length bs) ≤ Z.of_nat (length m) ∧
  m' = take (Z.to_nat p) m ++ bs ++ drop (Z.to_nat p + length bs) m ∧ length m' = length m.
Proof.
  unfold mwrite_to. case_decide as Hd; [|done]. unfold mwrite. case_decide as Hl; [|done].
  intros [= <-]. split_and!; try done; [lia|]. rewrite !length_app, length_take, length_drop. lia.
Qed.

(** An access elsewhere does not see a write. *)
Lemma mread_mwrite_ne p bs m m' q n : mwrite_to p bs m = Done m' →
  q + n ≤ p ∨ p + Z.of_nat (length bs) ≤ q → mread_at q n m' = mread_at q n m.
Proof.
  intros (Hp & Hb & -> & Hl)%mwrite_to_Done Hd. unfold mread_at. case_decide as Hq; [|done].
  unfold mread. rewrite Hl. case_decide as Hn; [|done]. do 2 f_equal. destruct Hd as [Hd|Hd].
  - rewrite !take_drop_commute. replace (Z.to_nat q + Z.to_nat n)%nat with (Z.to_nat (q + n)) by lia.
    rewrite take_app_le by (rewrite length_take; lia). rewrite take_take. do 2 f_equal. lia.
  - f_equal. rewrite app_assoc, drop_app_ge by (rewrite length_app, length_take; lia).
    rewrite length_app, length_take, drop_drop. f_equal. lia.
Qed.

Lemma mwrite_fits p bs m : 0 ≤ p → p + Z.of_nat (length bs) ≤ Z.of_nat (length m) →
  ∃ m', mwrite_to p bs m = Done m' ∧ length m' = length m.
Proof.
  intros Hp Hl. eexists. split; [by apply mwrite_to_Some|]. rewrite !length_app, length_take, length_drop. lia.
Qed.

(** Two neighbouring writes are one. *)
Lemma mwrite_app p a b m : 0 ≤ p → p + Z.of_nat (length (a ++ b)) ≤ Z.of_nat (length m) →
  mwrite_to p (a ++ b) m = (m1 ← mwrite_to (p + Z.of_nat (length a)) b m; mwrite_to p a m1) ∧
  mwrite_to p (a ++ b) m = (m1 ← mwrite_to p a m; mwrite_to (p + Z.of_nat (length a)) b m1).
Proof.
  intros Hp Hl. rewrite length_app in Hl. rewrite mwrite_to_Some by (rewrite ?length_app; lia).
  assert (E : ∀ k, (Z.to_nat (p + Z.of_nat k) = Z.to_nat p + k)%nat) by lia. split.
  - rewrite (mwrite_to_Some (p + _)) by lia. rewrite bind_Done.
    rewrite mwrite_to_Some by (rewrite ?length_app, ?length_take, ?length_drop; lia). f_equal.
    rewrite !E, length_app. rewrite take_app_le by (rewrite length_take; lia). rewrite take_take.
    rewrite Nat.min_l by lia. rewrite <- app_assoc. do 2 f_equal.
    rewrite drop_app_length' by (rewrite length_take; lia). do 2 f_equal. lia.
  - rewrite (mwrite_to_Some p a) by lia. rewrite bind_Done.
    rewrite mwrite_to_Some by (rewrite ?length_app, ?length_take, ?length_drop; lia). f_equal.
    rewrite !E. set (r := drop (Z.to_nat p + length a) m).
    replace (take (Z.to_nat p + length a) (take (Z.to_nat p) m ++ a ++ r)) with (take (Z.to_nat p) m ++ a)
      by (by rewrite app_assoc, take_app_length' by (rewrite length_app, length_take; lia)).
    replace (drop (Z.to_nat p + length a + length b) (take (Z.to_nat p) m ++ a ++ r)) with (drop (length b) r).
    + unfold r. rewrite drop_drop, length_app, <- !app_assoc. do 4 f_equal. lia.
    + rewrite app_assoc, drop_app_ge by (rewrite length_app, length_take; lia).
      rewrite length_app, length_take. f_equal. lia.
Qed.

Lemma mread_app p a b m : mread_at p (Z.of_nat (length (a ++ b))) m = Done (a ++ b) →
  mread_at p (Z.of_nat (length a)) m = Done a ∧
  mread_at (p + Z.of_nat (length a)) (Z.of_nat (length b)) m = Done b.
Proof.
  intros (Hp & _ & Hl & E)%mread_at_Done. rewrite length_app in *. rewrite !mread_at_Some by lia.
  rewrite !Nat2Z.id in *. replace (Z.to_nat (Z.of_nat (length a + length b))) with (length a + length b)%nat in E by lia.
  replace (Z.to_nat (p + Z.of_nat (length a))) with (Z.to_nat p + length a)%nat by lia.
  rewrite <- drop_drop. set (d := drop (Z.to_nat p) m) in *. split; f_equal.
  - transitivity (take (length a) (take (length a + length b) d)); [rewrite take_take; f_equal; lia|].
    by rewrite <- E, take_app_length.
  - transitivity (drop (length a) (take (length a + length b) d)); [|by rewrite <- E, drop_app_length].
    rewrite skipn_firstn_comm. f_equal. lia.
Qed.

Lemma mread_mwrite_eq p bs m m' : mwrite_to p bs m = Done m' → mread_at p (Z.of_nat (length bs)) m' = Done bs.
Proof.
  intros (Hp & Hb & -> & Hl)%mwrite_to_Done. rewrite mread_at_Some by lia. rewrite Nat2Z.id.
  rewrite drop_app_length' by (rewrite length_take; lia). by rewrite take_app_length.
Qed.

(** ** Loops over blocks

    Iteration [t] turns a block of [a] octets at [inp + a * t] into one of [b]
    octets at [out + b * t]. *)

Lemma down_S n : 0 ≤ n → down (n + 1) = n :: down n.
Proof. intros. unfold down. rewrite seqZ_app, (seqZ_cons _ 1), (seqZ_nil (Z.succ _)), reverse_app by lia. done. Qed.

Definition block_ok (body : Z → mem → outcome mem) (inp out a b : Z) (t : nat) (x y : list Z) : Prop :=
  ∀ m, mread_at (inp + a * Z.of_nat t) a m = Done x → out + b * (Z.of_nat t + 1) ≤ Z.of_nat (length m) →
    body (Z.of_nat t) m = mwrite_to (out + b * Z.of_nat t) y m.

Lemma join_length (a : Z) (blks : list (list Z)) : Forall (λ x, Z.of_nat (length x) = a) blks →
  Z.of_nat (length (mjoin blks)) = a * Z.of_nat (length blks).
Proof.
  induction 1 as [|x blks Hx _ IH]; [cbn; lia|]. change (mjoin (x :: blks)) with (x ++ mjoin blks).
  rewrite length_app. cbn [length]. lia.
Qed.

(** Whether the loop may work on overlapping areas. *)
Definition apart (inp a out b n : Z) : Prop := out + b * n ≤ inp ∨ inp + a * n ≤ out.

Lemma down_blocks body inp out a b xs ys m :
  Forall (λ x, Z.of_nat (length x) = a) xs → Forall (λ y, Z.of_nat (length y) = b) ys → length ys = length xs →
  (∀ t x y, xs !! t = Some x → ys !! t = Some y → block_ok body inp out a b t x y) →
  mread_at inp (a * Z.of_nat (length xs)) m = Done (mjoin xs) → 0 ≤ out → 0 ≤ b →
  out + b * Z.of_nat (length xs) ≤ Z.of_nat (length m) →
  inp ≤ out ∧ a ≤ b ∨ apart inp a out b (Z.of_nat (length xs)) →
  mloop (down (Z.of_nat (length xs))) body m = mwrite_to out (mjoin ys) m.
Proof.
  revert ys m. induction xs as [|x xs IH] using rev_ind; intros ys m Hxs Hys Hlen Hbody Hread Hout Hb Hfit Hov.
  - destruct ys; [|done]. cbn. rewrite mwrite_to_Some by (simpl; lia). cbn. by rewrite Nat.add_0_r, take_drop.
  - destruct ys as [|y ys _] using rev_ind; [rewrite length_app in Hlen; simpl in Hlen; lia|].
    apply Forall_app in Hxs as [Hxs Hx], Hys as [Hys Hy]. rewrite Forall_singleton in Hx, Hy.
    rewrite !length_app in *. cbn [length] in *. assert (Hlen' : length ys = length xs) by lia.
    replace (Z.of_nat (length xs + 1)) with (Z.of_nat (length xs) + 1) in * by lia.
    rewrite down_S by lia. cbn [mloop]. pose proof (join_length _ _ Hxs) as Jx. pose proof (join_length _ _ Hys) as Jy.
    rewrite !join_app in *. cbn [mjoin list_join] in *. rewrite !app_nil_r in *.
    replace (a * (Z.of_nat (length xs) + 1)) with (Z.of_nat (length (mjoin xs ++ x))) in Hread by (rewrite length_app; lia).
    apply mread_app in Hread as [Hr1 Hr2]. rewrite Jx, Hx in *.
    assert (Hstep : body (Z.of_nat (length xs)) m = mwrite_to (out + b * Z.of_nat (length xs)) y m).
    { apply (Hbody (length xs) x y); [by apply list_lookup_middle|by apply list_lookup_middle|done|lia]. }
    rewrite Hstep.
    destruct (mwrite_app out (mjoin ys) y m) as [-> _]; [done|rewrite length_app; lia|]. rewrite Jy, Hlen'.
    destruct (mwrite_to (out + b * Z.of_nat (length xs)) y m) as [m1| |] eqn:Ew; [|done..]. rewrite !bind_Done.
    apply IH; try done.
    + intros t x0 y0 Hx0 Hy0. apply Hbody; by apply lookup_app_l_Some.
    + rewrite (mread_mwrite_ne _ _ _ _ _ _ Ew); [done|]. unfold apart in Hov. nia.
    + apply mwrite_to_Done in Ew as (_ & _ & _ & ->). lia.
    + unfold apart in *. nia.
Qed.

Lemma up_blocks body inp out a b xs ys m t0 :
  Forall (λ x, Z.of_nat (length x) = a) xs → Forall (λ y, Z.of_nat (length y) = b) ys → length ys = length xs →
  (∀ t x y, xs !! t = Some x → ys !! t = Some y → block_ok body inp out a b (t0 + t) x y) →
  mread_at (inp + a * Z.of_nat t0) (a * Z.of_nat (length xs)) m = Done (mjoin xs) → 0 ≤ out → 0 ≤ b → 0 ≤ a →
  out + b * Z.of_nat (t0 + length xs) ≤ Z.of_nat (length m) →
  out ≤ inp ∧ b ≤ a ∨ apart inp a out b (Z.of_nat (t0 + length xs)) →
  mloop (seqZ (Z.of_nat t0) (Z.of_nat (length xs))) body m = mwrite_to (out + b * Z.of_nat t0) (mjoin ys) m.
Proof.
  revert ys m t0. induction xs as [|x xs IH]; intros ys m t0 Hxs Hys Hlen Hbody Hread Hout Hb Ha Hfit Hov.
  - destruct ys; [|done]. cbn. rewrite mwrite_to_Some by (simpl in *; nia). cbn. by rewrite Nat.add_0_r, take_drop.
  - destruct ys as [|y ys]; [done|]. apply Forall_cons in Hxs as [Hx Hxs], Hys as [Hy Hys].
    change (mjoin (x :: xs)) with (x ++ mjoin xs) in *. change (mjoin (y :: ys)) with (y ++ mjoin ys).
    cbn [length] in *. rewrite seqZ_cons by lia. cbn [mloop].
    replace (a * Z.of_nat (S (length xs))) with (Z.of_nat (length (x ++ mjoin xs))) in Hread
      by (rewrite length_app; pose proof (join_length _ _ Hxs); lia).
    apply mread_app in Hread as [Hr1 Hr2]. pose proof (join_length _ _ Hxs) as Jx.
    pose proof (join_length _ _ Hys) as Jy. rewrite Jx, Hx in Hr2. rewrite Hx in Hr1.
    assert (Hstep : body (Z.of_nat t0) m = mwrite_to (out + b * Z.of_nat t0) y m).
    { pose proof (Hbody 0%nat x y eq_refl eq_refl) as Hb0. rewrite Nat.add_0_r in Hb0. apply Hb0; done || lia. }
    rewrite Hstep. destruct (mwrite_app (out + b * Z.of_nat t0) y (mjoin ys) m) as [_ ->];
      [nia|rewrite length_app; pose proof (join_length _ _ Hys); lia|]. rewrite Hy.
    destruct (mwrite_to (out + b * Z.of_nat t0) y m) as [m1| |] eqn:Ew; [|done..]. rewrite !bind_Done.
    replace (Z.succ (Z.of_nat t0)) with (Z.of_nat (S t0)) by lia.
    replace (Z.pred (Z.of_nat (S (length xs)))) with (Z.of_nat (length xs)) by lia.
    replace (out + b * Z.of_nat t0 + b) with (out + b * Z.of_nat (S t0)) by lia.
    apply IH; try done.
    + lia.
    + intros t x0 y0 Hx0 Hy0. replace (S t0 + t)%nat with (t0 + S t)%nat by lia. by apply Hbody.
    + rewrite (mread_mwrite_ne _ _ _ _ _ _ Ew).
      * rewrite <- Hr2. f_equal; lia.
      * unfold apart in Hov. nia.
    + apply mwrite_to_Done in Ew as (_ & _ & _ & ->). lia.
    + unfold apart in *. nia.
Qed.

(** ** Samples *)

(** Samples of [w] octets as they lie in memory. *)
Definition encode (w : Z) (vs : list Z) : list Z := mjoin (le_bytes (Z.to_nat w) <$> vs).
Definition sample (w v : Z) : Prop := - 2 ^ (8 * w - 1) ≤ v < 2 ^ (8 * w - 1).

Lemma ld_sample w p i m v : 0 < w → sample w v →
  mread_at (p + w * i) w m = Done (le_bytes (Z.to_nat w) v) → ldS w p i m = Done v.
Proof.
  intros Hw Hv Hr. unfold ldS. rewrite Hr, bind_Done, le_val_bytes. f_equal.
  rewrite Z2Nat.id by lia. change 256 with (2 ^ 8). rewrite <- Z.pow_mul_r by lia.
  change (v mod 2 ^ (8 * w)) with (uwrap (8 * w) v). rewrite swrap_uwrap by lia. apply swrap_id; [lia|done].
Qed.

Lemma encode_lengths w (vs : list Z) : 0 ≤ w → Forall (λ x, Z.of_nat (length x) = w) (le_bytes (Z.to_nat w) <$> vs).
Proof. intros Hw. apply Forall_fmap, Forall_true. intros v. cbn. rewrite length_le_bytes. lia. Qed.

Lemma encode_length w vs : 0 ≤ w → Z.of_nat (length (encode w vs)) = w * Z.of_nat (length vs).
Proof. intros Hw. unfold encode. by rewrite (join_length w) by (by apply encode_lengths); rewrite length_fmap. Qed.

Definition map_body (w1 w2 : Z) (g : Z → Z) (out inp i : Z) (m : mem) : outcome mem :=
  x ← ldS w1 inp i m; st w2 out i (g x) m.

Lemma map_block w1 w2 g out inp vs t x y : 0 < w1 → Forall (sample w1) vs →
  (le_bytes (Z.to_nat w1) <$> vs) !! t = Some x → (le_bytes (Z.to_nat w2) ∘ g <$> vs) !! t = Some y →
  block_ok (map_body w1 w2 g out inp) inp out w1 w2 t x y.
Proof.
  intros Hw Hvs Hx Hy m Hr Hfit. rewrite list_lookup_fmap in Hx, Hy.
  destruct (vs !! t) as [v|] eqn:Ev; [|done]. injection Hx as <-. injection Hy as <-.
  unfold map_body. rewrite (ld_sample _ _ _ _ v); [by rewrite bind_Done|done| |done].
  by eapply Forall_lookup_1.
Qed.

(** The map over all samples, from the last to the first where they grow, from
    the first to the last where they shrink; in place or with areas apart. *)
Lemma map_down w1 w2 g out inp vs m : 0 < w1 → w1 ≤ w2 → Forall (sample w1) vs →
  mread_at inp (w1 * Z.of_nat (length vs)) m = Done (encode w1 vs) → 0 ≤ out →
  out + w2 * Z.of_nat (length vs) ≤ Z.of_nat (length m) →
  inp = out ∨ apart inp w1 out w2 (Z.of_nat (length vs)) →
  mloop (down (Z.of_nat (length vs))) (map_body w1 w2 g out inp) m = mwrite_to out (encode w2 (g <$> vs)) m.
Proof.
  intros Hw Hle Hvs Hr Hout Hfit Hov. unfold encode in *. rewrite <- list_fmap_compose.
  pose proof (down_blocks (map_body w1 w2 g out inp) inp out w1 w2 (le_bytes (Z.to_nat w1) <$> vs)
    (le_bytes (Z.to_nat w2) ∘ g <$> vs) m) as H. rewrite !length_fmap in H. apply H; try done.
  - apply encode_lengths. lia.
  - apply Forall_fmap, Forall_true. intros v. cbn. rewrite length_le_bytes. lia.
  - intros t x y. by apply map_block.
  - lia.
  - destruct Hov as [->|?]; [left; lia|by right].
Qed.

Lemma map_up w1 w2 g out inp vs m : 0 < w1 → 0 ≤ w2 ≤ w1 → Forall (sample w1) vs →
  mread_at inp (w1 * Z.of_nat (length vs)) m = Done (encode w1 vs) → 0 ≤ out →
  out + w2 * Z.of_nat (length vs) ≤ Z.of_nat (length m) →
  inp = out ∨ apart inp w1 out w2 (Z.of_nat (length vs)) →
  mloop (up (Z.of_nat (length vs))) (map_body w1 w2 g out inp) m = mwrite_to out (encode w2 (g <$> vs)) m.
Proof.
  intros Hw Hle Hvs Hr Hout Hfit Hov. unfold encode in *. rewrite <- list_fmap_compose.
  pose proof (up_blocks (map_body w1 w2 g out inp) inp out w1 w2 (le_bytes (Z.to_nat w1) <$> vs)
    (le_bytes (Z.to_nat w2) ∘ g <$> vs) m 0) as H. rewrite !length_fmap in H. cbn [Z.of_nat Nat.add] in H.
  rewrite !Z.mul_0_r, !Z.add_0_r in H. apply H; try done; try lia.
  - apply encode_lengths. lia.
  - apply Forall_fmap, Forall_true. intros v. cbn. rewrite length_le_bytes. lia.
  - intros t x y. by apply map_block.
  - destruct Hov as [->|?]; [left; lia|by right].
Qed.

(** The same value at another width: the most significant bits. *)
Definition rescale (from to v : Z) : Z := if from <? to then Z.shiftl v (to - from) else Z.shiftr v (from - to).

Definition widths : list Z := [8; 16; 32].

Lemma conv_bits_run out inp from to vs m : from ∈ widths → to ∈ widths → from ≠ to →
  Forall (sample (from / 8)) vs → mread_at inp (from / 8 * Z.of_nat (length vs)) m = Done (encode (from / 8) vs) →
  0 ≤ out → out + to / 8 * Z.of_nat (length vs) ≤ Z.of_nat (length m) →
  inp = out ∨ apart inp (from / 8) out (to / 8) (Z.of_nat (length vs)) →
  roar_conv_bits out inp (Z.of_nat (length vs)) from to m =
  ok (mwrite_to out (encode (to / 8) (rescale from to <$> vs)) m).
Proof.
  intros Hfrom Hto Hne Hvs Hr Hout Hfit Hov. unfold widths in *. rewrite !elem_of_cons in Hfrom, Hto.
  destruct Hfrom as [->|[->|[->|[]%elem_of_nil]]], Hto as [->|[->|[->|[]%elem_of_nil]]]; try done;
    cbn [Z.div Z.div_eucl Z.pos_div_eucl] in *;
    first [change (8 / 8) with 1 in *|idtac]; first [change (16 / 8) with 2 in *|idtac]; first [change (32 / 8) with 4 in *|idtac].
  - rewrite <- (map_down 1 2 (rescale 8 16) out inp) by (done || lia). reflexivity.
  - rewrite <- (map_down 1 4 (rescale 8 32) out inp) by (done || lia). reflexivity.
  - rewrite <- (map_up 2 1 (rescale 16 8) out inp) by (done || lia). reflexivity.
  - rewrite <- (map_down 2 4 (rescale 16 32) out inp) by (done || lia). reflexivity.
  - rewrite <- (map_up 4 1 (rescale 32 8) out inp) by (done || lia). reflexivity.
  - rewrite <- (map_up 4 2 (rescale 32 16) out inp) by (done || lia). reflexivity.
Qed.

Lemma rescale_inverse from to v : from ≤ to → rescale to from (rescale from to v) = v.
Proof.
  intros Hle. unfold rescale. rewrite (proj2 (Z.ltb_ge to from)) by lia. destruct (Z.ltb_spec from to).
  - rewrite Z.shiftr_shiftl_l by lia. by rewrite Z.sub_diag, Z.shiftl_0_r.
  - replace (from - to) with 0 by lia. replace (to - from) with 0 by lia. by rewrite !Z.shiftr_0_r.
Qed.

Lemma rescale_sample from to v : from ∈ widths → to ∈ widths → from < to →
  sample (from / 8) v → sample (to / 8) (rescale from to v).
Proof.
  unfold widths. rewrite !elem_of_cons. intros Hfrom Hto Hlt. unfold rescale. rewrite (proj2 (Z.ltb_lt from to)) by lia.
  rewrite Z.shiftl_mul_pow2 by lia. unfold sample.
  destruct Hfrom as [->|[->|[->|[]%elem_of_nil]]], Hto as [->|[->|[->|[]%elem_of_nil]]]; try lia;
    repeat match goal with |- context [2 ^ ?e] => let v := eval vm_compute in (2 ^ e) in change (2 ^ e) with v in * end; lia.
Qed.

(** C32: every conversion between 8, 16 and 32 bits computes, sample by sample,
    the value with the same most significant bits, and touches nothing but its
    output; it may work in place, growing samples from the last to the first
    and shrinking ones from the first to the last, or on areas that are
    apart. *)
Theorem conv_bits_reference (out inp from to : Z) (vs : list Z) (m : mem) :
  from ∈ widths → to ∈ widths → from ≠ to → Forall (sample (from / 8)) vs →
  mread_at inp (from / 8 * Z.of_nat (length vs)) m = Done (encode (from / 8) vs) →
  0 ≤ out → out + to / 8 * Z.of_nat (length vs) ≤ Z.of_nat (length m) →
  inp = out ∨ apart inp (from / 8) out (to / 8) (Z.of_nat (length vs)) →
  roar_conv_bits out inp (Z.of_nat (length vs)) from to m =
  ok (mwrite_to out (encode (to / 8) (rescale from to <$> vs)) m).
Proof. apply conv_bits_run. Qed.

Lemma width_octets w : w ∈ widths → 0 < w / 8 ∧ 8 * (w / 8) = w.
Proof. unfold widths. rewrite !elem_of_cons. intros [->|[->|[->|[]%elem_of_nil]]]; split; reflexivity. Qed.

(** Storing what was computed and reading it back. *)
Lemma stored p w vs m n : 0 < w → n = w * Z.of_nat (length vs) → 0 ≤ p → p + n ≤ Z.of_nat (length m) →
  ∃ m1, mwrite_to p (encode w vs) m = Done m1 ∧ mread_at p n m1 = Done (encode w vs) ∧ length m1 = length m.
Proof.
  intros Hw -> Hp Hfit. destruct (mwrite_fits p (encode w vs) m) as (m1 & Hm1 & Hl1); [done|rewrite encode_length; lia|].
  exists m1. split_and!; [done| |done]. rewrite <- encode_length by lia. by apply (mread_mwrite_eq _ _ m).
Qed.

Lemma bits_in_place p from to vs m : from ∈ widths → to ∈ widths → from ≠ to → Forall (sample (from / 8)) vs →
  mread_at p (from / 8 * Z.of_nat (length vs)) m = Done (encode (from / 8) vs) →
  p + to / 8 * Z.of_nat (length vs) ≤ Z.of_nat (length m) →
  ∃ m1, roar_conv_bits p p (Z.of_nat (length vs)) from to m = Done (0, m1) ∧
    mread_at p (to / 8 * Z.of_nat (length vs)) m1 = Done (encode (to / 8) (rescale from to <$> vs)) ∧ length m1 = length m.
Proof.
  intros Hfrom Hto Hne Hvs Hr Hfit. pose proof Hr as (Hp & _)%mread_at_Done. pose proof (width_octets to Hto) as [? _].
  rewrite (conv_bits_run p p from to vs m) by (done || (by left)).
  destruct (stored p (to / 8) (rescale from to <$> vs) m (to / 8 * Z.of_nat (length vs))) as (m1 & -> & ? & ?); try done;
    [by rewrite length_fmap|by exists m1].
Qed.

Lemma rescale_back from to (vs : list Z) : from ≤ to → rescale to from <$> (rescale from to <$> vs) = vs.
Proof.
  intros Hle. rewrite <- list_fmap_compose. rewrite <- (list_fmap_id vs) at 2. apply list_fmap_ext. intros i v _. cbn.
  by apply rescale_inverse.
Qed.

Lemma rescale_samples from to (vs : list Z) : from ∈ widths → to ∈ widths → from < to → Forall (sample (from / 8)) vs →
  Forall (sample (to / 8)) (rescale from to <$> vs).
Proof. intros ??? Hvs. apply Forall_fmap. eapply Forall_impl; [exact Hvs|]. intros v. cbn. by apply rescale_sample. Qed.

Lemma ldU_cases w p i m : (∃ x, ldU w p i m = Done x) ∨ ldU w p i m = UB.
Proof. unfold ldU, mread_at. case_decide; [|by right]. destruct (mread _ _ _); cbn; eauto. Qed.
Lemma ldU_before w p i m : p + w * i < 0 → ldU w p i m = UB.
Proof. intros. unfold ldU, mread_at. by rewrite decide_False by lia. Qed.
Lemma st_cases w p i v m : (∃ x, st w p i v m = Done x) ∨ st w p i v m = UB.
Proof. unfold st, mwrite_to. case_decide; [|by right]. destruct (mwrite _ _ _); cbn; eauto. Qed.

(** The conversion from 24 to 32 bits reads the octets of a sample
    backwards from its first one, and so reads before the start of its input,
    whatever the input. *)
Theorem conv_24to32_ub (out inp samples : Z) (m : mem) : 0 < samples → inp < 2 →
  roar_conv_bits out inp samples 24 32 m = UB.
Proof.
  intros Hs Hi. change (roar_conv_bits out inp samples 24 32 m) with (ok (roar_conv_bits_24to32 out inp samples m)).
  unfold roar_conv_bits_24to32. rewrite <- (Z.succ_pred samples). assert (Hn : 0 ≤ Z.pred samples) by lia.
  replace (Z.succ (Z.pred samples) - 1) with (Z.pred samples) by lia. unfold Z.succ. revert m Hn. generalize (Z.pred samples).
  intros n m Hn. revert m. pattern n. apply natlike_ind; [|clear n Hn|done].
  - intros m. change (down (0 + 1)) with [0]. cbn [conv_24to32_loop]. destruct (ldU_cases 1 (inp + 3 * 0) 0 m) as [[x ->]| ->]; [|done].
    rewrite bind_Done. destruct (decide (inp = 1)) as [->|Hne].
    + destruct (ldU_cases 1 (1 + 3 * 0) (-1) m) as [[y ->]| ->]; [|done]. rewrite bind_Done.
      by rewrite (ldU_before 1 _ (-2)) by lia.
    + by rewrite (ldU_before 1 _ (-1)) by lia.
  - intros n Hn IH m. rewrite down_S by lia. unfold Z.succ. cbn [conv_24to32_loop].
    destruct (ldU_cases 1 (inp + 3 * (n + 1)) 0 m) as [[x ->]| ->]; [rewrite bind_Done|done].
    destruct (ldU_cases 1 (inp + 3 * (n + 1)) (-1) m) as [[y ->]| ->]; [rewrite bind_Done|done].
    destruct (ldU_cases 1 (inp + 3 * (n + 1)) (-2) m) as [[z ->]| ->]; [rewrite bind_Done|done].
    destruct (st_cases 4 out (n + 1) (le_val [0; z; x; y]) m) as [[m' ->]| ->]; [rewrite bind_Done|done].
    replace (inp + 3 * (n + 1) - 3) with (inp + 3 * n) by lia. apply IH.
Qed.

(** ** Channels: from one to several and back *)

Lemma encode_app w a b : encode w (a ++ b) = encode w a ++ encode w b.
Proof. unfold encode. by rewrite fmap_app, join_app. Qed.
Lemma encode_1 w v : encode w [v] = le_bytes (Z.to_nat w) v.
Proof. unfold encode. cbn. apply app_nil_r. Qed.

Section one_to_n.
Context (w inp out to i v : Z) (Hw : 0 < w) (Hv : sample w v) (Hto : 1 ≤ to) (Hi : 0 ≤ i) (Hout : 0 ≤ out).
Context (Hsep : inp = out ∨ out + w * ((i + 1) * to) ≤ inp + w * i ∨ inp + w * (i + 1) ≤ out).

(** The source is written at last. *)
Lemma fill_down k m : (k ≤ Z.to_nat to)%nat → mread_at (inp + w * i) w m = Done (le_bytes (Z.to_nat w) v) →
  out + w * ((i + 1) * to) ≤ Z.of_nat (length m) →
  mloop (down (Z.of_nat k)) (λ c m, x ← ldS w inp i m; st w out (i * to + c) x m) m =
  mwrite_to (out + w * to * i) (encode w (replicate k v)) m.
Proof using Hw Hv Hto Hi Hout Hsep.
  revert m. induction k as [|k IH]; intros m Hk Hr Hfit.
  - cbn. rewrite mwrite_to_Some by (simpl; nia). cbn. by rewrite Nat.add_0_r, take_drop.
  - replace (Z.of_nat (S k)) with (Z.of_nat k + 1) by lia. rewrite down_S by lia. cbn [mloop].
    rewrite (ld_sample _ _ _ _ _ Hw Hv Hr), bind_Done. rewrite replicate_S_end, encode_app, encode_1.
    pose proof (length_le_bytes (Z.to_nat w) v) as Hlb.
    assert (Hek : Z.of_nat (length (encode w (replicate k v))) = w * Z.of_nat k) by (by rewrite encode_length, length_replicate by lia).
    destruct (mwrite_app (out + w * to * i) (encode w (replicate k v)) (le_bytes (Z.to_nat w) v) m) as [-> _];
      [nia|rewrite length_app; nia|]. rewrite Hek. unfold st.
    replace (out + w * to * i + w * Z.of_nat k) with (out + w * (i * to + Z.of_nat k)) by lia.
    destruct (mwrite_fits (out + w * (i * to + Z.of_nat k)) (le_bytes (Z.to_nat w) v) m) as (m1 & E & Hl); [nia..|].
    rewrite E, !bind_Done. destruct k as [|k'].
    + cbn. rewrite mwrite_to_Some by (simpl; nia). cbn. by rewrite Nat.add_0_r, take_drop.
    + apply IH; [lia| |by rewrite Hl]. rewrite (mread_mwrite_ne _ _ _ _ _ _ E); [done|].
      destruct Hsep as [->|[?|?]]; nia.
Qed.
End one_to_n.

(** Per frame: copies of the sample. *)
Lemma conv_1ton_run w out inp to vs m : 0 < w → 1 ≤ to → Forall (sample w) vs →
  mread_at inp (w * Z.of_nat (length vs)) m = Done (encode w vs) → 0 ≤ out →
  out + w * to * Z.of_nat (length vs) ≤ Z.of_nat (length m) →
  inp = out ∨ apart inp w out (w * to) (Z.of_nat (length vs)) →
  conv_1ton w out inp (Z.of_nat (length vs)) to m =
  mwrite_to out (mjoin ((λ v, encode w (replicate (Z.to_nat to) v)) <$> vs)) m.
Proof.
  intros Hw Hto Hvs Hr Hout Hfit Hov. unfold conv_1ton.
  pose proof (down_blocks (λ i, mloop (down to) (λ c m, x ← ldS w inp i m; st w out (i * to + c) x m)) inp out w (w * to)
    (le_bytes (Z.to_nat w) <$> vs) ((λ v, encode w (replicate (Z.to_nat to) v)) <$> vs) m) as H.
  rewrite !length_fmap in H. apply H; try done; try nia.
  - apply encode_lengths. lia.
  - apply Forall_fmap, Forall_true. intros v. cbn. rewrite encode_length, length_replicate by lia. lia.
  - intros t x y Hx Hy m' Hr' Hfit'. rewrite list_lookup_fmap in Hx, Hy.
    destruct (vs !! t) as [v|] eqn:Ev; [|done]. injection Hx as <-. injection Hy as <-.
    pose proof (lookup_lt_Some _ _ _ Ev) as Ht. rewrite <- (Z2Nat.id to) at 1 by lia.
    rewrite fill_down with (v := v); try done; try nia.
    + by eapply Forall_lookup_1.
    + unfold apart in Hov. destruct Hov as [?|[?|?]]; [by left|right; left; nia|right; right; nia].
  - destruct Hov as [->|?]; [left; nia|by right].
Qed.

(** The same for the loop that writes two channels. *)
Lemma conv_1to2_run w out inp vs m : 0 < w → Forall (sample w) vs →
  mread_at inp (w * Z.of_nat (length vs)) m = Done (encode w vs) → 0 ≤ out →
  out + w * 2 * Z.of_nat (length vs) ≤ Z.of_nat (length m) →
  inp = out ∨ apart inp w out (w * 2) (Z.of_nat (length vs)) →
  conv_1to2 w out inp (Z.of_nat (length vs)) m = mwrite_to out (mjoin ((λ v, encode w (replicate 2 v)) <$> vs)) m.
Proof.
  intros Hw Hvs Hr Hout Hfit Hov. unfold conv_1to2.
  match goal with |- mloop _ ?body m = _ => pose proof (down_blocks body inp out w (w * 2)
    (le_bytes (Z.to_nat w) <$> vs) ((λ v, encode w (replicate 2 v)) <$> vs) m) as H end.
  rewrite !length_fmap in H. apply H; try done; try nia.
  - apply encode_lengths. lia.
  - apply Forall_fmap, Forall_true. intros v. unfold compose. rewrite encode_length by lia. simpl. lia.
  - intros t x y Hx Hy m' Hr' Hfit'. rewrite list_lookup_fmap in Hx, Hy.
    destruct (vs !! t) as [v|] eqn:Ev; [|done]. injection Hx as <-. injection Hy as <-.
    pose proof (lookup_lt_Some _ _ _ Ev) as Ht. assert (Hv : sample w v) by (by eapply Forall_lookup_1).
    pose proof (length_le_bytes (Z.to_nat w) v) as Hlb.
    rewrite (ld_sample _ _ _ _ _ Hw Hv Hr'), bind_Done.
    assert (E2 : encode w (replicate 2 v) = le_bytes (Z.to_nat w) v ++ le_bytes (Z.to_nat w) v)
      by (by rewrite (encode_app w [v] [v] : encode w (replicate 2 v) = _), encode_1).
    change (encode w [v; v] = le_bytes (Z.to_nat w) v ++ le_bytes (Z.to_nat w) v) in E2. rewrite E2.
    destruct (mwrite_app (out + w * 2 * Z.of_nat t) (le_bytes (Z.to_nat w) v) (le_bytes (Z.to_nat w) v) m') as [_ ->];
      [nia|rewrite length_app; nia|].
    change (st w out (2 * Z.of_nat t) v m') with (mwrite_to (out + w * (2 * Z.of_nat t)) (le_bytes (Z.to_nat w) v) m').
    replace (out + w * (2 * Z.of_nat t)) with (out + w * 2 * Z.of_nat t) by lia.
    destruct (mwrite_fits (out + w * 2 * Z.of_nat t) (le_bytes (Z.to_nat w) v) m') as (m1 & E & Hl); [nia..|].
    rewrite E, !bind_Done. assert (Hr1 : mread_at (inp + w * Z.of_nat t) w m1 = Done (le_bytes (Z.to_nat w) v)).
    { destruct (decide (inp = out ∧ t = 0%nat)) as [[-> ->]|Hne].
      - rewrite <- (mread_mwrite_eq _ _ _ _ E). f_equal; lia.
      - rewrite (mread_mwrite_ne _ _ _ _ _ _ E); [done|]. unfold apart in Hov.
        destruct Hov as [?|[?|?]]; [|right; nia|left; nia]. assert (t ≠ 0%nat) by tauto. left. nia. }
    rewrite (ld_sample _ _ _ _ _ Hw Hv Hr1), bind_Done. unfold st. f_equal. rewrite Hlb. lia.
  - destruct Hov as [->|?]; [left; nia|by right].
Qed.

(** The sum of a frame. *)
Definition zsum (xs : list Z) : Z := foldr Z.add 0 xs.

Lemma zsum_cons x xs : zsum (x :: xs) = x + zsum xs.
Proof. done. Qed.

Lemma sum_channels_run w inp base xs j s m : 0 < w → Forall (sample w) xs →
  mread_at (inp + w * (base + j)) (w * Z.of_nat (length xs)) m = Done (encode w xs) →
  (∀ k, (k ≤ length xs)%nat → - 2 ^ 31 ≤ s + zsum (take k xs) < 2 ^ 31) →
  sum_channels w inp base (seqZ j (Z.of_nat (length xs))) s m = Done (s + zsum xs).
Proof.
  intros Hw Hxs. revert j s. induction Hxs as [|x xs Hx Hxs IH]; intros j s Hr Hb; cbn [length].
  - cbn. by rewrite Z.add_0_r.
  - rewrite seqZ_cons by lia. cbn [sum_channels]. rewrite (encode_app w [x] xs : encode w (x :: xs) = _), encode_1 in Hr.
    pose proof (length_le_bytes (Z.to_nat w) x) as Hl.
    replace (w * Z.of_nat (length (x :: xs))) with (Z.of_nat (length (le_bytes (Z.to_nat w) x ++ encode w xs))) in Hr
      by (rewrite length_app, Nat2Z.inj_add, encode_length by lia; simpl; lia).
    apply mread_app in Hr as [Hr1 Hr2]. rewrite Hl, encode_length in * by lia. rewrite Z2Nat.id in * by lia.
    rewrite (ld_sample w inp (base + j) m x) by done. rewrite bind_Done.
    rewrite decide_True by (specialize (Hb 1%nat ltac:(simpl; lia)); rewrite firstn_cons, take_0, zsum_cons in Hb; cbn in Hb; lia).
    replace (Z.pred (Z.of_nat (S (length xs)))) with (Z.of_nat (length xs)) by lia. rewrite IH.
    + f_equal. rewrite zsum_cons. lia.
    + rewrite <- Hr2. f_equal. lia.
    + intros k Hk. specialize (Hb (S k) ltac:(simpl; lia)). rewrite firstn_cons, zsum_cons in Hb. lia.
Qed.

(** Frames whose sums, also while they are computed, fit an [int]. *)
Definition summable (xs : list Z) : Prop := ∀ k, (k ≤ length xs)%nat → - 2 ^ 31 ≤ zsum (take k xs) < 2 ^ 31.

Lemma frames_lengths w n frames : 0 ≤ w → Forall (λ xs : list Z, Z.of_nat (length xs) = n) frames →
  Forall (λ x, Z.of_nat (length x) = w * n) (encode w <$> frames).
Proof. intros Hw. intros H. apply Forall_fmap. eapply Forall_impl; [exact H|]. intros xs Hxs. unfold compose. rewrite encode_length by done. by rewrite Hxs. Qed.

Lemma encode_join w frames : encode w (mjoin frames) = mjoin (encode w <$> frames).
Proof.
  induction frames as [|f fs IH]; [done|]. change (mjoin (f :: fs)) with (f ++ mjoin fs).
  rewrite encode_app, IH. done.
Qed.

(** Per frame: the mean. *)
Lemma conv_nto1_run w out inp from frames m : 0 < w → 1 ≤ from →
  Forall (λ xs, Z.of_nat (length xs) = from) frames → Forall (Forall (sample w)) frames → Forall summable frames →
  mread_at inp (w * from * Z.of_nat (length frames)) m = Done (encode w (mjoin frames)) → 0 ≤ out →
  out + w * Z.of_nat (length frames) ≤ Z.of_nat (length m) →
  inp = out ∨ apart inp (w * from) out w (Z.of_nat (length frames)) →
  conv_nto1 w out inp (Z.of_nat (length frames) * from) from m =
  mwrite_to out (encode w ((λ xs, cdiv (zsum xs) from) <$> frames)) m.
Proof.
  intros Hw Hfrom Hlen Hs Hsum Hr Hout Hfit Hov. unfold conv_nto1. rewrite (proj2 (Z.eqb_neq from 0)) by lia.
  rewrite Z.quot_mul by lia. rewrite encode_join in Hr. unfold encode at 1. rewrite <- list_fmap_compose.
  match goal with |- mloop _ ?body m = _ => pose proof (up_blocks body inp out (w * from) w (encode w <$> frames)
    (le_bytes (Z.to_nat w) ∘ (λ xs, cdiv (zsum xs) from) <$> frames) m 0) as H end.
  rewrite !length_fmap in H. cbn [Z.of_nat Nat.add] in H. rewrite !Z.mul_0_r, !Z.add_0_r in H. apply H; try done; try nia.
  - apply frames_lengths; [lia|done].
  - apply Forall_fmap, Forall_true. intros v. cbn. rewrite length_le_bytes. lia.
  - intros t x y Hx Hy m' Hr' Hfit'. rewrite list_lookup_fmap in Hx, Hy.
    destruct (frames !! t) as [xs|] eqn:Ev; [|done]. injection Hx as <-. injection Hy as <-.
    assert (Hxs : Z.of_nat (length xs) = from) by (by apply (Forall_lookup_1 _ _ _ _ Hlen Ev)).
    assert (Hsx : summable xs) by (by apply (Forall_lookup_1 _ _ _ _ Hsum Ev)).
    unfold up at 1. rewrite <- Hxs at 2. rewrite (sum_channels_run w inp _ xs 0 0 m').
    + rewrite bind_Done, Z.add_0_l. done.
    + done.
    + by apply (Forall_lookup_1 _ _ _ _ Hs Ev).
    + rewrite <- Hr'. f_equal; nia.
    + intros k Hk. by apply Hsx.
  - destruct Hov as [->|?]; [left; nia|by right].
Qed.

Lemma conv_2to1_run w out inp frames m : 0 < w ≤ 2 →
  Forall (λ xs, Z.of_nat (length xs) = 2) frames → Forall (Forall (sample w)) frames →
  mread_at inp (w * 2 * Z.of_nat (length frames)) m = Done (encode w (mjoin frames)) → 0 ≤ out →
  out + w * Z.of_nat (length frames) ≤ Z.of_nat (length m) →
  inp = out ∨ apart inp (w * 2) out w (Z.of_nat (length frames)) →
  conv_2to1 w out inp (Z.of_nat (length frames) * 2) m =
  mwrite_to out (encode w ((λ xs, cdiv (zsum xs) 2) <$> frames)) m.
Proof.
  intros Hw Hlen Hs Hr Hout Hfit Hov. unfold conv_2to1.
  replace ((Z.of_nat (length frames) * 2 + 1) / 2) with (Z.of_nat (length frames)) by (Z.div_mod_to_equations; lia).
  rewrite encode_join in Hr. unfold encode at 1. rewrite <- list_fmap_compose.
  match goal with |- mloop _ ?body m = _ => pose proof (up_blocks body inp out (w * 2) w (encode w <$> frames)
    (le_bytes (Z.to_nat w) ∘ (λ xs, cdiv (zsum xs) 2) <$> frames) m 0) as H end.
  rewrite !length_fmap in H. cbn [Z.of_nat Nat.add] in H. rewrite !Z.mul_0_r, !Z.add_0_r in H. apply H; try done; try nia.
  - apply frames_lengths; [lia|done].
  - apply Forall_fmap, Forall_true. intros v. cbn. rewrite length_le_bytes. lia.
  - intros t x y Hx Hy m' Hr' Hfit'. rewrite list_lookup_fmap in Hx, Hy.
    destruct (frames !! t) as [xs|] eqn:Ev; [|done]. injection Hx as <-. injection Hy as <-.
    assert (Hxs : Z.of_nat (length xs) = 2) by (by apply (Forall_lookup_1 _ _ _ _ Hlen Ev)).
    pose proof (Forall_lookup_1 _ _ _ _ Hs Ev) as Hsx. destruct xs as [|v1 [|v2 [|]]]; try (simpl in Hxs; lia).
    apply Forall_cons in Hsx as [H1 [H2 _]%Forall_cons].
    assert (E2 : encode w [v1; v2] = le_bytes (Z.to_nat w) v1 ++ le_bytes (Z.to_nat w) v2)
      by (by rewrite (encode_app w [v1] [v2] : encode w [v1; v2] = _), !encode_1).
    rewrite E2 in Hr'. pose proof (length_le_bytes (Z.to_nat w) v1) as L1. pose proof (length_le_bytes (Z.to_nat w) v2) as L2.
    replace (w * 2) with (Z.of_nat (length (le_bytes (Z.to_nat w) v1 ++ le_bytes (Z.to_nat w) v2))) in Hr' at 2 by (rewrite length_app; lia).
    apply mread_app in Hr' as [Ha Hb]. rewrite L1, L2, Z2Nat.id in * by lia.
    rewrite (ld_sample w inp (2 * Z.of_nat t) m' v1); [rewrite bind_Done|lia|done|rewrite <- Ha; f_equal; nia].
    rewrite (ld_sample w inp (2 * Z.of_nat t + 1) m' v2); [rewrite bind_Done|lia|done|rewrite <- Hb; f_equal; nia].
    cbn [zsum foldr compose]. by rewrite Z.add_0_r.
  - destruct Hov as [->|?]; [left; nia|by right].
Qed.

Lemma zsum_replicate n v : zsum (replicate n v) = Z.of_nat n * v.
Proof. induction n as [|n IH]; [done|]. cbn [replicate]. rewrite zsum_cons, IH. lia. Qed.

Lemma summable_replicate n v : Z.of_nat n ≤ 65535 → sample 2 v → summable (replicate n v).
Proof.
  intros Hn Hv k Hk. rewrite length_replicate in Hk. rewrite take_replicate, zsum_replicate, Nat.min_l by lia.
  unfold sample in Hv. change (2 ^ (8 * 2 - 1)) with 32768 in Hv. change (2 ^ 31) with 2147483648. nia.
Qed.

(** Copies of every sample, and the means of the copies. *)
Definition copies (n : Z) (vs : list Z) : list (list Z) := replicate (Z.to_nat n) <$> vs.

Lemma copies_ok w n vs : 0 < w ≤ 2 → 1 ≤ n ≤ 65535 → Forall (sample w) vs →
  Forall (λ xs, Z.of_nat (length xs) = n) (copies n vs) ∧ Forall (Forall (sample w)) (copies n vs) ∧
  Forall summable (copies n vs) ∧ (λ xs, cdiv (zsum xs) n) <$> copies n vs = vs.
Proof.
  intros Hw Hn Hvs. unfold copies. split_and!.
  - apply Forall_fmap, Forall_true. intros v. cbn. rewrite length_replicate. lia.
  - apply Forall_fmap. eapply Forall_impl; [exact Hvs|]. intros v Hv. cbn. by apply Forall_replicate.
  - apply Forall_fmap. eapply Forall_impl; [exact Hvs|]. intros v Hv. apply summable_replicate; [lia|].
    assert (Hc : w = 1 ∨ w = 2) by lia. destruct Hc as [->| ->]; unfold sample in *; [|done].
    change (2 ^ (8 * 1 - 1)) with 128 in Hv. change (2 ^ (8 * 2 - 1)) with 32768. lia.
  - rewrite <- list_fmap_compose. rewrite <- (list_fmap_id vs) at 2. apply list_fmap_ext. intros i v _. cbn.
    rewrite zsum_replicate, Z2Nat.id, Z.mul_comm by lia. apply Z.quot_mul. lia.
Qed.

Lemma conv_chans_spread w out inp samples n m : w = 1 ∨ w = 2 → 2 ≤ n →
  roar_conv_chans out inp samples 1 n (8 * w) m =
  ok (if n =? 2 then conv_1to2 w out inp samples m else conv_1ton w out inp samples n m).
Proof.
  intros [->| ->] Hn; unfold roar_conv_chans; rewrite (proj2 (Z.eqb_neq 1 n)) by lia; cbn [Z.mul Pos.mul Z.eqb Pos.eqb];
    by destruct (n =? 2).
Qed.

Lemma conv_chans_mean w out inp samples n m : w = 1 ∨ w = 2 → 2 ≤ n →
  roar_conv_chans out inp samples n 1 (8 * w) m =
  ok (if n =? 2 then conv_2to1 w out inp samples m else conv_nto1 w out inp samples n m).
Proof.
  intros Hw Hn. unfold roar_conv_chans. rewrite (proj2 (Z.eqb_neq n 1)) by lia.
  destruct Hw as [->| ->]; cbn [Z.mul Pos.mul Z.eqb Pos.eqb]; destruct (Z.eqb_spec n 2); try done.
  destruct (Z.eqb_spec n 4) as [->|]; done.
Qed.

Lemma spread_in_place p w n vs m : w = 1 ∨ w = 2 → 2 ≤ n ≤ 65535 → Forall (sample w) vs →
  mread_at p (w * Z.of_nat (length vs)) m = Done (encode w vs) → p + w * n * Z.of_nat (length vs) ≤ Z.of_nat (length m) →
  ∃ m1, roar_conv_chans p p (Z.of_nat (length vs)) 1 n (8 * w) m = Done (0, m1) ∧
    mread_at p (w * n * Z.of_nat (length vs)) m1 = Done (encode w (mjoin (copies n vs))) ∧ length m1 = length m.
Proof.
  intros Hw Hn Hvs Hr Hfit. pose proof Hr as (Hp & _)%mread_at_Done. assert (Hw' : 0 < w ≤ 2) by lia.
  destruct (copies_ok w n vs Hw' ltac:(lia) Hvs) as (C1 & _). rewrite conv_chans_spread by (done || lia).
  assert (E1 : (if n =? 2 then conv_1to2 w p p (Z.of_nat (length vs)) m else conv_1ton w p p (Z.of_nat (length vs)) n m) =
    mwrite_to p (encode w (mjoin (copies n vs))) m).
  { rewrite encode_join. unfold copies. rewrite <- list_fmap_compose. destruct (Z.eqb_spec n 2) as [->|].
    - apply conv_1to2_run; try done; (lia || by left).
    - apply conv_1ton_run; try done; (lia || by left). }
  destruct (stored p w (mjoin (copies n vs)) m (w * n * Z.of_nat (length vs))) as (m1 & Hm1 & ? & ?); try done; [lia| |].
  - rewrite (join_length n) by done. unfold copies. rewrite length_fmap. lia.
  - exists m1. by rewrite E1, Hm1.
Qed.

Lemma mean_in_place p w n vs m : w = 1 ∨ w = 2 → 2 ≤ n ≤ 65535 → Forall (sample w) vs →
  mread_at p (w * n * Z.of_nat (length vs)) m = Done (encode w (mjoin (copies n vs))) →
  ∃ m1, roar_conv_chans p p (Z.of_nat (length vs) * n) n 1 (8 * w) m = Done (0, m1) ∧
    mread_at p (w * Z.of_nat (length vs)) m1 = Done (encode w vs) ∧ length m1 = length m.
Proof.
  intros Hw Hn Hvs Hr. pose proof Hr as (Hp & _ & Hfit & _)%mread_at_Done. assert (Hw' : 0 < w ≤ 2) by lia.
  destruct (copies_ok w n vs Hw' ltac:(lia) Hvs) as (C1 & C2 & C3 & C4). rewrite conv_chans_mean by (done || lia).
  assert (Hlc : length (copies n vs) = length vs) by apply length_fmap.
  assert (E2 : (if n =? 2 then conv_2to1 w p p (Z.of_nat (length vs) * n) m else conv_nto1 w p p (Z.of_nat (length vs) * n) n m) =
    mwrite_to p (encode w vs) m).
  { replace (encode w vs) with (encode w ((λ xs, cdiv (zsum xs) n) <$> copies n vs)) by (by rewrite C4). rewrite <- Hlc in *.
    destruct (Z.eqb_spec n 2) as [->|].
    - apply conv_2to1_run; try done; (nia || by left).
    - apply conv_nto1_run; try done; (nia || by left). }
  destruct (stored p w vs m (w * Z.of_nat (length vs))) as (m1 & Hm1 & ? & ?); try done; [lia|nia|].
  exists m1. by rewrite E2, Hm1.
Qed.

(** ** Channels: from two to three *)

Lemma st_run w p i v m : 0 ≤ w → 0 ≤ p + w * i → p + w * (i + 1) ≤ Z.of_nat (length m) →
  ∃ m', st w p i v m = Done m' ∧ mwrite_to (p + w * i) (le_bytes (Z.to_nat w) v) m = Done m' ∧ length m' = length m.
Proof.
  intros Hw Hp Hl. unfold st. destruct (mwrite_fits (p + w * i) (le_bytes (Z.to_nat w) v) m) as (m' & -> & ?); eauto.
  rewrite length_le_bytes. lia.
Qed.

Lemma ld_st_eq w p i v m m' : 0 < w → sample w v → st w p i v m = Done m' → ldS w p i m' = Done v.
Proof.
  intros Hw Hv Hs. apply (ld_sample w p i m' v Hw Hv). rewrite <- (mread_mwrite_eq _ _ _ _ Hs). f_equal.
  rewrite length_le_bytes. lia.
Qed.

Lemma ld_st_ne w p i v m m' q j : 0 < w → st w p i v m = Done m' →
  q + w * (j + 1) ≤ p + w * i ∨ p + w * (i + 1) ≤ q + w * j → ldS w q j m' = ldS w q j m.
Proof.
  intros Hw Hs Hd. unfold ldS. f_equal. rewrite (mread_mwrite_ne _ _ _ _ _ _ Hs); [done|].
  rewrite length_le_bytes. lia.
Qed.

(** The pairs of loop counters are those of the frames from the last on. *)
Lemma frames2_down k c body m : 0 ≤ k → mloop2 (frames2 (2 * k) c) body m = mloop (down k) (λ t, body (2 * t) (c * t)) m.
Proof.
  intros Hk. unfold frames2. replace ((2 * k - 2) / 2 + 1) with k by (Z.div_mod_to_equations; lia).
  replace (2 * k - 2) with ((k - 1) * 2) by lia. rewrite Z.quot_mul by lia.
  assert (E : ∀ n, (n ≤ Z.to_nat k)%nat → ∀ m, mloop2 ((λ j, ((k - 1) * 2 - 2 * j, (k - 1) * c - c * j)) <$> seqZ (k - Z.of_nat n) (Z.of_nat n)) body m =
    mloop (down (Z.of_nat n)) (λ t, body (2 * t) (c * t)) m).
  { induction n as [|n IH]; intros Hn m'; [done|]. replace (Z.of_nat (S n)) with (Z.of_nat n + 1) at 3 by lia.
    rewrite down_S, seqZ_cons by lia. cbn [fmap list_fmap mloop2 mloop].
    replace ((k - 1) * 2 - 2 * (k - Z.of_nat (S n))) with (2 * Z.of_nat n) by lia.
    replace ((k - 1) * c - c * (k - Z.of_nat (S n))) with (c * Z.of_nat n) by lia.
    destruct (body _ _ m') as [m1| |]; [|done..]. rewrite !bind_Done.
    rewrite <- IH by lia. do 2 f_equal. f_equal; lia. }
  specialize (E (Z.to_nat k) ltac:(lia) m). rewrite Z2Nat.id, Z.sub_diag in E by lia. exact E.
Qed.

Lemma put16_run out inp k j i h v m : ldS 2 inp (i + j) m = Done v → put16 out inp k j i h m = st 2 out (h + k) v m.
Proof. intros E. unfold put16. by rewrite E, bind_Done. Qed.

Lemma put16_mean_run out inp k i h l r m : ldS 2 inp i m = Done l → ldS 2 inp (i + 1) m = Done r →
  put16_mean out inp k i h m = st 2 out (h + k) (cdiv (l + r) 2) m.
Proof. intros El Er. unfold put16_mean. by rewrite El, bind_Done, Er, bind_Done. Qed.

(** What a stereo frame becomes: its channels and their mean.  In place the
    left channel of frame 1 is stored over its right channel before that is
    read. *)
Definition frame_2to3 (in_place : bool) (t : nat) (lr : Z * Z) : list Z :=
  let r := if in_place && Nat.eqb t 1 then lr.1 else lr.2 in [lr.1; r; cdiv (lr.1 + r) 2].

Definition body_2to3 (out inp : Z) (t : Z) (m : mem) : outcome mem :=
  m ← put16 out inp 0 0 (2 * t) (3 * t) m; m ← put16 out inp 1 1 (2 * t) (3 * t) m; put16_mean out inp 2 (2 * t) (3 * t) m.

Lemma block_2to3 out inp n t l r : sample 2 l → sample 2 r → inp = out ∨ apart inp 4 out 6 n → Z.of_nat t < n → 0 ≤ out →
  block_ok (body_2to3 out inp) inp out 4 6 t (encode 2 [l; r]) (encode 2 (frame_2to3 (inp =? out) t (l, r))) .
Proof.
  intros Hl Hrs Hov Ht Hout m' Hr' Hfit'. unfold body_2to3.
  assert (E2 : encode 2 [l; r] = le_bytes 2 l ++ le_bytes 2 r) by (by rewrite (encode_app 2 [l] [r] : encode 2 [l; r] = _), !encode_1).
  rewrite E2 in Hr'. replace 4 with (Z.of_nat (length (le_bytes 2 l ++ le_bytes 2 r))) in Hr' at 2 by (by rewrite length_app, !length_le_bytes).
  apply mread_app in Hr' as [Ha Hb]. rewrite !length_le_bytes in *.
  assert (La : ldS 2 inp (2 * Z.of_nat t) m' = Done l) by (apply ld_sample; [lia|done|change (Z.to_nat 2) with 2%nat; rewrite <- Ha; f_equal; lia]).
  assert (Lb : ldS 2 inp (2 * Z.of_nat t + 1) m' = Done r) by (apply ld_sample; [lia|done|change (Z.to_nat 2) with 2%nat; rewrite <- Hb; f_equal; lia]).
  set (x1 := if (inp =? out) && Nat.eqb t 1 then l else r). assert (Hx1 : sample 2 x1) by (unfold x1; by case_match).
  rewrite (put16_run out inp 0 0 (2 * Z.of_nat t) (3 * Z.of_nat t) l m') by (by rewrite Z.add_0_r).
  destruct (st_run 2 out (3 * Z.of_nat t + 0) l m') as (m1 & E1 & W1 & L1); [lia..|]. rewrite E1, bind_Done.
  assert (Lb1 : ldS 2 inp (2 * Z.of_nat t + 1) m1 = Done x1).
  { unfold x1. destruct (Z.eqb_spec inp out) as [->|Hio]; cbn [andb].
    - destruct (Nat.eqb_spec t 1) as [->|Ht1]; [exact (ld_st_eq 2 out 3 l m' m1 ltac:(lia) Hl E1)|].
      rewrite (ld_st_ne 2 _ _ _ _ _ out (2 * Z.of_nat t + 1) ltac:(lia) E1); [done|lia].
    - rewrite (ld_st_ne 2 _ _ _ _ _ inp (2 * Z.of_nat t + 1) ltac:(lia) E1); [done|unfold apart in Hov; lia]. }
  rewrite (put16_run _ _ _ _ _ _ _ _ Lb1). destruct (st_run 2 out (3 * Z.of_nat t + 1) x1 m1) as (m2 & E3 & W2 & L2); [lia..|]. rewrite E3, bind_Done.
  assert (La2 : ldS 2 inp (2 * Z.of_nat t) m2 = Done l).
  { rewrite (ld_st_ne 2 _ _ _ _ _ inp (2 * Z.of_nat t) ltac:(lia) E3) by (unfold apart in Hov; lia).
    destruct (decide (inp = out ∧ t = 0%nat)) as [[-> ->]|Hne]; [exact (ld_st_eq 2 out 0 l m' m1 ltac:(lia) Hl E1)|].
    rewrite (ld_st_ne 2 _ _ _ _ _ inp (2 * Z.of_nat t) ltac:(lia) E1); [done|].
    unfold apart in Hov. destruct Hov as [->|?]; [assert (t ≠ 0%nat) by tauto|]; lia. }
  assert (Lb2 : ldS 2 inp (2 * Z.of_nat t + 1) m2 = Done x1).
  { destruct (decide (inp = out ∧ t = 0%nat)) as [[-> ->]|Hne]; [exact (ld_st_eq 2 out 1 x1 m1 m2 ltac:(lia) Hx1 E3)|].
    rewrite (ld_st_ne 2 _ _ _ _ _ inp (2 * Z.of_nat t + 1) ltac:(lia) E3); [done|].
    unfold apart in Hov. destruct Hov as [->|?]; [assert (t ≠ 0%nat) by tauto|]; lia. }
  rewrite (put16_mean_run _ _ _ _ _ _ _ _ La2 Lb2). unfold st.
  assert (E4 : encode 2 (frame_2to3 (inp =? out) t (l, r)) = le_bytes 2 l ++ le_bytes 2 x1 ++ le_bytes 2 (cdiv (l + x1) 2)).
  { change (frame_2to3 (inp =? out) t (l, r)) with [l; x1; cdiv (l + x1) 2]. rewrite (encode_app 2 [l] [x1; cdiv (l + x1) 2] : encode 2 [l; x1; cdiv (l + x1) 2] = _).
    by rewrite (encode_app 2 [x1] [cdiv (l + x1) 2] : encode 2 [x1; cdiv (l + x1) 2] = _), !encode_1. }
  change (Z.to_nat 2) with 2%nat in *. rewrite E4. pose proof (length_le_bytes 2) as LL.
  rewrite (proj2 (mwrite_app (out + 6 * Z.of_nat t) (le_bytes 2 l) (le_bytes 2 x1 ++ le_bytes 2 (cdiv (l + x1) 2)) m'
    ltac:(lia) ltac:(rewrite !length_app, !LL; lia))). rewrite LL.
  replace (out + 6 * Z.of_nat t) with (out + 2 * (3 * Z.of_nat t + 0)) by lia. rewrite W1, bind_Done.
  replace (out + 2 * (3 * Z.of_nat t + 0) + Z.of_nat 2) with (out + 2 * (3 * Z.of_nat t + 1)) by lia.
  rewrite (proj2 (mwrite_app (out + 2 * (3 * Z.of_nat t + 1)) (le_bytes 2 x1) (le_bytes 2 (cdiv (l + x1) 2)) m1
    ltac:(lia) ltac:(rewrite !length_app, !LL; lia))). rewrite LL.
  rewrite W2, bind_Done.
  f_equal. lia.
Qed.

(** C33: two channels of 16 bits become three, the third the mean of both, when
    the areas are apart; in place, as [roar_conv2] calls it, the right channel
    of the second frame is lost. *)
Theorem conv_2to3_frames (out inp : Z) (frames : list (Z * Z)) (m : mem) :
  Forall (λ lr, sample 2 lr.1 ∧ sample 2 lr.2) frames →
  mread_at inp (4 * Z.of_nat (length frames)) m = Done (encode 2 (mjoin ((λ lr, [lr.1; lr.2]) <$> frames))) →
  0 ≤ out → out + 6 * Z.of_nat (length frames) ≤ Z.of_nat (length m) →
  inp = out ∨ apart inp 4 out 6 (Z.of_nat (length frames)) →
  roar_conv_chans out inp (2 * Z.of_nat (length frames)) 2 3 16 m =
  ok (mwrite_to out (encode 2 (mjoin (imap (frame_2to3 (inp =? out)) frames))) m).
Proof.
  intros Hs Hr Hout Hfit Hov.
  change (roar_conv_chans out inp (2 * Z.of_nat (length frames)) 2 3 16 m) with (ok (roar_conv_chans_2to316 out inp (2 * Z.of_nat (length frames)) m)).
  unfold roar_conv_chans_2to316. rewrite frames2_down by lia. f_equal. rewrite !encode_join in *.
  match goal with |- mloop _ ?body m = _ => pose proof (down_blocks body inp out 4 6 (encode 2 <$> ((λ lr : Z * Z, [lr.1; lr.2]) <$> frames))
    (encode 2 <$> imap (frame_2to3 (inp =? out)) frames) m) as H end.
  rewrite !length_fmap, length_imap in H. apply H; try done; try lia.
  - apply (frames_lengths 2 2); [lia|]. by apply Forall_fmap, Forall_true.
  - apply (frames_lengths 2 3); [lia|]. apply Forall_lookup. intros t y Hy. rewrite list_lookup_imap in Hy.
    destruct (frames !! t); [|done]. by injection Hy as <-.
  - intros t x y Hx Hy m' Hr' Hfit'. rewrite !list_lookup_fmap in Hx. rewrite list_lookup_fmap, list_lookup_imap in Hy.
    destruct (frames !! t) as [[l r]|] eqn:Ev; [|done]. injection Hx as <-. injection Hy as <-.
    pose proof (Forall_lookup_1 _ _ _ _ Hs Ev) as [Hl Hrs]. pose proof (lookup_lt_Some _ _ _ Ev) as Ht. cbn [fst snd] in *.
    apply (block_2to3 out inp (Z.of_nat (length frames)) t l r Hl Hrs Hov ltac:(lia) Hout m' Hr' Hfit').
  - destruct Hov as [->|?]; [left; lia|by right].
Qed.

(** ** The pipeline: there and back *)

Section pcm.
Context (rate2 : Z → Z → Z → Z → Z → Z → mem → outcome (Z * mem)) (hz : Z).

(** Signed samples in the byte order of the host. *)
Definition pcm (b n : Z) : audio_info := AudioInfo hz b n ROAR_CODEC_PCM_S_LE.

Lemma conv_step_skip f a k s : conv_step false f a k s = k s.
Proof. done. Qed.
Lemma conv_step_do f a k s m : f s = Done (0, m) → conv_step true f a k s = k (a m s).
Proof. intros E. unfold conv_step. by rewrite E, bind_Done. Qed.

Definition word_widths : list Z := [8; 16].

Lemma word_width b : b ∈ word_widths → b ∈ widths ∧ (b / 8 = 1 ∨ b / 8 = 2) ∧ 8 * (b / 8) = b.
Proof.
  unfold word_widths, widths. rewrite !elem_of_cons. intros [->|[->|[]%elem_of_nil]]; (split; [tauto|]); split; try reflexivity; [by left|by right].
Qed.

Lemma samples_of b n k : b ∈ word_widths → cdiv (b / 8 * n * k * 8) b = k * n.
Proof. intros (_ & Hw & Hb)%word_width. replace (b / 8 * n * k * 8) with (k * n * b) by nia. apply Z.quot_mul. lia. Qed.

Lemma rescale_same b (vs : list Z) : rescale b b <$> vs = vs.
Proof.
  rewrite <- (list_fmap_id vs) at 2. apply list_fmap_ext. intros i v _. unfold rescale. rewrite Z.ltb_irrefl, Z.sub_diag. apply Z.shiftr_0_r.
Qed.

Lemma copies_1 (vs : list Z) : mjoin (copies 1 vs) = vs.
Proof.
  unfold copies. induction vs as [|v vs IH]; [done|]. cbn [fmap list_fmap].
  change (mjoin (replicate (Z.to_nat 1) v :: ?x)) with (v :: mjoin x). by f_equal.
Qed.

#[local] Arguments conv_step : simpl never.

(** Runs the next stage of the pipeline, or skips it. *)
Ltac stage :=
  rewrite ?Z.eqb_refl, ?Z.ltb_irrefl, ?andb_false_r;
  repeat match goal with H : (_ =? _) = false |- _ => rewrite H | H : cdiv _ _ = _ |- _ => rewrite H end;
  change (ROAR_CODEC_BYTE_ORDER ROAR_CODEC_PCM_S_LE =? ROAR_CODEC_NATIVE_ENDIAN) with true;
  change (ROAR_CODEC_IS_SIGNED ROAR_CODEC_PCM_S_LE) with true; cbn [negb andb orb eqb cs_in cs_samples cs_info cs_mem rate bits channels codec pcm];
  lazymatch goal with
  | |- conv_step false _ _ _ _ = _ => rewrite conv_step_skip
  | |- conv_step true _ _ _ _ = _ => erewrite conv_step_do by (cbn; eassumption)
  end; cbn.

Lemma conv2_up p from to n vs bufsize m : from ∈ word_widths → to ∈ word_widths → from ≤ to → 1 ≤ n ≤ 65535 →
  Forall (sample (from / 8)) vs → mread_at p (from / 8 * 1 * Z.of_nat (length vs)) m = Done (encode (from / 8) vs) →
  p + to / 8 * n * Z.of_nat (length vs) ≤ Z.of_nat (length m) →
  ∃ m1, roar_conv2 rate2 p p (from / 8 * 1 * Z.of_nat (length vs)) (pcm from 1) (pcm to n) bufsize m = Done (0, m1) ∧
    mread_at p (to / 8 * n * Z.of_nat (length vs)) m1 = Done (encode (to / 8) (mjoin (copies n (rescale from to <$> vs)))) ∧
    length m1 = length m.
Proof.
  intros Hf Ht Hle Hn Hvs Hr Hfit. destruct (word_width from Hf) as (Wf & Of & Ef). destruct (word_width to Ht) as (Wt & Ot & Et).
  unfold roar_conv2. cbn [rate bits channels codec pcm]. rewrite (proj2 (Z.eqb_neq from 0)) by lia. rewrite samples_of by done.
  rewrite Z.mul_1_r.
  assert (HB : ∃ m0, (from = to ∧ m0 = m ∨ from < to ∧ roar_conv_bits p p (Z.of_nat (length vs)) from to m = Done (0, m0)) ∧
    mread_at p (to / 8 * Z.of_nat (length vs)) m0 = Done (encode (to / 8) (rescale from to <$> vs)) ∧ length m0 = length m ∧
    Forall (sample (to / 8)) (rescale from to <$> vs)).
  { rewrite Z.mul_1_r in Hr. destruct (decide (from = to)) as [->|Hne].
    - exists m. rewrite rescale_same. split_and!; try done; by left.
    - destruct (bits_in_place p from to vs m) as (m0 & ? & ? & ?); try done; [nia|].
      exists m0. split_and!; try done; [right; split; [lia|done]|]. apply rescale_samples; try done. lia. }
  destruct HB as (m0 & HB & R0 & L0 & S0). set (ws := rescale from to <$> vs) in *.
  assert (Lw : length ws = length vs) by apply length_fmap. rewrite <- Lw in *.
  assert (HC : ∃ m1, (n = 1 ∧ m1 = m0 ∨ 1 < n ∧ roar_conv_chans p p (Z.of_nat (length ws)) 1 n to m0 = Done (0, m1)) ∧
    mread_at p (to / 8 * n * Z.of_nat (length ws)) m1 = Done (encode (to / 8) (mjoin (copies n ws))) ∧ length m1 = length m0).
  { destruct (decide (n = 1)) as [->|Hne].
    - exists m0. rewrite copies_1, Z.mul_1_r. split_and!; try done; by left.
    - destruct (spread_in_place p (to / 8) n ws m0) as (m1 & E & ? & ?); try done; [lia|lia|]. rewrite Et in E.
      exists m1. split_and!; try done. right. split; [lia|done]. }
  destruct HC as (m1 & HC & R1 & L1). exists m1. split; [|split; [done|lia]].
  destruct HB as [[-> ->]|[Hlt HB]], HC as [[-> ->]|[Hn1 HC]];
    try rewrite (proj2 (Z.ltb_lt from to) Hlt); try rewrite (proj2 (Z.ltb_lt 1 n) Hn1); repeat stage; done.
Qed.

Lemma conv2_down p from to n vs bufsize m : from ∈ word_widths → to ∈ word_widths → from ≤ to → 1 ≤ n ≤ 65535 →
  Forall (sample (from / 8)) vs →
  mread_at p (to / 8 * n * Z.of_nat (length vs)) m = Done (encode (to / 8) (mjoin (copies n (rescale from to <$> vs)))) →
  ∃ m1, roar_conv2 rate2 p p (to / 8 * n * Z.of_nat (length vs)) (pcm to n) (pcm from 1) bufsize m = Done (0, m1) ∧
    mread_at p (from / 8 * Z.of_nat (length vs)) m1 = Done (encode (from / 8) vs).
Proof.
  intros Hf Ht Hle Hn Hvs Hr. destruct (word_width from Hf) as (Wf & Of & Ef). destruct (word_width to Ht) as (Wt & Ot & Et).
  unfold roar_conv2. cbn [rate bits channels codec pcm]. rewrite (proj2 (Z.eqb_neq to 0)) by lia. rewrite samples_of by done.
  assert (S0 : Forall (sample (to / 8)) (rescale from to <$> vs)).
  { destruct (decide (from = to)) as [->|Hne]; [by rewrite rescale_same|]. apply rescale_samples; try done. lia. }
  set (ws := rescale from to <$> vs) in *. assert (Lw : length ws = length vs) by apply length_fmap.
  pose proof Hr as (Hp & _ & Hfit & _)%mread_at_Done.
  assert (HC : ∃ m0, (n = 1 ∧ m0 = m ∨ 1 < n ∧ roar_conv_chans p p (Z.of_nat (length vs) * n) n 1 to m = Done (0, m0)) ∧
    mread_at p (to / 8 * Z.of_nat (length vs)) m0 = Done (encode (to / 8) ws) ∧ length m0 = length m).
  { destruct (decide (n = 1)) as [->|Hne].
    - exists m. rewrite copies_1, Z.mul_1_r in Hr. split_and!; try done; by left.
    - rewrite <- Lw in *. destruct (mean_in_place p (to / 8) n ws m) as (m1 & E & ? & ?); try done; [lia|]. rewrite Et in E.
      exists m1. split_and!; try done. right. split; [lia|done]. }
  destruct HC as (m0 & HC & R0 & L0).
  assert (HB : ∃ m1, (from = to ∧ m1 = m0 ∨ from < to ∧ roar_conv_bits p p (Z.of_nat (length vs)) to from m0 = Done (0, m1)) ∧
    mread_at p (from / 8 * Z.of_nat (length vs)) m1 = Done (encode (from / 8) vs)).
  { destruct (decide (from = to)) as [->|Hne].
    - exists m0. unfold ws in R0. rewrite rescale_same in R0. split; [by left|done].
    - rewrite <- Lw in *. destruct (bits_in_place p to from ws m0) as (m1 & E & R1 & ?); try done; [nia|].
      exists m1. unfold ws in R1 at 2. rewrite rescale_back in R1 by done. split; [|done]. right. split; [lia|done]. }
  destruct HB as (m1 & HB & R1). exists m1. split; [|done].
  assert (Hn1 : (n <? 1) = false) by (apply Z.ltb_ge; lia). assert (Hb1 : (to <? from) = false) by (apply Z.ltb_ge; lia).
  rewrite Hn1, Hb1.
  destruct HB as [[-> ->]|[Hlt HB]], HC as [[-> ->]|[Hgt HC]]; rewrite ?Z.mul_1_r in *;
    try (assert (Hq : cdiv (Z.of_nat (length vs) * n * 1) n = Z.of_nat (length vs)) by (rewrite Z.mul_1_r; apply Z.quot_mul; lia));
    try (assert (E1 : (to =? from) = false) by (apply Z.eqb_neq; lia));
    try (assert (E2 : (n =? 1) = false) by (apply Z.eqb_neq; lia));
    repeat stage; done.
Qed.

End pcm.

(** Unsigned samples whose number of channels changes are made signed by a
    conversion from unsigned to unsigned, which changes nothing, and then
    unsigned again: silence becomes full deflection. *)
Example conv2_unsigned_flips rate2 :
  roar_conv2 rate2 0 0 1 (AudioInfo 8000 8 1 (ROAR_CODEC_UNSIGNED + ROAR_CODEC_LE))
    (AudioInfo 8000 8 2 (ROAR_CODEC_UNSIGNED + ROAR_CODEC_LE)) 2 [128; 0] = Done (0, [0; 0]).
Proof. reflexivity. Qed.

(** The loop from four to two channels leaves the last frame out. *)
Example conv_4to2_short : ∀ m, roar_conv_chans 0 0 4 4 2 16 m = Done (0, m).
Proof. reflexivity. Qed.

(** ** Instances *)

(** Three samples of 8 bits, and room for the output. *)
Definition ex_bytes : list Z := [5; -7; 127].
Definition ex_mem : mem := encode 1 ex_bytes ++ replicate 24 0.

Lemma ex_samples : Forall (sample 1) ex_bytes.
Proof. unfold ex_bytes, sample. rewrite !Forall_cons. split_and!; try (cbn; lia). done. Qed.

Lemma ex_word8 : 8 ∈ word_widths.
Proof. by left. Qed.
Lemma ex_word16 : 16 ∈ word_widths.
Proof. right. by left. Qed.

Lemma conv_bits_reference_witness :
  roar_conv_bits 0 0 3 8 32 ex_mem = ok (mwrite_to 0 (encode 4 (rescale 8 32 <$> ex_bytes)) ex_mem).
Proof.
  apply (conv_bits_reference 0 0 8 32 ex_bytes ex_mem); [by left|by right; right; left|done|exact ex_samples|reflexivity|done| |by left].
  vm_compute. done.
Defined.

Lemma conv_24to32_ub_witness : roar_conv_bits 4 0 1 24 32 (replicate 8 0) = UB.
Proof. apply (conv_24to32_ub 4 0 1 (replicate 8 0)); done. Defined.

Lemma conv_2to3_frames_witness :
  roar_conv_chans 0 0 4 2 3 16 (encode 2 [1; 2; 3; 4] ++ replicate 4 0) =
  ok (mwrite_to 0 (encode 2 (mjoin (imap (frame_2to3 true) [(1, 2); (3, 4)]))) (encode 2 [1; 2; 3; 4] ++ replicate 4 0)) ∧
  imap (frame_2to3 true) [(1, 2); (3, 4)] = [[1; 2; 1]; [3; 3; 3]].
Proof.
  split; [|reflexivity]. apply (conv_2to3_frames 0 0 [(1, 2); (3, 4)]); try (by vm_compute); [|by left].
  rewrite !Forall_cons. unfold sample. cbn. split_and!; try lia. done.
Defined.

