(* ===== verification/Dsp.v ===== *)
(** * Operations on samples ([libroardsp/mixer.c], [amp.c], [midside.c],
    [interleave.c], [remove.c], [rms.c]; [need_vol_change] of [roard/mixer.c])

    Mixing, volume, mid and side, interleaving, subtraction and root mean
    squares, on the memory of [Convert].  An [int] is computed with its range:
    a sum or product outside of it is undefined. *)
From S2P Require Import Prelude Volume Convert.

(** The value of a signed expression of [b] bits. *)
Definition fits (b x : Z) : outcome Z := if decide (- 2 ^ (b - 1) ≤ x < 2 ^ (b - 1)) then Done x else UB.

(** ** Mixing ([libroardsp/mixer.c])

    The array of inputs up to its [NULL] is a list of addresses. *)

(** [for (i = 0; input[i] != NULL; i++) c += input[i][s]], [c] of [b] bits. *)
Fixpoint mix_sum (b w : Z) (input : list Z) (s c : Z) (m : mem) : outcome Z :=
  match input with
  | [] => Done c
  | p :: input => x ← ldS w p s m; c ← fits b (c + x); mix_sum b w input s c m
  end.

Definition roar_mix_pcm_8bit (output : Z) (input : list Z) (samples : Z) (m : mem) : outcome mem :=
  mloop (up samples) (λ s m,
    c ← mix_sum 32 1 input s 0 m;
    let c := if 127 <? c then 127 else if c <? -128 then -128 else c in
    st 1 output s c m) m.

Definition roar_mix_pcm_16bit (output : Z) (input : list Z) (samples : Z) (m : mem) : outcome mem :=
  mloop (up samples) (λ s m,
    c ← mix_sum 32 2 input s 0 m;
    let c := if 32767 <? c then 32767 else if c <? -32768 then -32768 else c in
    st 2 output s c m) m.

Definition roar_mix_pcm_32bit (output : Z) (input : list Z) (samples : Z) (m : mem) : outcome mem :=
  mloop (up samples) (λ s m,
    c ← mix_sum 64 4 input s 0 m;
    let c := if 21474836487 <? c then 2147483647 else if c <? -2147483648 then -2147483648 else c in
    st 4 output s c m) m.

(** 24 bits are refused. *)
Definition roar_mix_pcm (output bits : Z) (input : list Z) (samples : Z) (m : mem) : outcome (Z * mem) :=
  if bits =? 8 then ok (roar_mix_pcm_8bit output input samples m)
  else if bits =? 16 then ok (roar_mix_pcm_16bit output input samples m)
  else if bits =? 32 then ok (roar_mix_pcm_32bit output input samples m)
  else Done (-1, m).

(** ** Volume ([libroardsp/amp.c], [roard/mixer.c]) *)

(** The factor of sample [i]: [set->mixer[i % channels]], or that times the
    replay gain. *)
Definition amp_gain (set : mixer_settings) (channels i : Z) : outcome Z :=
  if channels =? 0 then UB
  else
  v ← or_ub (mx_mixer set !! Z.to_nat (Z.rem i channels));
  if mx_rpg_mul set =? mx_rpg_div set then Done v
  else
    g ← fits 32 (v * mx_rpg_mul set);
    if mx_rpg_div set =? 0 then UB else Done (cdiv g (mx_rpg_div set)).

(** The body of the loops: [w] octets per sample, computed in [b] bits. *)
Definition amp_loop (b w output input samples channels : Z) (set : mixer_settings) (m : mem) : outcome mem :=
  mloop (up samples) (λ i m,
    s ← ldS w input i m;
    g ← amp_gain set channels i;
    s ← fits b (s * g);
    if mx_scale set =? 0 then UB else st w output i (cdiv s (mx_scale set)) m) m.

(** [NULL] is [None]. *)
Definition roar_amp_pcm (output : option Z) (bits : Z) (input : option Z) (samples channels : Z) (set : mixer_settings)
    (m : mem) : outcome (Z * mem) :=
  match input, output with
  | Some input, Some output =>
      if bits =? 8 then ok (amp_loop 32 1 output input samples channels set m)
      else if bits =? 16 then ok (amp_loop 32 2 output input samples channels set m)
      else if bits =? 32 then ok (amp_loop 64 4 output input samples channels set m)
      else Done (-1, m)
  | _, _ => Done (-1, m)
  end.

Definition ROAR_MAX_CHANNELS : Z := 64.

(** [set->mixer[i] != set->scale] for some channel. *)
Fixpoint vol_differs (set : mixer_settings) (idx : list Z) : outcome bool :=
  match idx with
  | [] => Done false
  | i :: idx =>
      v ← or_ub (mx_mixer set !! Z.to_nat i);
      if v =? mx_scale set then vol_differs set idx else Done true
  end.

Definition need_vol_change (channels : Z) (set : option mixer_settings) : outcome Z :=
  match set with
  | None => Done (-1)
  | Some set =>
      if (channels <? 1) || (ROAR_MAX_CHANNELS <? channels) then Done (-1)
      else if negb (mx_rpg_mul set =? mx_rpg_div set) then Done 1
      else d ← vol_differs set (up channels); Done (if d : bool then 1 else 0)
  end.

(** ** Mid and side ([libroardsp/midside.c]) *)

Definition conv_s2ms (w out inp samples : Z) (m : mem) : outcome mem :=
  mloop (up_by 2 samples) (λ i m,
    l ← ldS w inp i m; r ← ldS w inp (i + 1) m;
    mid ← fits 32 (l + r); side ← fits 32 (l - r);
    m ← st w out i (cdiv mid 2) m; st w out (i + 1) (cdiv side 2) m) m.
Definition roar_conv_s2ms_8 := conv_s2ms 1.
Definition roar_conv_s2ms_16 := conv_s2ms 2.
Definition roar_conv_s2ms_32 := conv_s2ms 4.

Definition conv_ms2s (w out inp samples : Z) (m : mem) : outcome mem :=
  mloop (up_by 2 samples) (λ i m,
    mid ← ldS w inp i m; side ← ldS w inp (i + 1) m;
    l ← fits 32 (mid + side); m ← st w out i l m;
    r ← fits 32 (mid - side); st w out (i + 1) r m) m.
Definition roar_conv_ms2s_8 := conv_ms2s 1.
Definition roar_conv_ms2s_16 := conv_ms2s 2.
Definition roar_conv_ms2s_32 := conv_ms2s 4.

(** ** Interleaving ([libroardsp/interleave.c]) *)

Definition ROAR_INTERLEAVE_MAX_CHANNELS : Z := 16.

(** [struct roar_interleave]. *)
Record interl := Interl { il_channels : Z; il_bits : Z }.

(** The arguments are [size_t]; [None] is [NULL]. *)
Definition roar_interl_init (state : option interl) (channels bits : Z) : Z * option interl :=
  match state with
  | None => (-1, None)
  | Some _ =>
      if negb (bits mod 8 =? 0) then (-1, state)
      else if ROAR_INTERLEAVE_MAX_CHANNELS <? channels then (-1, state)
      else (0, Some (Interl channels bits))
  end.
Definition roar_interl_uninit (state : option interl) : Z * option interl :=
  match state with None => (-1, None) | Some _ => (0, Some (Interl 0 0)) end.

(** The loop of both directions: one octet is copied between the pointer of the
    current channel and octet [oc] of the other side; after [bits] bits it is
    the next channel's turn.  [bc] cannot wrap within one memory. *)
Fixpoint interl_loop (copy : Z → Z → mem → outcome mem) (s : interl) (ocs : list Z) (ip : list Z) (chan bc : Z) (m : mem) :
    outcome mem :=
  match ocs with
  | [] => Done m
  | oc :: ocs =>
      p ← or_ub (ip !! Z.to_nat chan);
      m ← copy p oc m;
      let ip := <[Z.to_nat chan := p + 1]> ip in
      let bc := bc + 8 in
      if bc =? il_bits s then interl_loop copy s ocs ip (if chan + 1 =? il_channels s then 0 else chan + 1) 0 m
      else interl_loop copy s ocs ip chan bc m
  end.

(** Both functions; the [memcpy] of the pointers needs as many as there are
    channels, on both sides.  A completed run also ends in [return -1]. *)
Definition interl_ext (copy : Z → Z → mem → outcome mem) (state : option interl) (ptrs : list Z) (len : Z) (m : mem) :
    outcome (Z * mem) :=
  match state with
  | None => Done (-1, m)
  | Some s =>
      if len =? 0 then Done (0, m)
      else if decide (il_channels s ≤ ROAR_INTERLEAVE_MAX_CHANNELS ∧ il_channels s ≤ Z.of_nat (length ptrs)) then
        m ← interl_loop copy s (up len) (take (Z.to_nat (il_channels s)) ptrs) 0 0 m; Done (-1, m)
      else UB
  end.

Definition roar_interl_encode_ext (state : option interl) (inp : option (list Z)) (out : option Z) (len : Z) (m : mem) :
    outcome (Z * mem) :=
  match inp, out with
  | Some inp, Some out => interl_ext (λ p oc m, x ← ld1 p 0 m; st1 out oc x m) state inp len m
  | _, _ => Done (-1, m)
  end.
Definition roar_interl_decode_ext (state : option interl) (inp : option Z) (out : option (list Z)) (len : Z) (m : mem) :
    outcome (Z * mem) :=
  match inp, out with
  | Some inp, Some out => interl_ext (λ p ic m, x ← ld1 inp ic m; st1 p 0 x m) state out len m
  | _, _ => Done (-1, m)
  end.

(** ** Subtraction ([libroardsp/remove.c]) *)

(** Without a state: [inout[i] = x - y]. *)
Definition remove_plain (w : Z) (inout : Z) (xa ya samples : Z) (m : mem) : outcome mem :=
  mloop (up samples) (λ i m, x ← ldS w xa i m; y ← ldS w ya i m; st w inout i (x - y) m) m.

(** The first loop with a state: the largest magnitude of a difference. *)
Fixpoint remove_peak (w xa ya : Z) (idx : list Z) (peak : Z) (m : mem) : outcome Z :=
  match idx with
  | [] => Done peak
  | i :: idx =>
      x ← ldS w xa i m; y ← ldS w ya i m;
      remove_peak w xa ya idx (if peak <? Z.abs (x - y) then Z.abs (x - y) else peak) m
  end.

(** The second loop: [- y], an [int], times [top], divided by the peak, in [b]
    bits, plus [x]. *)
Definition remove_scaled (b w top inout xa ya samples peak : Z) (m : mem) : outcome mem :=
  mloop (up samples) (λ i m,
    y ← ldS w ya i m;
    s ← fits 32 (- y);
    s ← fits b (s * top);
    x ← ldS w xa i m;
    st w inout i (cdiv s peak + x) m) m.

(** [roar_remove_W(inout, subs, ...)] is the difference of [inout] and [subs],
    [roar_remove_soW(subout, in, ...)] that of [in] and [subout]; the result
    goes where the first argument is. *)
Definition remove_w (b w top : Z) (inout xa ya samples : Z) (state : bool) (m : mem) : outcome mem :=
  if state then
    peak ← remove_peak w xa ya (up samples) top m;
    remove_scaled b w top inout xa ya samples peak m
  else remove_plain w inout xa ya samples m.

Definition roar_remove_8 (inout subs samples : Z) := remove_w 32 1 127 inout inout subs samples.
Definition roar_remove_16 (inout subs samples : Z) := remove_w 32 2 65535 inout inout subs samples.
Definition roar_remove_32 (inout subs samples : Z) := remove_w 64 4 4294967295 inout inout subs samples.
Definition roar_remove_so8 (subout inp samples : Z) := remove_w 32 1 127 subout inp subout samples.
Definition roar_remove_so16 (subout inp samples : Z) := remove_w 32 2 65535 subout inp subout samples.
Definition roar_remove_so32 (subout inp samples : Z) := remove_w 64 4 2147483647 subout inp subout samples.

Definition roar_remove (inout subs : option Z) (samples bits : Z) (state : bool) (m : mem) : outcome (Z * mem) :=
  match inout, subs with
  | Some inout, Some subs =>
      if samples <? 0 then Done (-1, m)
      else if bits =? 8 then ok (roar_remove_8 inout subs samples state m)
      else if bits =? 16 then ok (roar_remove_16 inout subs samples state m)
      else if bits =? 32 then ok (roar_remove_32 inout subs samples state m)
      else Done (-1, m)
  | _, _ => Done (-1, m)
  end.
Definition roar_remove_so (subout inp : option Z) (samples bits : Z) (state : bool) (m : mem) : outcome (Z * mem) :=
  match subout, inp with
  | Some subout, Some inp =>
      if samples <? 0 then Done (-1, m)
      else if bits =? 8 then ok (roar_remove_so8 subout inp samples state m)
      else if bits =? 16 then ok (roar_remove_so16 subout inp samples state m)
      else if bits =? 32 then ok (roar_remove_so32 subout inp samples state m)
      else Done (-1, m)
  | _, _ => Done (-1, m)
  end.

(** ** Root mean squares ([libroardsp/rms.c]) *)

(** [for (i = a; i < samples; i += k) s += data[i] * data[i]]: the product is an
    [int], the sum an [int64_t]. *)
Fixpoint rms_sum (w data : Z) (idx : list Z) (s : Z) (m : mem) : outcome Z :=
  match idx with
  | [] => Done s
  | i :: idx =>
      x ← ldS w data i m;
      q ← fits 32 (x * x);
      s ← fits 64 (s + q);
      rms_sum w data idx s m
  end.

Definition roar_rms2_1 (w data samples : Z) (m : mem) : outcome Z :=
  s ← rms_sum w data (up samples) 0 m;
  if samples =? 0 then UB else Done (cdiv s samples).

(** The two sums of the loop are independent; [rms] is an array of at least
    two entries, [data] may be [NULL]. *)
Definition roar_rms2_2 (w : Z) (data : option Z) (samples : Z) (rms : list Z) (m : mem) : outcome (Z * list Z) :=
  if samples =? 0 then Done (0, rms)
  else
    match data with
    | None => Done (-1, rms)
    | Some data =>
        if Z.odd samples then Done (-1, rms)
        else
          a0 ← rms_sum w data (up_by 2 samples) 0 m;
          a1 ← rms_sum w data (Z.add 1 <$> up_by 2 samples) 0 m;
          rms ← or_ub (mwrite 0 [cdiv a0 (cdiv samples 2); cdiv a1 (cdiv samples 2)] rms);
          Done (0, rms)
    end.

(** The value of one channel is returned as an [int], not only stored. *)
Definition roar_rms2_n (w : Z) (data : option Z) (samples : Z) (rms : option (list Z)) (n : Z) (m : mem) :
    outcome (Z * option (list Z)) :=
  if n =? 0 then Done (0, rms)
  else
    match rms with
    | None => Done (-1, None)
    | Some r =>
        if n =? 1 then
          v ← (if samples =? 0 then UB else data ← or_ub data; roar_rms2_1 w data samples m);
          r ← or_ub (mwrite 0 [v] r);
          Done (s32 v, Some r)
        else if n =? 2 then '(x, r) ← roar_rms2_2 w data samples r m; Done (x, Some r)
        else Done (-1, rms)
    end.

Definition roar_rms2_1_b_n (data : option Z) (samples : Z) (rms : option (list Z)) (n bits : Z) (m : mem) :
    outcome (Z * option (list Z)) :=
  if bits =? 8 then roar_rms2_n 1 data samples rms n m
  else if bits =? 16 then roar_rms2_n 2 data samples rms n m
  else if bits =? 32 then roar_rms2_n 4 data samples rms n m
  else Done (-1, rms).

(** ** Loops over samples *)

Lemma fits_ok b x : - 2 ^ (b - 1) ≤ x < 2 ^ (b - 1) → fits b x = Done x.
Proof. intros. unfold fits. by rewrite decide_True. Qed.

(** An array of [n] samples of [w] octets at [p] that is either the output or
    apart from it. *)
Definition aligned (w n p out : Z) : Prop := p = out ∨ p + w * n ≤ out ∨ out + w * n ≤ p.

(** Sample [t] of an array is still there when the samples before it have been
    stored. *)
Lemma ld_later w out vs m m' p t n : 0 < w → mwrite_to out (encode w vs) m = Done m' → Z.of_nat (length vs) ≤ t < n →
  aligned w n p out → ldS w p t m' = ldS w p t m.
Proof.
  intros Hw Hm Ht Ha. unfold ldS. f_equal. apply (mread_mwrite_ne _ _ _ _ _ _ Hm).
  rewrite encode_length by lia. unfold aligned in Ha. nia.
Qed.

Lemma mwrite_same p n bs m : mread_at p n m = Done bs → mwrite_to p bs m = Done m.
Proof.
  intros (Hp & Hn & Hl & ->)%mread_at_Done. rewrite mwrite_to_Some; [|done|rewrite length_take, length_drop; lia]. f_equal.
  rewrite length_take, length_drop, <- drop_drop, Nat.min_l by lia. by rewrite !take_drop.
Qed.

Lemma up_S n : 0 ≤ n → up (n + 1) = up n ++ [n].
Proof. intros. unfold up. rewrite seqZ_app, (seqZ_cons _ 1), (seqZ_nil (Z.succ _)) by lia. by rewrite Z.add_0_l. Qed.

Lemma mloop_app a b body m : mloop (a ++ b) body m = (m1 ← mloop a body m; mloop b body m1).
Proof. revert m. induction a as [|i a IH]; intros m; [done|]. cbn [mloop app]. destruct (body i m); [|done..]. apply IH. Qed.

(** A loop that stores one sample per turn stores the list of them. *)
Lemma up_samples body w out outs m : 0 < w → 0 ≤ out → out + w * Z.of_nat (length outs) ≤ Z.of_nat (length m) →
  (∀ t v m', outs !! t = Some v → mwrite_to out (encode w (take t outs)) m = Done m' →
     body (Z.of_nat t) m' = st w out (Z.of_nat t) v m') →
  mloop (up (Z.of_nat (length outs))) body m = mwrite_to out (encode w outs) m.
Proof.
  intros Hw Hout. induction outs as [|v outs IH] using rev_ind; intros Hfit Hb.
  - cbn. unfold mwrite_to. rewrite decide_True by lia. cbn in Hfit. rewrite mwrite_Some by (cbn; lia). cbn.
    by rewrite Nat.add_0_r, take_drop.
  - rewrite length_app in *. cbn [length] in *. replace (Z.of_nat (length outs + 1)) with (Z.of_nat (length outs) + 1) by lia.
    rewrite up_S, mloop_app by lia. rewrite IH; [|lia|].
    + rewrite encode_app, encode_1. destruct (mwrite_fits out (encode w outs) m) as (m1 & E1 & L1); [lia|rewrite encode_length; lia|].
      rewrite E1, bind_Done. cbn [mloop]. rewrite (Hb (length outs) v m1).
      * rewrite (proj2 (mwrite_app out (encode w outs) (le_bytes (Z.to_nat w) v) m ltac:(lia)
          ltac:(rewrite length_app, Nat2Z.inj_add, encode_length, length_le_bytes by lia; lia))).
        rewrite E1, bind_Done, encode_length by lia. unfold st. by destruct (mwrite_to _ _ m1).
      * by rewrite lookup_app_r, Nat.sub_diag by lia.
      * by rewrite take_app_length.
    + intros t u m' Ht Hm. pose proof (lookup_lt_Some _ _ _ Ht). apply Hb; [by apply lookup_app_l_Some|].
      by rewrite take_app_le by lia.
Qed.

Lemma ld_encode w p vs m t v : 0 < w → mread_at p (w * Z.of_nat (length vs)) m = Done (encode w vs) →
  vs !! t = Some v → sample w v → ldS w p (Z.of_nat t) m = Done v.
Proof.
  intros Hw Hr Ht Hv. pose proof (take_drop_middle _ _ _ Ht) as E. rewrite <- E in Hr. rewrite <- encode_length in Hr by lia.
  rewrite encode_app in Hr. apply mread_app in Hr as [_ Hr]. rewrite encode_length, length_take in Hr by lia.
  rewrite (encode_app w [v] _ : encode w (v :: _) = _) in Hr. apply mread_app in Hr as [Hr _].
  pose proof (lookup_lt_Some _ _ _ Ht). rewrite encode_1, length_le_bytes, Z2Nat.id in Hr by lia. apply (ld_sample w p (Z.of_nat t) m v Hw Hv).
  rewrite <- Hr. f_equal. f_equal. f_equal. lia.
Qed.

(** An array of samples in memory, at a place where it may be used while the
    output is stored. *)
Definition track (w out n : Z) (m : mem) (p : Z) (vs : list Z) : Prop :=
  Z.of_nat (length vs) = n ∧ Forall (sample w) vs ∧ mread_at p (w * n) m = Done (encode w vs) ∧ aligned w n p out.

Lemma track_ld w out n m p vs outs m' t : 0 < w → track w out n m p vs → mwrite_to out (encode w (take t outs)) m = Done m' →
  Z.of_nat t < n → ldS w p (Z.of_nat t) m' = Done (nth t vs 0) ∧ sample w (nth t vs 0).
Proof.
  intros Hw (Hlen & Hs & Hr & Ha) Hm Ht. destruct (lookup_lt_is_Some_2 vs t ltac:(lia)) as [v Hv].
  pose proof (Forall_lookup_1 _ _ _ _ Hs Hv) as Hsv. rewrite (nth_lookup_Some _ _ _ _ Hv). split; [|done].
  rewrite (ld_later _ _ _ _ _ p (Z.of_nat t) n Hw Hm); [|rewrite length_take; lia|done]. subst n. by apply (ld_encode w p vs).
Qed.

(** ** Mixing *)

(** What the code limits the sum to; the upper limit of 32 bits is mistyped. *)
Definition clamp (w c : Z) : Z := Z.max (- 2 ^ (8 * w - 1)) (Z.min (2 ^ (8 * w - 1) - 1) c).
Definition mix_limit (w c : Z) : Z :=
  if (w =? 4) && (2 ^ 31 <=? c) && (c <=? 21474836487) then c else clamp w c.

Lemma mix_sum_run b w ps tracks t c m :
  Forall2 (λ p vs, ldS w p (Z.of_nat t) m = Done (nth t vs 0) ∧ sample w (nth t vs 0)) ps tracks →
  Z.abs c + Z.of_nat (length ps) * 2 ^ (8 * w - 1) < 2 ^ (b - 1) →
  mix_sum b w ps (Z.of_nat t) c m = Done (c + zsum ((λ vs, nth t vs 0) <$> tracks)).
Proof.
  intros H. revert c. induction H as [|p vs ps tracks [Hl Hs] _ IH]; intros c Hc.
  - cbn. by rewrite Z.add_0_r.
  - cbn [mix_sum fmap list_fmap]. cbn [length] in Hc. unfold sample in Hs. set (x := nth t vs 0) in *.
    rewrite Hl, bind_Done. rewrite fits_ok, bind_Done by nia. rewrite IH by nia.
    rewrite zsum_cons. f_equal. lia.
Qed.

Definition mixed (w : Z) (n : nat) (tracks : list (list Z)) : list Z :=
  (λ t, mix_limit w (zsum ((λ vs, nth t vs 0) <$> tracks))) <$> seq 0 n.

(** The loops of the three widths are one loop with [mix_limit]. *)
Lemma mix_loop b w (lim : Z → Z) out ps tracks n m : 0 < w →
  (∀ c, Z.abs c ≤ Z.of_nat (length ps) * 2 ^ (8 * w - 1) → lim c = mix_limit w c) →
  Z.of_nat (length ps) * 2 ^ (8 * w - 1) < 2 ^ (b - 1) →
  Forall2 (track w out (Z.of_nat n) m) ps tracks → 0 ≤ out → out + w * Z.of_nat n ≤ Z.of_nat (length m) →
  mloop (up (Z.of_nat n)) (λ s m, c ← mix_sum b w ps s 0 m; st w out s (lim c) m) m =
  mwrite_to out (encode w (mixed w n tracks)) m.
Proof.
  intros Hw Hlim Hb Ht Hout Hfit. assert (Hn : length (mixed w n tracks) = n) by (unfold mixed; by rewrite length_fmap, length_seq).
  rewrite <- Hn at 1. apply up_samples; [done|done|by rewrite Hn|].
  intros t v m' Hv Hm. unfold mixed in Hv. rewrite list_lookup_fmap_Some in Hv. destruct Hv as (t' & -> & Hv).
  apply lookup_seq in Hv as [-> Hlt]. cbn [Nat.add]. assert (HF : Forall2 (λ p vs, ldS w p (Z.of_nat t) m' = Done (nth t vs 0) ∧
    sample w (nth t vs 0)) ps tracks).
  { eapply Forall2_impl; [exact Ht|]. intros p vs Htr. eapply track_ld; [done|exact Htr|exact Hm|lia]. }
  rewrite (mix_sum_run b w ps tracks t 0 m' HF) by lia. rewrite bind_Done, Z.add_0_l. f_equal. apply Hlim.
  clear - HF. induction HF as [|p vs ps tracks [_ Hs] _ IH]; [cbn; lia|]. cbn [fmap list_fmap length]. rewrite zsum_cons.
  unfold sample in Hs. set (x := nth t vs 0) in *. nia.
Qed.

(** C34: mixing any number of tracks, up to 65535, stores the sum of their
    samples limited to the range of the width; no sum overflows.  Of 32 bits
    sums above the range are limited only when they are above 21474836487 and
    wrap otherwise. *)
Theorem mix_saturates (bits out : Z) (ps : list Z) (tracks : list (list Z)) (n : nat) (m : mem) :
  bits ∈ widths → Z.of_nat (length ps) ≤ 65535 →
  Forall2 (track (bits / 8) out (Z.of_nat n) m) ps tracks → 0 ≤ out → out + bits / 8 * Z.of_nat n ≤ Z.of_nat (length m) →
  roar_mix_pcm out bits ps (Z.of_nat n) m = ok (mwrite_to out (encode (bits / 8) (mixed (bits / 8) n tracks)) m).
Proof.
  intros Hb Hps Ht Hout Hfit. unfold widths in Hb. rewrite !elem_of_cons in Hb.
  destruct Hb as [->|[->|[->|[]%elem_of_nil]]];
    [change (8 / 8) with 1 in *|change (16 / 8) with 2 in *|change (32 / 8) with 4 in *];
    erewrite <- (mix_loop _ _ _ out ps tracks n m); try done; try reflexivity; try lia;
    intros c Hc; unfold mix_limit, clamp; cbn [Z.eqb Pos.eqb andb];
    change (2 ^ (8 * 1 - 1)) with 128 in *; change (2 ^ (8 * 2 - 1)) with 32768 in *; change (2 ^ (8 * 4 - 1)) with 2147483648 in *;
    change (2 ^ 31) with 2147483648; repeat case_match; lia.
Qed.

(** ** Volume *)

(** The factor of sample [t] and the scaled samples, without replay gain. *)
Definition volume_of (set : mixer_settings) (channels : Z) (t : nat) : Z :=
  nth (Z.to_nat (Z.of_nat t mod channels)) (mx_mixer set) 0.
Definition amplified (set : mixer_settings) (channels : Z) (vs : list Z) : list Z :=
  imap (λ t v, cdiv (v * volume_of set channels t) (mx_scale set)) vs.

(** What [uint16_t] and the size of the array give, and a scale that is not
    zero. *)
Definition mixer_ok (set : mixer_settings) : Prop :=
  length (mx_mixer set) = 64%nat ∧ Forall (λ v, 0 ≤ v < 65536) (mx_mixer set) ∧ 0 < mx_scale set < 65536.

Lemma amp_gain_run set channels t : mixer_ok set → mx_rpg_mul set = mx_rpg_div set → 1 ≤ channels ≤ 64 →
  amp_gain set channels (Z.of_nat t) = Done (volume_of set channels t) ∧ 0 ≤ volume_of set channels t < 65536.
Proof.
  intros (Hl & Hv & _) Hg Hc. unfold amp_gain, volume_of. rewrite (proj2 (Z.eqb_neq channels 0)), Z.rem_mod_nonneg, Hg, Z.eqb_refl by lia.
  pose proof (Z.mod_pos_bound (Z.of_nat t) channels ltac:(lia)).
  destruct (lookup_lt_is_Some_2 (mx_mixer set) (Z.to_nat (Z.of_nat t mod channels)) ltac:(lia)) as [v E].
  rewrite E, (nth_lookup_Some _ _ _ _ E). split; [done|]. by apply (Forall_lookup_1 _ _ _ _ Hv E).
Qed.

Lemma amp_loop_run b w out inp set channels vs m : 0 < w → 8 * w - 1 + 16 ≤ b - 1 → mixer_ok set →
  mx_rpg_mul set = mx_rpg_div set → 1 ≤ channels ≤ 64 → track w out (Z.of_nat (length vs)) m inp vs →
  0 ≤ out → out + w * Z.of_nat (length vs) ≤ Z.of_nat (length m) →
  amp_loop b w out inp (Z.of_nat (length vs)) channels set m = mwrite_to out (encode w (amplified set channels vs)) m.
Proof.
  intros Hw Hb Hset Hg Hc Ht Hout Hfit. assert (Hn : length (amplified set channels vs) = length vs) by apply length_imap.
  unfold amp_loop. rewrite <- Hn at 1. apply up_samples; [done|done|by rewrite Hn|].
  intros t v m' Hv Hm. unfold amplified in Hv. rewrite list_lookup_imap in Hv. destruct (vs !! t) as [x|] eqn:Ex; [|done].
  injection Hv as <-. pose proof (lookup_lt_Some _ _ _ Ex). destruct (amp_gain_run set channels t Hset Hg Hc) as [G R].
  destruct (track_ld w out _ m inp vs (amplified set channels vs) m' t Hw Ht Hm ltac:(lia)) as [L S].
  rewrite (nth_lookup_Some _ _ _ _ Ex) in L, S. rewrite L, bind_Done, G, bind_Done.
  unfold sample in S. rewrite fits_ok, bind_Done.
  - destruct Hset as (_ & _ & ?). by rewrite (proj2 (Z.eqb_neq (mx_scale set) 0)) by lia.
  - pose proof (Z.pow_le_mono_r 2 (8 * w - 1 + 16) (b - 1) ltac:(lia) Hb) as Hp. rewrite Z.pow_add_r in Hp by lia.
    change (2 ^ 16) with 65536 in Hp. nia.
Qed.

Lemma amp_run bits out inp set channels vs m : bits ∈ widths → mixer_ok set → mx_rpg_mul set = mx_rpg_div set → 1 ≤ channels ≤ 64 →
  track (bits / 8) out (Z.of_nat (length vs)) m inp vs → 0 ≤ out → out + bits / 8 * Z.of_nat (length vs) ≤ Z.of_nat (length m) →
  roar_amp_pcm (Some out) bits (Some inp) (Z.of_nat (length vs)) channels set m =
  ok (mwrite_to out (encode (bits / 8) (amplified set channels vs)) m).
Proof.
  intros Hb Hset Hg Hc Ht Hout Hfit. unfold widths in Hb. rewrite !elem_of_cons in Hb.
  destruct Hb as [->|[->|[->|[]%elem_of_nil]]];
    [change (8 / 8) with 1 in *|change (16 / 8) with 2 in *|change (32 / 8) with 4 in *];
    erewrite <- (amp_loop_run _ _ out inp set channels vs m); try done; try reflexivity; lia.
Qed.

Lemma vol_differs_false set idx : vol_differs set idx = Done false → ∀ i, i ∈ idx → mx_mixer set !! Z.to_nat i = Some (mx_scale set).
Proof.
  induction idx as [|j idx IH]; intros H i Hi; [by apply elem_of_nil in Hi|]. cbn in H.
  destruct (mx_mixer set !! Z.to_nat j) as [v|] eqn:E; [|done]. cbn in H. destruct (Z.eqb_spec v (mx_scale set)) as [->|]; [|done].
  apply elem_of_cons in Hi as [->|Hi]; [done|by apply IH].
Qed.

Lemma need_vol_change_0 channels set : need_vol_change channels (Some set) = Done 0 →
  1 ≤ channels ≤ 64 ∧ mx_rpg_mul set = mx_rpg_div set ∧ ∀ t, volume_of set channels t = mx_scale set.
Proof.
  unfold need_vol_change, ROAR_MAX_CHANNELS. destruct (Z.ltb_spec channels 1), (Z.ltb_spec 64 channels); try done. cbn [orb].
  destruct (Z.eqb_spec (mx_rpg_mul set) (mx_rpg_div set)) as [Hg|]; [|done]. cbn [negb].
  destruct (vol_differs set (up channels)) as [[]| |] eqn:E; try done. intros _. split; [lia|split; [done|]]. intros t.
  pose proof (Z.mod_pos_bound (Z.of_nat t) channels ltac:(lia)). unfold volume_of. apply nth_lookup_Some.
  apply (vol_differs_false _ _ E). apply elem_of_seqZ. lia.
Qed.

(** C35: a volume that [need_vol_change] finds neutral may indeed be left out:
    applying it in place leaves the memory as it is, in all widths; applying a
    volume without replay gain scales every sample by the volume of its
    channel, and below the scale no magnitude grows. *)
Theorem amp_neutral_and_scaled (bits inp out channels : Z) (set : mixer_settings) (vs : list Z) (m : mem) :
  bits ∈ widths → mixer_ok set → mx_rpg_mul set = mx_rpg_div set → 1 ≤ channels ≤ 64 →
  track (bits / 8) out (Z.of_nat (length vs)) m inp vs → 0 ≤ out → out + bits / 8 * Z.of_nat (length vs) ≤ Z.of_nat (length m) →
  roar_amp_pcm (Some out) bits (Some inp) (Z.of_nat (length vs)) channels set m =
    ok (mwrite_to out (encode (bits / 8) (amplified set channels vs)) m) ∧
  (need_vol_change channels (Some set) = Done 0 → inp = out →
     roar_amp_pcm (Some out) bits (Some inp) (Z.of_nat (length vs)) channels set m = Done (0, m)) ∧
  (Forall (λ v, v ≤ mx_scale set) (mx_mixer set) → Forall2 (λ v v', Z.abs v' ≤ Z.abs v) vs (amplified set channels vs)).
Proof.
  intros Hb Hset Hg Hc Ht Hout Hfit. split_and!; [by apply amp_run| |].
  - intros (_ & _ & Hv)%need_vol_change_0 ->. rewrite amp_run by done.
    assert (E : amplified set channels vs = vs).
    { apply list_eq. intros t. unfold amplified. rewrite list_lookup_imap. destruct (vs !! t) as [v|]; [|done]. cbn. f_equal.
      rewrite Hv. apply Z.quot_mul. destruct Hset as (_ & _ & ?). lia. }
    rewrite E. destruct Ht as (_ & _ & Hr & _). by rewrite (mwrite_same _ _ _ _ Hr).
  - intros Hle. apply Forall2_same_length_lookup_2; [unfold amplified; by rewrite length_imap|].
    intros t v v' Hv Hv'. unfold amplified in Hv'. rewrite list_lookup_imap, Hv in Hv'. injection Hv' as <-.
    destruct (amp_gain_run set channels t Hset Hg Hc) as [_ R]. set (g := volume_of set channels t) in *.
    assert (Hgs : g ≤ mx_scale set).
    { unfold g, volume_of. destruct Hset as (Hl & _ & _). pose proof (Z.mod_pos_bound (Z.of_nat t) channels ltac:(lia)).
      destruct (lookup_lt_is_Some_2 (mx_mixer set) (Z.to_nat (Z.of_nat t mod channels)) ltac:(lia)) as [u E].
      rewrite (nth_lookup_Some _ _ _ _ E). by apply (Forall_lookup_1 _ _ _ _ Hle E). }
    destruct Hset as (_ & _ & ?).
    rewrite <- Z.quot_abs, Z.abs_mul, (Z.abs_eq g), (Z.abs_eq (mx_scale set)) by lia.
    apply Z.quot_le_upper_bound; [lia|]. nia.
Qed.

(** ** Mid and side *)

Lemma mloop_fmap g idx body m : mloop (g <$> idx) body m = mloop idx (λ i, body (g i)) m.
Proof. revert m. induction idx as [|i idx IH]; intros m; [done|]. cbn. destruct (body (g i) m); [apply IH|done..]. Qed.

Definition flat (frames : list (Z * Z)) : list Z := mjoin ((λ lr, [lr.1; lr.2]) <$> frames).

Lemma flat_length frames : length (flat frames) = (2 * length frames)%nat.
Proof.
  unfold flat. induction frames as [|f frames IH]; [done|]. cbn [fmap list_fmap].
  change (mjoin ([f.1; f.2] :: ?x)) with (f.1 :: f.2 :: mjoin x). cbn [length]. rewrite IH. lia.
Qed.

Lemma encode_2 w a b : encode w [a; b] = le_bytes (Z.to_nat w) a ++ le_bytes (Z.to_nat w) b.
Proof. by rewrite (encode_app w [a] [b] : encode w [a; b] = _), !encode_1. Qed.

(** Two stores next to each other are one. *)
Lemma st_pair w out i a b m : 0 < w → 0 ≤ out → 0 ≤ i → out + w * (i + 2) ≤ Z.of_nat (length m) →
  (m1 ← st w out i a m; st w out (i + 1) b m1) = mwrite_to (out + w * i) (encode w [a; b]) m.
Proof.
  intros Hw Hout Hi Hfit. rewrite encode_2. unfold st.
  rewrite (proj2 (mwrite_app (out + w * i) (le_bytes (Z.to_nat w) a) (le_bytes (Z.to_nat w) b) m ltac:(nia)
    ltac:(rewrite length_app, !length_le_bytes; lia))). rewrite length_le_bytes.
  destruct (mwrite_to (out + w * i) _ m) as [m1| |]; [rewrite !bind_Done|done..]. f_equal. lia.
Qed.

(** A loop that reads and stores a pair per turn. *)
Lemma pairs_loop w out inp (f : Z * Z → Z * Z) frames body m : 0 < w →
  Forall (λ lr, sample w lr.1 ∧ sample w lr.2) frames →
  (∀ t l r m', frames !! t = Some (l, r) → ldS w inp (2 * Z.of_nat t) m' = Done l → ldS w inp (2 * Z.of_nat t + 1) m' = Done r →
     body (2 * Z.of_nat t) m' = (m1 ← st w out (2 * Z.of_nat t) (f (l, r)).1 m'; st w out (2 * Z.of_nat t + 1) (f (l, r)).2 m1)) →
  mread_at inp (w * (2 * Z.of_nat (length frames))) m = Done (encode w (flat frames)) →
  0 ≤ out → out + w * (2 * Z.of_nat (length frames)) ≤ Z.of_nat (length m) →
  aligned w (2 * Z.of_nat (length frames)) inp out →
  mloop (up_by 2 (2 * Z.of_nat (length frames))) body m = mwrite_to out (encode w (flat (f <$> frames))) m.
Proof.
  intros Hw Hs Hbody Hr Hout Hfit Ha. unfold up_by. replace ((2 * Z.of_nat (length frames) + 2 - 1) / 2) with (Z.of_nat (length frames))
    by (Z.div_mod_to_equations; lia).
  rewrite mloop_fmap. unfold flat in *. rewrite !encode_join in *.
  pose proof (up_blocks (λ i, body (2 * i)) inp out (w * 2) (w * 2) (encode w <$> ((λ lr : Z * Z, [lr.1; lr.2]) <$> frames))
    (encode w <$> ((λ lr : Z * Z, [lr.1; lr.2]) <$> (f <$> frames))) m 0) as H.
  rewrite !length_fmap in H. cbn [Z.of_nat Nat.add] in H. rewrite !Z.mul_0_r, !Z.add_0_r in H. apply H; try done; try nia.
  - apply (frames_lengths w 2); [lia|]. by apply Forall_fmap, Forall_true.
  - apply (frames_lengths w 2); [lia|]. by apply Forall_fmap, Forall_true.
  - intros t x y Hx Hy m' Hr' Hfit'. rewrite !list_lookup_fmap in Hx, Hy.
    rewrite list_lookup_fmap in Hy. destruct (frames !! t) as [[l r]|] eqn:Ev; [|done]. apply (inj Some) in Hx as <-. apply (inj Some) in Hy as <-.
    pose proof (Forall_lookup_1 _ _ _ _ Hs Ev) as [Hl Hrs]. cbn [fst snd] in *. rewrite encode_2 in Hr'.
    pose proof (length_le_bytes (Z.to_nat w) l) as L1. pose proof (length_le_bytes (Z.to_nat w) r) as L2.
    replace (w * 2) with (Z.of_nat (length (le_bytes (Z.to_nat w) l ++ le_bytes (Z.to_nat w) r))) in Hr' at 2 by (rewrite length_app; lia).
    apply mread_app in Hr' as [Ha1 Hb1]. rewrite L1, L2, Z2Nat.id in * by lia.
    rewrite (Hbody t l r m' Ev).
    + rewrite st_pair by lia. f_equal. lia.
    + apply ld_sample; [lia|done|]. rewrite <- Ha1. f_equal. lia.
    + apply ld_sample; [lia|done|]. rewrite <- Hb1. f_equal. lia.
  - rewrite <- Hr. f_equal. lia.
  - unfold aligned in Ha. unfold apart. nia.
Qed.

Definition mid_side (lr : Z * Z) : Z * Z := (cdiv (lr.1 + lr.2) 2, cdiv (lr.1 - lr.2) 2).
Definition left_right (ms : Z * Z) : Z * Z := (ms.1 + ms.2, ms.1 - ms.2).

Definition pair_ok (w : Z) (lr : Z * Z) : Prop := sample w lr.1 ∧ sample w lr.2.

(** The halves are in range, and so are their sum and difference. *)
Lemma mid_side_ok w lr : w = 1 ∨ w = 2 → pair_ok w lr → pair_ok w (mid_side lr) ∧ pair_ok w (left_right (mid_side lr)).
Proof.
  intros Hw. destruct lr as [l r]. unfold pair_ok, sample, mid_side, left_right. cbn [fst snd].
  destruct Hw as [->| ->]; [change (2 ^ (8 * 1 - 1)) with 128|change (2 ^ (8 * 2 - 1)) with 32768]; intros [??]; Z.quot_rem_to_equations; lia.
Qed.

Lemma mid_side_near l r : (Z.even (l + r) = true → left_right (mid_side (l, r)) = (l, r)) ∧
  Z.abs ((left_right (mid_side (l, r))).1 - l) ≤ 1 ∧ Z.abs ((left_right (mid_side (l, r))).2 - r) ≤ 1.
Proof.
  unfold mid_side, left_right. cbn [fst snd]. split.
  - intros He. apply Zeven_bool_iff in He. apply Zeven_ex in He as [k Hk]. f_equal; Z.quot_rem_to_equations; lia.
  - Z.quot_rem_to_equations. lia.
Qed.

(** The body of either loop on a pair of samples: no [int] overflows. *)
Ltac pair_body Hw Hs :=
  let Ev := fresh in let El := fresh in let Er := fresh in
  intros t l r m' Ev El Er; pose proof (Forall_lookup_1 _ _ _ _ Hs Ev) as [? ?]; cbn [fst snd] in *;
  rewrite El, bind_Done, Er, bind_Done; unfold sample in *;
  destruct Hw as [->| ->]; [change (2 ^ (8 * 1 - 1)) with 128 in *|change (2 ^ (8 * 2 - 1)) with 32768 in *];
  rewrite !fits_ok by (change (2 ^ (32 - 1)) with 2147483648; lia); reflexivity.

Lemma s2ms_run w out inp frames m : w = 1 ∨ w = 2 → Forall (pair_ok w) frames →
  mread_at inp (w * (2 * Z.of_nat (length frames))) m = Done (encode w (flat frames)) →
  0 ≤ out → out + w * (2 * Z.of_nat (length frames)) ≤ Z.of_nat (length m) → aligned w (2 * Z.of_nat (length frames)) inp out →
  conv_s2ms w out inp (2 * Z.of_nat (length frames)) m = mwrite_to out (encode w (flat (mid_side <$> frames))) m.
Proof.
  intros Hw Hs Hr Hout Hfit Ha. unfold conv_s2ms. apply (pairs_loop w out inp); try done; [lia|pair_body Hw Hs].
Qed.

Lemma ms2s_run w out inp frames m : w = 1 ∨ w = 2 → Forall (pair_ok w) frames →
  mread_at inp (w * (2 * Z.of_nat (length frames))) m = Done (encode w (flat frames)) →
  0 ≤ out → out + w * (2 * Z.of_nat (length frames)) ≤ Z.of_nat (length m) → aligned w (2 * Z.of_nat (length frames)) inp out →
  conv_ms2s w out inp (2 * Z.of_nat (length frames)) m = mwrite_to out (encode w (flat (left_right <$> frames))) m.
Proof.
  intros Hw Hs Hr Hout Hfit Ha. unfold conv_ms2s. apply (pairs_loop w out inp); try done; [lia|pair_body Hw Hs].
Qed.

(** C39: stereo samples of 8 or 16 bits turned into mid and side in place and
    back differ from the original by at most one, and not at all where left
    and right have the same parity; nothing overflows on the way. *)
Theorem midside_roundtrip (p w : Z) (frames : list (Z * Z)) (m : mem) :
  w = 1 ∨ w = 2 → Forall (pair_ok w) frames →
  mread_at p (w * (2 * Z.of_nat (length frames))) m = Done (encode w (flat frames)) →
  ∃ m1 m2 back, conv_s2ms w p p (2 * Z.of_nat (length frames)) m = Done m1 ∧
    conv_ms2s w p p (2 * Z.of_nat (length frames)) m1 = Done m2 ∧
    mread_at p (w * (2 * Z.of_nat (length frames))) m2 = Done (encode w (flat back)) ∧
    Forall2 (λ lr lr', (Z.even (lr.1 + lr.2) = true → lr' = lr) ∧ Z.abs (lr'.1 - lr.1) ≤ 1 ∧ Z.abs (lr'.2 - lr.2) ≤ 1) frames back.
Proof.
  intros Hw Hs Hr. pose proof Hr as (Hp & _ & Hfit & _)%mread_at_Done.
  rewrite s2ms_run; try done; [|by left].
  destruct (stored p w (flat (mid_side <$> frames)) m (w * (2 * Z.of_nat (length frames)))) as (m1 & E1 & R1 & L1);
    [lia|rewrite flat_length, length_fmap; lia|done|done|].
  exists m1. rewrite <- (length_fmap mid_side frames) in R1 |- *. rewrite ms2s_run; try done; [|..|by left].
  - destruct (stored p w (flat (left_right <$> (mid_side <$> frames))) m1 (w * (2 * Z.of_nat (length (mid_side <$> frames))))) as (m2 & E2 & R2 & L2);
      [lia|rewrite flat_length, !length_fmap; lia|done|rewrite length_fmap, L1; lia|].
    exists m2, (left_right <$> (mid_side <$> frames)). split_and!; try done.
    rewrite <- list_fmap_compose. apply Forall2_fmap_r, Forall_Forall2_diag, Forall_true. intros [l r]. apply mid_side_near.
  - apply Forall_fmap. eapply Forall_impl; [exact Hs|]. intros lr Hlr. by apply mid_side_ok.
  - rewrite length_fmap, L1. lia.
Qed.

(** ** Subtraction *)

(** Whether a sample can be read depends on the size of the memory only. *)
Lemma ldS_cases w p i (m : mem) : 0 < w → (∀ m' : mem, length m' = length m → ∃ x, sample w x ∧ ldS w p i m' = Done x) ∨
  (∀ m' : mem, length m' = length m → ldS w p i m' = UB).
Proof.
  intros Hw. destruct (decide (0 ≤ p + w * i ∧ p + w * i + w ≤ Z.of_nat (length m))) as [Hd|Hd].
  - left. intros m' Hm'. exists (swrap (8 * w) (le_val (take (Z.to_nat w) (drop (Z.to_nat (p + w * i)) m')))).
    split; [apply (swrap_range (8 * w)); lia|]. unfold ldS. by rewrite mread_at_Some by lia.
  - right. intros m' Hm'. unfold ldS, mread_at. case_decide; [|done]. unfold mread. rewrite decide_False by lia. done.
Qed.

Lemma st_length w p i v m : (∃ m', st w p i v m = Done m' ∧ length m' = length m) ∨ st w p i v m = UB.
Proof.
  destruct (st_cases w p i v m) as [[m' E]| ->]; [left|by right]. exists m'. split; [done|].
  unfold st in E. by apply mwrite_to_Done in E as (_ & _ & _ & ?).
Qed.

(** Sample [i] of one of the arrays is outside of a memory of [n] octets. *)
Definition outside (w xa ya : Z) (n : nat) (i : Z) : Prop :=
  (∀ m : mem, length m = n → ldS w xa i m = UB) ∨
  (∀ m : mem, length m = n → (∃ x, ldS w xa i m = Done x) ∧ ldS w ya i m = UB).

Definition inside (w xa ya : Z) (n : nat) (i : Z) : Prop :=
  ∀ m : mem, length m = n → ∃ x y, sample w x ∧ sample w y ∧ ldS w xa i m = Done x ∧ ldS w ya i m = Done y.

Lemma outside_dec w xa ya (m : mem) i : 0 < w → outside w xa ya (length m) i ∨ inside w xa ya (length m) i.
Proof.
  intros Hw. unfold outside. destruct (ldS_cases w xa i m Hw) as [Hx|Hx]; [|by left; left].
  destruct (ldS_cases w ya i m Hw) as [Hy|Hy].
  - right. intros m' Hm'. destruct (Hx m' Hm') as (x & ? & ?), (Hy m' Hm') as (y & ? & ?). by exists x, y.
  - left. right. intros m' Hm'. destruct (Hx m' Hm') as (x & ? & ?). eauto.
Qed.

Lemma outside_list w xa ya (m : mem) idx : 0 < w → Exists (outside w xa ya (length m)) idx ∨ Forall (inside w xa ya (length m)) idx.
Proof.
  intros Hw. induction idx as [|i idx IH]; [by right|]. destruct (outside_dec w xa ya m i Hw); [by left; left|].
  destruct IH; [by left; right|right; by constructor].
Qed.

Lemma outside_UB {A} w xa ya i (m : mem) (f : Z → Z → outcome A) : outside w xa ya (length m) i →
  (x ← ldS w xa i m; y ← ldS w ya i m; f x y) = UB.
Proof. intros [H|H]; [by rewrite H|]. destruct (H m eq_refl) as [(x & ->) ->]. done. Qed.

(** Of 16 bits no difference exceeds the initial peak. *)
Lemma remove_peak_16 xa ya idx m : Forall (inside 2 xa ya (length m)) idx → remove_peak 2 xa ya idx 65535 m = Done 65535.
Proof.
  induction 1 as [|i idx Hr _ IH]; [done|]. cbn [remove_peak].
  destruct (Hr m eq_refl) as (x & y & Sx & Sy & -> & ->). rewrite !bind_Done.
  unfold sample in *. change (2 ^ (8 * 2 - 1)) with 32768 in *. by rewrite (proj2 (Z.ltb_ge 65535 (Z.abs (x - y)))) by lia.
Qed.

Lemma remove_peak_UB w xa ya idx pk m : 0 < w → Exists (outside w xa ya (length m)) idx → remove_peak w xa ya idx pk m = UB.
Proof.
  intros Hw H. revert pk. induction H as [i idx Hi|i idx _ IH]; intros pk; cbn [remove_peak]; [by apply outside_UB|].
  destruct (outside_dec w xa ya m i Hw) as [Hi|Hr]; [by apply outside_UB|].
  destruct (Hr m eq_refl) as (x & y & _ & _ & -> & ->). rewrite !bind_Done. apply IH.
Qed.

Lemma remove_plain_UB w inout xa ya idx m : 0 < w → Exists (outside w xa ya (length m)) idx →
  mloop idx (λ i m, x ← ldS w xa i m; y ← ldS w ya i m; st w inout i (x - y) m) m = UB.
Proof.
  intros Hw H. remember (length m) as n eqn:En. revert m En. induction H as [i idx Hi|i idx _ IH]; intros m ->; cbn [mloop].
  - by rewrite (outside_UB w xa ya i m _ Hi).
  - destruct (outside_dec w xa ya m i Hw) as [Hi|Hr]; [by rewrite (outside_UB w xa ya i m _ Hi)|].
    destruct (Hr m eq_refl) as (x & y & _ & _ & -> & ->). rewrite !bind_Done.
    destruct (st_length w inout i (x - y) m) as [(m1 & -> & L1)| ->]; [|done]. by apply IH.
Qed.

Lemma mloop_ext idx f g m : (∀ i m, f i m = g i m) → mloop idx f m = mloop idx g m.
Proof. intros E. revert m. induction idx as [|i idx IH]; intros m; [done|]. cbn. rewrite E. destruct (g i m); [apply IH|done..]. Qed.

(** C40: with 16 bits the normalisation by the peak that a state asks for never
    changes anything: the difference is stored as it is without a state, in
    either direction, whatever the arrays, and also where they overlap or
    leave the memory. *)
Theorem remove_16_state_irrelevant (a b samples : Z) (m : mem) :
  roar_remove_16 a b samples true m = roar_remove_16 a b samples false m ∧
  roar_remove_so16 a b samples true m = roar_remove_so16 a b samples false m.
Proof.
  assert (E : ∀ inout xa ya, remove_w 32 2 65535 inout xa ya samples true m = remove_w 32 2 65535 inout xa ya samples false m);
    [|split; apply E].
  intros inout xa ya. unfold remove_w. destruct (outside_list 2 xa ya m (up samples)) as [H|H]; [lia| |].
  - rewrite remove_peak_UB by done || lia. symmetry. by apply remove_plain_UB.
  - rewrite remove_peak_16, bind_Done by done. apply mloop_ext. intros i m'.
    destruct (ldS_cases 2 xa i m') as [Hx|Hx]; [lia| |]; destruct (ldS_cases 2 ya i m') as [Hy|Hy]; try lia; try rewrite (Hx m' eq_refl);
      try rewrite (Hy m' eq_refl).
    + destruct (Hx m' eq_refl) as (x & Sx & ->), (Hy m' eq_refl) as (y & Sy & ->). rewrite !bind_Done. unfold sample in *.
      change (2 ^ (8 * 2 - 1)) with 32768 in *. change (2 ^ (32 - 1)) with 2147483648.
      rewrite !fits_ok, bind_Done by (change (2 ^ (32 - 1)) with 2147483648; lia). rewrite fits_ok by (change (2 ^ (32 - 1)) with 2147483648; lia).
      rewrite !bind_Done, Z.quot_mul by done. f_equal. lia.
    + by destruct (Hx m' eq_refl) as (x & _ & ->).
    + destruct (Hy m' eq_refl) as (y & Sy & ->). rewrite bind_Done. unfold sample in *.
      change (2 ^ (8 * 2 - 1)) with 32768 in *. rewrite fits_ok by (change (2 ^ (32 - 1)) with 2147483648; lia). rewrite bind_Done.
      rewrite fits_ok by (change (2 ^ (32 - 1)) with 2147483648; lia). by rewrite bind_Done.
    + done.
Qed.

(** ** Interleaving *)

Lemma ld1_lookup p i m x : 0 ≤ p + i → m !! Z.to_nat (p + i) = Some x → ld1 p i m = Done x.
Proof.
  intros Hp Hx. pose proof (lookup_lt_Some _ _ _ Hx). unfold ld1, ldU. rewrite mread_at_Some by lia.
  rewrite Z.mul_1_l. rewrite (drop_S m x _ Hx). change (Z.to_nat 1) with 1%nat. cbn. by rewrite Z.add_0_r.
Qed.

Lemma st1_insert p i v m : 0 ≤ p + i < Z.of_nat (length m) → st1 p i v m = Done (<[Z.to_nat (p + i) := v mod 256]> m).
Proof.
  intros Hp. unfold st1, st. rewrite Z.mul_1_l. change (Z.to_nat 1) with 1%nat. cbn [le_bytes].
  rewrite mwrite_to_Some by (cbn; lia). f_equal. rewrite insert_take_drop by lia. cbn [length app]. by rewrite Nat.add_1_r.
Qed.

Section interleaved.
Context (C B : nat) (HC : (0 < C)%nat) (HB : (0 < B)%nat).

(** The channel of octet [k], how many octets a channel has got before octet
    [k], and where octet [k] is in its channel. *)
Definition chan_of (k : nat) : nat := (k / B) mod C.
Fixpoint share (k c : nat) : nat :=
  match k with O => O | S k => share k c + (if decide (chan_of k = c) then 1 else 0) end.
Definition place (ptrs : list Z) (k : nat) : Z := nth (chan_of k) ptrs 0 + Z.of_nat (share k (chan_of k)).

Lemma chan_of_lt k : (chan_of k < C)%nat.
Proof. apply Nat.mod_upper_bound. lia. Qed.

Lemma share_mono j k c : (j ≤ k)%nat → (share j c ≤ share k c)%nat.
Proof. induction 1 as [|k _ IH]; [done|]. cbn. lia. Qed.

Lemma share_lt j k : (j < k)%nat → (share j (chan_of j) < share k (chan_of j))%nat.
Proof. intros H. pose proof (share_mono (S j) k (chan_of j) ltac:(lia)) as Hm. cbn in Hm. rewrite decide_True in Hm by done. lia. Qed.

(** Every octet of a channel's share is the place of one octet. *)
Lemma share_onto k c q : (q < share k c)%nat → ∃ j, (j < k)%nat ∧ chan_of j = c ∧ share j c = q.
Proof.
  induction k as [|k IH]; cbn; [lia|]. case_decide as Hc; [|intros Hq; destruct IH as (j & ? & ? & ?); [lia|exists j; split_and!; try done; lia]].
  intros Hq. destruct (decide (q = share k c)) as [->|Hne]; [exists k; split_and!; try done; lia|].
  destruct IH as (j & ? & ? & ?); [lia|]. exists j. split_and!; try done. lia.
Qed.

(** The counters of the loop. *)
Definition ips (ptrs : list Z) (k : nat) : list Z := imap (λ c p, p + Z.of_nat (share k c)) ptrs.

Lemma next_turn k : if decide (S k mod B = 0)%nat then chan_of (S k) = (if decide (chan_of k + 1 = C)%nat then 0%nat else chan_of k + 1)%nat
  else chan_of (S k) = chan_of k ∧ (S k mod B = k mod B + 1)%nat.
Proof.
  unfold chan_of. pose proof (Nat.div_mod_eq k B). pose proof (Nat.mod_upper_bound k B ltac:(lia)).
  pose proof (Nat.div_mod_eq (S k) B). pose proof (Nat.mod_upper_bound (S k) B ltac:(lia)).
  case_decide as Hz.
  - assert (E : (S k / B = k / B + 1)%nat) by nia. rewrite E. set (u := (k / B)%nat) in *.
    pose proof (Nat.div_mod_eq u C). pose proof (Nat.mod_upper_bound u C ltac:(lia)).
    case_decide as Hl.
    + symmetry. apply (Nat.mod_unique _ _ (u / C + 1)); [lia|]. lia.
    + symmetry. apply (Nat.mod_unique _ _ (u / C)); [lia|]. lia.
  - assert (E : (S k / B = k / B)%nat) by nia. rewrite E. split; [done|]. nia.
Qed.
Lemma ips_step ptrs k : length ptrs = C → ips ptrs k !! chan_of k = Some (place ptrs k) ∧
  <[chan_of k := place ptrs k + 1]> (ips ptrs k) = ips ptrs (S k).
Proof.
  intros Hl. pose proof (chan_of_lt k). destruct (lookup_lt_is_Some_2 ptrs (chan_of k) ltac:(lia)) as [p Hp].
  assert (E : ips ptrs k !! chan_of k = Some (place ptrs k)).
  { unfold ips, place. by rewrite list_lookup_imap, Hp, (nth_lookup_Some _ _ _ _ Hp). }
  split; [done|]. apply list_eq. intros c. destruct (decide (c = chan_of k)) as [->|Hne].
  - rewrite list_lookup_insert_eq by (by apply lookup_lt_Some in E). unfold ips, place. rewrite list_lookup_imap, Hp. cbn.
    rewrite (nth_lookup_Some _ _ _ _ Hp), decide_True by done. f_equal. lia.
  - rewrite list_lookup_insert_ne by done. unfold ips. rewrite !list_lookup_imap. destruct (ptrs !! c); [|done]. cbn.
    rewrite decide_False by done. do 2 f_equal. lia.
Qed.

(** The loop with its counters is a loop over the places. *)
Lemma interl_run copy ptrs n k m : length ptrs = C →
  interl_loop copy (Interl (Z.of_nat C) (8 * Z.of_nat B)) (seqZ (Z.of_nat k) (Z.of_nat n)) (ips ptrs k) (Z.of_nat (chan_of k)) (8 * Z.of_nat (k mod B)) m =
  mloop (seqZ (Z.of_nat k) (Z.of_nat n)) (λ j, copy (place ptrs (Z.to_nat j)) j) m.
Proof.
  intros Hl. revert k m. induction n as [|n IH]; intros k m; [done|]. rewrite seqZ_cons by lia. cbn [interl_loop mloop].
  destruct (ips_step ptrs k Hl) as [E1 E2]. rewrite !Nat2Z.id, E1. cbn [or_ub]. rewrite bind_Done.
  destruct (copy (place ptrs k) (Z.of_nat k) m) as [m1| |]; [rewrite !bind_Done|done..]. rewrite E2. cbn [il_bits il_channels].
  replace (Z.succ (Z.of_nat k)) with (Z.of_nat (S k)) by lia. replace (Z.pred (Z.of_nat (S n))) with (Z.of_nat n) by lia.
  rewrite <- IH. pose proof (next_turn k) as Hn. pose proof (Nat.mod_upper_bound k B ltac:(lia)).
  case_decide as Hz; destruct (Z.eqb_spec (8 * Z.of_nat (k mod B) + 8) (8 * Z.of_nat B)) as [Hb|Hb].
  - rewrite Hn, Hz. case_decide as Hc; destruct (Z.eqb_spec (Z.of_nat (chan_of k) + 1) (Z.of_nat C)); try lia; f_equal; lia.
  - exfalso. apply Hb. assert (Hu : (k mod B + 1 = B)%nat); [|lia]. clear - HB Hz. pose proof (Nat.div_mod_eq k B).
    pose proof (Nat.mod_upper_bound k B ltac:(lia)). pose proof (Nat.div_mod_eq (S k) B). rewrite Hz in *.
    set (u := (k mod B)%nat) in *. assert ((S k / B = k / B + 1)%nat) by nia. nia.
  - exfalso. destruct Hn as [_ Hm]. pose proof (Nat.mod_upper_bound (S k) B ltac:(lia)). lia.
  - destruct Hn as [-> ->]. f_equal. lia.
Qed.
(** Areas of the channels for [len] octets: in a memory of [size] octets, and
    apart from the other side, [len] octets at [q]. *)
Definition areas (len size : nat) (q : Z) (ptrs : list Z) : Prop :=
  length ptrs = C ∧ ∀ c p, ptrs !! c = Some p →
    0 ≤ p ∧ p + Z.of_nat (share len c) ≤ Z.of_nat size ∧ (p + Z.of_nat (share len c) ≤ q ∨ q + Z.of_nat len ≤ p).
Definition disjoint_areas (len : nat) (ptrs : list Z) : Prop :=
  ∀ c c' p p', c ≠ c' → ptrs !! c = Some p → ptrs !! c' = Some p' →
    p + Z.of_nat (share len c) ≤ p' ∨ p' + Z.of_nat (share len c') ≤ p.

Lemma place_bounds len size q ptrs j : areas len size q ptrs → (j < len)%nat →
  ∃ p, ptrs !! chan_of j = Some p ∧ place ptrs j = p + Z.of_nat (share j (chan_of j)) ∧ (share j (chan_of j) < share len (chan_of j))%nat ∧
    0 ≤ place ptrs j < Z.of_nat size ∧ (place ptrs j < q ∨ q + Z.of_nat len ≤ place ptrs j).
Proof.
  intros [Hl Ha] Hj. pose proof (chan_of_lt j). destruct (lookup_lt_is_Some_2 ptrs (chan_of j) ltac:(lia)) as [p Hp].
  destruct (Ha _ _ Hp) as (? & ? & ?). pose proof (share_lt j len Hj). exists p. unfold place. rewrite (nth_lookup_Some _ _ _ _ Hp).
  split_and!; try done; lia.
Qed.

Lemma place_inj len size q ptrs i j : areas len size q ptrs → disjoint_areas len ptrs → (i < len)%nat → (j < len)%nat → i ≠ j →
  place ptrs i ≠ place ptrs j.
Proof.
  intros Ha Hd Hi Hj Hne. destruct (place_bounds _ _ _ _ i Ha Hi) as (p & Hp & -> & Si & _).
  destruct (place_bounds _ _ _ _ j Ha Hj) as (p' & Hp' & -> & Sj & _).
  destruct (decide (chan_of i = chan_of j)) as [E|E].
  - rewrite E in *. rewrite Hp in Hp'. injection Hp' as <-. destruct (decide (i < j)%nat).
    + pose proof (share_lt i j ltac:(done)) as Hs. rewrite E in Hs. lia.
    + pose proof (share_lt j i ltac:(lia)). lia.
  - destruct (Hd _ _ _ _ E Hp Hp'); lia.
Qed.

Lemma encode_places ptrs q len m : areas len (length m) q ptrs → 0 ≤ q → q + Z.of_nat len ≤ Z.of_nat (length m) →
  mloop (up (Z.of_nat len)) (λ j m, x ← ld1 (place ptrs (Z.to_nat j)) 0 m; st1 q j x m) m =
  mwrite_to q (encode 1 ((λ j, default 0 (m !! Z.to_nat (place ptrs j))) <$> seq 0 len)) m.
Proof.
  intros Ha Hq Hfit. set (outs := _ <$> seq 0 len). assert (Hn : length outs = len) by (unfold outs; by rewrite length_fmap, length_seq).
  rewrite <- Hn at 1. apply up_samples; [lia|done|rewrite Hn; lia|]. intros t v m' Hv Hm. rewrite Nat2Z.id.
  unfold outs in Hv. rewrite list_lookup_fmap_Some in Hv. destruct Hv as (t' & -> & [-> Hlt]%lookup_seq). cbn [Nat.add].
  destruct (place_bounds _ _ _ _ t Ha Hlt) as (p & _ & _ & _ & Hb & Hd).
  destruct (lookup_lt_is_Some_2 m (Z.to_nat (place ptrs t)) ltac:(lia)) as [x Hx].
  assert (E : ld1 (place ptrs t) 0 m' = ld1 (place ptrs t) 0 m).
  { unfold ld1, ldU. f_equal. apply (mread_mwrite_ne _ _ _ _ _ _ Hm). rewrite encode_length, length_take by lia. lia. }
  rewrite E, (ld1_lookup _ _ _ x), bind_Done by (rewrite ?Z.add_0_r; done || lia). rewrite Hx. done.
Qed.

Lemma decode_places ptrs q len m n : areas len (length m) q ptrs → disjoint_areas len ptrs → 0 ≤ q → q + Z.of_nat len ≤ Z.of_nat (length m) →
  Forall octet m → (n ≤ len)%nat →
  ∃ m', mloop (up (Z.of_nat n)) (λ j m, x ← ld1 q j m; st1 (place ptrs (Z.to_nat j)) 0 x m) m = Done m' ∧ length m' = length m ∧
    (∀ j, (j < n)%nat → m' !! Z.to_nat (place ptrs j) = m !! Z.to_nat (q + Z.of_nat j)) ∧
    (∀ a, (∀ j, (j < n)%nat → place ptrs j ≠ Z.of_nat a) → m' !! a = m !! a).
Proof.
  intros Ha Hd Hq Hfit Hoct. induction n as [|n IH]; intros Hn.
  - exists m. split_and!; try done. intros; lia.
  - destruct IH as (m1 & E1 & L1 & I1 & O1); [lia|]. replace (Z.of_nat (S n)) with (Z.of_nat n + 1) by lia.
    rewrite up_S, mloop_app, E1, bind_Done by lia. cbn [mloop]. rewrite Nat2Z.id.
    destruct (place_bounds _ _ _ _ n Ha ltac:(lia)) as (p & _ & _ & _ & Hb & Hs).
    destruct (lookup_lt_is_Some_2 m (Z.to_nat (q + Z.of_nat n)) ltac:(lia)) as [x Hx].
    assert (Hx1 : m1 !! Z.to_nat (q + Z.of_nat n) = Some x).
    { rewrite O1; [done|]. intros j Hj. destruct (place_bounds _ _ _ _ j Ha ltac:(lia)) as (_ & _ & _ & _ & _ & ?). lia. }
    rewrite (ld1_lookup _ _ _ x), bind_Done by (done || lia). rewrite st1_insert, bind_Done, Z.add_0_r by lia.
    pose proof (Forall_lookup_1 _ _ _ _ Hoct Hx) as Ho. unfold octet in Ho. rewrite Z.mod_small by lia. eexists. split_and!; [done|..].
    + by rewrite length_insert.
    + intros j Hj. destruct (decide (j = n)) as [->|Hne]; [rewrite list_lookup_insert_eq by lia; by rewrite Hx|].
      pose proof (place_inj _ _ _ _ j n Ha Hd ltac:(lia) ltac:(lia) Hne).
      destruct (place_bounds _ _ _ _ j Ha ltac:(lia)) as (_ & _ & _ & _ & ? & _). rewrite list_lookup_insert_ne by lia. apply I1. lia.
    + intros a Hna. pose proof (Hna n ltac:(lia)). rewrite list_lookup_insert_ne by lia. apply O1. intros j Hj. apply Hna. lia.
Qed.
End interleaved.

Lemma mread_at_ext p n m p' m' : 0 ≤ p → 0 ≤ p' → p + Z.of_nat n ≤ Z.of_nat (length m) → p' + Z.of_nat n ≤ Z.of_nat (length m') →
  (∀ j, (j < n)%nat → m' !! Z.to_nat (p' + Z.of_nat j) = m !! Z.to_nat (p + Z.of_nat j)) →
  mread_at p' (Z.of_nat n) m' = mread_at p (Z.of_nat n) m.
Proof.
  intros Hp Hp' Hf Hf' E. rewrite !mread_at_Some, Nat2Z.id by lia. f_equal. apply list_eq. intros j.
  destruct (decide (j < n)%nat) as [Hj|Hj].
  - rewrite !lookup_take_lt, !lookup_drop by done. specialize (E j Hj). rewrite !Z2Nat.inj_add, Nat2Z.id in E by lia. exact E.
  - rewrite !lookup_take_ge by lia. done.
Qed.

Lemma encode_octets vs : Forall octet vs → encode 1 vs = vs.
Proof.
  induction 1 as [|v vs Hv _ IH]; [done|]. rewrite (encode_app 1 [v] vs : encode 1 (v :: vs) = _), encode_1, IH.
  unfold octet in Hv. change (Z.to_nat 1) with 1%nat. cbn. by rewrite Z.mod_small by lia.
Qed.

(** C36: interleaving any number of octets of up to 16 channels of whole octets
    and splitting the result again puts into every channel what it had, for
    areas that do not overlap; both functions return -1 nevertheless. *)
Theorem interleave_roundtrip (C B len : nat) (ptrs ptrs' : list Z) (q : Z) (s0 : interl) (m : mem) :
  (0 < C ≤ 16)%nat → (0 < B)%nat → (0 < len)%nat → Forall octet m → 0 ≤ q → q + Z.of_nat len ≤ Z.of_nat (length m) →
  areas C B len (length m) q ptrs → areas C B len (length m) q ptrs' → disjoint_areas C B len ptrs' →
  ∃ s m1 m2, roar_interl_init (Some s0) (Z.of_nat C) (8 * Z.of_nat B) = (0, Some s) ∧
    roar_interl_encode_ext (Some s) (Some ptrs) (Some q) (Z.of_nat len) m = Done (-1, m1) ∧
    roar_interl_decode_ext (Some s) (Some q) (Some ptrs') (Z.of_nat len) m1 = Done (-1, m2) ∧
    ∀ c p p', ptrs !! c = Some p → ptrs' !! c = Some p' →
      mread_at p' (Z.of_nat (share C B len c)) m2 = mread_at p (Z.of_nat (share C B len c)) m.
Proof.
  intros HC HB Hlen Hoct Hq Hfit Ha Ha' Hd. exists (Interl (Z.of_nat C) (8 * Z.of_nat B)).
  assert (Hext : ∀ copy ps m', length ps = C → interl_ext copy (Some (Interl (Z.of_nat C) (8 * Z.of_nat B))) ps (Z.of_nat len) m' =
    (m ← mloop (up (Z.of_nat len)) (λ j, copy (place C B ps (Z.to_nat j)) j) m'; Done (-1, m))).
  { intros copy ps m' Hl. unfold interl_ext, ROAR_INTERLEAVE_MAX_CHANNELS. cbn [il_channels].
    rewrite (proj2 (Z.eqb_neq (Z.of_nat len) 0)), decide_True, Nat2Z.id, take_ge by lia. f_equal.
    change (up (Z.of_nat len)) with (seqZ (Z.of_nat 0) (Z.of_nat len)).
    rewrite <- (interl_run C B ltac:(lia) HB copy ps len 0 m' Hl). f_equal.
    - unfold ips. apply list_eq. intros c. rewrite list_lookup_imap. destruct (ps !! c); [|done]. cbn. by rewrite Z.add_0_r.
    - unfold chan_of. rewrite Nat.Div0.div_0_l, Nat.Div0.mod_0_l. done.
    - by rewrite Nat.Div0.mod_0_l. }
  set (outs := (λ j, default 0 (m !! Z.to_nat (place C B ptrs j))) <$> seq 0 len).
  assert (Hno : length outs = len) by (unfold outs; by rewrite length_fmap, length_seq).
  assert (Hoo : Forall octet outs).
  { apply Forall_fmap, Forall_true. intros j. cbn. destruct (m !! _) as [x|] eqn:E; [|unfold octet; cbn; lia]. cbn. by apply (Forall_lookup_1 _ _ _ _ Hoct E). }
  destruct (stored q 1 outs m (Z.of_nat len)) as (m1 & E1 & R1 & L1); [lia|lia|done|done|]. rewrite encode_octets in R1 by done.
  exists m1. destruct (decode_places C B ltac:(lia) HB ptrs' q len m1 len) as (m2 & E2 & L2 & I2 & _);
    [by rewrite L1|done|done|by rewrite L1| |done|].
  { apply mwrite_to_Done in E1 as (_ & _ & -> & _). rewrite encode_octets by done.
    apply Forall_app; split; [by apply Forall_take|]. apply Forall_app; split; [done|by apply Forall_drop]. }
  exists m2. split_and!.
  - unfold roar_interl_init, ROAR_INTERLEAVE_MAX_CHANNELS. rewrite (proj2 (Z.ltb_ge _ _)) by lia.
    by rewrite (Z.mul_comm 8), Z.mod_mul by done.
  - unfold roar_interl_encode_ext. rewrite Hext by apply Ha. rewrite encode_places by (done || lia). unfold outs in E1. by rewrite E1.
  - unfold roar_interl_decode_ext. rewrite Hext by apply Ha'. by rewrite E2.
  - intros c p p' Hp Hp'. destruct Ha as [Hl Ha], Ha' as [Hl' Ha']. destruct (Ha _ _ Hp) as (? & ? & ?), (Ha' _ _ Hp') as (? & ? & ?).
    apply mread_at_ext; [done|done|done|lia|]. intros i Hi.
    destruct (share_onto C B ltac:(lia) HB len c i Hi) as (j & Hj & <- & <-). specialize (I2 j Hj).
    unfold place at 1 in I2. rewrite (nth_lookup_Some _ _ _ _ Hp') in I2. rewrite I2.
    pose proof R1 as (_ & _ & _ & ER)%mread_at_Done. rewrite Nat2Z.id in ER.
    assert (Ho : outs !! j = m1 !! Z.to_nat (q + Z.of_nat j)).
    { rewrite ER, lookup_take_lt, lookup_drop by lia. f_equal. lia. }
    rewrite <- Ho. unfold outs. rewrite list_lookup_fmap, lookup_seq_lt by lia. cbn [fmap option_fmap option_map Nat.add].
    unfold place. rewrite (nth_lookup_Some _ _ _ _ Hp). destruct (lookup_lt_is_Some_2 m (Z.to_nat (p + Z.of_nat (share C B j (chan_of C B j))))) as [x ->]; [lia|done].
Qed.

(** ** Instances *)

(** Three tracks of two samples of 16 bits, and room for the output. *)
Definition ex_tracks : list (list Z) := [[30000; -30000]; [2000; -2000]; [1000; -1000]].
Definition ex_mix_mem : mem := mjoin (encode 2 <$> ex_tracks) ++ replicate 4 0.

Ltac ex_track := split_and!; [reflexivity|unfold sample; zdecide|vm_compute; reflexivity|unfold aligned; cbn [length]; lia].

Lemma mix_saturates_witness :
  roar_mix_pcm 12 16 [0; 4; 8] 2 ex_mix_mem = ok (mwrite_to 12 (encode 2 (mixed 2 2 ex_tracks)) ex_mix_mem) ∧
  mixed 2 2 ex_tracks = [32767; -32768].
Proof.
  split; [|reflexivity]. apply (mix_saturates 16 12 [0; 4; 8] ex_tracks 2 ex_mix_mem); [by right; left|done| |done|by vm_compute].
  change (16 / 8) with 2. unfold ex_tracks. do 3 (apply Forall2_cons_2; [ex_track|]). done.
Defined.

(** Left at full volume, right at half. *)
Definition ex_mixer : mixer_settings := MixerSettings 100 1 1 (100 :: 50 :: replicate 62 0).

Lemma amp_neutral_and_scaled_witness :
  roar_amp_pcm (Some 0) 16 (Some 0) 2 2 ex_mixer (encode 2 [1000; 1000]) = ok (mwrite_to 0 (encode 2 [1000; 500]) (encode 2 [1000; 1000])) ∧
  (need_vol_change 1 (Some ex_mixer) = Done 0 → 0 = 0 →
     roar_amp_pcm (Some 0) 16 (Some 0) 2 1 ex_mixer (encode 2 [1000; 1000]) = Done (0, encode 2 [1000; 1000])) ∧
  need_vol_change 1 (Some ex_mixer) = Done 0.
Proof.
  split; [|split; [|reflexivity]].
  - apply (amp_neutral_and_scaled 16 0 0 2 ex_mixer [1000; 1000]); [by right; left| |done|done| |done|by vm_compute].
    + split_and!; [reflexivity| |done..]. unfold ex_mixer. cbn [mx_mixer]. rewrite !Forall_cons. split_and!; try lia. apply Forall_replicate. lia.
    + ex_track.
  - apply (amp_neutral_and_scaled 16 0 0 1 ex_mixer [1000; 1000]); [by right; left| |done|done| |done|by vm_compute].
    + split_and!; [reflexivity| |done..]. unfold ex_mixer. cbn [mx_mixer]. rewrite !Forall_cons. split_and!; try lia. apply Forall_replicate. lia.
    + ex_track.
Defined.

Lemma midside_roundtrip_witness :
  ∃ m1 m2 back, conv_s2ms 2 0 0 4 (encode 2 [5; 3; -7; 4]) = Done m1 ∧ conv_ms2s 2 0 0 4 m1 = Done m2 ∧
    mread_at 0 8 m2 = Done (encode 2 (flat back)) ∧
    Forall2 (λ lr lr', (Z.even (lr.1 + lr.2) = true → lr' = lr) ∧ Z.abs (lr'.1 - lr.1) ≤ 1 ∧ Z.abs (lr'.2 - lr.2) ≤ 1) [(5, 3); (-7, 4)] back.
Proof.
  apply (midside_roundtrip 0 2 [(5, 3); (-7, 4)] (encode 2 [5; 3; -7; 4])); [by right| |reflexivity].
  rewrite !Forall_cons. unfold pair_ok, sample. cbn. split_and!; try lia. done.
Defined.

(** Two channels of 16 bits, six octets, from 0 and 4 through 8 to 16 and 20. *)
Lemma interleave_roundtrip_witness :
  ∃ s m1 m2, roar_interl_init (Some (Interl 0 0)) 2 16 = (0, Some s) ∧
    roar_interl_encode_ext (Some s) (Some [0; 4]) (Some 8) 6 (seqZ 1 24) = Done (-1, m1) ∧
    roar_interl_decode_ext (Some s) (Some 8) (Some [16; 20]) 6 m1 = Done (-1, m2) ∧
    ∀ c p p', [0; 4] !! c = Some p → [16; 20] !! c = Some p' →
      mread_at p' (Z.of_nat (share 2 2 6 c)) m2 = mread_at p (Z.of_nat (share 2 2 6 c)) (seqZ 1 24).
Proof.
  assert (Hshare : ∀ c, (c < 2)%nat → share 2 2 6 c = 4%nat ∨ share 2 2 6 c = 2%nat) by (intros [|[|c]] Hc; [by left|by right|lia]).
  apply (interleave_roundtrip 2 2 6 [0; 4] [16; 20] 8 (Interl 0 0) (seqZ 1 24)); try lia.
  - apply Forall_forall. intros x Hx%elem_of_seqZ. unfold octet. lia.
  - rewrite length_seqZ. lia.
  - split; [done|]. intros [|[|c]] p Hp; [..|done]; injection Hp as <-; vm_compute; split_and!; try done; by left.
  - split; [done|]. intros [|[|c]] p Hp; [..|done]; injection Hp as <-; vm_compute; split_and!; try done; by right.
  - intros [|[|c]] [|[|c']] p p' Hne Hp Hp'; try done; injection Hp as <-; injection Hp' as <-; vm_compute; [by left|by right].
Defined.
