(* ===== verification/G711.v ===== *)
(** * G.711 ([libroardsp/alaw.c], [libroardsp/mulaw.c])

    The tables of A-law and mu-law, the functions that convert with them, the
    computation of G.711 they stand for, and the round trip. *)
From S2P Require Import Prelude Volume Convert Dsp.

(** ** The tables

    The values of the source, in parts and in decimal.  A value of an [int8_t]
    table is written there as the octet that is stored. *)

Definition _roardsp_alaw2pcm16 : list Z := [
   -5504; -5248; -6016; -5760; -4480; -4224; -4992;
   -4736; -7552; -7296; -8064; -7808; -6528; -6272;
   -7040; -6784; -2752; -2624; -3008; -2880; -2240;
   -2112; -2496; -2368; -3776; -3648; -4032; -3904;
   -3264; -3136; -3520; -3392; -22016; -20992; -24064;
   -23040; -17920; -16896; -19968; -18944; -30208; -29184;
   -32256; -31232; -26112; -25088; -28160; -27136; -11008;
   -10496; -12032; -11520; -8960; -8448; -9984; -9472;
   -15104; -14592; -16128; -15616; -13056; -12544; -14080;
   -13568; -344; -328; -376; -360; -280; -264;
   -312; -296; -472; -456; -504; -488; -408;
   -392; -440; -424; -88; -72; -120; -104;
   -24; -8; -56; -40; -216; -200; -248;
   -232; -152; -136; -184; -168; -1376; -1312;
   -1504; -1440; -1120; -1056; -1248; -1184; -1888;
   -1824; -2016; -1952; -1632; -1568; -1760; -1696;
   -688; -656; -752; -720; -560; -528; -624;
   -592; -944; -912; -1008; -976; -816; -784;
   -880; -848; 5504; 5248; 6016; 5760; 4480;
   4224; 4992; 4736; 7552; 7296; 8064; 7808;
   6528; 6272; 7040; 6784; 2752; 2624; 3008;
   2880; 2240; 2112; 2496; 2368; 3776; 3648;
   4032; 3904; 3264; 3136; 3520; 3392; 22016;
   20992; 24064; 23040; 17920; 16896; 19968; 18944;
   30208; 29184; 32256; 31232; 26112; 25088; 28160;
   27136; 11008; 10496; 12032; 11520; 8960; 8448;
   9984; 9472; 15104; 14592; 16128; 15616; 13056;
   12544; 14080; 13568; 344; 328; 376; 360;
   280; 264; 312; 296; 472; 456; 504;
   488; 408; 392; 440; 424; 88; 72;
   120; 104; 24; 8; 56; 40; 216;
   200; 248; 232; 152; 136; 184; 168;
   1376; 1312; 1504; 1440; 1120; 1056; 1248;
   1184; 1888; 1824; 2016; 1952; 1632; 1568;
   1760; 1696; 688; 656; 752; 720; 560;
   528; 624; 592; 944; 912; 1008; 976;
   816; 784; 880; 848].

Definition _roardsp_pcm132alaw_0 : list Z := [
   42; 42; 42; 42; 42; 42; 42; 42; 42; 42; 42; 42;
   42; 42; 42; 42; 42; 42; 42; 42; 42; 42; 42; 42;
   42; 42; 42; 42; 42; 42; 42; 42; 42; 42; 42; 42;
   42; 42; 42; 42; 42; 42; 42; 42; 42; 42; 42; 42;
   42; 42; 42; 42; 42; 42; 42; 42; 42; 42; 42; 42;
   42; 42; 42; 42; 42; 42; 42; 42; 42; 42; 42; 42;
   42; 42; 42; 42; 42; 42; 42; 42; 42; 42; 42; 42;
   42; 42; 42; 42; 42; 42; 42; 42; 42; 42; 42; 42;
   42; 42; 42; 42; 42; 42; 42; 42; 42; 42; 42; 42;
   42; 42; 42; 42; 42; 42; 42; 42; 42; 42; 42; 42;
   42; 42; 42; 42; 42; 42; 42; 42; 43; 43; 43; 43;
   43; 43; 43; 43; 43; 43; 43; 43; 43; 43; 43; 43;
   43; 43; 43; 43; 43; 43; 43; 43; 43; 43; 43; 43;
   43; 43; 43; 43; 43; 43; 43; 43; 43; 43; 43; 43;
   43; 43; 43; 43; 43; 43; 43; 43; 43; 43; 43; 43;
   43; 43; 43; 43; 43; 43; 43; 43; 43; 43; 43; 43;
   43; 43; 43; 43; 43; 43; 43; 43; 43; 43; 43; 43;
   43; 43; 43; 43; 43; 43; 43; 43; 43; 43; 43; 43;
   43; 43; 43; 43; 43; 43; 43; 43; 43; 43; 43; 43;
   43; 43; 43; 43; 43; 43; 43; 43; 43; 43; 43; 43;
   43; 43; 43; 43; 43; 43; 43; 43; 43; 43; 43; 43;
   43; 43; 43; 43; 40; 40; 40; 40; 40; 40; 40; 40;
   40; 40; 40; 40; 40; 40; 40; 40; 40; 40; 40; 40;
   40; 40; 40; 40; 40; 40; 40; 40; 40; 40; 40; 40;
   40; 40; 40; 40; 40; 40; 40; 40; 40; 40; 40; 40;
   40; 40; 40; 40; 40; 40; 40; 40; 40; 40; 40; 40;
   40; 40; 40; 40; 40; 40; 40; 40; 40; 40; 40; 40;
   40; 40; 40; 40; 40; 40; 40; 40; 40; 40; 40; 40;
   40; 40; 40; 40; 40; 40; 40; 40; 40; 40; 40; 40;
   40; 40; 40; 40; 40; 40; 40; 40; 40; 40; 40; 40;
   40; 40; 40; 40; 40; 40; 40; 40; 40; 40; 40; 40;
   40; 40; 40; 40; 40; 40; 40; 40; 40; 40; 40; 40;
   41; 41; 41; 41; 41; 41; 41; 41; 41; 41; 41; 41;
   41; 41; 41; 41; 41; 41; 41; 41; 41; 41; 41; 41;
   41; 41; 41; 41; 41; 41; 41; 41; 41; 41; 41; 41;
   41; 41; 41; 41; 41; 41; 41; 41; 41; 41; 41; 41;
   41; 41; 41; 41; 41; 41; 41; 41; 41; 41; 41; 41;
   41; 41; 41; 41; 41; 41; 41; 41; 41; 41; 41; 41;
   41; 41; 41; 41; 41; 41; 41; 41; 41; 41; 41; 41;
   41; 41; 41; 41; 41; 41; 41; 41; 41; 41; 41; 41;
   41; 41; 41; 41; 41; 41; 41; 41; 41; 41; 41; 41;
   41; 41; 41; 41; 41; 41; 41; 41; 41; 41; 41; 41;
   41; 41; 41; 41; 41; 41; 41; 41; 46; 46; 46; 46;
   46; 46; 46; 46; 46; 46; 46; 46; 46; 46; 46; 46;
   46; 46; 46; 46; 46; 46; 46; 46; 46; 46; 46; 46;
   46; 46; 46; 46; 46; 46; 46; 46; 46; 46; 46; 46;
   46; 46; 46; 46; 46; 46; 46; 46; 46; 46; 46; 46;
   46; 46; 46; 46; 46; 46; 46; 46; 46; 46; 46; 46;
   46; 46; 46; 46; 46; 46; 46; 46; 46; 46; 46; 46;
   46; 46; 46; 46; 46; 46; 46; 46; 46; 46; 46; 46;
   46; 46; 46; 46; 46; 46; 46; 46; 46; 46; 46; 46;
   46; 46; 46; 46; 46; 46; 46; 46; 46; 46; 46; 46;
   46; 46; 46; 46; 46; 46; 46; 46; 46; 46; 46; 46;
   46; 46; 46; 46; 47; 47; 47; 47; 47; 47; 47; 47;
   47; 47; 47; 47; 47; 47; 47; 47; 47; 47; 47; 47;
   47; 47; 47; 47; 47; 47; 47; 47; 47; 47; 47; 47;
   47; 47; 47; 47; 47; 47; 47; 47; 47; 47; 47; 47;
   47; 47; 47; 47; 47; 47; 47; 47; 47; 47; 47; 47;
   47; 47; 47; 47; 47; 47; 47; 47; 47; 47; 47; 47;
   47; 47; 47; 47; 47; 47; 47; 47; 47; 47; 47; 47;
   47; 47; 47; 47; 47; 47; 47; 47; 47; 47; 47; 47;
   47; 47; 47; 47; 47; 47; 47; 47; 47; 47; 47; 47;
   47; 47; 47; 47; 47; 47; 47; 47; 47; 47; 47; 47;
   47; 47; 47; 47; 47; 47; 47; 47; 47; 47; 47; 47;
   44; 44; 44; 44; 44; 44; 44; 44; 44; 44; 44; 44;
   44; 44; 44; 44; 44; 44; 44; 44; 44; 44; 44; 44;
   44; 44; 44; 44; 44; 44; 44; 44; 44; 44; 44; 44;
   44; 44; 44; 44; 44; 44; 44; 44; 44; 44; 44; 44;
   44; 44; 44; 44; 44; 44; 44; 44; 44; 44; 44; 44;
   44; 44; 44; 44; 44; 44; 44; 44; 44; 44; 44; 44;
   44; 44; 44; 44; 44; 44; 44; 44; 44; 44; 44; 44;
   44; 44; 44; 44; 44; 44; 44; 44; 44; 44; 44; 44;
   44; 44; 44; 44; 44; 44; 44; 44; 44; 44; 44; 44;
   44; 44; 44; 44; 44; 44; 44; 44; 44; 44; 44; 44;
   44; 44; 44; 44; 44; 44; 44; 44; 45; 45; 45; 45;
   45; 45; 45; 45; 45; 45; 45; 45; 45; 45; 45; 45;
   45; 45; 45; 45; 45; 45; 45; 45; 45; 45; 45; 45;
   45; 45; 45; 45; 45; 45; 45; 45; 45; 45; 45; 45;
   45; 45; 45; 45; 45; 45; 45; 45; 45; 45; 45; 45;
   45; 45; 45; 45; 45; 45; 45; 45; 45; 45; 45; 45;
   45; 45; 45; 45; 45; 45; 45; 45; 45; 45; 45; 45;
   45; 45; 45; 45; 45; 45; 45; 45; 45; 45; 45; 45;
   45; 45; 45; 45; 45; 45; 45; 45; 45; 45; 45; 45;
   45; 45; 45; 45; 45; 45; 45; 45; 45; 45; 45; 45;
   45; 45; 45; 45; 45; 45; 45; 45; 45; 45; 45; 45;
   45; 45; 45; 45; 34; 34; 34; 34; 34; 34; 34; 34;
   34; 34; 34; 34; 34; 34; 34; 34; 34; 34; 34; 34;
   34; 34; 34; 34; 34; 34; 34; 34; 34; 34; 34; 34;
   34; 34; 34; 34; 34; 34; 34; 34; 34; 34; 34; 34;
   34; 34; 34; 34; 34; 34; 34; 34; 34; 34; 34; 34;
   34; 34; 34; 34; 34; 34; 34; 34; 34; 34; 34; 34;
   34; 34; 34; 34; 34; 34; 34; 34; 34; 34; 34; 34;
   34; 34; 34; 34; 34; 34; 34; 34; 34; 34; 34; 34;
   34; 34; 34; 34; 34; 34; 34; 34; 34; 34; 34; 34;
   34; 34; 34; 34; 34; 34; 34; 34; 34; 34; 34; 34;
   34; 34; 34; 34; 34; 34; 34; 34; 34; 34; 34; 34;
   35; 35; 35; 35; 35; 35; 35; 35; 35; 35; 35; 35;
   35; 35; 35; 35; 35; 35; 35; 35; 35; 35; 35; 35;
   35; 35; 35; 35; 35; 35; 35; 35; 35; 35; 35; 35;
   35; 35; 35; 35; 35; 35; 35; 35; 35; 35; 35; 35;
   35; 35; 35; 35; 35; 35; 35; 35; 35; 35; 35; 35;
   35; 35; 35; 35; 35; 35; 35; 35; 35; 35; 35; 35;
   35; 35; 35; 35; 35; 35; 35; 35; 35; 35; 35; 35;
   35; 35; 35; 35; 35; 35; 35; 35; 35; 35; 35; 35;
   35; 35; 35; 35; 35; 35; 35; 35; 35; 35; 35; 35;
   35; 35; 35; 35; 35; 35; 35; 35; 35; 35; 35; 35;
   35; 35; 35; 35; 35; 35; 35; 35; 32; 32; 32; 32;
   32; 32; 32; 32; 32; 32; 32; 32; 32; 32; 32; 32;
   32; 32; 32; 32; 32; 32; 32; 32; 32; 32; 32; 32;
   32; 32; 32; 32; 32; 32; 32; 32; 32; 32; 32; 32;
   32; 32; 32; 32; 32; 32; 32; 32; 32; 32; 32; 32;
   32; 32; 32; 32; 32; 32; 32; 32; 32; 32; 32; 32;
   32; 32; 32; 32; 32; 32; 32; 32; 32; 32; 32; 32;
   32; 32; 32; 32; 32; 32; 32; 32; 32; 32; 32; 32;
   32; 32; 32; 32; 32; 32; 32; 32; 32; 32; 32; 32;
   32; 32; 32; 32; 32; 32; 32; 32; 32; 32; 32; 32;
   32; 32; 32; 32; 32; 32; 32; 32; 32; 32; 32; 32;
   32; 32; 32; 32; 33; 33; 33; 33; 33; 33; 33; 33;
   33; 33; 33; 33; 33; 33; 33; 33; 33; 33; 33; 33;
   33; 33; 33; 33; 33; 33; 33; 33; 33; 33; 33; 33;
   33; 33; 33; 33; 33; 33; 33; 33; 33; 33; 33; 33;
   33; 33; 33; 33; 33; 33; 33; 33; 33; 33; 33; 33;
   33; 33; 33; 33; 33; 33; 33; 33; 33; 33; 33; 33;
   33; 33; 33; 33; 33; 33; 33; 33; 33; 33; 33; 33;
   33; 33; 33; 33; 33; 33; 33; 33; 33; 33; 33; 33;
   33; 33; 33; 33; 33; 33; 33; 33; 33; 33; 33; 33;
   33; 33; 33; 33; 33; 33; 33; 33; 33; 33; 33; 33;
   33; 33; 33; 33; 33; 33; 33; 33; 33; 33; 33; 33;
   38; 38; 38; 38; 38; 38; 38; 38; 38; 38; 38; 38;
   38; 38; 38; 38; 38; 38; 38; 38; 38; 38; 38; 38;
   38; 38; 38; 38; 38; 38; 38; 38; 38; 38; 38; 38;
   38; 38; 38; 38; 38; 38; 38; 38; 38; 38; 38; 38;
   38; 38; 38; 38; 38; 38; 38; 38; 38; 38; 38; 38;
   38; 38; 38; 38; 38; 38; 38; 38; 38; 38; 38; 38;
   38; 38; 38; 38; 38; 38; 38; 38; 38; 38; 38; 38;
   38; 38; 38; 38; 38; 38; 38; 38; 38; 38; 38; 38;
   38; 38; 38; 38; 38; 38; 38; 38; 38; 38; 38; 38;
   38; 38; 38; 38; 38; 38; 38; 38; 38; 38; 38; 38;
   38; 38; 38; 38; 38; 38; 38; 38; 39; 39; 39; 39;
   39; 39; 39; 39; 39; 39; 39; 39; 39; 39; 39; 39].

Definition _roardsp_pcm132alaw_1 : list Z := [
   39; 39; 39; 39; 39; 39; 39; 39; 39; 39; 39; 39;
   39; 39; 39; 39; 39; 39; 39; 39; 39; 39; 39; 39;
   39; 39; 39; 39; 39; 39; 39; 39; 39; 39; 39; 39;
   39; 39; 39; 39; 39; 39; 39; 39; 39; 39; 39; 39;
   39; 39; 39; 39; 39; 39; 39; 39; 39; 39; 39; 39;
   39; 39; 39; 39; 39; 39; 39; 39; 39; 39; 39; 39;
   39; 39; 39; 39; 39; 39; 39; 39; 39; 39; 39; 39;
   39; 39; 39; 39; 39; 39; 39; 39; 39; 39; 39; 39;
   39; 39; 39; 39; 39; 39; 39; 39; 39; 39; 39; 39;
   39; 39; 39; 39; 36; 36; 36; 36; 36; 36; 36; 36;
   36; 36; 36; 36; 36; 36; 36; 36; 36; 36; 36; 36;
   36; 36; 36; 36; 36; 36; 36; 36; 36; 36; 36; 36;
   36; 36; 36; 36; 36; 36; 36; 36; 36; 36; 36; 36;
   36; 36; 36; 36; 36; 36; 36; 36; 36; 36; 36; 36;
   36; 36; 36; 36; 36; 36; 36; 36; 36; 36; 36; 36;
   36; 36; 36; 36; 36; 36; 36; 36; 36; 36; 36; 36;
   36; 36; 36; 36; 36; 36; 36; 36; 36; 36; 36; 36;
   36; 36; 36; 36; 36; 36; 36; 36; 36; 36; 36; 36;
   36; 36; 36; 36; 36; 36; 36; 36; 36; 36; 36; 36;
   36; 36; 36; 36; 36; 36; 36; 36; 36; 36; 36; 36;
   37; 37; 37; 37; 37; 37; 37; 37; 37; 37; 37; 37;
   37; 37; 37; 37; 37; 37; 37; 37; 37; 37; 37; 37;
   37; 37; 37; 37; 37; 37; 37; 37; 37; 37; 37; 37;
   37; 37; 37; 37; 37; 37; 37; 37; 37; 37; 37; 37;
   37; 37; 37; 37; 37; 37; 37; 37; 37; 37; 37; 37;
   37; 37; 37; 37; 37; 37; 37; 37; 37; 37; 37; 37;
   37; 37; 37; 37; 37; 37; 37; 37; 37; 37; 37; 37;
   37; 37; 37; 37; 37; 37; 37; 37; 37; 37; 37; 37;
   37; 37; 37; 37; 37; 37; 37; 37; 37; 37; 37; 37;
   37; 37; 37; 37; 37; 37; 37; 37; 37; 37; 37; 37;
   37; 37; 37; 37; 37; 37; 37; 37; 58; 58; 58; 58;
   58; 58; 58; 58; 58; 58; 58; 58; 58; 58; 58; 58;
   58; 58; 58; 58; 58; 58; 58; 58; 58; 58; 58; 58;
   58; 58; 58; 58; 58; 58; 58; 58; 58; 58; 58; 58;
   58; 58; 58; 58; 58; 58; 58; 58; 58; 58; 58; 58;
   58; 58; 58; 58; 58; 58; 58; 58; 58; 58; 58; 58;
   59; 59; 59; 59; 59; 59; 59; 59; 59; 59; 59; 59;
   59; 59; 59; 59; 59; 59; 59; 59; 59; 59; 59; 59;
   59; 59; 59; 59; 59; 59; 59; 59; 59; 59; 59; 59;
   59; 59; 59; 59; 59; 59; 59; 59; 59; 59; 59; 59;
   59; 59; 59; 59; 59; 59; 59; 59; 59; 59; 59; 59;
   59; 59; 59; 59; 56; 56; 56; 56; 56; 56; 56; 56;
   56; 56; 56; 56; 56; 56; 56; 56; 56; 56; 56; 56;
   56; 56; 56; 56; 56; 56; 56; 56; 56; 56; 56; 56;
   56; 56; 56; 56; 56; 56; 56; 56; 56; 56; 56; 56;
   56; 56; 56; 56; 56; 56; 56; 56; 56; 56; 56; 56;
   56; 56; 56; 56; 56; 56; 56; 56; 57; 57; 57; 57;
   57; 57; 57; 57; 57; 57; 57; 57; 57; 57; 57; 57;
   57; 57; 57; 57; 57; 57; 57; 57; 57; 57; 57; 57;
   57; 57; 57; 57; 57; 57; 57; 57; 57; 57; 57; 57;
   57; 57; 57; 57; 57; 57; 57; 57; 57; 57; 57; 57;
   57; 57; 57; 57; 57; 57; 57; 57; 57; 57; 57; 57;
   62; 62; 62; 62; 62; 62; 62; 62; 62; 62; 62; 62;
   62; 62; 62; 62; 62; 62; 62; 62; 62; 62; 62; 62;
   62; 62; 62; 62; 62; 62; 62; 62; 62; 62; 62; 62;
   62; 62; 62; 62; 62; 62; 62; 62; 62; 62; 62; 62;
   62; 62; 62; 62; 62; 62; 62; 62; 62; 62; 62; 62;
   62; 62; 62; 62; 63; 63; 63; 63; 63; 63; 63; 63;
   63; 63; 63; 63; 63; 63; 63; 63; 63; 63; 63; 63;
   63; 63; 63; 63; 63; 63; 63; 63; 63; 63; 63; 63;
   63; 63; 63; 63; 63; 63; 63; 63; 63; 63; 63; 63;
   63; 63; 63; 63; 63; 63; 63; 63; 63; 63; 63; 63;
   63; 63; 63; 63; 63; 63; 63; 63; 60; 60; 60; 60;
   60; 60; 60; 60; 60; 60; 60; 60; 60; 60; 60; 60;
   60; 60; 60; 60; 60; 60; 60; 60; 60; 60; 60; 60;
   60; 60; 60; 60; 60; 60; 60; 60; 60; 60; 60; 60;
   60; 60; 60; 60; 60; 60; 60; 60; 60; 60; 60; 60;
   60; 60; 60; 60; 60; 60; 60; 60; 60; 60; 60; 60;
   61; 61; 61; 61; 61; 61; 61; 61; 61; 61; 61; 61;
   61; 61; 61; 61; 61; 61; 61; 61; 61; 61; 61; 61;
   61; 61; 61; 61; 61; 61; 61; 61; 61; 61; 61; 61;
   61; 61; 61; 61; 61; 61; 61; 61; 61; 61; 61; 61;
   61; 61; 61; 61; 61; 61; 61; 61; 61; 61; 61; 61;
   61; 61; 61; 61; 50; 50; 50; 50; 50; 50; 50; 50;
   50; 50; 50; 50; 50; 50; 50; 50; 50; 50; 50; 50;
   50; 50; 50; 50; 50; 50; 50; 50; 50; 50; 50; 50;
   50; 50; 50; 50; 50; 50; 50; 50; 50; 50; 50; 50;
   50; 50; 50; 50; 50; 50; 50; 50; 50; 50; 50; 50;
   50; 50; 50; 50; 50; 50; 50; 50; 51; 51; 51; 51;
   51; 51; 51; 51; 51; 51; 51; 51; 51; 51; 51; 51;
   51; 51; 51; 51; 51; 51; 51; 51; 51; 51; 51; 51;
   51; 51; 51; 51; 51; 51; 51; 51; 51; 51; 51; 51;
   51; 51; 51; 51; 51; 51; 51; 51; 51; 51; 51; 51;
   51; 51; 51; 51; 51; 51; 51; 51; 51; 51; 51; 51;
   48; 48; 48; 48; 48; 48; 48; 48; 48; 48; 48; 48;
   48; 48; 48; 48; 48; 48; 48; 48; 48; 48; 48; 48;
   48; 48; 48; 48; 48; 48; 48; 48; 48; 48; 48; 48;
   48; 48; 48; 48; 48; 48; 48; 48; 48; 48; 48; 48;
   48; 48; 48; 48; 48; 48; 48; 48; 48; 48; 48; 48;
   48; 48; 48; 48; 49; 49; 49; 49; 49; 49; 49; 49;
   49; 49; 49; 49; 49; 49; 49; 49; 49; 49; 49; 49;
   49; 49; 49; 49; 49; 49; 49; 49; 49; 49; 49; 49;
   49; 49; 49; 49; 49; 49; 49; 49; 49; 49; 49; 49;
   49; 49; 49; 49; 49; 49; 49; 49; 49; 49; 49; 49;
   49; 49; 49; 49; 49; 49; 49; 49; 54; 54; 54; 54;
   54; 54; 54; 54; 54; 54; 54; 54; 54; 54; 54; 54;
   54; 54; 54; 54; 54; 54; 54; 54; 54; 54; 54; 54;
   54; 54; 54; 54; 54; 54; 54; 54; 54; 54; 54; 54;
   54; 54; 54; 54; 54; 54; 54; 54; 54; 54; 54; 54;
   54; 54; 54; 54; 54; 54; 54; 54; 54; 54; 54; 54;
   55; 55; 55; 55; 55; 55; 55; 55; 55; 55; 55; 55;
   55; 55; 55; 55; 55; 55; 55; 55; 55; 55; 55; 55;
   55; 55; 55; 55; 55; 55; 55; 55; 55; 55; 55; 55;
   55; 55; 55; 55; 55; 55; 55; 55; 55; 55; 55; 55;
   55; 55; 55; 55; 55; 55; 55; 55; 55; 55; 55; 55;
   55; 55; 55; 55; 52; 52; 52; 52; 52; 52; 52; 52;
   52; 52; 52; 52; 52; 52; 52; 52; 52; 52; 52; 52;
   52; 52; 52; 52; 52; 52; 52; 52; 52; 52; 52; 52;
   52; 52; 52; 52; 52; 52; 52; 52; 52; 52; 52; 52;
   52; 52; 52; 52; 52; 52; 52; 52; 52; 52; 52; 52;
   52; 52; 52; 52; 52; 52; 52; 52; 53; 53; 53; 53;
   53; 53; 53; 53; 53; 53; 53; 53; 53; 53; 53; 53;
   53; 53; 53; 53; 53; 53; 53; 53; 53; 53; 53; 53;
   53; 53; 53; 53; 53; 53; 53; 53; 53; 53; 53; 53;
   53; 53; 53; 53; 53; 53; 53; 53; 53; 53; 53; 53;
   53; 53; 53; 53; 53; 53; 53; 53; 53; 53; 53; 53;
   10; 10; 10; 10; 10; 10; 10; 10; 10; 10; 10; 10;
   10; 10; 10; 10; 10; 10; 10; 10; 10; 10; 10; 10;
   10; 10; 10; 10; 10; 10; 10; 10; 11; 11; 11; 11;
   11; 11; 11; 11; 11; 11; 11; 11; 11; 11; 11; 11;
   11; 11; 11; 11; 11; 11; 11; 11; 11; 11; 11; 11;
   11; 11; 11; 11; 8; 8; 8; 8; 8; 8; 8; 8;
   8; 8; 8; 8; 8; 8; 8; 8; 8; 8; 8; 8;
   8; 8; 8; 8; 8; 8; 8; 8; 8; 8; 8; 8;
   9; 9; 9; 9; 9; 9; 9; 9; 9; 9; 9; 9;
   9; 9; 9; 9; 9; 9; 9; 9; 9; 9; 9; 9;
   9; 9; 9; 9; 9; 9; 9; 9; 14; 14; 14; 14;
   14; 14; 14; 14; 14; 14; 14; 14; 14; 14; 14; 14;
   14; 14; 14; 14; 14; 14; 14; 14; 14; 14; 14; 14;
   14; 14; 14; 14; 15; 15; 15; 15; 15; 15; 15; 15;
   15; 15; 15; 15; 15; 15; 15; 15; 15; 15; 15; 15;
   15; 15; 15; 15; 15; 15; 15; 15; 15; 15; 15; 15;
   12; 12; 12; 12; 12; 12; 12; 12; 12; 12; 12; 12;
   12; 12; 12; 12; 12; 12; 12; 12; 12; 12; 12; 12;
   12; 12; 12; 12; 12; 12; 12; 12; 13; 13; 13; 13;
   13; 13; 13; 13; 13; 13; 13; 13; 13; 13; 13; 13;
   13; 13; 13; 13; 13; 13; 13; 13; 13; 13; 13; 13;
   13; 13; 13; 13; 2; 2; 2; 2; 2; 2; 2; 2;
   2; 2; 2; 2; 2; 2; 2; 2; 2; 2; 2; 2;
   2; 2; 2; 2; 2; 2; 2; 2; 2; 2; 2; 2].

Definition _roardsp_pcm132alaw_2 : list Z := [
   3; 3; 3; 3; 3; 3; 3; 3; 3; 3; 3; 3;
   3; 3; 3; 3; 3; 3; 3; 3; 3; 3; 3; 3;
   3; 3; 3; 3; 3; 3; 3; 3; 0; 0; 0; 0;
   0; 0; 0; 0; 0; 0; 0; 0; 0; 0; 0; 0;
   0; 0; 0; 0; 0; 0; 0; 0; 0; 0; 0; 0;
   0; 0; 0; 0; 1; 1; 1; 1; 1; 1; 1; 1;
   1; 1; 1; 1; 1; 1; 1; 1; 1; 1; 1; 1;
   1; 1; 1; 1; 1; 1; 1; 1; 1; 1; 1; 1;
   6; 6; 6; 6; 6; 6; 6; 6; 6; 6; 6; 6;
   6; 6; 6; 6; 6; 6; 6; 6; 6; 6; 6; 6;
   6; 6; 6; 6; 6; 6; 6; 6; 7; 7; 7; 7;
   7; 7; 7; 7; 7; 7; 7; 7; 7; 7; 7; 7;
   7; 7; 7; 7; 7; 7; 7; 7; 7; 7; 7; 7;
   7; 7; 7; 7; 4; 4; 4; 4; 4; 4; 4; 4;
   4; 4; 4; 4; 4; 4; 4; 4; 4; 4; 4; 4;
   4; 4; 4; 4; 4; 4; 4; 4; 4; 4; 4; 4;
   5; 5; 5; 5; 5; 5; 5; 5; 5; 5; 5; 5;
   5; 5; 5; 5; 5; 5; 5; 5; 5; 5; 5; 5;
   5; 5; 5; 5; 5; 5; 5; 5; 26; 26; 26; 26;
   26; 26; 26; 26; 26; 26; 26; 26; 26; 26; 26; 26;
   27; 27; 27; 27; 27; 27; 27; 27; 27; 27; 27; 27;
   27; 27; 27; 27; 24; 24; 24; 24; 24; 24; 24; 24;
   24; 24; 24; 24; 24; 24; 24; 24; 25; 25; 25; 25;
   25; 25; 25; 25; 25; 25; 25; 25; 25; 25; 25; 25;
   30; 30; 30; 30; 30; 30; 30; 30; 30; 30; 30; 30;
   30; 30; 30; 30; 31; 31; 31; 31; 31; 31; 31; 31;
   31; 31; 31; 31; 31; 31; 31; 31; 28; 28; 28; 28;
   28; 28; 28; 28; 28; 28; 28; 28; 28; 28; 28; 28;
   29; 29; 29; 29; 29; 29; 29; 29; 29; 29; 29; 29;
   29; 29; 29; 29; 18; 18; 18; 18; 18; 18; 18; 18;
   18; 18; 18; 18; 18; 18; 18; 18; 19; 19; 19; 19;
   19; 19; 19; 19; 19; 19; 19; 19; 19; 19; 19; 19;
   16; 16; 16; 16; 16; 16; 16; 16; 16; 16; 16; 16;
   16; 16; 16; 16; 17; 17; 17; 17; 17; 17; 17; 17;
   17; 17; 17; 17; 17; 17; 17; 17; 22; 22; 22; 22;
   22; 22; 22; 22; 22; 22; 22; 22; 22; 22; 22; 22;
   23; 23; 23; 23; 23; 23; 23; 23; 23; 23; 23; 23;
   23; 23; 23; 23; 20; 20; 20; 20; 20; 20; 20; 20;
   20; 20; 20; 20; 20; 20; 20; 20; 21; 21; 21; 21;
   21; 21; 21; 21; 21; 21; 21; 21; 21; 21; 21; 21;
   106; 106; 106; 106; 106; 106; 106; 106; 107; 107; 107; 107;
   107; 107; 107; 107; 104; 104; 104; 104; 104; 104; 104; 104;
   105; 105; 105; 105; 105; 105; 105; 105; 110; 110; 110; 110;
   110; 110; 110; 110; 111; 111; 111; 111; 111; 111; 111; 111;
   108; 108; 108; 108; 108; 108; 108; 108; 109; 109; 109; 109;
   109; 109; 109; 109; 98; 98; 98; 98; 98; 98; 98; 98;
   99; 99; 99; 99; 99; 99; 99; 99; 96; 96; 96; 96;
   96; 96; 96; 96; 97; 97; 97; 97; 97; 97; 97; 97;
   102; 102; 102; 102; 102; 102; 102; 102; 103; 103; 103; 103;
   103; 103; 103; 103; 100; 100; 100; 100; 100; 100; 100; 100;
   101; 101; 101; 101; 101; 101; 101; 101; 122; 122; 122; 122;
   123; 123; 123; 123; 120; 120; 120; 120; 121; 121; 121; 121;
   126; 126; 126; 126; 127; 127; 127; 127; 124; 124; 124; 124;
   125; 125; 125; 125; 114; 114; 114; 114; 115; 115; 115; 115;
   112; 112; 112; 112; 113; 113; 113; 113; 118; 118; 118; 118;
   119; 119; 119; 119; 116; 116; 116; 116; 117; 117; 117; 117;
   74; 74; 75; 75; 72; 72; 73; 73; 78; 78; 79; 79;
   76; 76; 77; 77; 66; 66; 67; 67; 64; 64; 65; 65;
   70; 70; 71; 71; 68; 68; 69; 69; 90; 90; 91; 91;
   88; 88; 89; 89; 94; 94; 95; 95; 92; 92; 93; 93;
   82; 82; 83; 83; 80; 80; 81; 81; 86; 86; 87; 87;
   84; 84; 85; 85; 213; 213; 212; 212; 215; 215; 214; 214;
   209; 209; 208; 208; 211; 211; 210; 210; 221; 221; 220; 220;
   223; 223; 222; 222; 217; 217; 216; 216; 219; 219; 218; 218;
   197; 197; 196; 196; 199; 199; 198; 198; 193; 193; 192; 192;
   195; 195; 194; 194; 205; 205; 204; 204; 207; 207; 206; 206;
   201; 201; 200; 200; 203; 203; 202; 202; 245; 245; 245; 245;
   244; 244; 244; 244; 247; 247; 247; 247; 246; 246; 246; 246;
   241; 241; 241; 241; 240; 240; 240; 240; 243; 243; 243; 243;
   242; 242; 242; 242; 253; 253; 253; 253; 252; 252; 252; 252;
   255; 255; 255; 255; 254; 254; 254; 254; 249; 249; 249; 249;
   248; 248; 248; 248; 251; 251; 251; 251; 250; 250; 250; 250;
   229; 229; 229; 229; 229; 229; 229; 229; 228; 228; 228; 228;
   228; 228; 228; 228; 231; 231; 231; 231; 231; 231; 231; 231;
   230; 230; 230; 230; 230; 230; 230; 230; 225; 225; 225; 225;
   225; 225; 225; 225; 224; 224; 224; 224; 224; 224; 224; 224;
   227; 227; 227; 227; 227; 227; 227; 227; 226; 226; 226; 226;
   226; 226; 226; 226; 237; 237; 237; 237; 237; 237; 237; 237;
   236; 236; 236; 236; 236; 236; 236; 236; 239; 239; 239; 239;
   239; 239; 239; 239; 238; 238; 238; 238; 238; 238; 238; 238;
   233; 233; 233; 233; 233; 233; 233; 233; 232; 232; 232; 232;
   232; 232; 232; 232; 235; 235; 235; 235; 235; 235; 235; 235;
   234; 234; 234; 234; 234; 234; 234; 234; 149; 149; 149; 149;
   149; 149; 149; 149; 149; 149; 149; 149; 149; 149; 149; 149;
   148; 148; 148; 148; 148; 148; 148; 148; 148; 148; 148; 148;
   148; 148; 148; 148; 151; 151; 151; 151; 151; 151; 151; 151;
   151; 151; 151; 151; 151; 151; 151; 151; 150; 150; 150; 150;
   150; 150; 150; 150; 150; 150; 150; 150; 150; 150; 150; 150;
   145; 145; 145; 145; 145; 145; 145; 145; 145; 145; 145; 145;
   145; 145; 145; 145; 144; 144; 144; 144; 144; 144; 144; 144;
   144; 144; 144; 144; 144; 144; 144; 144; 147; 147; 147; 147;
   147; 147; 147; 147; 147; 147; 147; 147; 147; 147; 147; 147;
   146; 146; 146; 146; 146; 146; 146; 146; 146; 146; 146; 146;
   146; 146; 146; 146; 157; 157; 157; 157; 157; 157; 157; 157;
   157; 157; 157; 157; 157; 157; 157; 157; 156; 156; 156; 156;
   156; 156; 156; 156; 156; 156; 156; 156; 156; 156; 156; 156;
   159; 159; 159; 159; 159; 159; 159; 159; 159; 159; 159; 159;
   159; 159; 159; 159; 158; 158; 158; 158; 158; 158; 158; 158;
   158; 158; 158; 158; 158; 158; 158; 158; 153; 153; 153; 153;
   153; 153; 153; 153; 153; 153; 153; 153; 153; 153; 153; 153;
   152; 152; 152; 152; 152; 152; 152; 152; 152; 152; 152; 152;
   152; 152; 152; 152; 155; 155; 155; 155; 155; 155; 155; 155;
   155; 155; 155; 155; 155; 155; 155; 155; 154; 154; 154; 154;
   154; 154; 154; 154; 154; 154; 154; 154; 154; 154; 154; 154;
   133; 133; 133; 133; 133; 133; 133; 133; 133; 133; 133; 133;
   133; 133; 133; 133; 133; 133; 133; 133; 133; 133; 133; 133;
   133; 133; 133; 133; 133; 133; 133; 133; 132; 132; 132; 132;
   132; 132; 132; 132; 132; 132; 132; 132; 132; 132; 132; 132;
   132; 132; 132; 132; 132; 132; 132; 132; 132; 132; 132; 132;
   132; 132; 132; 132; 135; 135; 135; 135; 135; 135; 135; 135;
   135; 135; 135; 135; 135; 135; 135; 135; 135; 135; 135; 135;
   135; 135; 135; 135; 135; 135; 135; 135; 135; 135; 135; 135;
   134; 134; 134; 134; 134; 134; 134; 134; 134; 134; 134; 134;
   134; 134; 134; 134; 134; 134; 134; 134; 134; 134; 134; 134;
   134; 134; 134; 134; 134; 134; 134; 134; 129; 129; 129; 129;
   129; 129; 129; 129; 129; 129; 129; 129; 129; 129; 129; 129;
   129; 129; 129; 129; 129; 129; 129; 129; 129; 129; 129; 129;
   129; 129; 129; 129; 128; 128; 128; 128; 128; 128; 128; 128;
   128; 128; 128; 128; 128; 128; 128; 128; 128; 128; 128; 128;
   128; 128; 128; 128; 128; 128; 128; 128; 128; 128; 128; 128;
   131; 131; 131; 131; 131; 131; 131; 131; 131; 131; 131; 131;
   131; 131; 131; 131; 131; 131; 131; 131; 131; 131; 131; 131;
   131; 131; 131; 131; 131; 131; 131; 131; 130; 130; 130; 130;
   130; 130; 130; 130; 130; 130; 130; 130; 130; 130; 130; 130;
   130; 130; 130; 130; 130; 130; 130; 130; 130; 130; 130; 130;
   130; 130; 130; 130; 141; 141; 141; 141; 141; 141; 141; 141;
   141; 141; 141; 141; 141; 141; 141; 141; 141; 141; 141; 141;
   141; 141; 141; 141; 141; 141; 141; 141; 141; 141; 141; 141;
   140; 140; 140; 140; 140; 140; 140; 140; 140; 140; 140; 140;
   140; 140; 140; 140; 140; 140; 140; 140; 140; 140; 140; 140;
   140; 140; 140; 140; 140; 140; 140; 140; 143; 143; 143; 143;
   143; 143; 143; 143; 143; 143; 143; 143; 143; 143; 143; 143;
   143; 143; 143; 143; 143; 143; 143; 143; 143; 143; 143; 143;
   143; 143; 143; 143; 142; 142; 142; 142; 142; 142; 142; 142;
   142; 142; 142; 142; 142; 142; 142; 142; 142; 142; 142; 142;
   142; 142; 142; 142; 142; 142; 142; 142; 142; 142; 142; 142;
   137; 137; 137; 137; 137; 137; 137; 137; 137; 137; 137; 137;
   137; 137; 137; 137; 137; 137; 137; 137; 137; 137; 137; 137;
   137; 137; 137; 137; 137; 137; 137; 137; 136; 136; 136; 136;
   136; 136; 136; 136; 136; 136; 136; 136; 136; 136; 136; 136].

Definition _roardsp_pcm132alaw_3 : list Z := [
   136; 136; 136; 136; 136; 136; 136; 136; 136; 136; 136; 136;
   136; 136; 136; 136; 139; 139; 139; 139; 139; 139; 139; 139;
   139; 139; 139; 139; 139; 139; 139; 139; 139; 139; 139; 139;
   139; 139; 139; 139; 139; 139; 139; 139; 139; 139; 139; 139;
   138; 138; 138; 138; 138; 138; 138; 138; 138; 138; 138; 138;
   138; 138; 138; 138; 138; 138; 138; 138; 138; 138; 138; 138;
   138; 138; 138; 138; 138; 138; 138; 138; 181; 181; 181; 181;
   181; 181; 181; 181; 181; 181; 181; 181; 181; 181; 181; 181;
   181; 181; 181; 181; 181; 181; 181; 181; 181; 181; 181; 181;
   181; 181; 181; 181; 181; 181; 181; 181; 181; 181; 181; 181;
   181; 181; 181; 181; 181; 181; 181; 181; 181; 181; 181; 181;
   181; 181; 181; 181; 181; 181; 181; 181; 181; 181; 181; 181;
   180; 180; 180; 180; 180; 180; 180; 180; 180; 180; 180; 180;
   180; 180; 180; 180; 180; 180; 180; 180; 180; 180; 180; 180;
   180; 180; 180; 180; 180; 180; 180; 180; 180; 180; 180; 180;
   180; 180; 180; 180; 180; 180; 180; 180; 180; 180; 180; 180;
   180; 180; 180; 180; 180; 180; 180; 180; 180; 180; 180; 180;
   180; 180; 180; 180; 183; 183; 183; 183; 183; 183; 183; 183;
   183; 183; 183; 183; 183; 183; 183; 183; 183; 183; 183; 183;
   183; 183; 183; 183; 183; 183; 183; 183; 183; 183; 183; 183;
   183; 183; 183; 183; 183; 183; 183; 183; 183; 183; 183; 183;
   183; 183; 183; 183; 183; 183; 183; 183; 183; 183; 183; 183;
   183; 183; 183; 183; 183; 183; 183; 183; 182; 182; 182; 182;
   182; 182; 182; 182; 182; 182; 182; 182; 182; 182; 182; 182;
   182; 182; 182; 182; 182; 182; 182; 182; 182; 182; 182; 182;
   182; 182; 182; 182; 182; 182; 182; 182; 182; 182; 182; 182;
   182; 182; 182; 182; 182; 182; 182; 182; 182; 182; 182; 182;
   182; 182; 182; 182; 182; 182; 182; 182; 182; 182; 182; 182;
   177; 177; 177; 177; 177; 177; 177; 177; 177; 177; 177; 177;
   177; 177; 177; 177; 177; 177; 177; 177; 177; 177; 177; 177;
   177; 177; 177; 177; 177; 177; 177; 177; 177; 177; 177; 177;
   177; 177; 177; 177; 177; 177; 177; 177; 177; 177; 177; 177;
   177; 177; 177; 177; 177; 177; 177; 177; 177; 177; 177; 177;
   177; 177; 177; 177; 176; 176; 176; 176; 176; 176; 176; 176;
   176; 176; 176; 176; 176; 176; 176; 176; 176; 176; 176; 176;
   176; 176; 176; 176; 176; 176; 176; 176; 176; 176; 176; 176;
   176; 176; 176; 176; 176; 176; 176; 176; 176; 176; 176; 176;
   176; 176; 176; 176; 176; 176; 176; 176; 176; 176; 176; 176;
   176; 176; 176; 176; 176; 176; 176; 176; 179; 179; 179; 179;
   179; 179; 179; 179; 179; 179; 179; 179; 179; 179; 179; 179;
   179; 179; 179; 179; 179; 179; 179; 179; 179; 179; 179; 179;
   179; 179; 179; 179; 179; 179; 179; 179; 179; 179; 179; 179;
   179; 179; 179; 179; 179; 179; 179; 179; 179; 179; 179; 179;
   179; 179; 179; 179; 179; 179; 179; 179; 179; 179; 179; 179;
   178; 178; 178; 178; 178; 178; 178; 178; 178; 178; 178; 178;
   178; 178; 178; 178; 178; 178; 178; 178; 178; 178; 178; 178;
   178; 178; 178; 178; 178; 178; 178; 178; 178; 178; 178; 178;
   178; 178; 178; 178; 178; 178; 178; 178; 178; 178; 178; 178;
   178; 178; 178; 178; 178; 178; 178; 178; 178; 178; 178; 178;
   178; 178; 178; 178; 189; 189; 189; 189; 189; 189; 189; 189;
   189; 189; 189; 189; 189; 189; 189; 189; 189; 189; 189; 189;
   189; 189; 189; 189; 189; 189; 189; 189; 189; 189; 189; 189;
   189; 189; 189; 189; 189; 189; 189; 189; 189; 189; 189; 189;
   189; 189; 189; 189; 189; 189; 189; 189; 189; 189; 189; 189;
   189; 189; 189; 189; 189; 189; 189; 189; 188; 188; 188; 188;
   188; 188; 188; 188; 188; 188; 188; 188; 188; 188; 188; 188;
   188; 188; 188; 188; 188; 188; 188; 188; 188; 188; 188; 188;
   188; 188; 188; 188; 188; 188; 188; 188; 188; 188; 188; 188;
   188; 188; 188; 188; 188; 188; 188; 188; 188; 188; 188; 188;
   188; 188; 188; 188; 188; 188; 188; 188; 188; 188; 188; 188;
   191; 191; 191; 191; 191; 191; 191; 191; 191; 191; 191; 191;
   191; 191; 191; 191; 191; 191; 191; 191; 191; 191; 191; 191;
   191; 191; 191; 191; 191; 191; 191; 191; 191; 191; 191; 191;
   191; 191; 191; 191; 191; 191; 191; 191; 191; 191; 191; 191;
   191; 191; 191; 191; 191; 191; 191; 191; 191; 191; 191; 191;
   191; 191; 191; 191; 190; 190; 190; 190; 190; 190; 190; 190;
   190; 190; 190; 190; 190; 190; 190; 190; 190; 190; 190; 190;
   190; 190; 190; 190; 190; 190; 190; 190; 190; 190; 190; 190;
   190; 190; 190; 190; 190; 190; 190; 190; 190; 190; 190; 190;
   190; 190; 190; 190; 190; 190; 190; 190; 190; 190; 190; 190;
   190; 190; 190; 190; 190; 190; 190; 190; 185; 185; 185; 185;
   185; 185; 185; 185; 185; 185; 185; 185; 185; 185; 185; 185;
   185; 185; 185; 185; 185; 185; 185; 185; 185; 185; 185; 185;
   185; 185; 185; 185; 185; 185; 185; 185; 185; 185; 185; 185;
   185; 185; 185; 185; 185; 185; 185; 185; 185; 185; 185; 185;
   185; 185; 185; 185; 185; 185; 185; 185; 185; 185; 185; 185;
   184; 184; 184; 184; 184; 184; 184; 184; 184; 184; 184; 184;
   184; 184; 184; 184; 184; 184; 184; 184; 184; 184; 184; 184;
   184; 184; 184; 184; 184; 184; 184; 184; 184; 184; 184; 184;
   184; 184; 184; 184; 184; 184; 184; 184; 184; 184; 184; 184;
   184; 184; 184; 184; 184; 184; 184; 184; 184; 184; 184; 184;
   184; 184; 184; 184; 187; 187; 187; 187; 187; 187; 187; 187;
   187; 187; 187; 187; 187; 187; 187; 187; 187; 187; 187; 187;
   187; 187; 187; 187; 187; 187; 187; 187; 187; 187; 187; 187;
   187; 187; 187; 187; 187; 187; 187; 187; 187; 187; 187; 187;
   187; 187; 187; 187; 187; 187; 187; 187; 187; 187; 187; 187;
   187; 187; 187; 187; 187; 187; 187; 187; 186; 186; 186; 186;
   186; 186; 186; 186; 186; 186; 186; 186; 186; 186; 186; 186;
   186; 186; 186; 186; 186; 186; 186; 186; 186; 186; 186; 186;
   186; 186; 186; 186; 186; 186; 186; 186; 186; 186; 186; 186;
   186; 186; 186; 186; 186; 186; 186; 186; 186; 186; 186; 186;
   186; 186; 186; 186; 186; 186; 186; 186; 186; 186; 186; 186;
   165; 165; 165; 165; 165; 165; 165; 165; 165; 165; 165; 165;
   165; 165; 165; 165; 165; 165; 165; 165; 165; 165; 165; 165;
   165; 165; 165; 165; 165; 165; 165; 165; 165; 165; 165; 165;
   165; 165; 165; 165; 165; 165; 165; 165; 165; 165; 165; 165;
   165; 165; 165; 165; 165; 165; 165; 165; 165; 165; 165; 165;
   165; 165; 165; 165; 165; 165; 165; 165; 165; 165; 165; 165;
   165; 165; 165; 165; 165; 165; 165; 165; 165; 165; 165; 165;
   165; 165; 165; 165; 165; 165; 165; 165; 165; 165; 165; 165;
   165; 165; 165; 165; 165; 165; 165; 165; 165; 165; 165; 165;
   165; 165; 165; 165; 165; 165; 165; 165; 165; 165; 165; 165;
   165; 165; 165; 165; 165; 165; 165; 165; 164; 164; 164; 164;
   164; 164; 164; 164; 164; 164; 164; 164; 164; 164; 164; 164;
   164; 164; 164; 164; 164; 164; 164; 164; 164; 164; 164; 164;
   164; 164; 164; 164; 164; 164; 164; 164; 164; 164; 164; 164;
   164; 164; 164; 164; 164; 164; 164; 164; 164; 164; 164; 164;
   164; 164; 164; 164; 164; 164; 164; 164; 164; 164; 164; 164;
   164; 164; 164; 164; 164; 164; 164; 164; 164; 164; 164; 164;
   164; 164; 164; 164; 164; 164; 164; 164; 164; 164; 164; 164;
   164; 164; 164; 164; 164; 164; 164; 164; 164; 164; 164; 164;
   164; 164; 164; 164; 164; 164; 164; 164; 164; 164; 164; 164;
   164; 164; 164; 164; 164; 164; 164; 164; 164; 164; 164; 164;
   164; 164; 164; 164; 167; 167; 167; 167; 167; 167; 167; 167;
   167; 167; 167; 167; 167; 167; 167; 167; 167; 167; 167; 167;
   167; 167; 167; 167; 167; 167; 167; 167; 167; 167; 167; 167;
   167; 167; 167; 167; 167; 167; 167; 167; 167; 167; 167; 167;
   167; 167; 167; 167; 167; 167; 167; 167; 167; 167; 167; 167;
   167; 167; 167; 167; 167; 167; 167; 167; 167; 167; 167; 167;
   167; 167; 167; 167; 167; 167; 167; 167; 167; 167; 167; 167;
   167; 167; 167; 167; 167; 167; 167; 167; 167; 167; 167; 167;
   167; 167; 167; 167; 167; 167; 167; 167; 167; 167; 167; 167;
   167; 167; 167; 167; 167; 167; 167; 167; 167; 167; 167; 167;
   167; 167; 167; 167; 167; 167; 167; 167; 167; 167; 167; 167;
   166; 166; 166; 166; 166; 166; 166; 166; 166; 166; 166; 166;
   166; 166; 166; 166; 166; 166; 166; 166; 166; 166; 166; 166;
   166; 166; 166; 166; 166; 166; 166; 166; 166; 166; 166; 166;
   166; 166; 166; 166; 166; 166; 166; 166; 166; 166; 166; 166;
   166; 166; 166; 166; 166; 166; 166; 166; 166; 166; 166; 166;
   166; 166; 166; 166; 166; 166; 166; 166; 166; 166; 166; 166;
   166; 166; 166; 166; 166; 166; 166; 166; 166; 166; 166; 166;
   166; 166; 166; 166; 166; 166; 166; 166; 166; 166; 166; 166;
   166; 166; 166; 166; 166; 166; 166; 166; 166; 166; 166; 166;
   166; 166; 166; 166; 166; 166; 166; 166; 166; 166; 166; 166;
   166; 166; 166; 166; 166; 166; 166; 166; 161; 161; 161; 161;
   161; 161; 161; 161; 161; 161; 161; 161; 161; 161; 161; 161;
   161; 161; 161; 161; 161; 161; 161; 161; 161; 161; 161; 161;
   161; 161; 161; 161; 161; 161; 161; 161; 161; 161; 161; 161;
   161; 161; 161; 161; 161; 161; 161; 161; 161; 161; 161; 161;
   161; 161; 161; 161; 161; 161; 161; 161; 161; 161; 161; 161].

Definition _roardsp_pcm132alaw_4 : list Z := [
   161; 161; 161; 161; 161; 161; 161; 161; 161; 161; 161; 161;
   161; 161; 161; 161; 161; 161; 161; 161; 161; 161; 161; 161;
   161; 161; 161; 161; 161; 161; 161; 161; 161; 161; 161; 161;
   161; 161; 161; 161; 161; 161; 161; 161; 161; 161; 161; 161;
   161; 161; 161; 161; 161; 161; 161; 161; 161; 161; 161; 161;
   161; 161; 161; 161; 160; 160; 160; 160; 160; 160; 160; 160;
   160; 160; 160; 160; 160; 160; 160; 160; 160; 160; 160; 160;
   160; 160; 160; 160; 160; 160; 160; 160; 160; 160; 160; 160;
   160; 160; 160; 160; 160; 160; 160; 160; 160; 160; 160; 160;
   160; 160; 160; 160; 160; 160; 160; 160; 160; 160; 160; 160;
   160; 160; 160; 160; 160; 160; 160; 160; 160; 160; 160; 160;
   160; 160; 160; 160; 160; 160; 160; 160; 160; 160; 160; 160;
   160; 160; 160; 160; 160; 160; 160; 160; 160; 160; 160; 160;
   160; 160; 160; 160; 160; 160; 160; 160; 160; 160; 160; 160;
   160; 160; 160; 160; 160; 160; 160; 160; 160; 160; 160; 160;
   160; 160; 160; 160; 160; 160; 160; 160; 160; 160; 160; 160;
   163; 163; 163; 163; 163; 163; 163; 163; 163; 163; 163; 163;
   163; 163; 163; 163; 163; 163; 163; 163; 163; 163; 163; 163;
   163; 163; 163; 163; 163; 163; 163; 163; 163; 163; 163; 163;
   163; 163; 163; 163; 163; 163; 163; 163; 163; 163; 163; 163;
   163; 163; 163; 163; 163; 163; 163; 163; 163; 163; 163; 163;
   163; 163; 163; 163; 163; 163; 163; 163; 163; 163; 163; 163;
   163; 163; 163; 163; 163; 163; 163; 163; 163; 163; 163; 163;
   163; 163; 163; 163; 163; 163; 163; 163; 163; 163; 163; 163;
   163; 163; 163; 163; 163; 163; 163; 163; 163; 163; 163; 163;
   163; 163; 163; 163; 163; 163; 163; 163; 163; 163; 163; 163;
   163; 163; 163; 163; 163; 163; 163; 163; 162; 162; 162; 162;
   162; 162; 162; 162; 162; 162; 162; 162; 162; 162; 162; 162;
   162; 162; 162; 162; 162; 162; 162; 162; 162; 162; 162; 162;
   162; 162; 162; 162; 162; 162; 162; 162; 162; 162; 162; 162;
   162; 162; 162; 162; 162; 162; 162; 162; 162; 162; 162; 162;
   162; 162; 162; 162; 162; 162; 162; 162; 162; 162; 162; 162;
   162; 162; 162; 162; 162; 162; 162; 162; 162; 162; 162; 162;
   162; 162; 162; 162; 162; 162; 162; 162; 162; 162; 162; 162;
   162; 162; 162; 162; 162; 162; 162; 162; 162; 162; 162; 162;
   162; 162; 162; 162; 162; 162; 162; 162; 162; 162; 162; 162;
   162; 162; 162; 162; 162; 162; 162; 162; 162; 162; 162; 162;
   162; 162; 162; 162; 173; 173; 173; 173; 173; 173; 173; 173;
   173; 173; 173; 173; 173; 173; 173; 173; 173; 173; 173; 173;
   173; 173; 173; 173; 173; 173; 173; 173; 173; 173; 173; 173;
   173; 173; 173; 173; 173; 173; 173; 173; 173; 173; 173; 173;
   173; 173; 173; 173; 173; 173; 173; 173; 173; 173; 173; 173;
   173; 173; 173; 173; 173; 173; 173; 173; 173; 173; 173; 173;
   173; 173; 173; 173; 173; 173; 173; 173; 173; 173; 173; 173;
   173; 173; 173; 173; 173; 173; 173; 173; 173; 173; 173; 173;
   173; 173; 173; 173; 173; 173; 173; 173; 173; 173; 173; 173;
   173; 173; 173; 173; 173; 173; 173; 173; 173; 173; 173; 173;
   173; 173; 173; 173; 173; 173; 173; 173; 173; 173; 173; 173;
   172; 172; 172; 172; 172; 172; 172; 172; 172; 172; 172; 172;
   172; 172; 172; 172; 172; 172; 172; 172; 172; 172; 172; 172;
   172; 172; 172; 172; 172; 172; 172; 172; 172; 172; 172; 172;
   172; 172; 172; 172; 172; 172; 172; 172; 172; 172; 172; 172;
   172; 172; 172; 172; 172; 172; 172; 172; 172; 172; 172; 172;
   172; 172; 172; 172; 172; 172; 172; 172; 172; 172; 172; 172;
   172; 172; 172; 172; 172; 172; 172; 172; 172; 172; 172; 172;
   172; 172; 172; 172; 172; 172; 172; 172; 172; 172; 172; 172;
   172; 172; 172; 172; 172; 172; 172; 172; 172; 172; 172; 172;
   172; 172; 172; 172; 172; 172; 172; 172; 172; 172; 172; 172;
   172; 172; 172; 172; 172; 172; 172; 172; 175; 175; 175; 175;
   175; 175; 175; 175; 175; 175; 175; 175; 175; 175; 175; 175;
   175; 175; 175; 175; 175; 175; 175; 175; 175; 175; 175; 175;
   175; 175; 175; 175; 175; 175; 175; 175; 175; 175; 175; 175;
   175; 175; 175; 175; 175; 175; 175; 175; 175; 175; 175; 175;
   175; 175; 175; 175; 175; 175; 175; 175; 175; 175; 175; 175;
   175; 175; 175; 175; 175; 175; 175; 175; 175; 175; 175; 175;
   175; 175; 175; 175; 175; 175; 175; 175; 175; 175; 175; 175;
   175; 175; 175; 175; 175; 175; 175; 175; 175; 175; 175; 175;
   175; 175; 175; 175; 175; 175; 175; 175; 175; 175; 175; 175;
   175; 175; 175; 175; 175; 175; 175; 175; 175; 175; 175; 175;
   175; 175; 175; 175; 174; 174; 174; 174; 174; 174; 174; 174;
   174; 174; 174; 174; 174; 174; 174; 174; 174; 174; 174; 174;
   174; 174; 174; 174; 174; 174; 174; 174; 174; 174; 174; 174;
   174; 174; 174; 174; 174; 174; 174; 174; 174; 174; 174; 174;
   174; 174; 174; 174; 174; 174; 174; 174; 174; 174; 174; 174;
   174; 174; 174; 174; 174; 174; 174; 174; 174; 174; 174; 174;
   174; 174; 174; 174; 174; 174; 174; 174; 174; 174; 174; 174;
   174; 174; 174; 174; 174; 174; 174; 174; 174; 174; 174; 174;
   174; 174; 174; 174; 174; 174; 174; 174; 174; 174; 174; 174;
   174; 174; 174; 174; 174; 174; 174; 174; 174; 174; 174; 174;
   174; 174; 174; 174; 174; 174; 174; 174; 174; 174; 174; 174;
   169; 169; 169; 169; 169; 169; 169; 169; 169; 169; 169; 169;
   169; 169; 169; 169; 169; 169; 169; 169; 169; 169; 169; 169;
   169; 169; 169; 169; 169; 169; 169; 169; 169; 169; 169; 169;
   169; 169; 169; 169; 169; 169; 169; 169; 169; 169; 169; 169;
   169; 169; 169; 169; 169; 169; 169; 169; 169; 169; 169; 169;
   169; 169; 169; 169; 169; 169; 169; 169; 169; 169; 169; 169;
   169; 169; 169; 169; 169; 169; 169; 169; 169; 169; 169; 169;
   169; 169; 169; 169; 169; 169; 169; 169; 169; 169; 169; 169;
   169; 169; 169; 169; 169; 169; 169; 169; 169; 169; 169; 169;
   169; 169; 169; 169; 169; 169; 169; 169; 169; 169; 169; 169;
   169; 169; 169; 169; 169; 169; 169; 169; 168; 168; 168; 168;
   168; 168; 168; 168; 168; 168; 168; 168; 168; 168; 168; 168;
   168; 168; 168; 168; 168; 168; 168; 168; 168; 168; 168; 168;
   168; 168; 168; 168; 168; 168; 168; 168; 168; 168; 168; 168;
   168; 168; 168; 168; 168; 168; 168; 168; 168; 168; 168; 168;
   168; 168; 168; 168; 168; 168; 168; 168; 168; 168; 168; 168;
   168; 168; 168; 168; 168; 168; 168; 168; 168; 168; 168; 168;
   168; 168; 168; 168; 168; 168; 168; 168; 168; 168; 168; 168;
   168; 168; 168; 168; 168; 168; 168; 168; 168; 168; 168; 168;
   168; 168; 168; 168; 168; 168; 168; 168; 168; 168; 168; 168;
   168; 168; 168; 168; 168; 168; 168; 168; 168; 168; 168; 168;
   168; 168; 168; 168; 171; 171; 171; 171; 171; 171; 171; 171;
   171; 171; 171; 171; 171; 171; 171; 171; 171; 171; 171; 171;
   171; 171; 171; 171; 171; 171; 171; 171; 171; 171; 171; 171;
   171; 171; 171; 171; 171; 171; 171; 171; 171; 171; 171; 171;
   171; 171; 171; 171; 171; 171; 171; 171; 171; 171; 171; 171;
   171; 171; 171; 171; 171; 171; 171; 171; 171; 171; 171; 171;
   171; 171; 171; 171; 171; 171; 171; 171; 171; 171; 171; 171;
   171; 171; 171; 171; 171; 171; 171; 171; 171; 171; 171; 171;
   171; 171; 171; 171; 171; 171; 171; 171; 171; 171; 171; 171;
   171; 171; 171; 171; 171; 171; 171; 171; 171; 171; 171; 171;
   171; 171; 171; 171; 171; 171; 171; 171; 171; 171; 171; 171;
   170; 170; 170; 170; 170; 170; 170; 170; 170; 170; 170; 170;
   170; 170; 170; 170; 170; 170; 170; 170; 170; 170; 170; 170;
   170; 170; 170; 170; 170; 170; 170; 170; 170; 170; 170; 170;
   170; 170; 170; 170; 170; 170; 170; 170; 170; 170; 170; 170;
   170; 170; 170; 170; 170; 170; 170; 170; 170; 170; 170; 170;
   170; 170; 170; 170; 170; 170; 170; 170; 170; 170; 170; 170;
   170; 170; 170; 170; 170; 170; 170; 170; 170; 170; 170; 170;
   170; 170; 170; 170; 170; 170; 170; 170; 170; 170; 170; 170;
   170; 170; 170; 170; 170; 170; 170; 170; 170; 170; 170; 170;
   170; 170; 170; 170; 170; 170; 170; 170; 170; 170; 170; 170;
   170; 170; 170; 170; 170; 170; 170; 170].

Definition _roardsp_pcm132alaw : list Z :=
  _roardsp_pcm132alaw_0 ++ _roardsp_pcm132alaw_1 ++ _roardsp_pcm132alaw_2 ++ _roardsp_pcm132alaw_3 ++ _roardsp_pcm132alaw_4.

Definition _roardsp_mulaw2pcm16 : list Z := [
   -32124; -31100; -30076; -29052; -28028; -27004; -25980;
   -24956; -23932; -22908; -21884; -20860; -19836; -18812;
   -17788; -16764; -15996; -15484; -14972; -14460; -13948;
   -13436; -12924; -12412; -11900; -11388; -10876; -10364;
   -9852; -9340; -8828; -8316; -7932; -7676; -7420;
   -7164; -6908; -6652; -6396; -6140; -5884; -5628;
   -5372; -5116; -4860; -4604; -4348; -4092; -3900;
   -3772; -3644; -3516; -3388; -3260; -3132; -3004;
   -2876; -2748; -2620; -2492; -2364; -2236; -2108;
   -1980; -1884; -1820; -1756; -1692; -1628; -1564;
   -1500; -1436; -1372; -1308; -1244; -1180; -1116;
   -1052; -988; -924; -876; -844; -812; -780;
   -748; -716; -684; -652; -620; -588; -556;
   -524; -492; -460; -428; -396; -372; -356;
   -340; -324; -308; -292; -276; -260; -244;
   -228; -212; -196; -180; -164; -148; -132;
   -120; -112; -104; -96; -88; -80; -72;
   -64; -56; -48; -40; -32; -24; -16;
   -8; 0; 32124; 31100; 30076; 29052; 28028;
   27004; 25980; 24956; 23932; 22908; 21884; 20860;
   19836; 18812; 17788; 16764; 15996; 15484; 14972;
   14460; 13948; 13436; 12924; 12412; 11900; 11388;
   10876; 10364; 9852; 9340; 8828; 8316; 7932;
   7676; 7420; 7164; 6908; 6652; 6396; 6140;
   5884; 5628; 5372; 5116; 4860; 4604; 4348;
   4092; 3900; 3772; 3644; 3516; 3388; 3260;
   3132; 3004; 2876; 2748; 2620; 2492; 2364;
   2236; 2108; 1980; 1884; 1820; 1756; 1692;
   1628; 1564; 1500; 1436; 1372; 1308; 1244;
   1180; 1116; 1052; 988; 924; 876; 844;
   812; 780; 748; 716; 684; 652; 620;
   588; 556; 524; 492; 460; 428; 396;
   372; 356; 340; 324; 308; 292; 276;
   260; 244; 228; 212; 196; 180; 164;
   148; 132; 120; 112; 104; 96; 88;
   80; 72; 64; 56; 48; 40; 32;
   24; 16; 8; 0].

Definition _roardsp_pcm142mulaw_0 : list Z := [
   0; 0; 0; 0; 0; 0; 0; 0; 0; 0; 0; 0;
   0; 0; 0; 0; 0; 0; 0; 0; 0; 0; 0; 0;
   0; 0; 0; 0; 0; 0; 0; 0; 0; 0; 0; 0;
   0; 0; 0; 0; 0; 0; 0; 0; 0; 0; 0; 0;
   0; 0; 0; 0; 0; 0; 0; 0; 0; 0; 0; 0;
   0; 0; 0; 0; 0; 0; 0; 0; 0; 0; 0; 0;
   0; 0; 0; 0; 0; 0; 0; 0; 0; 0; 0; 0;
   0; 0; 0; 0; 0; 0; 0; 0; 0; 0; 0; 0;
   0; 0; 0; 0; 0; 0; 0; 0; 0; 0; 0; 0;
   0; 0; 0; 0; 0; 0; 0; 0; 0; 0; 0; 0;
   0; 0; 0; 0; 0; 0; 0; 0; 0; 0; 0; 0;
   0; 0; 0; 0; 0; 0; 0; 0; 0; 0; 0; 0;
   0; 0; 0; 0; 0; 0; 0; 0; 0; 0; 0; 0;
   0; 0; 0; 0; 0; 0; 0; 0; 0; 0; 0; 0;
   0; 0; 0; 0; 0; 0; 0; 0; 0; 0; 0; 0;
   0; 0; 0; 0; 0; 0; 0; 0; 0; 0; 0; 0;
   0; 0; 0; 0; 0; 0; 0; 0; 0; 0; 0; 0;
   0; 0; 0; 0; 0; 0; 0; 0; 0; 0; 0; 0;
   0; 0; 0; 0; 0; 0; 0; 0; 0; 0; 0; 0;
   0; 0; 0; 0; 0; 0; 0; 0; 0; 0; 0; 0;
   0; 0; 0; 0; 0; 0; 0; 0; 0; 0; 0; 0;
   0; 0; 0; 0; 0; 0; 0; 0; 0; 0; 0; 0;
   0; 0; 0; 0; 0; 0; 0; 0; 0; 0; 0; 0;
   0; 0; 0; 0; 0; 0; 0; 0; 0; 0; 0; 0;
   0; 0; 1; 1; 1; 1; 1; 1; 1; 1; 1; 1;
   1; 1; 1; 1; 1; 1; 1; 1; 1; 1; 1; 1;
   1; 1; 1; 1; 1; 1; 1; 1; 1; 1; 1; 1;
   1; 1; 1; 1; 1; 1; 1; 1; 1; 1; 1; 1;
   1; 1; 1; 1; 1; 1; 1; 1; 1; 1; 1; 1;
   1; 1; 1; 1; 1; 1; 1; 1; 1; 1; 1; 1;
   1; 1; 1; 1; 1; 1; 1; 1; 1; 1; 1; 1;
   1; 1; 1; 1; 1; 1; 1; 1; 1; 1; 1; 1;
   1; 1; 1; 1; 1; 1; 1; 1; 1; 1; 1; 1;
   1; 1; 1; 1; 1; 1; 1; 1; 1; 1; 1; 1;
   1; 1; 1; 1; 1; 1; 1; 1; 1; 1; 1; 1;
   1; 1; 1; 1; 1; 1; 1; 1; 1; 1; 1; 1;
   1; 1; 1; 1; 1; 1; 1; 1; 1; 1; 1; 1;
   1; 1; 1; 1; 1; 1; 1; 1; 1; 1; 1; 1;
   1; 1; 1; 1; 1; 1; 1; 1; 1; 1; 1; 1;
   1; 1; 1; 1; 1; 1; 1; 1; 1; 1; 1; 1;
   1; 1; 1; 1; 1; 1; 1; 1; 1; 1; 1; 1;
   1; 1; 1; 1; 1; 1; 1; 1; 1; 1; 1; 1;
   1; 1; 1; 1; 1; 1; 1; 1; 1; 1; 1; 1;
   1; 1; 1; 1; 1; 1; 1; 1; 1; 1; 1; 1;
   1; 1; 1; 1; 1; 1; 1; 1; 1; 1; 1; 1;
   1; 1; 1; 1; 1; 1; 2; 2; 2; 2; 2; 2;
   2; 2; 2; 2; 2; 2; 2; 2; 2; 2; 2; 2;
   2; 2; 2; 2; 2; 2; 2; 2; 2; 2; 2; 2;
   2; 2; 2; 2; 2; 2; 2; 2; 2; 2; 2; 2;
   2; 2; 2; 2; 2; 2; 2; 2; 2; 2; 2; 2;
   2; 2; 2; 2; 2; 2; 2; 2; 2; 2; 2; 2;
   2; 2; 2; 2; 2; 2; 2; 2; 2; 2; 2; 2;
   2; 2; 2; 2; 2; 2; 2; 2; 2; 2; 2; 2;
   2; 2; 2; 2; 2; 2; 2; 2; 2; 2; 2; 2;
   2; 2; 2; 2; 2; 2; 2; 2; 2; 2; 2; 2;
   2; 2; 2; 2; 2; 2; 2; 2; 2; 2; 2; 2;
   2; 2; 2; 2; 2; 2; 2; 2; 2; 2; 2; 2;
   2; 2; 2; 2; 2; 2; 2; 2; 2; 2; 2; 2;
   2; 2; 2; 2; 2; 2; 2; 2; 2; 2; 2; 2;
   2; 2; 2; 2; 2; 2; 2; 2; 2; 2; 2; 2;
   2; 2; 2; 2; 2; 2; 2; 2; 2; 2; 2; 2;
   2; 2; 2; 2; 2; 2; 2; 2; 2; 2; 2; 2;
   2; 2; 2; 2; 2; 2; 2; 2; 2; 2; 2; 2;
   2; 2; 2; 2; 2; 2; 2; 2; 2; 2; 2; 2;
   2; 2; 2; 2; 2; 2; 2; 2; 2; 2; 2; 2;
   2; 2; 2; 2; 2; 2; 2; 2; 2; 2; 2; 2;
   2; 2; 2; 2; 2; 2; 2; 2; 2; 2; 3; 3;
   3; 3; 3; 3; 3; 3; 3; 3; 3; 3; 3; 3;
   3; 3; 3; 3; 3; 3; 3; 3; 3; 3; 3; 3;
   3; 3; 3; 3; 3; 3; 3; 3; 3; 3; 3; 3;
   3; 3; 3; 3; 3; 3; 3; 3; 3; 3; 3; 3;
   3; 3; 3; 3; 3; 3; 3; 3; 3; 3; 3; 3;
   3; 3; 3; 3; 3; 3; 3; 3; 3; 3; 3; 3;
   3; 3; 3; 3; 3; 3; 3; 3; 3; 3; 3; 3;
   3; 3; 3; 3; 3; 3; 3; 3; 3; 3; 3; 3;
   3; 3; 3; 3; 3; 3; 3; 3; 3; 3; 3; 3;
   3; 3; 3; 3; 3; 3; 3; 3; 3; 3; 3; 3;
   3; 3; 3; 3; 3; 3; 3; 3; 3; 3; 3; 3;
   3; 3; 3; 3; 3; 3; 3; 3; 3; 3; 3; 3;
   3; 3; 3; 3; 3; 3; 3; 3; 3; 3; 3; 3;
   3; 3; 3; 3; 3; 3; 3; 3; 3; 3; 3; 3;
   3; 3; 3; 3; 3; 3; 3; 3; 3; 3; 3; 3;
   3; 3; 3; 3; 3; 3; 3; 3; 3; 3; 3; 3;
   3; 3; 3; 3; 3; 3; 3; 3; 3; 3; 3; 3;
   3; 3; 3; 3; 3; 3; 3; 3; 3; 3; 3; 3;
   3; 3; 3; 3; 3; 3; 3; 3; 3; 3; 3; 3;
   3; 3; 3; 3; 3; 3; 3; 3; 3; 3; 3; 3;
   3; 3; 3; 3; 3; 3; 3; 3; 3; 3; 3; 3;
   3; 3; 4; 4; 4; 4; 4; 4; 4; 4; 4; 4;
   4; 4; 4; 4; 4; 4; 4; 4; 4; 4; 4; 4;
   4; 4; 4; 4; 4; 4; 4; 4; 4; 4; 4; 4;
   4; 4; 4; 4; 4; 4; 4; 4; 4; 4; 4; 4;
   4; 4; 4; 4; 4; 4; 4; 4; 4; 4; 4; 4;
   4; 4; 4; 4; 4; 4; 4; 4; 4; 4; 4; 4;
   4; 4; 4; 4; 4; 4; 4; 4; 4; 4; 4; 4;
   4; 4; 4; 4; 4; 4; 4; 4; 4; 4; 4; 4;
   4; 4; 4; 4; 4; 4; 4; 4; 4; 4; 4; 4;
   4; 4; 4; 4; 4; 4; 4; 4; 4; 4; 4; 4;
   4; 4; 4; 4; 4; 4; 4; 4; 4; 4; 4; 4;
   4; 4; 4; 4; 4; 4; 4; 4; 4; 4; 4; 4;
   4; 4; 4; 4; 4; 4; 4; 4; 4; 4; 4; 4;
   4; 4; 4; 4; 4; 4; 4; 4; 4; 4; 4; 4;
   4; 4; 4; 4; 4; 4; 4; 4; 4; 4; 4; 4;
   4; 4; 4; 4; 4; 4; 4; 4; 4; 4; 4; 4;
   4; 4; 4; 4; 4; 4; 4; 4; 4; 4; 4; 4;
   4; 4; 4; 4; 4; 4; 4; 4; 4; 4; 4; 4;
   4; 4; 4; 4; 4; 4; 4; 4; 4; 4; 4; 4;
   4; 4; 4; 4; 4; 4; 4; 4; 4; 4; 4; 4;
   4; 4; 4; 4; 4; 4; 4; 4; 4; 4; 4; 4;
   4; 4; 4; 4; 4; 4; 5; 5; 5; 5; 5; 5;
   5; 5; 5; 5; 5; 5; 5; 5; 5; 5; 5; 5;
   5; 5; 5; 5; 5; 5; 5; 5; 5; 5; 5; 5;
   5; 5; 5; 5; 5; 5; 5; 5; 5; 5; 5; 5;
   5; 5; 5; 5; 5; 5; 5; 5; 5; 5; 5; 5;
   5; 5; 5; 5; 5; 5; 5; 5; 5; 5; 5; 5;
   5; 5; 5; 5; 5; 5; 5; 5; 5; 5; 5; 5;
   5; 5; 5; 5; 5; 5; 5; 5; 5; 5; 5; 5;
   5; 5; 5; 5; 5; 5; 5; 5; 5; 5; 5; 5;
   5; 5; 5; 5; 5; 5; 5; 5; 5; 5; 5; 5;
   5; 5; 5; 5; 5; 5; 5; 5; 5; 5; 5; 5;
   5; 5; 5; 5; 5; 5; 5; 5; 5; 5; 5; 5;
   5; 5; 5; 5; 5; 5; 5; 5; 5; 5; 5; 5;
   5; 5; 5; 5; 5; 5; 5; 5; 5; 5; 5; 5;
   5; 5; 5; 5; 5; 5; 5; 5; 5; 5; 5; 5;
   5; 5; 5; 5; 5; 5; 5; 5; 5; 5; 5; 5;
   5; 5; 5; 5; 5; 5; 5; 5; 5; 5; 5; 5;
   5; 5; 5; 5; 5; 5; 5; 5; 5; 5; 5; 5;
   5; 5; 5; 5; 5; 5; 5; 5; 5; 5; 5; 5;
   5; 5; 5; 5; 5; 5; 5; 5; 5; 5; 5; 5;
   5; 5; 5; 5; 5; 5; 5; 5; 5; 5; 5; 5;
   5; 5; 5; 5; 5; 5; 5; 5; 5; 5; 6; 6;
   6; 6; 6; 6; 6; 6; 6; 6; 6; 6; 6; 6;
   6; 6; 6; 6; 6; 6; 6; 6; 6; 6; 6; 6;
   6; 6; 6; 6; 6; 6; 6; 6; 6; 6; 6; 6;
   6; 6; 6; 6; 6; 6; 6; 6; 6; 6; 6; 6;
   6; 6; 6; 6; 6; 6; 6; 6; 6; 6; 6; 6;
   6; 6; 6; 6; 6; 6; 6; 6; 6; 6; 6; 6;
   6; 6; 6; 6; 6; 6; 6; 6; 6; 6; 6; 6;
   6; 6; 6; 6; 6; 6; 6; 6; 6; 6; 6; 6;
   6; 6; 6; 6; 6; 6; 6; 6; 6; 6; 6; 6].

Definition _roardsp_pcm142mulaw_1 : list Z := [
   6; 6; 6; 6; 6; 6; 6; 6; 6; 6; 6; 6;
   6; 6; 6; 6; 6; 6; 6; 6; 6; 6; 6; 6;
   6; 6; 6; 6; 6; 6; 6; 6; 6; 6; 6; 6;
   6; 6; 6; 6; 6; 6; 6; 6; 6; 6; 6; 6;
   6; 6; 6; 6; 6; 6; 6; 6; 6; 6; 6; 6;
   6; 6; 6; 6; 6; 6; 6; 6; 6; 6; 6; 6;
   6; 6; 6; 6; 6; 6; 6; 6; 6; 6; 6; 6;
   6; 6; 6; 6; 6; 6; 6; 6; 6; 6; 6; 6;
   6; 6; 6; 6; 6; 6; 6; 6; 6; 6; 6; 6;
   6; 6; 6; 6; 6; 6; 6; 6; 6; 6; 6; 6;
   6; 6; 6; 6; 6; 6; 6; 6; 6; 6; 6; 6;
   6; 6; 6; 6; 6; 6; 6; 6; 6; 6; 6; 6;
   6; 6; 7; 7; 7; 7; 7; 7; 7; 7; 7; 7;
   7; 7; 7; 7; 7; 7; 7; 7; 7; 7; 7; 7;
   7; 7; 7; 7; 7; 7; 7; 7; 7; 7; 7; 7;
   7; 7; 7; 7; 7; 7; 7; 7; 7; 7; 7; 7;
   7; 7; 7; 7; 7; 7; 7; 7; 7; 7; 7; 7;
   7; 7; 7; 7; 7; 7; 7; 7; 7; 7; 7; 7;
   7; 7; 7; 7; 7; 7; 7; 7; 7; 7; 7; 7;
   7; 7; 7; 7; 7; 7; 7; 7; 7; 7; 7; 7;
   7; 7; 7; 7; 7; 7; 7; 7; 7; 7; 7; 7;
   7; 7; 7; 7; 7; 7; 7; 7; 7; 7; 7; 7;
   7; 7; 7; 7; 7; 7; 7; 7; 7; 7; 7; 7;
   7; 7; 7; 7; 7; 7; 7; 7; 7; 7; 7; 7;
   7; 7; 7; 7; 7; 7; 7; 7; 7; 7; 7; 7;
   7; 7; 7; 7; 7; 7; 7; 7; 7; 7; 7; 7;
   7; 7; 7; 7; 7; 7; 7; 7; 7; 7; 7; 7;
   7; 7; 7; 7; 7; 7; 7; 7; 7; 7; 7; 7;
   7; 7; 7; 7; 7; 7; 7; 7; 7; 7; 7; 7;
   7; 7; 7; 7; 7; 7; 7; 7; 7; 7; 7; 7;
   7; 7; 7; 7; 7; 7; 7; 7; 7; 7; 7; 7;
   7; 7; 7; 7; 7; 7; 7; 7; 7; 7; 7; 7;
   7; 7; 7; 7; 7; 7; 7; 7; 7; 7; 7; 7;
   7; 7; 7; 7; 7; 7; 8; 8; 8; 8; 8; 8;
   8; 8; 8; 8; 8; 8; 8; 8; 8; 8; 8; 8;
   8; 8; 8; 8; 8; 8; 8; 8; 8; 8; 8; 8;
   8; 8; 8; 8; 8; 8; 8; 8; 8; 8; 8; 8;
   8; 8; 8; 8; 8; 8; 8; 8; 8; 8; 8; 8;
   8; 8; 8; 8; 8; 8; 8; 8; 8; 8; 8; 8;
   8; 8; 8; 8; 8; 8; 8; 8; 8; 8; 8; 8;
   8; 8; 8; 8; 8; 8; 8; 8; 8; 8; 8; 8;
   8; 8; 8; 8; 8; 8; 8; 8; 8; 8; 8; 8;
   8; 8; 8; 8; 8; 8; 8; 8; 8; 8; 8; 8;
   8; 8; 8; 8; 8; 8; 8; 8; 8; 8; 8; 8;
   8; 8; 8; 8; 8; 8; 8; 8; 8; 8; 8; 8;
   8; 8; 8; 8; 8; 8; 8; 8; 8; 8; 8; 8;
   8; 8; 8; 8; 8; 8; 8; 8; 8; 8; 8; 8;
   8; 8; 8; 8; 8; 8; 8; 8; 8; 8; 8; 8;
   8; 8; 8; 8; 8; 8; 8; 8; 8; 8; 8; 8;
   8; 8; 8; 8; 8; 8; 8; 8; 8; 8; 8; 8;
   8; 8; 8; 8; 8; 8; 8; 8; 8; 8; 8; 8;
   8; 8; 8; 8; 8; 8; 8; 8; 8; 8; 8; 8;
   8; 8; 8; 8; 8; 8; 8; 8; 8; 8; 8; 8;
   8; 8; 8; 8; 8; 8; 8; 8; 8; 8; 8; 8;
   8; 8; 8; 8; 8; 8; 8; 8; 8; 8; 9; 9;
   9; 9; 9; 9; 9; 9; 9; 9; 9; 9; 9; 9;
   9; 9; 9; 9; 9; 9; 9; 9; 9; 9; 9; 9;
   9; 9; 9; 9; 9; 9; 9; 9; 9; 9; 9; 9;
   9; 9; 9; 9; 9; 9; 9; 9; 9; 9; 9; 9;
   9; 9; 9; 9; 9; 9; 9; 9; 9; 9; 9; 9;
   9; 9; 9; 9; 9; 9; 9; 9; 9; 9; 9; 9;
   9; 9; 9; 9; 9; 9; 9; 9; 9; 9; 9; 9;
   9; 9; 9; 9; 9; 9; 9; 9; 9; 9; 9; 9;
   9; 9; 9; 9; 9; 9; 9; 9; 9; 9; 9; 9;
   9; 9; 9; 9; 9; 9; 9; 9; 9; 9; 9; 9;
   9; 9; 9; 9; 9; 9; 9; 9; 9; 9; 9; 9;
   9; 9; 9; 9; 9; 9; 9; 9; 9; 9; 9; 9;
   9; 9; 9; 9; 9; 9; 9; 9; 9; 9; 9; 9;
   9; 9; 9; 9; 9; 9; 9; 9; 9; 9; 9; 9;
   9; 9; 9; 9; 9; 9; 9; 9; 9; 9; 9; 9;
   9; 9; 9; 9; 9; 9; 9; 9; 9; 9; 9; 9;
   9; 9; 9; 9; 9; 9; 9; 9; 9; 9; 9; 9;
   9; 9; 9; 9; 9; 9; 9; 9; 9; 9; 9; 9;
   9; 9; 9; 9; 9; 9; 9; 9; 9; 9; 9; 9;
   9; 9; 9; 9; 9; 9; 9; 9; 9; 9; 9; 9;
   9; 9; 9; 9; 9; 9; 9; 9; 9; 9; 9; 9;
   9; 9; 10; 10; 10; 10; 10; 10; 10; 10; 10; 10;
   10; 10; 10; 10; 10; 10; 10; 10; 10; 10; 10; 10;
   10; 10; 10; 10; 10; 10; 10; 10; 10; 10; 10; 10;
   10; 10; 10; 10; 10; 10; 10; 10; 10; 10; 10; 10;
   10; 10; 10; 10; 10; 10; 10; 10; 10; 10; 10; 10;
   10; 10; 10; 10; 10; 10; 10; 10; 10; 10; 10; 10;
   10; 10; 10; 10; 10; 10; 10; 10; 10; 10; 10; 10;
   10; 10; 10; 10; 10; 10; 10; 10; 10; 10; 10; 10;
   10; 10; 10; 10; 10; 10; 10; 10; 10; 10; 10; 10;
   10; 10; 10; 10; 10; 10; 10; 10; 10; 10; 10; 10;
   10; 10; 10; 10; 10; 10; 10; 10; 10; 10; 10; 10;
   10; 10; 10; 10; 10; 10; 10; 10; 10; 10; 10; 10;
   10; 10; 10; 10; 10; 10; 10; 10; 10; 10; 10; 10;
   10; 10; 10; 10; 10; 10; 10; 10; 10; 10; 10; 10;
   10; 10; 10; 10; 10; 10; 10; 10; 10; 10; 10; 10;
   10; 10; 10; 10; 10; 10; 10; 10; 10; 10; 10; 10;
   10; 10; 10; 10; 10; 10; 10; 10; 10; 10; 10; 10;
   10; 10; 10; 10; 10; 10; 10; 10; 10; 10; 10; 10;
   10; 10; 10; 10; 10; 10; 10; 10; 10; 10; 10; 10;
   10; 10; 10; 10; 10; 10; 10; 10; 10; 10; 10; 10;
   10; 10; 10; 10; 10; 10; 10; 10; 10; 10; 10; 10;
   10; 10; 10; 10; 10; 10; 11; 11; 11; 11; 11; 11;
   11; 11; 11; 11; 11; 11; 11; 11; 11; 11; 11; 11;
   11; 11; 11; 11; 11; 11; 11; 11; 11; 11; 11; 11;
   11; 11; 11; 11; 11; 11; 11; 11; 11; 11; 11; 11;
   11; 11; 11; 11; 11; 11; 11; 11; 11; 11; 11; 11;
   11; 11; 11; 11; 11; 11; 11; 11; 11; 11; 11; 11;
   11; 11; 11; 11; 11; 11; 11; 11; 11; 11; 11; 11;
   11; 11; 11; 11; 11; 11; 11; 11; 11; 11; 11; 11;
   11; 11; 11; 11; 11; 11; 11; 11; 11; 11; 11; 11;
   11; 11; 11; 11; 11; 11; 11; 11; 11; 11; 11; 11;
   11; 11; 11; 11; 11; 11; 11; 11; 11; 11; 11; 11;
   11; 11; 11; 11; 11; 11; 11; 11; 11; 11; 11; 11;
   11; 11; 11; 11; 11; 11; 11; 11; 11; 11; 11; 11;
   11; 11; 11; 11; 11; 11; 11; 11; 11; 11; 11; 11;
   11; 11; 11; 11; 11; 11; 11; 11; 11; 11; 11; 11;
   11; 11; 11; 11; 11; 11; 11; 11; 11; 11; 11; 11;
   11; 11; 11; 11; 11; 11; 11; 11; 11; 11; 11; 11;
   11; 11; 11; 11; 11; 11; 11; 11; 11; 11; 11; 11;
   11; 11; 11; 11; 11; 11; 11; 11; 11; 11; 11; 11;
   11; 11; 11; 11; 11; 11; 11; 11; 11; 11; 11; 11;
   11; 11; 11; 11; 11; 11; 11; 11; 11; 11; 11; 11;
   11; 11; 11; 11; 11; 11; 11; 11; 11; 11; 12; 12;
   12; 12; 12; 12; 12; 12; 12; 12; 12; 12; 12; 12;
   12; 12; 12; 12; 12; 12; 12; 12; 12; 12; 12; 12;
   12; 12; 12; 12; 12; 12; 12; 12; 12; 12; 12; 12;
   12; 12; 12; 12; 12; 12; 12; 12; 12; 12; 12; 12;
   12; 12; 12; 12; 12; 12; 12; 12; 12; 12; 12; 12;
   12; 12; 12; 12; 12; 12; 12; 12; 12; 12; 12; 12;
   12; 12; 12; 12; 12; 12; 12; 12; 12; 12; 12; 12;
   12; 12; 12; 12; 12; 12; 12; 12; 12; 12; 12; 12;
   12; 12; 12; 12; 12; 12; 12; 12; 12; 12; 12; 12;
   12; 12; 12; 12; 12; 12; 12; 12; 12; 12; 12; 12;
   12; 12; 12; 12; 12; 12; 12; 12; 12; 12; 12; 12;
   12; 12; 12; 12; 12; 12; 12; 12; 12; 12; 12; 12;
   12; 12; 12; 12; 12; 12; 12; 12; 12; 12; 12; 12;
   12; 12; 12; 12; 12; 12; 12; 12; 12; 12; 12; 12;
   12; 12; 12; 12; 12; 12; 12; 12; 12; 12; 12; 12;
   12; 12; 12; 12; 12; 12; 12; 12; 12; 12; 12; 12;
   12; 12; 12; 12; 12; 12; 12; 12; 12; 12; 12; 12;
   12; 12; 12; 12; 12; 12; 12; 12; 12; 12; 12; 12;
   12; 12; 12; 12; 12; 12; 12; 12; 12; 12; 12; 12;
   12; 12; 12; 12; 12; 12; 12; 12; 12; 12; 12; 12;
   12; 12; 12; 12; 12; 12; 12; 12; 12; 12; 12; 12].

Definition _roardsp_pcm142mulaw_2 : list Z := [
   12; 12; 13; 13; 13; 13; 13; 13; 13; 13; 13; 13;
   13; 13; 13; 13; 13; 13; 13; 13; 13; 13; 13; 13;
   13; 13; 13; 13; 13; 13; 13; 13; 13; 13; 13; 13;
   13; 13; 13; 13; 13; 13; 13; 13; 13; 13; 13; 13;
   13; 13; 13; 13; 13; 13; 13; 13; 13; 13; 13; 13;
   13; 13; 13; 13; 13; 13; 13; 13; 13; 13; 13; 13;
   13; 13; 13; 13; 13; 13; 13; 13; 13; 13; 13; 13;
   13; 13; 13; 13; 13; 13; 13; 13; 13; 13; 13; 13;
   13; 13; 13; 13; 13; 13; 13; 13; 13; 13; 13; 13;
   13; 13; 13; 13; 13; 13; 13; 13; 13; 13; 13; 13;
   13; 13; 13; 13; 13; 13; 13; 13; 13; 13; 13; 13;
   13; 13; 13; 13; 13; 13; 13; 13; 13; 13; 13; 13;
   13; 13; 13; 13; 13; 13; 13; 13; 13; 13; 13; 13;
   13; 13; 13; 13; 13; 13; 13; 13; 13; 13; 13; 13;
   13; 13; 13; 13; 13; 13; 13; 13; 13; 13; 13; 13;
   13; 13; 13; 13; 13; 13; 13; 13; 13; 13; 13; 13;
   13; 13; 13; 13; 13; 13; 13; 13; 13; 13; 13; 13;
   13; 13; 13; 13; 13; 13; 13; 13; 13; 13; 13; 13;
   13; 13; 13; 13; 13; 13; 13; 13; 13; 13; 13; 13;
   13; 13; 13; 13; 13; 13; 13; 13; 13; 13; 13; 13;
   13; 13; 13; 13; 13; 13; 13; 13; 13; 13; 13; 13;
   13; 13; 13; 13; 13; 13; 14; 14; 14; 14; 14; 14;
   14; 14; 14; 14; 14; 14; 14; 14; 14; 14; 14; 14;
   14; 14; 14; 14; 14; 14; 14; 14; 14; 14; 14; 14;
   14; 14; 14; 14; 14; 14; 14; 14; 14; 14; 14; 14;
   14; 14; 14; 14; 14; 14; 14; 14; 14; 14; 14; 14;
   14; 14; 14; 14; 14; 14; 14; 14; 14; 14; 14; 14;
   14; 14; 14; 14; 14; 14; 14; 14; 14; 14; 14; 14;
   14; 14; 14; 14; 14; 14; 14; 14; 14; 14; 14; 14;
   14; 14; 14; 14; 14; 14; 14; 14; 14; 14; 14; 14;
   14; 14; 14; 14; 14; 14; 14; 14; 14; 14; 14; 14;
   14; 14; 14; 14; 14; 14; 14; 14; 14; 14; 14; 14;
   14; 14; 14; 14; 14; 14; 14; 14; 14; 14; 14; 14;
   14; 14; 14; 14; 14; 14; 14; 14; 14; 14; 14; 14;
   14; 14; 14; 14; 14; 14; 14; 14; 14; 14; 14; 14;
   14; 14; 14; 14; 14; 14; 14; 14; 14; 14; 14; 14;
   14; 14; 14; 14; 14; 14; 14; 14; 14; 14; 14; 14;
   14; 14; 14; 14; 14; 14; 14; 14; 14; 14; 14; 14;
   14; 14; 14; 14; 14; 14; 14; 14; 14; 14; 14; 14;
   14; 14; 14; 14; 14; 14; 14; 14; 14; 14; 14; 14;
   14; 14; 14; 14; 14; 14; 14; 14; 14; 14; 14; 14;
   14; 14; 14; 14; 14; 14; 14; 14; 14; 14; 14; 14;
   14; 14; 14; 14; 14; 14; 14; 14; 14; 14; 15; 15;
   15; 15; 15; 15; 15; 15; 15; 15; 15; 15; 15; 15;
   15; 15; 15; 15; 15; 15; 15; 15; 15; 15; 15; 15;
   15; 15; 15; 15; 15; 15; 15; 15; 15; 15; 15; 15;
   15; 15; 15; 15; 15; 15; 15; 15; 15; 15; 15; 15;
   15; 15; 15; 15; 15; 15; 15; 15; 15; 15; 15; 15;
   15; 15; 15; 15; 15; 15; 15; 15; 15; 15; 15; 15;
   15; 15; 15; 15; 15; 15; 15; 15; 15; 15; 15; 15;
   15; 15; 15; 15; 15; 15; 15; 15; 15; 15; 15; 15;
   15; 15; 15; 15; 15; 15; 15; 15; 15; 15; 15; 15;
   15; 15; 15; 15; 15; 15; 15; 15; 15; 15; 15; 15;
   15; 15; 15; 15; 15; 15; 15; 15; 15; 15; 15; 15;
   15; 15; 15; 15; 15; 15; 15; 15; 15; 15; 15; 15;
   15; 15; 15; 15; 15; 15; 15; 15; 15; 15; 15; 15;
   15; 15; 15; 15; 15; 15; 15; 15; 15; 15; 15; 15;
   15; 15; 15; 15; 15; 15; 15; 15; 15; 15; 15; 15;
   15; 15; 15; 15; 15; 15; 15; 15; 15; 15; 15; 15;
   15; 15; 15; 15; 15; 15; 15; 15; 15; 15; 15; 15;
   15; 15; 15; 15; 15; 15; 15; 15; 15; 15; 15; 15;
   15; 15; 15; 15; 15; 15; 15; 15; 15; 15; 15; 15;
   15; 15; 15; 15; 15; 15; 15; 15; 15; 15; 15; 15;
   15; 15; 15; 15; 15; 15; 15; 15; 15; 15; 15; 15;
   15; 15; 16; 16; 16; 16; 16; 16; 16; 16; 16; 16;
   16; 16; 16; 16; 16; 16; 16; 16; 16; 16; 16; 16;
   16; 16; 16; 16; 16; 16; 16; 16; 16; 16; 16; 16;
   16; 16; 16; 16; 16; 16; 16; 16; 16; 16; 16; 16;
   16; 16; 16; 16; 16; 16; 16; 16; 16; 16; 16; 16;
   16; 16; 16; 16; 16; 16; 16; 16; 16; 16; 16; 16;
   16; 16; 16; 16; 16; 16; 16; 16; 16; 16; 16; 16;
   16; 16; 16; 16; 16; 16; 16; 16; 16; 16; 16; 16;
   16; 16; 16; 16; 16; 16; 16; 16; 16; 16; 16; 16;
   16; 16; 16; 16; 16; 16; 16; 16; 16; 16; 16; 16;
   16; 16; 16; 16; 16; 16; 16; 16; 16; 16; 17; 17;
   17; 17; 17; 17; 17; 17; 17; 17; 17; 17; 17; 17;
   17; 17; 17; 17; 17; 17; 17; 17; 17; 17; 17; 17;
   17; 17; 17; 17; 17; 17; 17; 17; 17; 17; 17; 17;
   17; 17; 17; 17; 17; 17; 17; 17; 17; 17; 17; 17;
   17; 17; 17; 17; 17; 17; 17; 17; 17; 17; 17; 17;
   17; 17; 17; 17; 17; 17; 17; 17; 17; 17; 17; 17;
   17; 17; 17; 17; 17; 17; 17; 17; 17; 17; 17; 17;
   17; 17; 17; 17; 17; 17; 17; 17; 17; 17; 17; 17;
   17; 17; 17; 17; 17; 17; 17; 17; 17; 17; 17; 17;
   17; 17; 17; 17; 17; 17; 17; 17; 17; 17; 17; 17;
   17; 17; 17; 17; 17; 17; 18; 18; 18; 18; 18; 18;
   18; 18; 18; 18; 18; 18; 18; 18; 18; 18; 18; 18;
   18; 18; 18; 18; 18; 18; 18; 18; 18; 18; 18; 18;
   18; 18; 18; 18; 18; 18; 18; 18; 18; 18; 18; 18;
   18; 18; 18; 18; 18; 18; 18; 18; 18; 18; 18; 18;
   18; 18; 18; 18; 18; 18; 18; 18; 18; 18; 18; 18;
   18; 18; 18; 18; 18; 18; 18; 18; 18; 18; 18; 18;
   18; 18; 18; 18; 18; 18; 18; 18; 18; 18; 18; 18;
   18; 18; 18; 18; 18; 18; 18; 18; 18; 18; 18; 18;
   18; 18; 18; 18; 18; 18; 18; 18; 18; 18; 18; 18;
   18; 18; 18; 18; 18; 18; 18; 18; 18; 18; 18; 18;
   18; 18; 19; 19; 19; 19; 19; 19; 19; 19; 19; 19;
   19; 19; 19; 19; 19; 19; 19; 19; 19; 19; 19; 19;
   19; 19; 19; 19; 19; 19; 19; 19; 19; 19; 19; 19;
   19; 19; 19; 19; 19; 19; 19; 19; 19; 19; 19; 19;
   19; 19; 19; 19; 19; 19; 19; 19; 19; 19; 19; 19;
   19; 19; 19; 19; 19; 19; 19; 19; 19; 19; 19; 19;
   19; 19; 19; 19; 19; 19; 19; 19; 19; 19; 19; 19;
   19; 19; 19; 19; 19; 19; 19; 19; 19; 19; 19; 19;
   19; 19; 19; 19; 19; 19; 19; 19; 19; 19; 19; 19;
   19; 19; 19; 19; 19; 19; 19; 19; 19; 19; 19; 19;
   19; 19; 19; 19; 19; 19; 19; 19; 19; 19; 20; 20;
   20; 20; 20; 20; 20; 20; 20; 20; 20; 20; 20; 20;
   20; 20; 20; 20; 20; 20; 20; 20; 20; 20; 20; 20;
   20; 20; 20; 20; 20; 20; 20; 20; 20; 20; 20; 20;
   20; 20; 20; 20; 20; 20; 20; 20; 20; 20; 20; 20;
   20; 20; 20; 20; 20; 20; 20; 20; 20; 20; 20; 20;
   20; 20; 20; 20; 20; 20; 20; 20; 20; 20; 20; 20;
   20; 20; 20; 20; 20; 20; 20; 20; 20; 20; 20; 20;
   20; 20; 20; 20; 20; 20; 20; 20; 20; 20; 20; 20;
   20; 20; 20; 20; 20; 20; 20; 20; 20; 20; 20; 20;
   20; 20; 20; 20; 20; 20; 20; 20; 20; 20; 20; 20;
   20; 20; 20; 20; 20; 20; 21; 21; 21; 21; 21; 21;
   21; 21; 21; 21; 21; 21; 21; 21; 21; 21; 21; 21;
   21; 21; 21; 21; 21; 21; 21; 21; 21; 21; 21; 21;
   21; 21; 21; 21; 21; 21; 21; 21; 21; 21; 21; 21;
   21; 21; 21; 21; 21; 21; 21; 21; 21; 21; 21; 21;
   21; 21; 21; 21; 21; 21; 21; 21; 21; 21; 21; 21;
   21; 21; 21; 21; 21; 21; 21; 21; 21; 21; 21; 21;
   21; 21; 21; 21; 21; 21; 21; 21; 21; 21; 21; 21;
   21; 21; 21; 21; 21; 21; 21; 21; 21; 21; 21; 21;
   21; 21; 21; 21; 21; 21; 21; 21; 21; 21; 21; 21;
   21; 21; 21; 21; 21; 21; 21; 21; 21; 21; 21; 21;
   21; 21; 22; 22; 22; 22; 22; 22; 22; 22; 22; 22;
   22; 22; 22; 22; 22; 22; 22; 22; 22; 22; 22; 22;
   22; 22; 22; 22; 22; 22; 22; 22; 22; 22; 22; 22;
   22; 22; 22; 22; 22; 22; 22; 22; 22; 22; 22; 22;
   22; 22; 22; 22; 22; 22; 22; 22; 22; 22; 22; 22;
   22; 22; 22; 22; 22; 22; 22; 22; 22; 22; 22; 22;
   22; 22; 22; 22; 22; 22; 22; 22; 22; 22; 22; 22;
   22; 22; 22; 22; 22; 22; 22; 22; 22; 22; 22; 22;
   22; 22; 22; 22; 22; 22; 22; 22; 22; 22; 22; 22;
   22; 22; 22; 22; 22; 22; 22; 22; 22; 22; 22; 22;
   22; 22; 22; 22; 22; 22; 22; 22; 22; 22; 23; 23;
   23; 23; 23; 23; 23; 23; 23; 23; 23; 23; 23; 23].

Definition _roardsp_pcm142mulaw_3 : list Z := [
   23; 23; 23; 23; 23; 23; 23; 23; 23; 23; 23; 23;
   23; 23; 23; 23; 23; 23; 23; 23; 23; 23; 23; 23;
   23; 23; 23; 23; 23; 23; 23; 23; 23; 23; 23; 23;
   23; 23; 23; 23; 23; 23; 23; 23; 23; 23; 23; 23;
   23; 23; 23; 23; 23; 23; 23; 23; 23; 23; 23; 23;
   23; 23; 23; 23; 23; 23; 23; 23; 23; 23; 23; 23;
   23; 23; 23; 23; 23; 23; 23; 23; 23; 23; 23; 23;
   23; 23; 23; 23; 23; 23; 23; 23; 23; 23; 23; 23;
   23; 23; 23; 23; 23; 23; 23; 23; 23; 23; 23; 23;
   23; 23; 23; 23; 23; 23; 24; 24; 24; 24; 24; 24;
   24; 24; 24; 24; 24; 24; 24; 24; 24; 24; 24; 24;
   24; 24; 24; 24; 24; 24; 24; 24; 24; 24; 24; 24;
   24; 24; 24; 24; 24; 24; 24; 24; 24; 24; 24; 24;
   24; 24; 24; 24; 24; 24; 24; 24; 24; 24; 24; 24;
   24; 24; 24; 24; 24; 24; 24; 24; 24; 24; 24; 24;
   24; 24; 24; 24; 24; 24; 24; 24; 24; 24; 24; 24;
   24; 24; 24; 24; 24; 24; 24; 24; 24; 24; 24; 24;
   24; 24; 24; 24; 24; 24; 24; 24; 24; 24; 24; 24;
   24; 24; 24; 24; 24; 24; 24; 24; 24; 24; 24; 24;
   24; 24; 24; 24; 24; 24; 24; 24; 24; 24; 24; 24;
   24; 24; 25; 25; 25; 25; 25; 25; 25; 25; 25; 25;
   25; 25; 25; 25; 25; 25; 25; 25; 25; 25; 25; 25;
   25; 25; 25; 25; 25; 25; 25; 25; 25; 25; 25; 25;
   25; 25; 25; 25; 25; 25; 25; 25; 25; 25; 25; 25;
   25; 25; 25; 25; 25; 25; 25; 25; 25; 25; 25; 25;
   25; 25; 25; 25; 25; 25; 25; 25; 25; 25; 25; 25;
   25; 25; 25; 25; 25; 25; 25; 25; 25; 25; 25; 25;
   25; 25; 25; 25; 25; 25; 25; 25; 25; 25; 25; 25;
   25; 25; 25; 25; 25; 25; 25; 25; 25; 25; 25; 25;
   25; 25; 25; 25; 25; 25; 25; 25; 25; 25; 25; 25;
   25; 25; 25; 25; 25; 25; 25; 25; 25; 25; 26; 26;
   26; 26; 26; 26; 26; 26; 26; 26; 26; 26; 26; 26;
   26; 26; 26; 26; 26; 26; 26; 26; 26; 26; 26; 26;
   26; 26; 26; 26; 26; 26; 26; 26; 26; 26; 26; 26;
   26; 26; 26; 26; 26; 26; 26; 26; 26; 26; 26; 26;
   26; 26; 26; 26; 26; 26; 26; 26; 26; 26; 26; 26;
   26; 26; 26; 26; 26; 26; 26; 26; 26; 26; 26; 26;
   26; 26; 26; 26; 26; 26; 26; 26; 26; 26; 26; 26;
   26; 26; 26; 26; 26; 26; 26; 26; 26; 26; 26; 26;
   26; 26; 26; 26; 26; 26; 26; 26; 26; 26; 26; 26;
   26; 26; 26; 26; 26; 26; 26; 26; 26; 26; 26; 26;
   26; 26; 26; 26; 26; 26; 27; 27; 27; 27; 27; 27;
   27; 27; 27; 27; 27; 27; 27; 27; 27; 27; 27; 27;
   27; 27; 27; 27; 27; 27; 27; 27; 27; 27; 27; 27;
   27; 27; 27; 27; 27; 27; 27; 27; 27; 27; 27; 27;
   27; 27; 27; 27; 27; 27; 27; 27; 27; 27; 27; 27;
   27; 27; 27; 27; 27; 27; 27; 27; 27; 27; 27; 27;
   27; 27; 27; 27; 27; 27; 27; 27; 27; 27; 27; 27;
   27; 27; 27; 27; 27; 27; 27; 27; 27; 27; 27; 27;
   27; 27; 27; 27; 27; 27; 27; 27; 27; 27; 27; 27;
   27; 27; 27; 27; 27; 27; 27; 27; 27; 27; 27; 27;
   27; 27; 27; 27; 27; 27; 27; 27; 27; 27; 27; 27;
   27; 27; 28; 28; 28; 28; 28; 28; 28; 28; 28; 28;
   28; 28; 28; 28; 28; 28; 28; 28; 28; 28; 28; 28;
   28; 28; 28; 28; 28; 28; 28; 28; 28; 28; 28; 28;
   28; 28; 28; 28; 28; 28; 28; 28; 28; 28; 28; 28;
   28; 28; 28; 28; 28; 28; 28; 28; 28; 28; 28; 28;
   28; 28; 28; 28; 28; 28; 28; 28; 28; 28; 28; 28;
   28; 28; 28; 28; 28; 28; 28; 28; 28; 28; 28; 28;
   28; 28; 28; 28; 28; 28; 28; 28; 28; 28; 28; 28;
   28; 28; 28; 28; 28; 28; 28; 28; 28; 28; 28; 28;
   28; 28; 28; 28; 28; 28; 28; 28; 28; 28; 28; 28;
   28; 28; 28; 28; 28; 28; 28; 28; 28; 28; 29; 29;
   29; 29; 29; 29; 29; 29; 29; 29; 29; 29; 29; 29;
   29; 29; 29; 29; 29; 29; 29; 29; 29; 29; 29; 29;
   29; 29; 29; 29; 29; 29; 29; 29; 29; 29; 29; 29;
   29; 29; 29; 29; 29; 29; 29; 29; 29; 29; 29; 29;
   29; 29; 29; 29; 29; 29; 29; 29; 29; 29; 29; 29;
   29; 29; 29; 29; 29; 29; 29; 29; 29; 29; 29; 29;
   29; 29; 29; 29; 29; 29; 29; 29; 29; 29; 29; 29;
   29; 29; 29; 29; 29; 29; 29; 29; 29; 29; 29; 29;
   29; 29; 29; 29; 29; 29; 29; 29; 29; 29; 29; 29;
   29; 29; 29; 29; 29; 29; 29; 29; 29; 29; 29; 29;
   29; 29; 29; 29; 29; 29; 30; 30; 30; 30; 30; 30;
   30; 30; 30; 30; 30; 30; 30; 30; 30; 30; 30; 30;
   30; 30; 30; 30; 30; 30; 30; 30; 30; 30; 30; 30;
   30; 30; 30; 30; 30; 30; 30; 30; 30; 30; 30; 30;
   30; 30; 30; 30; 30; 30; 30; 30; 30; 30; 30; 30;
   30; 30; 30; 30; 30; 30; 30; 30; 30; 30; 30; 30;
   30; 30; 30; 30; 30; 30; 30; 30; 30; 30; 30; 30;
   30; 30; 30; 30; 30; 30; 30; 30; 30; 30; 30; 30;
   30; 30; 30; 30; 30; 30; 30; 30; 30; 30; 30; 30;
   30; 30; 30; 30; 30; 30; 30; 30; 30; 30; 30; 30;
   30; 30; 30; 30; 30; 30; 30; 30; 30; 30; 30; 30;
   30; 30; 31; 31; 31; 31; 31; 31; 31; 31; 31; 31;
   31; 31; 31; 31; 31; 31; 31; 31; 31; 31; 31; 31;
   31; 31; 31; 31; 31; 31; 31; 31; 31; 31; 31; 31;
   31; 31; 31; 31; 31; 31; 31; 31; 31; 31; 31; 31;
   31; 31; 31; 31; 31; 31; 31; 31; 31; 31; 31; 31;
   31; 31; 31; 31; 31; 31; 31; 31; 31; 31; 31; 31;
   31; 31; 31; 31; 31; 31; 31; 31; 31; 31; 31; 31;
   31; 31; 31; 31; 31; 31; 31; 31; 31; 31; 31; 31;
   31; 31; 31; 31; 31; 31; 31; 31; 31; 31; 31; 31;
   31; 31; 31; 31; 31; 31; 31; 31; 31; 31; 31; 31;
   31; 31; 31; 31; 31; 31; 31; 31; 31; 31; 32; 32;
   32; 32; 32; 32; 32; 32; 32; 32; 32; 32; 32; 32;
   32; 32; 32; 32; 32; 32; 32; 32; 32; 32; 32; 32;
   32; 32; 32; 32; 32; 32; 32; 32; 32; 32; 32; 32;
   32; 32; 32; 32; 32; 32; 32; 32; 32; 32; 32; 32;
   32; 32; 32; 32; 32; 32; 32; 32; 32; 32; 32; 32;
   32; 32; 33; 33; 33; 33; 33; 33; 33; 33; 33; 33;
   33; 33; 33; 33; 33; 33; 33; 33; 33; 33; 33; 33;
   33; 33; 33; 33; 33; 33; 33; 33; 33; 33; 33; 33;
   33; 33; 33; 33; 33; 33; 33; 33; 33; 33; 33; 33;
   33; 33; 33; 33; 33; 33; 33; 33; 33; 33; 33; 33;
   33; 33; 33; 33; 33; 33; 34; 34; 34; 34; 34; 34;
   34; 34; 34; 34; 34; 34; 34; 34; 34; 34; 34; 34;
   34; 34; 34; 34; 34; 34; 34; 34; 34; 34; 34; 34;
   34; 34; 34; 34; 34; 34; 34; 34; 34; 34; 34; 34;
   34; 34; 34; 34; 34; 34; 34; 34; 34; 34; 34; 34;
   34; 34; 34; 34; 34; 34; 34; 34; 34; 34; 35; 35;
   35; 35; 35; 35; 35; 35; 35; 35; 35; 35; 35; 35;
   35; 35; 35; 35; 35; 35; 35; 35; 35; 35; 35; 35;
   35; 35; 35; 35; 35; 35; 35; 35; 35; 35; 35; 35;
   35; 35; 35; 35; 35; 35; 35; 35; 35; 35; 35; 35;
   35; 35; 35; 35; 35; 35; 35; 35; 35; 35; 35; 35;
   35; 35; 36; 36; 36; 36; 36; 36; 36; 36; 36; 36;
   36; 36; 36; 36; 36; 36; 36; 36; 36; 36; 36; 36;
   36; 36; 36; 36; 36; 36; 36; 36; 36; 36; 36; 36;
   36; 36; 36; 36; 36; 36; 36; 36; 36; 36; 36; 36;
   36; 36; 36; 36; 36; 36; 36; 36; 36; 36; 36; 36;
   36; 36; 36; 36; 36; 36; 37; 37; 37; 37; 37; 37;
   37; 37; 37; 37; 37; 37; 37; 37; 37; 37; 37; 37;
   37; 37; 37; 37; 37; 37; 37; 37; 37; 37; 37; 37;
   37; 37; 37; 37; 37; 37; 37; 37; 37; 37; 37; 37;
   37; 37; 37; 37; 37; 37; 37; 37; 37; 37; 37; 37;
   37; 37; 37; 37; 37; 37; 37; 37; 37; 37; 38; 38;
   38; 38; 38; 38; 38; 38; 38; 38; 38; 38; 38; 38;
   38; 38; 38; 38; 38; 38; 38; 38; 38; 38; 38; 38;
   38; 38; 38; 38; 38; 38; 38; 38; 38; 38; 38; 38;
   38; 38; 38; 38; 38; 38; 38; 38; 38; 38; 38; 38;
   38; 38; 38; 38; 38; 38; 38; 38; 38; 38; 38; 38;
   38; 38; 39; 39; 39; 39; 39; 39; 39; 39; 39; 39;
   39; 39; 39; 39; 39; 39; 39; 39; 39; 39; 39; 39;
   39; 39; 39; 39; 39; 39; 39; 39; 39; 39; 39; 39;
   39; 39; 39; 39; 39; 39; 39; 39; 39; 39; 39; 39;
   39; 39; 39; 39; 39; 39; 39; 39; 39; 39; 39; 39;
   39; 39; 39; 39; 39; 39; 40; 40; 40; 40; 40; 40;
   40; 40; 40; 40; 40; 40; 40; 40; 40; 40; 40; 40;
   40; 40; 40; 40; 40; 40; 40; 40; 40; 40; 40; 40].

Definition _roardsp_pcm142mulaw_4 : list Z := [
   40; 40; 40; 40; 40; 40; 40; 40; 40; 40; 40; 40;
   40; 40; 40; 40; 40; 40; 40; 40; 40; 40; 40; 40;
   40; 40; 40; 40; 40; 40; 40; 40; 40; 40; 41; 41;
   41; 41; 41; 41; 41; 41; 41; 41; 41; 41; 41; 41;
   41; 41; 41; 41; 41; 41; 41; 41; 41; 41; 41; 41;
   41; 41; 41; 41; 41; 41; 41; 41; 41; 41; 41; 41;
   41; 41; 41; 41; 41; 41; 41; 41; 41; 41; 41; 41;
   41; 41; 41; 41; 41; 41; 41; 41; 41; 41; 41; 41;
   41; 41; 42; 42; 42; 42; 42; 42; 42; 42; 42; 42;
   42; 42; 42; 42; 42; 42; 42; 42; 42; 42; 42; 42;
   42; 42; 42; 42; 42; 42; 42; 42; 42; 42; 42; 42;
   42; 42; 42; 42; 42; 42; 42; 42; 42; 42; 42; 42;
   42; 42; 42; 42; 42; 42; 42; 42; 42; 42; 42; 42;
   42; 42; 42; 42; 42; 42; 43; 43; 43; 43; 43; 43;
   43; 43; 43; 43; 43; 43; 43; 43; 43; 43; 43; 43;
   43; 43; 43; 43; 43; 43; 43; 43; 43; 43; 43; 43;
   43; 43; 43; 43; 43; 43; 43; 43; 43; 43; 43; 43;
   43; 43; 43; 43; 43; 43; 43; 43; 43; 43; 43; 43;
   43; 43; 43; 43; 43; 43; 43; 43; 43; 43; 44; 44;
   44; 44; 44; 44; 44; 44; 44; 44; 44; 44; 44; 44;
   44; 44; 44; 44; 44; 44; 44; 44; 44; 44; 44; 44;
   44; 44; 44; 44; 44; 44; 44; 44; 44; 44; 44; 44;
   44; 44; 44; 44; 44; 44; 44; 44; 44; 44; 44; 44;
   44; 44; 44; 44; 44; 44; 44; 44; 44; 44; 44; 44;
   44; 44; 45; 45; 45; 45; 45; 45; 45; 45; 45; 45;
   45; 45; 45; 45; 45; 45; 45; 45; 45; 45; 45; 45;
   45; 45; 45; 45; 45; 45; 45; 45; 45; 45; 45; 45;
   45; 45; 45; 45; 45; 45; 45; 45; 45; 45; 45; 45;
   45; 45; 45; 45; 45; 45; 45; 45; 45; 45; 45; 45;
   45; 45; 45; 45; 45; 45; 46; 46; 46; 46; 46; 46;
   46; 46; 46; 46; 46; 46; 46; 46; 46; 46; 46; 46;
   46; 46; 46; 46; 46; 46; 46; 46; 46; 46; 46; 46;
   46; 46; 46; 46; 46; 46; 46; 46; 46; 46; 46; 46;
   46; 46; 46; 46; 46; 46; 46; 46; 46; 46; 46; 46;
   46; 46; 46; 46; 46; 46; 46; 46; 46; 46; 47; 47;
   47; 47; 47; 47; 47; 47; 47; 47; 47; 47; 47; 47;
   47; 47; 47; 47; 47; 47; 47; 47; 47; 47; 47; 47;
   47; 47; 47; 47; 47; 47; 47; 47; 47; 47; 47; 47;
   47; 47; 47; 47; 47; 47; 47; 47; 47; 47; 47; 47;
   47; 47; 47; 47; 47; 47; 47; 47; 47; 47; 47; 47;
   47; 47; 48; 48; 48; 48; 48; 48; 48; 48; 48; 48;
   48; 48; 48; 48; 48; 48; 48; 48; 48; 48; 48; 48;
   48; 48; 48; 48; 48; 48; 48; 48; 48; 48; 49; 49;
   49; 49; 49; 49; 49; 49; 49; 49; 49; 49; 49; 49;
   49; 49; 49; 49; 49; 49; 49; 49; 49; 49; 49; 49;
   49; 49; 49; 49; 49; 49; 50; 50; 50; 50; 50; 50;
   50; 50; 50; 50; 50; 50; 50; 50; 50; 50; 50; 50;
   50; 50; 50; 50; 50; 50; 50; 50; 50; 50; 50; 50;
   50; 50; 51; 51; 51; 51; 51; 51; 51; 51; 51; 51;
   51; 51; 51; 51; 51; 51; 51; 51; 51; 51; 51; 51;
   51; 51; 51; 51; 51; 51; 51; 51; 51; 51; 52; 52;
   52; 52; 52; 52; 52; 52; 52; 52; 52; 52; 52; 52;
   52; 52; 52; 52; 52; 52; 52; 52; 52; 52; 52; 52;
   52; 52; 52; 52; 52; 52; 53; 53; 53; 53; 53; 53;
   53; 53; 53; 53; 53; 53; 53; 53; 53; 53; 53; 53;
   53; 53; 53; 53; 53; 53; 53; 53; 53; 53; 53; 53;
   53; 53; 54; 54; 54; 54; 54; 54; 54; 54; 54; 54;
   54; 54; 54; 54; 54; 54; 54; 54; 54; 54; 54; 54;
   54; 54; 54; 54; 54; 54; 54; 54; 54; 54; 55; 55;
   55; 55; 55; 55; 55; 55; 55; 55; 55; 55; 55; 55;
   55; 55; 55; 55; 55; 55; 55; 55; 55; 55; 55; 55;
   55; 55; 55; 55; 55; 55; 56; 56; 56; 56; 56; 56;
   56; 56; 56; 56; 56; 56; 56; 56; 56; 56; 56; 56;
   56; 56; 56; 56; 56; 56; 56; 56; 56; 56; 56; 56;
   56; 56; 57; 57; 57; 57; 57; 57; 57; 57; 57; 57;
   57; 57; 57; 57; 57; 57; 57; 57; 57; 57; 57; 57;
   57; 57; 57; 57; 57; 57; 57; 57; 57; 57; 58; 58;
   58; 58; 58; 58; 58; 58; 58; 58; 58; 58; 58; 58;
   58; 58; 58; 58; 58; 58; 58; 58; 58; 58; 58; 58;
   58; 58; 58; 58; 58; 58; 59; 59; 59; 59; 59; 59;
   59; 59; 59; 59; 59; 59; 59; 59; 59; 59; 59; 59;
   59; 59; 59; 59; 59; 59; 59; 59; 59; 59; 59; 59;
   59; 59; 60; 60; 60; 60; 60; 60; 60; 60; 60; 60;
   60; 60; 60; 60; 60; 60; 60; 60; 60; 60; 60; 60;
   60; 60; 60; 60; 60; 60; 60; 60; 60; 60; 61; 61;
   61; 61; 61; 61; 61; 61; 61; 61; 61; 61; 61; 61;
   61; 61; 61; 61; 61; 61; 61; 61; 61; 61; 61; 61;
   61; 61; 61; 61; 61; 61; 62; 62; 62; 62; 62; 62;
   62; 62; 62; 62; 62; 62; 62; 62; 62; 62; 62; 62;
   62; 62; 62; 62; 62; 62; 62; 62; 62; 62; 62; 62;
   62; 62; 63; 63; 63; 63; 63; 63; 63; 63; 63; 63;
   63; 63; 63; 63; 63; 63; 63; 63; 63; 63; 63; 63;
   63; 63; 63; 63; 63; 63; 63; 63; 63; 63; 64; 64;
   64; 64; 64; 64; 64; 64; 64; 64; 64; 64; 64; 64;
   64; 64; 65; 65; 65; 65; 65; 65; 65; 65; 65; 65;
   65; 65; 65; 65; 65; 65; 66; 66; 66; 66; 66; 66;
   66; 66; 66; 66; 66; 66; 66; 66; 66; 66; 67; 67;
   67; 67; 67; 67; 67; 67; 67; 67; 67; 67; 67; 67;
   67; 67; 68; 68; 68; 68; 68; 68; 68; 68; 68; 68;
   68; 68; 68; 68; 68; 68; 69; 69; 69; 69; 69; 69;
   69; 69; 69; 69; 69; 69; 69; 69; 69; 69; 70; 70;
   70; 70; 70; 70; 70; 70; 70; 70; 70; 70; 70; 70;
   70; 70; 71; 71; 71; 71; 71; 71; 71; 71; 71; 71;
   71; 71; 71; 71; 71; 71; 72; 72; 72; 72; 72; 72;
   72; 72; 72; 72; 72; 72; 72; 72; 72; 72; 73; 73;
   73; 73; 73; 73; 73; 73; 73; 73; 73; 73; 73; 73;
   73; 73; 74; 74; 74; 74; 74; 74; 74; 74; 74; 74;
   74; 74; 74; 74; 74; 74; 75; 75; 75; 75; 75; 75;
   75; 75; 75; 75; 75; 75; 75; 75; 75; 75; 76; 76;
   76; 76; 76; 76; 76; 76; 76; 76; 76; 76; 76; 76;
   76; 76; 77; 77; 77; 77; 77; 77; 77; 77; 77; 77;
   77; 77; 77; 77; 77; 77; 78; 78; 78; 78; 78; 78;
   78; 78; 78; 78; 78; 78; 78; 78; 78; 78; 79; 79;
   79; 79; 79; 79; 79; 79; 79; 79; 79; 79; 79; 79;
   79; 79; 80; 80; 80; 80; 80; 80; 80; 80; 81; 81;
   81; 81; 81; 81; 81; 81; 82; 82; 82; 82; 82; 82;
   82; 82; 83; 83; 83; 83; 83; 83; 83; 83; 84; 84;
   84; 84; 84; 84; 84; 84; 85; 85; 85; 85; 85; 85;
   85; 85; 86; 86; 86; 86; 86; 86; 86; 86; 87; 87;
   87; 87; 87; 87; 87; 87; 88; 88; 88; 88; 88; 88;
   88; 88; 89; 89; 89; 89; 89; 89; 89; 89; 90; 90;
   90; 90; 90; 90; 90; 90; 91; 91; 91; 91; 91; 91;
   91; 91; 92; 92; 92; 92; 92; 92; 92; 92; 93; 93;
   93; 93; 93; 93; 93; 93; 94; 94; 94; 94; 94; 94;
   94; 94; 95; 95; 95; 95; 95; 95; 95; 95; 96; 96;
   96; 96; 97; 97; 97; 97; 98; 98; 98; 98; 99; 99;
   99; 99; 100; 100; 100; 100; 101; 101; 101; 101; 102; 102;
   102; 102; 103; 103; 103; 103; 104; 104; 104; 104; 105; 105;
   105; 105; 106; 106; 106; 106; 107; 107; 107; 107; 108; 108;
   108; 108; 109; 109; 109; 109; 110; 110; 110; 110; 111; 111;
   111; 111; 112; 112; 113; 113; 114; 114; 115; 115; 116; 116;
   117; 117; 118; 118; 119; 119; 120; 120; 121; 121; 122; 122;
   123; 123; 124; 124; 125; 125; 126; 126; 255; 254; 254; 253;
   253; 252; 252; 251; 251; 250; 250; 249; 249; 248; 248; 247;
   247; 246; 246; 245; 245; 244; 244; 243; 243; 242; 242; 241;
   241; 240; 240; 239; 239; 239; 239; 238; 238; 238; 238; 237;
   237; 237; 237; 236; 236; 236; 236; 235; 235; 235; 235; 234;
   234; 234; 234; 233; 233; 233; 233; 232; 232; 232; 232; 231;
   231; 231; 231; 230; 230; 230; 230; 229; 229; 229; 229; 228;
   228; 228; 228; 227; 227; 227; 227; 226; 226; 226; 226; 225;
   225; 225; 225; 224; 224; 224; 224; 223; 223; 223; 223; 223;
   223; 223; 223; 222; 222; 222; 222; 222; 222; 222; 222; 221;
   221; 221; 221; 221; 221; 221; 221; 220; 220; 220; 220; 220;
   220; 220; 220; 219; 219; 219; 219; 219; 219; 219; 219; 218;
   218; 218; 218; 218; 218; 218; 218; 217; 217; 217; 217; 217;
   217; 217; 217; 216; 216; 216; 216; 216; 216; 216; 216; 215;
   215; 215; 215; 215; 215; 215; 215; 214; 214; 214; 214; 214;
   214; 214; 214; 213; 213; 213; 213; 213; 213; 213; 213; 212;
   212; 212; 212; 212; 212; 212; 212; 211; 211; 211; 211; 211;
   211; 211; 211; 210; 210; 210; 210; 210; 210; 210; 210; 209].

Definition _roardsp_pcm142mulaw_5 : list Z := [
   209; 209; 209; 209; 209; 209; 209; 208; 208; 208; 208; 208;
   208; 208; 208; 207; 207; 207; 207; 207; 207; 207; 207; 207;
   207; 207; 207; 207; 207; 207; 207; 206; 206; 206; 206; 206;
   206; 206; 206; 206; 206; 206; 206; 206; 206; 206; 206; 205;
   205; 205; 205; 205; 205; 205; 205; 205; 205; 205; 205; 205;
   205; 205; 205; 204; 204; 204; 204; 204; 204; 204; 204; 204;
   204; 204; 204; 204; 204; 204; 204; 203; 203; 203; 203; 203;
   203; 203; 203; 203; 203; 203; 203; 203; 203; 203; 203; 202;
   202; 202; 202; 202; 202; 202; 202; 202; 202; 202; 202; 202;
   202; 202; 202; 201; 201; 201; 201; 201; 201; 201; 201; 201;
   201; 201; 201; 201; 201; 201; 201; 200; 200; 200; 200; 200;
   200; 200; 200; 200; 200; 200; 200; 200; 200; 200; 200; 199;
   199; 199; 199; 199; 199; 199; 199; 199; 199; 199; 199; 199;
   199; 199; 199; 198; 198; 198; 198; 198; 198; 198; 198; 198;
   198; 198; 198; 198; 198; 198; 198; 197; 197; 197; 197; 197;
   197; 197; 197; 197; 197; 197; 197; 197; 197; 197; 197; 196;
   196; 196; 196; 196; 196; 196; 196; 196; 196; 196; 196; 196;
   196; 196; 196; 195; 195; 195; 195; 195; 195; 195; 195; 195;
   195; 195; 195; 195; 195; 195; 195; 194; 194; 194; 194; 194;
   194; 194; 194; 194; 194; 194; 194; 194; 194; 194; 194; 193;
   193; 193; 193; 193; 193; 193; 193; 193; 193; 193; 193; 193;
   193; 193; 193; 192; 192; 192; 192; 192; 192; 192; 192; 192;
   192; 192; 192; 192; 192; 192; 192; 191; 191; 191; 191; 191;
   191; 191; 191; 191; 191; 191; 191; 191; 191; 191; 191; 191;
   191; 191; 191; 191; 191; 191; 191; 191; 191; 191; 191; 191;
   191; 191; 191; 190; 190; 190; 190; 190; 190; 190; 190; 190;
   190; 190; 190; 190; 190; 190; 190; 190; 190; 190; 190; 190;
   190; 190; 190; 190; 190; 190; 190; 190; 190; 190; 190; 189;
   189; 189; 189; 189; 189; 189; 189; 189; 189; 189; 189; 189;
   189; 189; 189; 189; 189; 189; 189; 189; 189; 189; 189; 189;
   189; 189; 189; 189; 189; 189; 189; 188; 188; 188; 188; 188;
   188; 188; 188; 188; 188; 188; 188; 188; 188; 188; 188; 188;
   188; 188; 188; 188; 188; 188; 188; 188; 188; 188; 188; 188;
   188; 188; 188; 187; 187; 187; 187; 187; 187; 187; 187; 187;
   187; 187; 187; 187; 187; 187; 187; 187; 187; 187; 187; 187;
   187; 187; 187; 187; 187; 187; 187; 187; 187; 187; 187; 186;
   186; 186; 186; 186; 186; 186; 186; 186; 186; 186; 186; 186;
   186; 186; 186; 186; 186; 186; 186; 186; 186; 186; 186; 186;
   186; 186; 186; 186; 186; 186; 186; 185; 185; 185; 185; 185;
   185; 185; 185; 185; 185; 185; 185; 185; 185; 185; 185; 185;
   185; 185; 185; 185; 185; 185; 185; 185; 185; 185; 185; 185;
   185; 185; 185; 184; 184; 184; 184; 184; 184; 184; 184; 184;
   184; 184; 184; 184; 184; 184; 184; 184; 184; 184; 184; 184;
   184; 184; 184; 184; 184; 184; 184; 184; 184; 184; 184; 183;
   183; 183; 183; 183; 183; 183; 183; 183; 183; 183; 183; 183;
   183; 183; 183; 183; 183; 183; 183; 183; 183; 183; 183; 183;
   183; 183; 183; 183; 183; 183; 183; 182; 182; 182; 182; 182;
   182; 182; 182; 182; 182; 182; 182; 182; 182; 182; 182; 182;
   182; 182; 182; 182; 182; 182; 182; 182; 182; 182; 182; 182;
   182; 182; 182; 181; 181; 181; 181; 181; 181; 181; 181; 181;
   181; 181; 181; 181; 181; 181; 181; 181; 181; 181; 181; 181;
   181; 181; 181; 181; 181; 181; 181; 181; 181; 181; 181; 180;
   180; 180; 180; 180; 180; 180; 180; 180; 180; 180; 180; 180;
   180; 180; 180; 180; 180; 180; 180; 180; 180; 180; 180; 180;
   180; 180; 180; 180; 180; 180; 180; 179; 179; 179; 179; 179;
   179; 179; 179; 179; 179; 179; 179; 179; 179; 179; 179; 179;
   179; 179; 179; 179; 179; 179; 179; 179; 179; 179; 179; 179;
   179; 179; 179; 178; 178; 178; 178; 178; 178; 178; 178; 178;
   178; 178; 178; 178; 178; 178; 178; 178; 178; 178; 178; 178;
   178; 178; 178; 178; 178; 178; 178; 178; 178; 178; 178; 177;
   177; 177; 177; 177; 177; 177; 177; 177; 177; 177; 177; 177;
   177; 177; 177; 177; 177; 177; 177; 177; 177; 177; 177; 177;
   177; 177; 177; 177; 177; 177; 177; 176; 176; 176; 176; 176;
   176; 176; 176; 176; 176; 176; 176; 176; 176; 176; 176; 176;
   176; 176; 176; 176; 176; 176; 176; 176; 176; 176; 176; 176;
   176; 176; 176; 175; 175; 175; 175; 175; 175; 175; 175; 175;
   175; 175; 175; 175; 175; 175; 175; 175; 175; 175; 175; 175;
   175; 175; 175; 175; 175; 175; 175; 175; 175; 175; 175; 175;
   175; 175; 175; 175; 175; 175; 175; 175; 175; 175; 175; 175;
   175; 175; 175; 175; 175; 175; 175; 175; 175; 175; 175; 175;
   175; 175; 175; 175; 175; 175; 175; 174; 174; 174; 174; 174;
   174; 174; 174; 174; 174; 174; 174; 174; 174; 174; 174; 174;
   174; 174; 174; 174; 174; 174; 174; 174; 174; 174; 174; 174;
   174; 174; 174; 174; 174; 174; 174; 174; 174; 174; 174; 174;
   174; 174; 174; 174; 174; 174; 174; 174; 174; 174; 174; 174;
   174; 174; 174; 174; 174; 174; 174; 174; 174; 174; 174; 173;
   173; 173; 173; 173; 173; 173; 173; 173; 173; 173; 173; 173;
   173; 173; 173; 173; 173; 173; 173; 173; 173; 173; 173; 173;
   173; 173; 173; 173; 173; 173; 173; 173; 173; 173; 173; 173;
   173; 173; 173; 173; 173; 173; 173; 173; 173; 173; 173; 173;
   173; 173; 173; 173; 173; 173; 173; 173; 173; 173; 173; 173;
   173; 173; 173; 172; 172; 172; 172; 172; 172; 172; 172; 172;
   172; 172; 172; 172; 172; 172; 172; 172; 172; 172; 172; 172;
   172; 172; 172; 172; 172; 172; 172; 172; 172; 172; 172; 172;
   172; 172; 172; 172; 172; 172; 172; 172; 172; 172; 172; 172;
   172; 172; 172; 172; 172; 172; 172; 172; 172; 172; 172; 172;
   172; 172; 172; 172; 172; 172; 172; 171; 171; 171; 171; 171;
   171; 171; 171; 171; 171; 171; 171; 171; 171; 171; 171; 171;
   171; 171; 171; 171; 171; 171; 171; 171; 171; 171; 171; 171;
   171; 171; 171; 171; 171; 171; 171; 171; 171; 171; 171; 171;
   171; 171; 171; 171; 171; 171; 171; 171; 171; 171; 171; 171;
   171; 171; 171; 171; 171; 171; 171; 171; 171; 171; 171; 170;
   170; 170; 170; 170; 170; 170; 170; 170; 170; 170; 170; 170;
   170; 170; 170; 170; 170; 170; 170; 170; 170; 170; 170; 170;
   170; 170; 170; 170; 170; 170; 170; 170; 170; 170; 170; 170;
   170; 170; 170; 170; 170; 170; 170; 170; 170; 170; 170; 170;
   170; 170; 170; 170; 170; 170; 170; 170; 170; 170; 170; 170;
   170; 170; 170; 169; 169; 169; 169; 169; 169; 169; 169; 169;
   169; 169; 169; 169; 169; 169; 169; 169; 169; 169; 169; 169;
   169; 169; 169; 169; 169; 169; 169; 169; 169; 169; 169; 169;
   169; 169; 169; 169; 169; 169; 169; 169; 169; 169; 169; 169;
   169; 169; 169; 169; 169; 169; 169; 169; 169; 169; 169; 169;
   169; 169; 169; 169; 169; 169; 169; 168; 168; 168; 168; 168;
   168; 168; 168; 168; 168; 168; 168; 168; 168; 168; 168; 168;
   168; 168; 168; 168; 168; 168; 168; 168; 168; 168; 168; 168;
   168; 168; 168; 168; 168; 168; 168; 168; 168; 168; 168; 168;
   168; 168; 168; 168; 168; 168; 168; 168; 168; 168; 168; 168;
   168; 168; 168; 168; 168; 168; 168; 168; 168; 168; 168; 167;
   167; 167; 167; 167; 167; 167; 167; 167; 167; 167; 167; 167;
   167; 167; 167; 167; 167; 167; 167; 167; 167; 167; 167; 167;
   167; 167; 167; 167; 167; 167; 167; 167; 167; 167; 167; 167;
   167; 167; 167; 167; 167; 167; 167; 167; 167; 167; 167; 167;
   167; 167; 167; 167; 167; 167; 167; 167; 167; 167; 167; 167;
   167; 167; 167; 166; 166; 166; 166; 166; 166; 166; 166; 166;
   166; 166; 166; 166; 166; 166; 166; 166; 166; 166; 166; 166;
   166; 166; 166; 166; 166; 166; 166; 166; 166; 166; 166; 166;
   166; 166; 166; 166; 166; 166; 166; 166; 166; 166; 166; 166;
   166; 166; 166; 166; 166; 166; 166; 166; 166; 166; 166; 166;
   166; 166; 166; 166; 166; 166; 166; 165; 165; 165; 165; 165;
   165; 165; 165; 165; 165; 165; 165; 165; 165; 165; 165; 165;
   165; 165; 165; 165; 165; 165; 165; 165; 165; 165; 165; 165;
   165; 165; 165; 165; 165; 165; 165; 165; 165; 165; 165; 165;
   165; 165; 165; 165; 165; 165; 165; 165; 165; 165; 165; 165;
   165; 165; 165; 165; 165; 165; 165; 165; 165; 165; 165; 164;
   164; 164; 164; 164; 164; 164; 164; 164; 164; 164; 164; 164;
   164; 164; 164; 164; 164; 164; 164; 164; 164; 164; 164; 164;
   164; 164; 164; 164; 164; 164; 164; 164; 164; 164; 164; 164;
   164; 164; 164; 164; 164; 164; 164; 164; 164; 164; 164; 164;
   164; 164; 164; 164; 164; 164; 164; 164; 164; 164; 164; 164;
   164; 164; 164; 163; 163; 163; 163; 163; 163; 163; 163; 163;
   163; 163; 163; 163; 163; 163; 163; 163; 163; 163; 163; 163;
   163; 163; 163; 163; 163; 163; 163; 163; 163; 163; 163; 163;
   163; 163; 163; 163; 163; 163; 163; 163; 163; 163; 163; 163;
   163; 163; 163; 163; 163; 163; 163; 163; 163; 163; 163; 163;
   163; 163; 163; 163; 163; 163; 163; 162; 162; 162; 162; 162;
   162; 162; 162; 162; 162; 162; 162; 162; 162; 162; 162; 162;
   162; 162; 162; 162; 162; 162; 162; 162; 162; 162; 162; 162;
   162; 162; 162; 162; 162; 162; 162; 162; 162; 162; 162; 162;
   162; 162; 162; 162; 162; 162; 162; 162; 162; 162; 162; 162;
   162; 162; 162; 162; 162; 162; 162; 162; 162; 162; 162; 161].

Definition _roardsp_pcm142mulaw_6 : list Z := [
   161; 161; 161; 161; 161; 161; 161; 161; 161; 161; 161; 161;
   161; 161; 161; 161; 161; 161; 161; 161; 161; 161; 161; 161;
   161; 161; 161; 161; 161; 161; 161; 161; 161; 161; 161; 161;
   161; 161; 161; 161; 161; 161; 161; 161; 161; 161; 161; 161;
   161; 161; 161; 161; 161; 161; 161; 161; 161; 161; 161; 161;
   161; 161; 161; 160; 160; 160; 160; 160; 160; 160; 160; 160;
   160; 160; 160; 160; 160; 160; 160; 160; 160; 160; 160; 160;
   160; 160; 160; 160; 160; 160; 160; 160; 160; 160; 160; 160;
   160; 160; 160; 160; 160; 160; 160; 160; 160; 160; 160; 160;
   160; 160; 160; 160; 160; 160; 160; 160; 160; 160; 160; 160;
   160; 160; 160; 160; 160; 160; 160; 159; 159; 159; 159; 159;
   159; 159; 159; 159; 159; 159; 159; 159; 159; 159; 159; 159;
   159; 159; 159; 159; 159; 159; 159; 159; 159; 159; 159; 159;
   159; 159; 159; 159; 159; 159; 159; 159; 159; 159; 159; 159;
   159; 159; 159; 159; 159; 159; 159; 159; 159; 159; 159; 159;
   159; 159; 159; 159; 159; 159; 159; 159; 159; 159; 159; 159;
   159; 159; 159; 159; 159; 159; 159; 159; 159; 159; 159; 159;
   159; 159; 159; 159; 159; 159; 159; 159; 159; 159; 159; 159;
   159; 159; 159; 159; 159; 159; 159; 159; 159; 159; 159; 159;
   159; 159; 159; 159; 159; 159; 159; 159; 159; 159; 159; 159;
   159; 159; 159; 159; 159; 159; 159; 159; 159; 159; 159; 159;
   159; 159; 159; 158; 158; 158; 158; 158; 158; 158; 158; 158;
   158; 158; 158; 158; 158; 158; 158; 158; 158; 158; 158; 158;
   158; 158; 158; 158; 158; 158; 158; 158; 158; 158; 158; 158;
   158; 158; 158; 158; 158; 158; 158; 158; 158; 158; 158; 158;
   158; 158; 158; 158; 158; 158; 158; 158; 158; 158; 158; 158;
   158; 158; 158; 158; 158; 158; 158; 158; 158; 158; 158; 158;
   158; 158; 158; 158; 158; 158; 158; 158; 158; 158; 158; 158;
   158; 158; 158; 158; 158; 158; 158; 158; 158; 158; 158; 158;
   158; 158; 158; 158; 158; 158; 158; 158; 158; 158; 158; 158;
   158; 158; 158; 158; 158; 158; 158; 158; 158; 158; 158; 158;
   158; 158; 158; 158; 158; 158; 158; 158; 158; 158; 158; 157;
   157; 157; 157; 157; 157; 157; 157; 157; 157; 157; 157; 157;
   157; 157; 157; 157; 157; 157; 157; 157; 157; 157; 157; 157;
   157; 157; 157; 157; 157; 157; 157; 157; 157; 157; 157; 157;
   157; 157; 157; 157; 157; 157; 157; 157; 157; 157; 157; 157;
   157; 157; 157; 157; 157; 157; 157; 157; 157; 157; 157; 157;
   157; 157; 157; 157; 157; 157; 157; 157; 157; 157; 157; 157;
   157; 157; 157; 157; 157; 157; 157; 157; 157; 157; 157; 157;
   157; 157; 157; 157; 157; 157; 157; 157; 157; 157; 157; 157;
   157; 157; 157; 157; 157; 157; 157; 157; 157; 157; 157; 157;
   157; 157; 157; 157; 157; 157; 157; 157; 157; 157; 157; 157;
   157; 157; 157; 157; 157; 157; 157; 156; 156; 156; 156; 156;
   156; 156; 156; 156; 156; 156; 156; 156; 156; 156; 156; 156;
   156; 156; 156; 156; 156; 156; 156; 156; 156; 156; 156; 156;
   156; 156; 156; 156; 156; 156; 156; 156; 156; 156; 156; 156;
   156; 156; 156; 156; 156; 156; 156; 156; 156; 156; 156; 156;
   156; 156; 156; 156; 156; 156; 156; 156; 156; 156; 156; 156;
   156; 156; 156; 156; 156; 156; 156; 156; 156; 156; 156; 156;
   156; 156; 156; 156; 156; 156; 156; 156; 156; 156; 156; 156;
   156; 156; 156; 156; 156; 156; 156; 156; 156; 156; 156; 156;
   156; 156; 156; 156; 156; 156; 156; 156; 156; 156; 156; 156;
   156; 156; 156; 156; 156; 156; 156; 156; 156; 156; 156; 156;
   156; 156; 156; 155; 155; 155; 155; 155; 155; 155; 155; 155;
   155; 155; 155; 155; 155; 155; 155; 155; 155; 155; 155; 155;
   155; 155; 155; 155; 155; 155; 155; 155; 155; 155; 155; 155;
   155; 155; 155; 155; 155; 155; 155; 155; 155; 155; 155; 155;
   155; 155; 155; 155; 155; 155; 155; 155; 155; 155; 155; 155;
   155; 155; 155; 155; 155; 155; 155; 155; 155; 155; 155; 155;
   155; 155; 155; 155; 155; 155; 155; 155; 155; 155; 155; 155;
   155; 155; 155; 155; 155; 155; 155; 155; 155; 155; 155; 155;
   155; 155; 155; 155; 155; 155; 155; 155; 155; 155; 155; 155;
   155; 155; 155; 155; 155; 155; 155; 155; 155; 155; 155; 155;
   155; 155; 155; 155; 155; 155; 155; 155; 155; 155; 155; 154;
   154; 154; 154; 154; 154; 154; 154; 154; 154; 154; 154; 154;
   154; 154; 154; 154; 154; 154; 154; 154; 154; 154; 154; 154;
   154; 154; 154; 154; 154; 154; 154; 154; 154; 154; 154; 154;
   154; 154; 154; 154; 154; 154; 154; 154; 154; 154; 154; 154;
   154; 154; 154; 154; 154; 154; 154; 154; 154; 154; 154; 154;
   154; 154; 154; 154; 154; 154; 154; 154; 154; 154; 154; 154;
   154; 154; 154; 154; 154; 154; 154; 154; 154; 154; 154; 154;
   154; 154; 154; 154; 154; 154; 154; 154; 154; 154; 154; 154;
   154; 154; 154; 154; 154; 154; 154; 154; 154; 154; 154; 154;
   154; 154; 154; 154; 154; 154; 154; 154; 154; 154; 154; 154;
   154; 154; 154; 154; 154; 154; 154; 153; 153; 153; 153; 153;
   153; 153; 153; 153; 153; 153; 153; 153; 153; 153; 153; 153;
   153; 153; 153; 153; 153; 153; 153; 153; 153; 153; 153; 153;
   153; 153; 153; 153; 153; 153; 153; 153; 153; 153; 153; 153;
   153; 153; 153; 153; 153; 153; 153; 153; 153; 153; 153; 153;
   153; 153; 153; 153; 153; 153; 153; 153; 153; 153; 153; 153;
   153; 153; 153; 153; 153; 153; 153; 153; 153; 153; 153; 153;
   153; 153; 153; 153; 153; 153; 153; 153; 153; 153; 153; 153;
   153; 153; 153; 153; 153; 153; 153; 153; 153; 153; 153; 153;
   153; 153; 153; 153; 153; 153; 153; 153; 153; 153; 153; 153;
   153; 153; 153; 153; 153; 153; 153; 153; 153; 153; 153; 153;
   153; 153; 153; 152; 152; 152; 152; 152; 152; 152; 152; 152;
   152; 152; 152; 152; 152; 152; 152; 152; 152; 152; 152; 152;
   152; 152; 152; 152; 152; 152; 152; 152; 152; 152; 152; 152;
   152; 152; 152; 152; 152; 152; 152; 152; 152; 152; 152; 152;
   152; 152; 152; 152; 152; 152; 152; 152; 152; 152; 152; 152;
   152; 152; 152; 152; 152; 152; 152; 152; 152; 152; 152; 152;
   152; 152; 152; 152; 152; 152; 152; 152; 152; 152; 152; 152;
   152; 152; 152; 152; 152; 152; 152; 152; 152; 152; 152; 152;
   152; 152; 152; 152; 152; 152; 152; 152; 152; 152; 152; 152;
   152; 152; 152; 152; 152; 152; 152; 152; 152; 152; 152; 152;
   152; 152; 152; 152; 152; 152; 152; 152; 152; 152; 152; 151;
   151; 151; 151; 151; 151; 151; 151; 151; 151; 151; 151; 151;
   151; 151; 151; 151; 151; 151; 151; 151; 151; 151; 151; 151;
   151; 151; 151; 151; 151; 151; 151; 151; 151; 151; 151; 151;
   151; 151; 151; 151; 151; 151; 151; 151; 151; 151; 151; 151;
   151; 151; 151; 151; 151; 151; 151; 151; 151; 151; 151; 151;
   151; 151; 151; 151; 151; 151; 151; 151; 151; 151; 151; 151;
   151; 151; 151; 151; 151; 151; 151; 151; 151; 151; 151; 151;
   151; 151; 151; 151; 151; 151; 151; 151; 151; 151; 151; 151;
   151; 151; 151; 151; 151; 151; 151; 151; 151; 151; 151; 151;
   151; 151; 151; 151; 151; 151; 151; 151; 151; 151; 151; 151;
   151; 151; 151; 151; 151; 151; 151; 150; 150; 150; 150; 150;
   150; 150; 150; 150; 150; 150; 150; 150; 150; 150; 150; 150;
   150; 150; 150; 150; 150; 150; 150; 150; 150; 150; 150; 150;
   150; 150; 150; 150; 150; 150; 150; 150; 150; 150; 150; 150;
   150; 150; 150; 150; 150; 150; 150; 150; 150; 150; 150; 150;
   150; 150; 150; 150; 150; 150; 150; 150; 150; 150; 150; 150;
   150; 150; 150; 150; 150; 150; 150; 150; 150; 150; 150; 150;
   150; 150; 150; 150; 150; 150; 150; 150; 150; 150; 150; 150;
   150; 150; 150; 150; 150; 150; 150; 150; 150; 150; 150; 150;
   150; 150; 150; 150; 150; 150; 150; 150; 150; 150; 150; 150;
   150; 150; 150; 150; 150; 150; 150; 150; 150; 150; 150; 150;
   150; 150; 150; 149; 149; 149; 149; 149; 149; 149; 149; 149;
   149; 149; 149; 149; 149; 149; 149; 149; 149; 149; 149; 149;
   149; 149; 149; 149; 149; 149; 149; 149; 149; 149; 149; 149;
   149; 149; 149; 149; 149; 149; 149; 149; 149; 149; 149; 149;
   149; 149; 149; 149; 149; 149; 149; 149; 149; 149; 149; 149;
   149; 149; 149; 149; 149; 149; 149; 149; 149; 149; 149; 149;
   149; 149; 149; 149; 149; 149; 149; 149; 149; 149; 149; 149;
   149; 149; 149; 149; 149; 149; 149; 149; 149; 149; 149; 149;
   149; 149; 149; 149; 149; 149; 149; 149; 149; 149; 149; 149;
   149; 149; 149; 149; 149; 149; 149; 149; 149; 149; 149; 149;
   149; 149; 149; 149; 149; 149; 149; 149; 149; 149; 149; 148;
   148; 148; 148; 148; 148; 148; 148; 148; 148; 148; 148; 148;
   148; 148; 148; 148; 148; 148; 148; 148; 148; 148; 148; 148;
   148; 148; 148; 148; 148; 148; 148; 148; 148; 148; 148; 148;
   148; 148; 148; 148; 148; 148; 148; 148; 148; 148; 148; 148;
   148; 148; 148; 148; 148; 148; 148; 148; 148; 148; 148; 148;
   148; 148; 148; 148; 148; 148; 148; 148; 148; 148; 148; 148;
   148; 148; 148; 148; 148; 148; 148; 148; 148; 148; 148; 148;
   148; 148; 148; 148; 148; 148; 148; 148; 148; 148; 148; 148;
   148; 148; 148; 148; 148; 148; 148; 148; 148; 148; 148; 148;
   148; 148; 148; 148; 148; 148; 148; 148; 148; 148; 148; 148;
   148; 148; 148; 148; 148; 148; 148; 147; 147; 147; 147; 147;
   147; 147; 147; 147; 147; 147; 147; 147; 147; 147; 147; 147].

Definition _roardsp_pcm142mulaw_7 : list Z := [
   147; 147; 147; 147; 147; 147; 147; 147; 147; 147; 147; 147;
   147; 147; 147; 147; 147; 147; 147; 147; 147; 147; 147; 147;
   147; 147; 147; 147; 147; 147; 147; 147; 147; 147; 147; 147;
   147; 147; 147; 147; 147; 147; 147; 147; 147; 147; 147; 147;
   147; 147; 147; 147; 147; 147; 147; 147; 147; 147; 147; 147;
   147; 147; 147; 147; 147; 147; 147; 147; 147; 147; 147; 147;
   147; 147; 147; 147; 147; 147; 147; 147; 147; 147; 147; 147;
   147; 147; 147; 147; 147; 147; 147; 147; 147; 147; 147; 147;
   147; 147; 147; 147; 147; 147; 147; 147; 147; 147; 147; 147;
   147; 147; 147; 146; 146; 146; 146; 146; 146; 146; 146; 146;
   146; 146; 146; 146; 146; 146; 146; 146; 146; 146; 146; 146;
   146; 146; 146; 146; 146; 146; 146; 146; 146; 146; 146; 146;
   146; 146; 146; 146; 146; 146; 146; 146; 146; 146; 146; 146;
   146; 146; 146; 146; 146; 146; 146; 146; 146; 146; 146; 146;
   146; 146; 146; 146; 146; 146; 146; 146; 146; 146; 146; 146;
   146; 146; 146; 146; 146; 146; 146; 146; 146; 146; 146; 146;
   146; 146; 146; 146; 146; 146; 146; 146; 146; 146; 146; 146;
   146; 146; 146; 146; 146; 146; 146; 146; 146; 146; 146; 146;
   146; 146; 146; 146; 146; 146; 146; 146; 146; 146; 146; 146;
   146; 146; 146; 146; 146; 146; 146; 146; 146; 146; 146; 145;
   145; 145; 145; 145; 145; 145; 145; 145; 145; 145; 145; 145;
   145; 145; 145; 145; 145; 145; 145; 145; 145; 145; 145; 145;
   145; 145; 145; 145; 145; 145; 145; 145; 145; 145; 145; 145;
   145; 145; 145; 145; 145; 145; 145; 145; 145; 145; 145; 145;
   145; 145; 145; 145; 145; 145; 145; 145; 145; 145; 145; 145;
   145; 145; 145; 145; 145; 145; 145; 145; 145; 145; 145; 145;
   145; 145; 145; 145; 145; 145; 145; 145; 145; 145; 145; 145;
   145; 145; 145; 145; 145; 145; 145; 145; 145; 145; 145; 145;
   145; 145; 145; 145; 145; 145; 145; 145; 145; 145; 145; 145;
   145; 145; 145; 145; 145; 145; 145; 145; 145; 145; 145; 145;
   145; 145; 145; 145; 145; 145; 145; 144; 144; 144; 144; 144;
   144; 144; 144; 144; 144; 144; 144; 144; 144; 144; 144; 144;
   144; 144; 144; 144; 144; 144; 144; 144; 144; 144; 144; 144;
   144; 144; 144; 144; 144; 144; 144; 144; 144; 144; 144; 144;
   144; 144; 144; 144; 144; 144; 144; 144; 144; 144; 144; 144;
   144; 144; 144; 144; 144; 144; 144; 144; 144; 144; 144; 144;
   144; 144; 144; 144; 144; 144; 144; 144; 144; 144; 144; 144;
   144; 144; 144; 144; 144; 144; 144; 144; 144; 144; 144; 144;
   144; 144; 144; 144; 144; 144; 144; 144; 144; 144; 144; 144;
   144; 144; 144; 144; 144; 144; 144; 144; 144; 144; 144; 144;
   144; 144; 144; 144; 144; 144; 144; 144; 144; 144; 144; 144;
   144; 144; 144; 143; 143; 143; 143; 143; 143; 143; 143; 143;
   143; 143; 143; 143; 143; 143; 143; 143; 143; 143; 143; 143;
   143; 143; 143; 143; 143; 143; 143; 143; 143; 143; 143; 143;
   143; 143; 143; 143; 143; 143; 143; 143; 143; 143; 143; 143;
   143; 143; 143; 143; 143; 143; 143; 143; 143; 143; 143; 143;
   143; 143; 143; 143; 143; 143; 143; 143; 143; 143; 143; 143;
   143; 143; 143; 143; 143; 143; 143; 143; 143; 143; 143; 143;
   143; 143; 143; 143; 143; 143; 143; 143; 143; 143; 143; 143;
   143; 143; 143; 143; 143; 143; 143; 143; 143; 143; 143; 143;
   143; 143; 143; 143; 143; 143; 143; 143; 143; 143; 143; 143;
   143; 143; 143; 143; 143; 143; 143; 143; 143; 143; 143; 143;
   143; 143; 143; 143; 143; 143; 143; 143; 143; 143; 143; 143;
   143; 143; 143; 143; 143; 143; 143; 143; 143; 143; 143; 143;
   143; 143; 143; 143; 143; 143; 143; 143; 143; 143; 143; 143;
   143; 143; 143; 143; 143; 143; 143; 143; 143; 143; 143; 143;
   143; 143; 143; 143; 143; 143; 143; 143; 143; 143; 143; 143;
   143; 143; 143; 143; 143; 143; 143; 143; 143; 143; 143; 143;
   143; 143; 143; 143; 143; 143; 143; 143; 143; 143; 143; 143;
   143; 143; 143; 143; 143; 143; 143; 143; 143; 143; 143; 143;
   143; 143; 143; 143; 143; 143; 143; 143; 143; 143; 143; 143;
   143; 143; 143; 143; 143; 143; 143; 143; 143; 143; 143; 143;
   143; 143; 143; 143; 143; 143; 143; 142; 142; 142; 142; 142;
   142; 142; 142; 142; 142; 142; 142; 142; 142; 142; 142; 142;
   142; 142; 142; 142; 142; 142; 142; 142; 142; 142; 142; 142;
   142; 142; 142; 142; 142; 142; 142; 142; 142; 142; 142; 142;
   142; 142; 142; 142; 142; 142; 142; 142; 142; 142; 142; 142;
   142; 142; 142; 142; 142; 142; 142; 142; 142; 142; 142; 142;
   142; 142; 142; 142; 142; 142; 142; 142; 142; 142; 142; 142;
   142; 142; 142; 142; 142; 142; 142; 142; 142; 142; 142; 142;
   142; 142; 142; 142; 142; 142; 142; 142; 142; 142; 142; 142;
   142; 142; 142; 142; 142; 142; 142; 142; 142; 142; 142; 142;
   142; 142; 142; 142; 142; 142; 142; 142; 142; 142; 142; 142;
   142; 142; 142; 142; 142; 142; 142; 142; 142; 142; 142; 142;
   142; 142; 142; 142; 142; 142; 142; 142; 142; 142; 142; 142;
   142; 142; 142; 142; 142; 142; 142; 142; 142; 142; 142; 142;
   142; 142; 142; 142; 142; 142; 142; 142; 142; 142; 142; 142;
   142; 142; 142; 142; 142; 142; 142; 142; 142; 142; 142; 142;
   142; 142; 142; 142; 142; 142; 142; 142; 142; 142; 142; 142;
   142; 142; 142; 142; 142; 142; 142; 142; 142; 142; 142; 142;
   142; 142; 142; 142; 142; 142; 142; 142; 142; 142; 142; 142;
   142; 142; 142; 142; 142; 142; 142; 142; 142; 142; 142; 142;
   142; 142; 142; 142; 142; 142; 142; 142; 142; 142; 142; 142;
   142; 142; 142; 142; 142; 142; 142; 142; 142; 142; 142; 141;
   141; 141; 141; 141; 141; 141; 141; 141; 141; 141; 141; 141;
   141; 141; 141; 141; 141; 141; 141; 141; 141; 141; 141; 141;
   141; 141; 141; 141; 141; 141; 141; 141; 141; 141; 141; 141;
   141; 141; 141; 141; 141; 141; 141; 141; 141; 141; 141; 141;
   141; 141; 141; 141; 141; 141; 141; 141; 141; 141; 141; 141;
   141; 141; 141; 141; 141; 141; 141; 141; 141; 141; 141; 141;
   141; 141; 141; 141; 141; 141; 141; 141; 141; 141; 141; 141;
   141; 141; 141; 141; 141; 141; 141; 141; 141; 141; 141; 141;
   141; 141; 141; 141; 141; 141; 141; 141; 141; 141; 141; 141;
   141; 141; 141; 141; 141; 141; 141; 141; 141; 141; 141; 141;
   141; 141; 141; 141; 141; 141; 141; 141; 141; 141; 141; 141;
   141; 141; 141; 141; 141; 141; 141; 141; 141; 141; 141; 141;
   141; 141; 141; 141; 141; 141; 141; 141; 141; 141; 141; 141;
   141; 141; 141; 141; 141; 141; 141; 141; 141; 141; 141; 141;
   141; 141; 141; 141; 141; 141; 141; 141; 141; 141; 141; 141;
   141; 141; 141; 141; 141; 141; 141; 141; 141; 141; 141; 141;
   141; 141; 141; 141; 141; 141; 141; 141; 141; 141; 141; 141;
   141; 141; 141; 141; 141; 141; 141; 141; 141; 141; 141; 141;
   141; 141; 141; 141; 141; 141; 141; 141; 141; 141; 141; 141;
   141; 141; 141; 141; 141; 141; 141; 141; 141; 141; 141; 141;
   141; 141; 141; 141; 141; 141; 141; 141; 141; 141; 141; 141;
   141; 141; 141; 140; 140; 140; 140; 140; 140; 140; 140; 140;
   140; 140; 140; 140; 140; 140; 140; 140; 140; 140; 140; 140;
   140; 140; 140; 140; 140; 140; 140; 140; 140; 140; 140; 140;
   140; 140; 140; 140; 140; 140; 140; 140; 140; 140; 140; 140;
   140; 140; 140; 140; 140; 140; 140; 140; 140; 140; 140; 140;
   140; 140; 140; 140; 140; 140; 140; 140; 140; 140; 140; 140;
   140; 140; 140; 140; 140; 140; 140; 140; 140; 140; 140; 140;
   140; 140; 140; 140; 140; 140; 140; 140; 140; 140; 140; 140;
   140; 140; 140; 140; 140; 140; 140; 140; 140; 140; 140; 140;
   140; 140; 140; 140; 140; 140; 140; 140; 140; 140; 140; 140;
   140; 140; 140; 140; 140; 140; 140; 140; 140; 140; 140; 140;
   140; 140; 140; 140; 140; 140; 140; 140; 140; 140; 140; 140;
   140; 140; 140; 140; 140; 140; 140; 140; 140; 140; 140; 140;
   140; 140; 140; 140; 140; 140; 140; 140; 140; 140; 140; 140;
   140; 140; 140; 140; 140; 140; 140; 140; 140; 140; 140; 140;
   140; 140; 140; 140; 140; 140; 140; 140; 140; 140; 140; 140;
   140; 140; 140; 140; 140; 140; 140; 140; 140; 140; 140; 140;
   140; 140; 140; 140; 140; 140; 140; 140; 140; 140; 140; 140;
   140; 140; 140; 140; 140; 140; 140; 140; 140; 140; 140; 140;
   140; 140; 140; 140; 140; 140; 140; 140; 140; 140; 140; 140;
   140; 140; 140; 140; 140; 140; 140; 140; 140; 140; 140; 140;
   140; 140; 140; 140; 140; 140; 140; 139; 139; 139; 139; 139;
   139; 139; 139; 139; 139; 139; 139; 139; 139; 139; 139; 139;
   139; 139; 139; 139; 139; 139; 139; 139; 139; 139; 139; 139;
   139; 139; 139; 139; 139; 139; 139; 139; 139; 139; 139; 139;
   139; 139; 139; 139; 139; 139; 139; 139; 139; 139; 139; 139;
   139; 139; 139; 139; 139; 139; 139; 139; 139; 139; 139; 139;
   139; 139; 139; 139; 139; 139; 139; 139; 139; 139; 139; 139;
   139; 139; 139; 139; 139; 139; 139; 139; 139; 139; 139; 139;
   139; 139; 139; 139; 139; 139; 139; 139; 139; 139; 139; 139;
   139; 139; 139; 139; 139; 139; 139; 139; 139; 139; 139; 139;
   139; 139; 139; 139; 139; 139; 139; 139; 139; 139; 139; 139;
   139; 139; 139; 139; 139; 139; 139; 139; 139; 139; 139; 139;
   139; 139; 139; 139; 139; 139; 139; 139; 139; 139; 139; 139;
   139; 139; 139; 139; 139; 139; 139; 139; 139; 139; 139; 139].

Definition _roardsp_pcm142mulaw_8 : list Z := [
   139; 139; 139; 139; 139; 139; 139; 139; 139; 139; 139; 139;
   139; 139; 139; 139; 139; 139; 139; 139; 139; 139; 139; 139;
   139; 139; 139; 139; 139; 139; 139; 139; 139; 139; 139; 139;
   139; 139; 139; 139; 139; 139; 139; 139; 139; 139; 139; 139;
   139; 139; 139; 139; 139; 139; 139; 139; 139; 139; 139; 139;
   139; 139; 139; 139; 139; 139; 139; 139; 139; 139; 139; 139;
   139; 139; 139; 139; 139; 139; 139; 139; 139; 139; 139; 139;
   139; 139; 139; 139; 139; 139; 139; 139; 139; 139; 139; 138;
   138; 138; 138; 138; 138; 138; 138; 138; 138; 138; 138; 138;
   138; 138; 138; 138; 138; 138; 138; 138; 138; 138; 138; 138;
   138; 138; 138; 138; 138; 138; 138; 138; 138; 138; 138; 138;
   138; 138; 138; 138; 138; 138; 138; 138; 138; 138; 138; 138;
   138; 138; 138; 138; 138; 138; 138; 138; 138; 138; 138; 138;
   138; 138; 138; 138; 138; 138; 138; 138; 138; 138; 138; 138;
   138; 138; 138; 138; 138; 138; 138; 138; 138; 138; 138; 138;
   138; 138; 138; 138; 138; 138; 138; 138; 138; 138; 138; 138;
   138; 138; 138; 138; 138; 138; 138; 138; 138; 138; 138; 138;
   138; 138; 138; 138; 138; 138; 138; 138; 138; 138; 138; 138;
   138; 138; 138; 138; 138; 138; 138; 138; 138; 138; 138; 138;
   138; 138; 138; 138; 138; 138; 138; 138; 138; 138; 138; 138;
   138; 138; 138; 138; 138; 138; 138; 138; 138; 138; 138; 138;
   138; 138; 138; 138; 138; 138; 138; 138; 138; 138; 138; 138;
   138; 138; 138; 138; 138; 138; 138; 138; 138; 138; 138; 138;
   138; 138; 138; 138; 138; 138; 138; 138; 138; 138; 138; 138;
   138; 138; 138; 138; 138; 138; 138; 138; 138; 138; 138; 138;
   138; 138; 138; 138; 138; 138; 138; 138; 138; 138; 138; 138;
   138; 138; 138; 138; 138; 138; 138; 138; 138; 138; 138; 138;
   138; 138; 138; 138; 138; 138; 138; 138; 138; 138; 138; 138;
   138; 138; 138; 138; 138; 138; 138; 138; 138; 138; 138; 138;
   138; 138; 138; 137; 137; 137; 137; 137; 137; 137; 137; 137;
   137; 137; 137; 137; 137; 137; 137; 137; 137; 137; 137; 137;
   137; 137; 137; 137; 137; 137; 137; 137; 137; 137; 137; 137;
   137; 137; 137; 137; 137; 137; 137; 137; 137; 137; 137; 137;
   137; 137; 137; 137; 137; 137; 137; 137; 137; 137; 137; 137;
   137; 137; 137; 137; 137; 137; 137; 137; 137; 137; 137; 137;
   137; 137; 137; 137; 137; 137; 137; 137; 137; 137; 137; 137;
   137; 137; 137; 137; 137; 137; 137; 137; 137; 137; 137; 137;
   137; 137; 137; 137; 137; 137; 137; 137; 137; 137; 137; 137;
   137; 137; 137; 137; 137; 137; 137; 137; 137; 137; 137; 137;
   137; 137; 137; 137; 137; 137; 137; 137; 137; 137; 137; 137;
   137; 137; 137; 137; 137; 137; 137; 137; 137; 137; 137; 137;
   137; 137; 137; 137; 137; 137; 137; 137; 137; 137; 137; 137;
   137; 137; 137; 137; 137; 137; 137; 137; 137; 137; 137; 137;
   137; 137; 137; 137; 137; 137; 137; 137; 137; 137; 137; 137;
   137; 137; 137; 137; 137; 137; 137; 137; 137; 137; 137; 137;
   137; 137; 137; 137; 137; 137; 137; 137; 137; 137; 137; 137;
   137; 137; 137; 137; 137; 137; 137; 137; 137; 137; 137; 137;
   137; 137; 137; 137; 137; 137; 137; 137; 137; 137; 137; 137;
   137; 137; 137; 137; 137; 137; 137; 137; 137; 137; 137; 137;
   137; 137; 137; 137; 137; 137; 137; 137; 137; 137; 137; 137;
   137; 137; 137; 137; 137; 137; 137; 136; 136; 136; 136; 136;
   136; 136; 136; 136; 136; 136; 136; 136; 136; 136; 136; 136;
   136; 136; 136; 136; 136; 136; 136; 136; 136; 136; 136; 136;
   136; 136; 136; 136; 136; 136; 136; 136; 136; 136; 136; 136;
   136; 136; 136; 136; 136; 136; 136; 136; 136; 136; 136; 136;
   136; 136; 136; 136; 136; 136; 136; 136; 136; 136; 136; 136;
   136; 136; 136; 136; 136; 136; 136; 136; 136; 136; 136; 136;
   136; 136; 136; 136; 136; 136; 136; 136; 136; 136; 136; 136;
   136; 136; 136; 136; 136; 136; 136; 136; 136; 136; 136; 136;
   136; 136; 136; 136; 136; 136; 136; 136; 136; 136; 136; 136;
   136; 136; 136; 136; 136; 136; 136; 136; 136; 136; 136; 136;
   136; 136; 136; 136; 136; 136; 136; 136; 136; 136; 136; 136;
   136; 136; 136; 136; 136; 136; 136; 136; 136; 136; 136; 136;
   136; 136; 136; 136; 136; 136; 136; 136; 136; 136; 136; 136;
   136; 136; 136; 136; 136; 136; 136; 136; 136; 136; 136; 136;
   136; 136; 136; 136; 136; 136; 136; 136; 136; 136; 136; 136;
   136; 136; 136; 136; 136; 136; 136; 136; 136; 136; 136; 136;
   136; 136; 136; 136; 136; 136; 136; 136; 136; 136; 136; 136;
   136; 136; 136; 136; 136; 136; 136; 136; 136; 136; 136; 136;
   136; 136; 136; 136; 136; 136; 136; 136; 136; 136; 136; 136;
   136; 136; 136; 136; 136; 136; 136; 136; 136; 136; 136; 136;
   136; 136; 136; 136; 136; 136; 136; 136; 136; 136; 136; 135;
   135; 135; 135; 135; 135; 135; 135; 135; 135; 135; 135; 135;
   135; 135; 135; 135; 135; 135; 135; 135; 135; 135; 135; 135;
   135; 135; 135; 135; 135; 135; 135; 135; 135; 135; 135; 135;
   135; 135; 135; 135; 135; 135; 135; 135; 135; 135; 135; 135;
   135; 135; 135; 135; 135; 135; 135; 135; 135; 135; 135; 135;
   135; 135; 135; 135; 135; 135; 135; 135; 135; 135; 135; 135;
   135; 135; 135; 135; 135; 135; 135; 135; 135; 135; 135; 135;
   135; 135; 135; 135; 135; 135; 135; 135; 135; 135; 135; 135;
   135; 135; 135; 135; 135; 135; 135; 135; 135; 135; 135; 135;
   135; 135; 135; 135; 135; 135; 135; 135; 135; 135; 135; 135;
   135; 135; 135; 135; 135; 135; 135; 135; 135; 135; 135; 135;
   135; 135; 135; 135; 135; 135; 135; 135; 135; 135; 135; 135;
   135; 135; 135; 135; 135; 135; 135; 135; 135; 135; 135; 135;
   135; 135; 135; 135; 135; 135; 135; 135; 135; 135; 135; 135;
   135; 135; 135; 135; 135; 135; 135; 135; 135; 135; 135; 135;
   135; 135; 135; 135; 135; 135; 135; 135; 135; 135; 135; 135;
   135; 135; 135; 135; 135; 135; 135; 135; 135; 135; 135; 135;
   135; 135; 135; 135; 135; 135; 135; 135; 135; 135; 135; 135;
   135; 135; 135; 135; 135; 135; 135; 135; 135; 135; 135; 135;
   135; 135; 135; 135; 135; 135; 135; 135; 135; 135; 135; 135;
   135; 135; 135; 135; 135; 135; 135; 135; 135; 135; 135; 135;
   135; 135; 135; 134; 134; 134; 134; 134; 134; 134; 134; 134;
   134; 134; 134; 134; 134; 134; 134; 134; 134; 134; 134; 134;
   134; 134; 134; 134; 134; 134; 134; 134; 134; 134; 134; 134;
   134; 134; 134; 134; 134; 134; 134; 134; 134; 134; 134; 134;
   134; 134; 134; 134; 134; 134; 134; 134; 134; 134; 134; 134;
   134; 134; 134; 134; 134; 134; 134; 134; 134; 134; 134; 134;
   134; 134; 134; 134; 134; 134; 134; 134; 134; 134; 134; 134;
   134; 134; 134; 134; 134; 134; 134; 134; 134; 134; 134; 134;
   134; 134; 134; 134; 134; 134; 134; 134; 134; 134; 134; 134;
   134; 134; 134; 134; 134; 134; 134; 134; 134; 134; 134; 134;
   134; 134; 134; 134; 134; 134; 134; 134; 134; 134; 134; 134;
   134; 134; 134; 134; 134; 134; 134; 134; 134; 134; 134; 134;
   134; 134; 134; 134; 134; 134; 134; 134; 134; 134; 134; 134;
   134; 134; 134; 134; 134; 134; 134; 134; 134; 134; 134; 134;
   134; 134; 134; 134; 134; 134; 134; 134; 134; 134; 134; 134;
   134; 134; 134; 134; 134; 134; 134; 134; 134; 134; 134; 134;
   134; 134; 134; 134; 134; 134; 134; 134; 134; 134; 134; 134;
   134; 134; 134; 134; 134; 134; 134; 134; 134; 134; 134; 134;
   134; 134; 134; 134; 134; 134; 134; 134; 134; 134; 134; 134;
   134; 134; 134; 134; 134; 134; 134; 134; 134; 134; 134; 134;
   134; 134; 134; 134; 134; 134; 134; 134; 134; 134; 134; 134;
   134; 134; 134; 134; 134; 134; 134; 133; 133; 133; 133; 133;
   133; 133; 133; 133; 133; 133; 133; 133; 133; 133; 133; 133;
   133; 133; 133; 133; 133; 133; 133; 133; 133; 133; 133; 133;
   133; 133; 133; 133; 133; 133; 133; 133; 133; 133; 133; 133;
   133; 133; 133; 133; 133; 133; 133; 133; 133; 133; 133; 133;
   133; 133; 133; 133; 133; 133; 133; 133; 133; 133; 133; 133;
   133; 133; 133; 133; 133; 133; 133; 133; 133; 133; 133; 133;
   133; 133; 133; 133; 133; 133; 133; 133; 133; 133; 133; 133;
   133; 133; 133; 133; 133; 133; 133; 133; 133; 133; 133; 133;
   133; 133; 133; 133; 133; 133; 133; 133; 133; 133; 133; 133;
   133; 133; 133; 133; 133; 133; 133; 133; 133; 133; 133; 133;
   133; 133; 133; 133; 133; 133; 133; 133; 133; 133; 133; 133;
   133; 133; 133; 133; 133; 133; 133; 133; 133; 133; 133; 133;
   133; 133; 133; 133; 133; 133; 133; 133; 133; 133; 133; 133;
   133; 133; 133; 133; 133; 133; 133; 133; 133; 133; 133; 133;
   133; 133; 133; 133; 133; 133; 133; 133; 133; 133; 133; 133;
   133; 133; 133; 133; 133; 133; 133; 133; 133; 133; 133; 133;
   133; 133; 133; 133; 133; 133; 133; 133; 133; 133; 133; 133;
   133; 133; 133; 133; 133; 133; 133; 133; 133; 133; 133; 133;
   133; 133; 133; 133; 133; 133; 133; 133; 133; 133; 133; 133;
   133; 133; 133; 133; 133; 133; 133; 133; 133; 133; 133; 133;
   133; 133; 133; 133; 133; 133; 133; 133; 133; 133; 133; 132;
   132; 132; 132; 132; 132; 132; 132; 132; 132; 132; 132; 132;
   132; 132; 132; 132; 132; 132; 132; 132; 132; 132; 132; 132;
   132; 132; 132; 132; 132; 132; 132; 132; 132; 132; 132; 132;
   132; 132; 132; 132; 132; 132; 132; 132; 132; 132; 132; 132].

Definition _roardsp_pcm142mulaw_9 : list Z := [
   132; 132; 132; 132; 132; 132; 132; 132; 132; 132; 132; 132;
   132; 132; 132; 132; 132; 132; 132; 132; 132; 132; 132; 132;
   132; 132; 132; 132; 132; 132; 132; 132; 132; 132; 132; 132;
   132; 132; 132; 132; 132; 132; 132; 132; 132; 132; 132; 132;
   132; 132; 132; 132; 132; 132; 132; 132; 132; 132; 132; 132;
   132; 132; 132; 132; 132; 132; 132; 132; 132; 132; 132; 132;
   132; 132; 132; 132; 132; 132; 132; 132; 132; 132; 132; 132;
   132; 132; 132; 132; 132; 132; 132; 132; 132; 132; 132; 132;
   132; 132; 132; 132; 132; 132; 132; 132; 132; 132; 132; 132;
   132; 132; 132; 132; 132; 132; 132; 132; 132; 132; 132; 132;
   132; 132; 132; 132; 132; 132; 132; 132; 132; 132; 132; 132;
   132; 132; 132; 132; 132; 132; 132; 132; 132; 132; 132; 132;
   132; 132; 132; 132; 132; 132; 132; 132; 132; 132; 132; 132;
   132; 132; 132; 132; 132; 132; 132; 132; 132; 132; 132; 132;
   132; 132; 132; 132; 132; 132; 132; 132; 132; 132; 132; 132;
   132; 132; 132; 132; 132; 132; 132; 132; 132; 132; 132; 132;
   132; 132; 132; 132; 132; 132; 132; 132; 132; 132; 132; 132;
   132; 132; 132; 131; 131; 131; 131; 131; 131; 131; 131; 131;
   131; 131; 131; 131; 131; 131; 131; 131; 131; 131; 131; 131;
   131; 131; 131; 131; 131; 131; 131; 131; 131; 131; 131; 131;
   131; 131; 131; 131; 131; 131; 131; 131; 131; 131; 131; 131;
   131; 131; 131; 131; 131; 131; 131; 131; 131; 131; 131; 131;
   131; 131; 131; 131; 131; 131; 131; 131; 131; 131; 131; 131;
   131; 131; 131; 131; 131; 131; 131; 131; 131; 131; 131; 131;
   131; 131; 131; 131; 131; 131; 131; 131; 131; 131; 131; 131;
   131; 131; 131; 131; 131; 131; 131; 131; 131; 131; 131; 131;
   131; 131; 131; 131; 131; 131; 131; 131; 131; 131; 131; 131;
   131; 131; 131; 131; 131; 131; 131; 131; 131; 131; 131; 131;
   131; 131; 131; 131; 131; 131; 131; 131; 131; 131; 131; 131;
   131; 131; 131; 131; 131; 131; 131; 131; 131; 131; 131; 131;
   131; 131; 131; 131; 131; 131; 131; 131; 131; 131; 131; 131;
   131; 131; 131; 131; 131; 131; 131; 131; 131; 131; 131; 131;
   131; 131; 131; 131; 131; 131; 131; 131; 131; 131; 131; 131;
   131; 131; 131; 131; 131; 131; 131; 131; 131; 131; 131; 131;
   131; 131; 131; 131; 131; 131; 131; 131; 131; 131; 131; 131;
   131; 131; 131; 131; 131; 131; 131; 131; 131; 131; 131; 131;
   131; 131; 131; 131; 131; 131; 131; 131; 131; 131; 131; 131;
   131; 131; 131; 131; 131; 131; 131; 131; 131; 131; 131; 131;
   131; 131; 131; 131; 131; 131; 131; 130; 130; 130; 130; 130;
   130; 130; 130; 130; 130; 130; 130; 130; 130; 130; 130; 130;
   130; 130; 130; 130; 130; 130; 130; 130; 130; 130; 130; 130;
   130; 130; 130; 130; 130; 130; 130; 130; 130; 130; 130; 130;
   130; 130; 130; 130; 130; 130; 130; 130; 130; 130; 130; 130;
   130; 130; 130; 130; 130; 130; 130; 130; 130; 130; 130; 130;
   130; 130; 130; 130; 130; 130; 130; 130; 130; 130; 130; 130;
   130; 130; 130; 130; 130; 130; 130; 130; 130; 130; 130; 130;
   130; 130; 130; 130; 130; 130; 130; 130; 130; 130; 130; 130;
   130; 130; 130; 130; 130; 130; 130; 130; 130; 130; 130; 130;
   130; 130; 130; 130; 130; 130; 130; 130; 130; 130; 130; 130;
   130; 130; 130; 130; 130; 130; 130; 130; 130; 130; 130; 130;
   130; 130; 130; 130; 130; 130; 130; 130; 130; 130; 130; 130;
   130; 130; 130; 130; 130; 130; 130; 130; 130; 130; 130; 130;
   130; 130; 130; 130; 130; 130; 130; 130; 130; 130; 130; 130;
   130; 130; 130; 130; 130; 130; 130; 130; 130; 130; 130; 130;
   130; 130; 130; 130; 130; 130; 130; 130; 130; 130; 130; 130;
   130; 130; 130; 130; 130; 130; 130; 130; 130; 130; 130; 130;
   130; 130; 130; 130; 130; 130; 130; 130; 130; 130; 130; 130;
   130; 130; 130; 130; 130; 130; 130; 130; 130; 130; 130; 130;
   130; 130; 130; 130; 130; 130; 130; 130; 130; 130; 130; 130;
   130; 130; 130; 130; 130; 130; 130; 130; 130; 130; 130; 129;
   129; 129; 129; 129; 129; 129; 129; 129; 129; 129; 129; 129;
   129; 129; 129; 129; 129; 129; 129; 129; 129; 129; 129; 129;
   129; 129; 129; 129; 129; 129; 129; 129; 129; 129; 129; 129;
   129; 129; 129; 129; 129; 129; 129; 129; 129; 129; 129; 129;
   129; 129; 129; 129; 129; 129; 129; 129; 129; 129; 129; 129;
   129; 129; 129; 129; 129; 129; 129; 129; 129; 129; 129; 129;
   129; 129; 129; 129; 129; 129; 129; 129; 129; 129; 129; 129;
   129; 129; 129; 129; 129; 129; 129; 129; 129; 129; 129; 129;
   129; 129; 129; 129; 129; 129; 129; 129; 129; 129; 129; 129;
   129; 129; 129; 129; 129; 129; 129; 129; 129; 129; 129; 129;
   129; 129; 129; 129; 129; 129; 129; 129; 129; 129; 129; 129;
   129; 129; 129; 129; 129; 129; 129; 129; 129; 129; 129; 129;
   129; 129; 129; 129; 129; 129; 129; 129; 129; 129; 129; 129;
   129; 129; 129; 129; 129; 129; 129; 129; 129; 129; 129; 129;
   129; 129; 129; 129; 129; 129; 129; 129; 129; 129; 129; 129;
   129; 129; 129; 129; 129; 129; 129; 129; 129; 129; 129; 129;
   129; 129; 129; 129; 129; 129; 129; 129; 129; 129; 129; 129;
   129; 129; 129; 129; 129; 129; 129; 129; 129; 129; 129; 129;
   129; 129; 129; 129; 129; 129; 129; 129; 129; 129; 129; 129;
   129; 129; 129; 129; 129; 129; 129; 129; 129; 129; 129; 129;
   129; 129; 129; 129; 129; 129; 129; 129; 129; 129; 129; 129;
   129; 129; 129; 128; 128; 128; 128; 128; 128; 128; 128; 128;
   128; 128; 128; 128; 128; 128; 128; 128; 128; 128; 128; 128;
   128; 128; 128; 128; 128; 128; 128; 128; 128; 128; 128; 128;
   128; 128; 128; 128; 128; 128; 128; 128; 128; 128; 128; 128;
   128; 128; 128; 128; 128; 128; 128; 128; 128; 128; 128; 128;
   128; 128; 128; 128; 128; 128; 128; 128; 128; 128; 128; 128;
   128; 128; 128; 128; 128; 128; 128; 128; 128; 128; 128; 128;
   128; 128; 128; 128; 128; 128; 128; 128; 128; 128; 128; 128;
   128; 128; 128; 128; 128; 128; 128; 128; 128; 128; 128; 128;
   128; 128; 128; 128; 128; 128; 128; 128; 128; 128; 128; 128;
   128; 128; 128; 128; 128; 128; 128; 128; 128; 128; 128; 128;
   128; 128; 128; 128; 128; 128; 128; 128; 128; 128; 128; 128;
   128; 128; 128; 128; 128; 128; 128; 128; 128; 128; 128; 128;
   128; 128; 128; 128; 128; 128; 128; 128; 128; 128; 128; 128;
   128; 128; 128; 128; 128; 128; 128; 128; 128; 128; 128; 128;
   128; 128; 128; 128; 128; 128; 128; 128; 128; 128; 128; 128;
   128; 128; 128; 128; 128; 128; 128; 128; 128; 128; 128; 128;
   128; 128; 128; 128; 128; 128; 128; 128; 128; 128; 128; 128;
   128; 128; 128; 128; 128; 128; 128; 128; 128; 128; 128; 128;
   128; 128; 128; 128; 128; 128; 128; 128; 128; 128; 128; 128;
   128; 128; 128; 128; 128; 128; 128; 128; 128; 128; 128; 128;
   128; 128; 128; 128; 128; 128; 128; 128; 128; 128; 128; 128;
   128; 128; 128; 128; 128; 128; 128; 128; 128; 128; 128; 128;
   128; 128; 128; 128; 128; 128; 128; 128; 128; 128; 128; 128;
   128; 128; 128; 128].

Definition _roardsp_pcm142mulaw : list Z :=
  _roardsp_pcm142mulaw_0 ++ _roardsp_pcm142mulaw_1 ++ _roardsp_pcm142mulaw_2 ++ _roardsp_pcm142mulaw_3 ++ _roardsp_pcm142mulaw_4 ++ _roardsp_pcm142mulaw_5 ++ _roardsp_pcm142mulaw_6 ++ _roardsp_pcm142mulaw_7 ++ _roardsp_pcm142mulaw_8 ++ _roardsp_pcm142mulaw_9.
(** ** The conversions *)

(** An entry of a table; an index outside of it is undefined. *)
Definition entry (table : list Z) (i : Z) : outcome Z := if decide (0 ≤ i) then or_ub (table !! Z.to_nat i) else UB.

(** [for (i = len-1; i > -1; i--) out[i] = table[inp[i]];] *)
Definition conv_law2pcm16 (table : list Z) (out inp len : Z) (m : mem) : outcome (Z * mem) :=
  ok (mloop (down len) (λ i m, x ← ld1 inp i m; v ← entry table x; st 2 out i v m) m).

(** [for (i = 0; i < len; i++) out[i] = table[(in[i] + 32768) >> k];] *)
Definition conv_pcm162law (table : list Z) (k out inp len : Z) (m : mem) : outcome (Z * mem) :=
  ok (mloop (up len) (λ i m, x ← ldS 2 inp i m; v ← entry table (Z.shiftr (x + 32768) k); st1 out i v m) m).

Definition roardsp_conv_alaw2pcm16 := conv_law2pcm16 _roardsp_alaw2pcm16.
Definition roardsp_conv_pcm162alaw := conv_pcm162law _roardsp_pcm132alaw 3.
Definition roardsp_conv_mulaw2pcm16 := conv_law2pcm16 _roardsp_mulaw2pcm16.
Definition roardsp_conv_pcm162mulaw := conv_pcm162law _roardsp_pcm142mulaw 2.

(** ** G.711 as a computation

    A code is a sign bit, three bits of a segment and four bits within it,
    with some bits inverted; the values are those of 13 and 14 bits. *)

(** The number of the first segment that reaches the magnitude. *)
Fixpoint segment (ends : list Z) (v : Z) : Z :=
  match ends with [] => 0 | e :: ends => if v <=? e then 0 else 1 + segment ends v end.

Definition alaw_ends : list Z := [0x1F; 0x3F; 0x7F; 0xFF; 0x1FF; 0x3FF; 0x7FF; 0xFFF].
Definition mulaw_ends : list Z := [0x3F; 0x7F; 0xFF; 0x1FF; 0x3FF; 0x7FF; 0xFFF; 0x1FFF].

Definition alaw_encode (v : Z) : Z :=
  let a := if 0 <=? v then v else - v - 1 in
  let s := segment alaw_ends a in
  Z.lxor (if 8 <=? s then 0x7F else Z.lor (Z.shiftl s 4) (Z.land (Z.shiftr a (Z.max 1 s)) 15)) (if 0 <=? v then 0xD5 else 0x55).

Definition mulaw_encode (v : Z) : Z :=
  let a := Z.min (Z.abs v) 8159 + 33 in
  let s := segment mulaw_ends a in
  Z.lxor (if 8 <=? s then 0x7F else Z.lor (Z.shiftl s 4) (Z.land (Z.shiftr a (s + 1)) 15)) (if 0 <=? v then 0xFF else 0x7F).

Definition alaw_decode (c : Z) : Z :=
  let c := Z.lxor c 0x55 in
  let s := Z.shiftr (Z.land c 0x70) 4 in
  let t := Z.shiftl (Z.land c 15) 4 + (if s =? 0 then 0x8 else 0x108) in
  let t := Z.shiftl t (Z.max 0 (s - 1)) in
  if Z.testbit c 7 then t else - t.

Definition mulaw_decode (c : Z) : Z :=
  let c := Z.lxor c 0xFF in
  let t := Z.shiftl (Z.shiftl (Z.land c 15) 3 + 0x84) (Z.shiftr (Z.land c 0x70) 4) in
  if Z.testbit c 7 then 0x84 - t else t - 0x84.

(** ** The tables are that computation *)

(** The entries from the one for [z] on are the values of [f]. *)
Fixpoint tabulates (f : Z → Z) (z : Z) (table : list Z) : bool :=
  match table with [] => true | v :: table => (v =? f z) && tabulates f (z + 1) table end.

Definition is_table (f : Z → Z) (z n : Z) (table : list Z) : bool := tabulates f z table && (Z.of_nat (length table) =? n).

Lemma tabulates_lookup f z table i v : tabulates f z table = true → table !! i = Some v → v = f (z + Z.of_nat i).
Proof.
  revert z i. induction table as [|u table IH]; intros z i; [done|]. cbn. intros [Hu Ht]%andb_prop. destruct i as [|i]; cbn.
  - intros [= <-]. apply Z.eqb_eq in Hu. by rewrite Z.add_0_r.
  - intros Hv. rewrite (IH (z + 1) i Ht Hv). f_equal. lia.
Qed.

Lemma entry_of f z n table i : is_table f z n table = true → z ≤ i < z + n → entry table (i - z) = Done (f i).
Proof.
  unfold is_table. intros [Ht Hn%Z.eqb_eq]%andb_prop Hi. unfold entry. rewrite decide_True by lia.
  destruct (lookup_lt_is_Some_2 table (Z.to_nat (i - z)) ltac:(lia)) as [v Hv]. rewrite Hv. cbn.
  rewrite (tabulates_lookup _ _ _ _ _ Ht Hv). do 2 f_equal. lia.
Qed.

Lemma alaw2pcm16_table : is_table alaw_decode 0 256 _roardsp_alaw2pcm16 = true.
Proof. vm_compute. reflexivity. Qed.
Lemma mulaw2pcm16_table : is_table mulaw_decode 0 256 _roardsp_mulaw2pcm16 = true.
Proof. vm_compute. reflexivity. Qed.
Lemma pcm132alaw_table : is_table alaw_encode (-4096) 8192 _roardsp_pcm132alaw = true.
Proof. vm_compute. reflexivity. Qed.
Lemma pcm142mulaw_table : is_table mulaw_encode (-8192) 16384 _roardsp_pcm142mulaw = true.
Proof. vm_compute. reflexivity. Qed.

(** ** What the functions store *)

Lemma octets_join (cs : list Z) : mjoin ((λ c, [c]) <$> cs) = cs.
Proof. induction cs as [|c cs IH]; [done|]. cbn [fmap list_fmap]. change (mjoin ([c] :: ?x)) with (c :: mjoin x). by f_equal. Qed.

Lemma law2pcm16_run f table out inp cs m : is_table f 0 256 table = true → Forall octet cs →
  mread_at inp (Z.of_nat (length cs)) m = Done cs → 0 ≤ out → out + 2 * Z.of_nat (length cs) ≤ Z.of_nat (length m) →
  inp = out ∨ apart inp 1 out 2 (Z.of_nat (length cs)) →
  conv_law2pcm16 table out inp (Z.of_nat (length cs)) m = ok (mwrite_to out (encode 2 (f <$> cs)) m).
Proof.
  intros Hf Hcs Hr Hout Hfit Hov. unfold conv_law2pcm16, encode. f_equal. rewrite <- list_fmap_compose.
  match goal with |- mloop _ ?body m = _ => pose proof (down_blocks body inp out 1 2 ((λ c, [c]) <$> cs) (le_bytes 2 ∘ f <$> cs) m) as H end.
  rewrite !length_fmap in H. apply H; try done; try lia.
  - apply Forall_fmap, Forall_true. done.
  - apply Forall_fmap, Forall_true. intros c. cbn [compose]. by rewrite length_le_bytes.
  - intros t x y Hx Hy m' Hr' _. rewrite list_lookup_fmap in Hx, Hy. destruct (cs !! t) as [c|] eqn:Ec; [|done].
    injection Hx as <-. injection Hy as <-. pose proof (Forall_lookup_1 _ _ _ _ Hcs Ec) as Hc. unfold octet in Hc.
    unfold ld1, ldU. rewrite Hr', !bind_Done. change (le_val [c]) with (c + 256 * 0).
    replace (c + 256 * 0) with (c - 0) by lia. rewrite (entry_of f 0 256 table c Hf) by lia. by rewrite bind_Done.
  - by rewrite Z.mul_1_l, octets_join.
  - destruct Hov as [->|?]; [left; lia|by right].
Qed.

Lemma pcm162law_run f k table out inp vs m : 0 ≤ k ≤ 15 → is_table f (- 2 ^ (15 - k)) (2 ^ (16 - k)) table = true →
  Forall (sample 2) vs → mread_at inp (2 * Z.of_nat (length vs)) m = Done (encode 2 vs) →
  0 ≤ out → out + Z.of_nat (length vs) ≤ Z.of_nat (length m) → inp = out ∨ apart inp 2 out 1 (Z.of_nat (length vs)) →
  conv_pcm162law table k out inp (Z.of_nat (length vs)) m = ok (mwrite_to out (encode 1 ((λ v, f (Z.shiftr v k)) <$> vs)) m).
Proof.
  intros Hk Hf Hvs Hr Hout Hfit Hov. unfold conv_pcm162law. f_equal.
  rewrite <- (map_up 2 1 (λ v, f (Z.shiftr v k)) out inp vs m) by (done || lia). apply mloop_ext. intros i m'. unfold map_body.
  destruct (ldS_cases 2 inp i m' ltac:(lia)) as [H|H]; [|by rewrite H]. destruct (H m' eq_refl) as (v & Hv & ->). rewrite !bind_Done.
  unfold sample in Hv. change (2 ^ (8 * 2 - 1)) with (2 ^ 15) in Hv.
  assert (E15 : 2 ^ 15 = 2 ^ (15 - k) * 2 ^ k) by (rewrite <- Z.pow_add_r by lia; f_equal; lia).
  assert (E16 : 2 ^ (16 - k) = 2 * 2 ^ (15 - k)) by (replace (16 - k) with (1 + (15 - k)) by lia; rewrite Z.pow_add_r by lia; done).
  pose proof (Z.pow_pos_nonneg 2 k ltac:(lia) ltac:(lia)). rewrite !Z.shiftr_div_pow2 by lia.
  replace (v + 32768) with (v + 2 ^ (15 - k) * 2 ^ k) by (rewrite <- E15; done). rewrite Z.div_add by lia.
  replace (v / 2 ^ k + 2 ^ (15 - k)) with (v / 2 ^ k - - 2 ^ (15 - k)) by lia.
  rewrite (entry_of f (- 2 ^ (15 - k)) (2 ^ (16 - k)) table); [by rewrite bind_Done|done|].
  split; [apply Z.div_le_lower_bound; nia|]. apply Z.div_lt_upper_bound; nia.
Qed.

(** C37: the four functions compute G.711: each table entry is what the
    segments and steps of the standard give, no index leaves a table, and
    the octets and samples may be converted in place. *)
Theorem g711_reference (out inp : Z) (cs vs : list Z) (m : mem) :
  (Forall octet cs → mread_at inp (Z.of_nat (length cs)) m = Done cs → 0 ≤ out → out + 2 * Z.of_nat (length cs) ≤ Z.of_nat (length m) →
   inp = out ∨ apart inp 1 out 2 (Z.of_nat (length cs)) →
   roardsp_conv_alaw2pcm16 out inp (Z.of_nat (length cs)) m = ok (mwrite_to out (encode 2 (alaw_decode <$> cs)) m) ∧
   roardsp_conv_mulaw2pcm16 out inp (Z.of_nat (length cs)) m = ok (mwrite_to out (encode 2 (mulaw_decode <$> cs)) m)) ∧
  (Forall (sample 2) vs → mread_at inp (2 * Z.of_nat (length vs)) m = Done (encode 2 vs) →
   0 ≤ out → out + Z.of_nat (length vs) ≤ Z.of_nat (length m) → inp = out ∨ apart inp 2 out 1 (Z.of_nat (length vs)) →
   roardsp_conv_pcm162alaw out inp (Z.of_nat (length vs)) m = ok (mwrite_to out (encode 1 ((λ v, alaw_encode (Z.shiftr v 3)) <$> vs)) m) ∧
   roardsp_conv_pcm162mulaw out inp (Z.of_nat (length vs)) m = ok (mwrite_to out (encode 1 ((λ v, mulaw_encode (Z.shiftr v 2)) <$> vs)) m)).
Proof.
  split; intros; split.
  - by apply law2pcm16_run; [exact alaw2pcm16_table|..].
  - by apply law2pcm16_run; [exact mulaw2pcm16_table|..].
  - by apply (pcm162law_run alaw_encode 3); [lia|exact pcm132alaw_table|..].
  - by apply (pcm162law_run mulaw_encode 2); [lia|exact pcm142mulaw_table|..].
Qed.

(** ** The round trip *)

Lemma all_octets (P : Z → bool) : forallb P (seqZ 0 256) = true → ∀ c, octet c → P c = true.
Proof.
  intros H c Hc. rewrite forallb_forall in H. apply H. apply list_elem_of_In, elem_of_seqZ. unfold octet in Hc. lia.
Qed.

(** The second of the two codes of mu-law that mean zero. *)
Definition mulaw_canonical (c : Z) : Z := if c =? 127 then 255 else c.

Lemma alaw_codes c : octet c → sample 2 (alaw_decode c) ∧ alaw_encode (Z.shiftr (alaw_decode c) 3) = c.
Proof.
  intros Hc. assert (H : (let v := alaw_decode c in (-32768 <=? v) && (v <? 32768) && (alaw_encode (Z.shiftr v 3) =? c)) = true).
  { revert c Hc. apply all_octets. vm_compute. reflexivity. }
  cbn zeta in H. unfold sample. change (2 ^ (8 * 2 - 1)) with 32768. lia.
Qed.

Lemma mulaw_codes c : octet c → sample 2 (mulaw_decode c) ∧ mulaw_encode (Z.shiftr (mulaw_decode c) 2) = mulaw_canonical c.
Proof.
  intros Hc. assert (H : (let v := mulaw_decode c in (-32768 <=? v) && (v <? 32768) && (mulaw_encode (Z.shiftr v 2) =? mulaw_canonical c)) = true).
  { revert c Hc. apply all_octets. vm_compute. reflexivity. }
  cbn zeta in H. unfold sample. change (2 ^ (8 * 2 - 1)) with 32768. lia.
Qed.

Lemma law_roundtrip dec enc k (fd fe g : Z → Z) p cs m :
  0 ≤ k ≤ 15 → is_table fd 0 256 dec = true → is_table fe (- 2 ^ (15 - k)) (2 ^ (16 - k)) enc = true →
  (∀ c, octet c → sample 2 (fd c) ∧ fe (Z.shiftr (fd c) k) = g c ∧ octet (g c)) → Forall octet cs →
  mread_at p (Z.of_nat (length cs)) m = Done cs → p + 2 * Z.of_nat (length cs) ≤ Z.of_nat (length m) →
  ∃ m1 m2, conv_law2pcm16 dec p p (Z.of_nat (length cs)) m = Done (0, m1) ∧
    conv_pcm162law enc k p p (Z.of_nat (length cs)) m1 = Done (0, m2) ∧
    mread_at p (Z.of_nat (length cs)) m2 = Done (g <$> cs).
Proof.
  intros Hk Hd He Hg Hcs Hr Hfit. pose proof Hr as (Hp & _)%mread_at_Done.
  rewrite (law2pcm16_run fd) by (done || by left).
  destruct (stored p 2 (fd <$> cs) m (2 * Z.of_nat (length cs))) as (m1 & -> & R1 & L1); [done|by rewrite length_fmap|done|done|].
  exists m1. assert (Hs : Forall (sample 2) (fd <$> cs)).
  { apply Forall_fmap. eapply Forall_impl; [exact Hcs|]. intros c Hc. by apply Hg. }
  assert (E : (λ v, fe (Z.shiftr v k)) <$> (fd <$> cs) = g <$> cs).
  { rewrite <- list_fmap_compose. apply list_fmap_ext. intros i c Hc. cbn. apply Hg. by apply (Forall_lookup_1 _ _ _ _ Hcs Hc). }
  assert (Hgo : Forall octet (g <$> cs)).
  { apply Forall_fmap. eapply Forall_impl; [exact Hcs|]. intros c Hc. by apply Hg. }
  rewrite <- (length_fmap fd cs) in R1 |- *. rewrite (pcm162law_run fe k); try done; [|rewrite length_fmap; lia|by left]. rewrite E.
  destruct (stored p 1 (g <$> cs) m1 (Z.of_nat (length (fd <$> cs)))) as (m2 & -> & R2 & L2); [done|rewrite !length_fmap; lia|done|rewrite length_fmap; lia|].
  exists m2. split_and!; try done. by rewrite R2, encode_octets.
Qed.

(** C38: octets of A-law decoded to 16 bits and encoded again, both in place,
    are the same octets; those of mu-law as well, except that of the two
    codes for zero only one comes back. *)
Theorem g711_roundtrip (p : Z) (cs : list Z) (m : mem) :
  Forall octet cs → mread_at p (Z.of_nat (length cs)) m = Done cs → p + 2 * Z.of_nat (length cs) ≤ Z.of_nat (length m) →
  (∃ m1 m2, roardsp_conv_alaw2pcm16 p p (Z.of_nat (length cs)) m = Done (0, m1) ∧
    roardsp_conv_pcm162alaw p p (Z.of_nat (length cs)) m1 = Done (0, m2) ∧ mread_at p (Z.of_nat (length cs)) m2 = Done cs) ∧
  (∃ m1 m2, roardsp_conv_mulaw2pcm16 p p (Z.of_nat (length cs)) m = Done (0, m1) ∧
    roardsp_conv_pcm162mulaw p p (Z.of_nat (length cs)) m1 = Done (0, m2) ∧
    mread_at p (Z.of_nat (length cs)) m2 = Done (mulaw_canonical <$> cs)).
Proof.
  intros Hcs Hr Hfit. split.
  - destruct (law_roundtrip _ _ 3 _ _ id p cs m ltac:(lia) alaw2pcm16_table pcm132alaw_table) as (m1 & m2 & E1 & E2 & R); try done.
    + intros c Hc. by destruct (alaw_codes c Hc).
    + rewrite list_fmap_id in R. by exists m1, m2.
  - apply (law_roundtrip _ _ 2 _ _ mulaw_canonical p cs m ltac:(lia) mulaw2pcm16_table pcm142mulaw_table); try done.
    intros c Hc. destruct (mulaw_codes c Hc). split_and!; try done. unfold mulaw_canonical, octet in *. case_match; lia.
Qed.

(** ** Instances *)

Lemma g711_reference_witness :
  roardsp_conv_mulaw2pcm16 0 0 2 [0; 255; 0; 0] = ok (mwrite_to 0 (encode 2 [-32124; 0]) [0; 255; 0; 0]) ∧
  roardsp_conv_pcm162alaw 0 0 1 [0; 1] = ok (mwrite_to 0 (encode 1 [0xC5]) [0; 1]).
Proof.
  split.
  - apply (proj1 (g711_reference 0 0 [0; 255] [] [0; 255; 0; 0])); [unfold octet; zdecide|reflexivity|done|done|by left].
  - apply (proj2 (g711_reference 0 0 [] [256] [0; 1])); [unfold sample; zdecide|reflexivity|done|done|by left].
Defined.

Lemma g711_roundtrip_witness :
  (∃ m1 m2, roardsp_conv_alaw2pcm16 0 0 3 [0; 127; 213; 9; 9; 9] = Done (0, m1) ∧
    roardsp_conv_pcm162alaw 0 0 3 m1 = Done (0, m2) ∧ mread_at 0 3 m2 = Done [0; 127; 213]) ∧
  (∃ m1 m2, roardsp_conv_mulaw2pcm16 0 0 3 [0; 127; 213; 9; 9; 9] = Done (0, m1) ∧
    roardsp_conv_pcm162mulaw 0 0 3 m1 = Done (0, m2) ∧ mread_at 0 3 m2 = Done [0; 255; 213]).
Proof. apply (g711_roundtrip 0 [0; 127; 213] [0; 127; 213; 9; 9; 9]); [unfold octet; zdecide|reflexivity|done]. Defined.
