(* ===== verification/Auth.v ===== *)
(** * Authentication ([libroar/auth.c], [roard/auth.c])

    The authentication message, the server's ring of keys, and the check of a
    message against it.  [ServerState.v] keeps the ring among the globals. *)
From S2P Require Import Prelude Vio Proto.

(** ** The authentication message *)

Definition ROAR_AUTH_T_AUTO : Z := -1.
Definition ROAR_AUTH_T_NONE : Z := 0.
Definition ROAR_AUTH_T_COOKIE : Z := 1.
Definition ROAR_AUTH_T_TRUST : Z := 2.
Definition ROAR_AUTH_T_PASSWORD : Z := 3.
Definition ROAR_AUTH_T_SYSUSER : Z := 4.
Definition ROAR_CMD_AUTH : Z := 2.

(** [struct roar_auth_message]; [am_data] are the octets that can be read from
    the pointer on (none for [NULL]). *)
Record auth_message := AuthMessage {
  am_type : Z; am_stage : Z; am_reserved : Z * Z; am_data : list Z; am_len : Z }.

(** [data] is the separate buffer of a long message. *)
Definition roar_auth_from_mes (mes : message) (data : option (list Z)) : outcome auth_message :=
  let ibuf := default (m_data mes) data in
  let n := Z.min (m_datalen mes) 4 in
  h ← (if n <? 0 then UB else or_ub (mread 0 (Z.to_nat n) ibuf));
  let header := (h : list Z) ++ replicate (4 - length h) 0 in
  c0 ← aget header 0; c1 ← aget header 1; c2 ← aget header 2; c3 ← aget header 3;
  Done (AuthMessage (s8 c0) (s8 c1) (s8 c2, s8 c3)
          (if 4 <? m_datalen mes then drop 4 ibuf else [])
          (if 4 <? m_datalen mes then m_datalen mes - 4 else 0)).

(** The header and the payload are stored to [obuf], the message's own buffer
    or a new one of [len + 4] octets.  [data] tells whether the caller passes
    a pointer for the latter. *)
Definition roar_auth_to_mes (data : bool) (ames : auth_message)
  : outcome (message * option (list Z)) :=
  let long := Z.of_nat LIBROAR_BUFFER_MSGDATA <? am_len ames + 4 in
  if long && negb data then UB
  else
    let obuf := replicate (if long then Z.to_nat (am_len ames + 4) else LIBROAR_BUFFER_MSGDATA) 0 in
    obuf ← or_ub (mwrite 0 [u8 (am_type ames); u8 (am_stage ames);
                            u8 (am_reserved ames).1; u8 (am_reserved ames).2] obuf);
    payload ← or_ub (mread 0 (Z.to_nat (am_len ames)) (am_data ames));
    obuf ← or_ub (mwrite 8 payload obuf);
    let m := zero_message<|m_cmd := ROAR_CMD_AUTH|><|m_datalen := am_len ames + 4|> in
    Done (if long then (m, Some obuf) else (m<|m_data := obuf|>, None)).

(** The caller stores the payload to the place [roar_auth_init_mes] returns:
    octet 4 of the message. *)
Definition roar_auth_init_mes (ames : auth_message) : Z * message :=
  if Z.of_nat LIBROAR_BUFFER_MSGDATA <? am_len ames + 4 then (-1, zero_message)
  else (0, zero_message<|m_cmd := ROAR_CMD_AUTH|><|m_datalen := am_len ames + 4|>
             <|m_data := [u8 (am_type ames); u8 (am_stage ames);
                          u8 (am_reserved ames).1; u8 (am_reserved ames).2]
                         ++ replicate 76 0|>).

Definition g_authts : list (Z * string) := [
  (0, "none"); (1, "cookie"); (2, "trust"); (3, "password"); (4, "sysuser"); (5, "openpgp");
  (6, "openpgp"); (7, "openpgp"); (8, "kerberos"); (9, "rhost"); (10, "xauth"); (11, "ident")
]%string.

Definition roar_str2autht (str : string) : Z :=
  match list_find (λ e : Z * string, strcaseeq e.2 str = true) g_authts with
  | Some (_, (t, _)) => t
  | None => -1
  end.

Definition roar_autht2str (auth : Z) : string :=
  match list_find (λ e : Z * string, e.1 = auth) g_authts with
  | Some (_, (_, s)) => s
  | None => "(UNKNOWN)"
  end.

(** ** The ring of keys *)

Definition AUTH_KEYRING_LEN : nat := 8.
Definition AT_TRUST_MAX_ENTRYS : nat := 8.

(** [union auth_typeunion]; an array with its length is a list. *)
Inductive auth_typeunion :=
  | AtNone
  | AtCookie (cookie : list Z)
  | AtTrust (pids uids gids : list Z)
  | AtPassword (password : list Z).

Record auth_key := AuthKey { ak_type : Z; ak_acclev : Z; ak_data : auth_typeunion }.

Definition empty_key : auth_key := AuthKey ROAR_AUTH_T_AUTO 0 AtNone.
Definition auth_init : list auth_key := replicate AUTH_KEYRING_LEN empty_key.

(** The first free entry of the ring gets a key; [at_data] is what the caller
    stores through the pointer it gets. *)
Definition auth_regkey_simple (type acclev : Z) (at_data : auth_typeunion) (ring : list auth_key)
  : option (list auth_key) :=
  match list_find (λ k, ak_type k = ROAR_AUTH_T_AUTO) ring with
  | Some (i, _) => Some (<[i := AuthKey type acclev at_data]> ring)
  | None => None
  end.

Definition auth_addkey (type acclev : Z) (at_data : auth_typeunion) (ring : list auth_key)
  : Z * list auth_key :=
  match auth_regkey_simple type acclev at_data ring with
  | Some ring => (0, ring)
  | None => (-1, ring)
  end.

Definition auth_addkey_anonymous (acclev : Z) := auth_addkey ROAR_AUTH_T_NONE acclev AtNone.
Definition auth_addkey_password (acclev : Z) (password : list Z) :=
  auth_addkey ROAR_AUTH_T_PASSWORD acclev (AtPassword password).
Definition auth_addkey_cookie (acclev : Z) (cookie : list Z) :=
  auth_addkey ROAR_AUTH_T_COOKIE acclev (AtCookie cookie).

(** [_block]: the arguments up to and including -1 are stored to an array;
    [var] is the last one read, [arr] what is stored so far.  The [continue] of
    a full array goes on with the loop's condition. *)
Fixpoint trust_block (fuel : nat) (args : list Z) (var : Z) (arr : list Z)
  : outcome (list Z * list Z) :=
  match fuel with
  | O => Fuel
  | S fuel =>
      if Nat.eqb (length arr) AT_TRUST_MAX_ENTRYS then
        if u32 var =? u32 (-1) then Done (arr, args) else trust_block fuel args var arr
      else
        match args with
        | [] => UB
        | var :: args =>
            if u32 var =? u32 (-1) then Done (arr ++ [var], args)
            else trust_block fuel args var (arr ++ [var])
        end
  end.

(** [args] are the arguments after [acclev]. *)
Definition auth_addkey_trust (fuel : nat) (acclev : Z) (args : list Z) (ring : list auth_key)
  : outcome (Z * list auth_key) :=
  match auth_regkey_simple ROAR_AUTH_T_TRUST acclev (AtTrust [] [] []) ring with
  | None => Done (-1, ring)
  | Some _ =>
      pids ← trust_block fuel args 0 [];
      uids ← trust_block fuel pids.2 0 [];
      gids ← trust_block fuel uids.2 0 [];
      Done (0, default ring (auth_regkey_simple ROAR_AUTH_T_TRUST acclev
                               (AtTrust pids.1 uids.1 gids.1) ring))
  end.

(** ** The check *)

(** [memcmp] of a secret with the payload of the message. *)
Definition ck_secret (secret : list Z) (authmes : auth_message) : outcome Z :=
  if Z.of_nat (length secret) =? am_len authmes then
    p ← or_ub (mread 0 (length secret) (am_data authmes));
    Done (if decide (p = secret) then 1 else -1)
  else Done (-1).

Definition ck_cookie (key : auth_key) (authmes : auth_message) : outcome Z :=
  match ak_data key with AtCookie c => ck_secret c authmes | _ => UB end.
Definition ck_password (key : auth_key) (authmes : auth_message) : outcome Z :=
  match ak_data key with AtPassword p => ck_secret p authmes | _ => UB end.

(** [uid] and [gid] are the client's, signed; those of the key are unsigned. *)
Definition ck_trust (key : auth_key) (uid gid : Z) : outcome Z :=
  match ak_data key with
  | AtTrust _ uids gids =>
      Done (if existsb (λ u, u32 u =? u32 uid) uids || existsb (λ g, u32 g =? u32 gid) gids
            then 1 else -1)
  | _ => UB
  end.

(** The loop of [auth_client_ckeck]; [None] is the [return -1] of a key type
    that is not implemented. *)
Definition check_key (key : auth_key) (uid gid : Z) (authmes : auth_message) : outcome (option Z) :=
  if ak_type key =? ROAR_AUTH_T_NONE then Done (Some 1)
  else if ak_type key =? ROAR_AUTH_T_PASSWORD then r ← ck_password key authmes; Done (Some r)
  else if ak_type key =? ROAR_AUTH_T_COOKIE then r ← ck_cookie key authmes; Done (Some r)
  else if ak_type key =? ROAR_AUTH_T_TRUST then r ← ck_trust key uid gid; Done (Some r)
  else Done None.

(** The return value, and the client's new access level if it gets one. *)
Fixpoint auth_client_ckeck (ring : list auth_key) (uid gid : Z) (authmes : auth_message)
  : outcome (Z * option Z) :=
  match ring with
  | [] => Done (-1, None)
  | key :: ring =>
      if ak_type key =? am_type authmes then
        r ← check_key key uid gid authmes;
        match r with
        | None => Done (-1, None)
        | Some r =>
            if r =? -1 then auth_client_ckeck ring uid gid authmes
            else if r =? 0 then Done (0, None)
            else if r =? 1 then Done (1, Some (ak_acclev key))
            else Done (-1, None)
        end
      else auth_client_ckeck ring uid gid authmes
  end.

(** A level comes with the return value 1 only. *)
Lemma auth_level_granted ring uid gid m r l :
  auth_client_ckeck ring uid gid m = Done (r, Some l) → r = 1.
Proof.
  induction ring as [|k ring IH]; cbn [auth_client_ckeck]; [done|]. case_match; [|done].
  intros (x & _ & H')%bind_Done_inv. repeat case_match; simplify_eq; auto.
Qed.

(** ** Which key decides *)

Definition payload (m : auth_message) : list Z := take (Z.to_nat (am_len m)) (am_data m).
Definition payload_there (m : auth_message) : Prop :=
  0 ≤ am_len m ≤ Z.of_nat (length (am_data m)).

(** A key accepts a message of its type that proves the secret or comes from a
    listed user or group. *)
Definition accepts (uid gid : Z) (m : auth_message) (k : auth_key) : Prop :=
  ak_type k = am_type m ∧
  match ak_data k with
  | AtNone => ak_type k = ROAR_AUTH_T_NONE
  | AtCookie c => payload m = c
  | AtPassword p => payload m = p
  | AtTrust _ uids gids => u32 uid ∈ (u32 <$> uids) ∨ u32 gid ∈ (u32 <$> gids)
  end.
#[export] Instance accepts_dec uid gid m k : Decision (accepts uid gid m k).
Proof. unfold accepts. destruct (ak_data k); apply _. Defined.

(** What the [auth_addkey] functions leave in the ring. *)
Definition key_ok (k : auth_key) : Prop :=
  match ak_data k with
  | AtNone => ak_type k = ROAR_AUTH_T_AUTO ∨ ak_type k = ROAR_AUTH_T_NONE
  | AtCookie _ => ak_type k = ROAR_AUTH_T_COOKIE
  | AtTrust _ _ _ => ak_type k = ROAR_AUTH_T_TRUST
  | AtPassword _ => ak_type k = ROAR_AUTH_T_PASSWORD
  end.
Definition ring_ok (ring : list auth_key) : Prop :=
  length ring = AUTH_KEYRING_LEN ∧ Forall key_ok ring.

Lemma auth_init_ok : ring_ok auth_init.
Proof. split; [done|]. apply Forall_replicate. by left. Qed.

Lemma regkey_spec type acclev d ring ring' :
  auth_regkey_simple type acclev d ring = Some ring' ↔
  ∃ i k, ring !! i = Some k ∧ ak_type k = ROAR_AUTH_T_AUTO ∧
    (∀ j k', ring !! j = Some k' → (j < i)%nat → ak_type k' ≠ ROAR_AUTH_T_AUTO) ∧
    ring' = <[i := AuthKey type acclev d]> ring.
Proof.
  unfold auth_regkey_simple. destruct (list_find _ ring) as [[i k]|] eqn:Ef.
  - apply list_find_Some in Ef as (Hi & Hk & Hbefore). split.
    + intros [= <-]. eauto 10.
    + intros (j & k' & Hj & Hk' & Hb & ->). do 3 f_equal.
      destruct (Nat.lt_trichotomy i j) as [Hij|[Hij|Hij]]; [|done|]; exfalso;
        [exact (Hb _ _ Hi Hij Hk)|exact (Hbefore _ _ Hj Hij Hk')].
  - split; [done|]. intros (i & k & Hi & Hk & _). apply list_find_None in Ef.
    rewrite Forall_lookup in Ef. by destruct (Ef _ _ Hi).
Qed.

Lemma addkey_ok type acclev d ring :
  key_ok (AuthKey type acclev d) → ring_ok ring → ring_ok (auth_addkey type acclev d ring).2.
Proof.
  intros Hk [Hl Hr]. unfold auth_addkey.
  destruct (auth_regkey_simple type acclev d ring) as [ring'|] eqn:Er; [|done].
  apply regkey_spec in Er as (i & k & _ & _ & _ & ->). split; cbn [snd].
  - by rewrite length_insert.
  - by apply Forall_insert.
Qed.

Lemma ck_secret_ok c m :
  payload_there m → ck_secret c m = Done (if decide (payload m = c) then 1 else -1).
Proof.
  intros [H0 Hlen]. unfold ck_secret, payload. destruct (Z.eqb_spec (Z.of_nat (length c)) (am_len m)) as [Hc|Hc].
  - rewrite <- (take_drop (length c) (am_data m)) at 1.
    rewrite mread_0 by (rewrite length_take; lia). cbn [or_ub]. rewrite bind_Done.
    by replace (Z.to_nat (am_len m)) with (length c) by lia.
  - rewrite decide_False; [done|]. intros Hp. apply (f_equal length) in Hp.
    rewrite length_take in Hp. lia.
Qed.

Lemma existsb_u32 x l : existsb (λ u, u32 u =? u32 x) l = bool_decide (u32 x ∈ (u32 <$> l)).
Proof.
  apply eq_true_iff_eq. rewrite existsb_exists, bool_decide_eq_true, list_elem_of_fmap.
  split; intros (y & H1 & H2).
  - exists y. apply Z.eqb_eq in H2. split; [done|by apply list_elem_of_In].
  - exists y. split; [by apply list_elem_of_In|by apply Z.eqb_eq].
Qed.

Lemma check_key_ok k uid gid m :
  key_ok k → ak_type k = am_type m → ak_type k ≠ ROAR_AUTH_T_AUTO → payload_there m →
  check_key k uid gid m = Done (Some (if decide (accepts uid gid m k) then 1 else -1)).
Proof.
  intros Hk Ht Ha Hp. unfold check_key, ck_password, ck_cookie, ck_trust, accepts.
  unfold key_ok in Hk. destruct k as [t l d]; cbn [ak_type ak_data] in *.
  destruct d as [|c|ps us gs|p]; [destruct Hk as [Hk|Hk]; [done|]|..]; rewrite Hk in *; cbn -[decide].
  - by rewrite decide_True.
  - rewrite ck_secret_ok by done. cbn -[decide]. do 2 f_equal. apply decide_ext. tauto.
  - rewrite !existsb_u32, <- bool_decide_or. do 2 f_equal.
    case_bool_decide; case_decide; tauto.
  - rewrite ck_secret_ok by done. cbn -[decide]. do 2 f_equal. apply decide_ext. tauto.
Qed.

(** An unused entry accepts nothing. *)
Lemma auto_refused k uid gid m :
  key_ok k → am_type m = ROAR_AUTH_T_AUTO → ¬ accepts uid gid m k.
Proof.
  unfold key_ok, accepts. destruct k as [t l []]; cbn; intros Hk Hm [Ht ?];
    rewrite Hm in Ht; rewrite Ht in *; first [by destruct Hk|done].
Qed.

(** C6: [auth_client_ckeck] never misreads a key, and for every ring the
    [auth_addkey] functions can build it gives a client exactly the access
    level of the first key of the ring that accepts the message: no level
    without a key of the message's type whose secret is the payload, or that
    lists the client's user or group.  The type AUTO of the unused entries,
    which a client can send, is refused. *)
Theorem auth_check_spec (ring : list auth_key) (uid gid : Z) (m : auth_message)
    (Hring : ring_ok ring) (Hm : payload_there m) :
  auth_client_ckeck ring uid gid m =
  Done (match list_find (accepts uid gid m) ring with
        | Some (_, k) => (1, Some (ak_acclev k))
        | None => (-1, None)
        end).
Proof.
  destruct Hring as [_ Hring]. induction Hring as [|k ring Hk Hring IH]; [done|].
  cbn [auth_client_ckeck list_find].
  destruct (Z.eqb_spec (ak_type k) (am_type m)) as [Ht|Ht].
  - destruct (decide (ak_type k = ROAR_AUTH_T_AUTO)) as [Ha|Ha].
    + unfold check_key. rewrite Ha. cbn [Z.eqb]. simpl. rewrite decide_False by (apply auto_refused; congruence).
      assert (list_find (accepts uid gid m) ring = None) as ->; [|done].
      apply list_find_None. eapply Forall_impl; [exact Hring|]. intros k' Hk'. apply auto_refused; congruence.
    + rewrite check_key_ok by done. rewrite bind_Done.
      destruct (decide (accepts uid gid m k)); cbn; [done|]. rewrite IH.
      by destruct (list_find _ ring) as [[]|].
  - rewrite IH. rewrite decide_False by (by intros []).
    by destruct (list_find _ ring) as [[]|].
Qed.

(** A ring with an anonymous and a password key. *)
Definition example_ring : list auth_key :=
  (auth_addkey_password 6 [115; 51] (auth_addkey_anonymous 1 auth_init).2).2.

Lemma auth_check_spec_witness :
  (ring_ok example_ring ∧ payload_there (AuthMessage 3 0 (0, 0) [115; 51; 9] 2)) ∧
  auth_client_ckeck example_ring (-1) (-1) (AuthMessage 3 0 (0, 0) [115; 51; 9] 2) =
  Done (1, Some 6).
Proof.
  assert (Hr : ring_ok example_ring) by
    (apply addkey_ok; [done|]; apply addkey_ok; [by right|apply auth_init_ok]).
  assert (Hp : payload_there (AuthMessage 3 0 (0, 0) [115; 51; 9] 2)) by (split; vm_compute; discriminate).
  split; [split; [exact Hr|exact Hp]|].
  rewrite (auth_check_spec example_ring (-1) (-1) (AuthMessage 3 0 (0, 0) [115; 51; 9] 2) Hr Hp).
  vm_compute. reflexivity.
Defined.

(** ** Keys of type TRUST *)

(** A list of arguments that ends in the terminator. *)
Lemma trust_block_reads vs rest arr var fuel :
  Forall (λ v, u32 v ≠ u32 (-1)) vs →
  (length arr + length vs < AT_TRUST_MAX_ENTRYS)%nat → (length vs < fuel)%nat →
  trust_block fuel (vs ++ -1 :: rest) var arr = Done (arr ++ vs ++ [-1], rest).
Proof.
  intros Hvs. revert arr var fuel. induction Hvs as [|v vs Hv _ IH]; intros arr var fuel Hl Hf;
    (destruct fuel as [|fuel]; [simpl in Hf; lia|]); cbn [trust_block app length] in *;
    rewrite (proj2 (Nat.eqb_neq _ _)) by lia.
  - done.
  - rewrite (proj2 (Z.eqb_neq _ _)) by done. rewrite IH by (rewrite ?length_app; simpl; lia).
    by rewrite <- app_assoc.
Qed.

(** A list that is too long is never left: the [continue] that should end it
    repeats the same round. *)
Lemma trust_block_full vs rest arr var fuel :
  Forall (λ v, u32 v ≠ u32 (-1)) vs → vs ≠ [] →
  (length arr + length vs = AT_TRUST_MAX_ENTRYS)%nat →
  trust_block fuel (vs ++ rest) var arr = Fuel.
Proof.
  intros Hvs. revert arr var fuel. induction Hvs as [|v vs Hv Hvs IH]; [done|].
  intros arr var fuel _ Hl. destruct fuel as [|fuel]; [done|]. cbn [trust_block app length] in *.
  rewrite (proj2 (Nat.eqb_neq _ _)) by lia. rewrite (proj2 (Z.eqb_neq _ _)) by done.
  destruct vs as [|v' vs]; [|apply IH; [done|rewrite length_app; simpl in *; lia]].
  cbn [app]. assert (Hfull : length (arr ++ [v]) = AT_TRUST_MAX_ENTRYS) by (rewrite length_app; simpl in *; lia).
  clear -Hv Hfull. induction fuel as [|fuel IH]; [done|]. cbn [trust_block].
  rewrite (proj2 (Nat.eqb_eq _ _)) by done. by rewrite (proj2 (Z.eqb_neq _ _)).
Qed.

Definition entries (l : list Z) : Prop :=
  Forall (λ v, u32 v ≠ u32 (-1)) l ∧ (length l < AT_TRUST_MAX_ENTRYS)%nat.



(** Given eight or more entries of one kind, [auth_addkey_trust] does not
    return -1 as it is meant to: it never returns. *)
Theorem trust_key_too_long_hangs (ring : list auth_key) (acclev : Z) (pids rest : list Z)
    (Hfree : ∃ k, k ∈ ring ∧ ak_type k = ROAR_AUTH_T_AUTO)
    (Hlen : length pids = AT_TRUST_MAX_ENTRYS)
    (Hpids : Forall (λ v, u32 v ≠ u32 (-1)) pids) :
  ∀ fuel, auth_addkey_trust fuel acclev (pids ++ rest) ring = Fuel.
Proof.
  intros fuel. unfold auth_addkey_trust, auth_regkey_simple.
  destruct (list_find _ ring) as [[i k]|] eqn:Ef.
  - rewrite trust_block_full; [done..|by intros ->|done].
  - exfalso. apply list_find_None in Ef. destruct Hfree as (k & Hk & Hauto).
    rewrite Forall_forall in Ef. by destruct (Ef k Hk).
Qed.

Lemma trust_key_too_long_hangs_witness :
  auth_addkey_trust 1000 6 ([1; 2; 3; 4; 5; 6; 7; 8] ++ [-1; -1; -1]) auth_init = Fuel.
Proof.
  apply (trust_key_too_long_hangs auth_init 6 [1; 2; 3; 4; 5; 6; 7; 8] [-1; -1; -1]).
  - exists empty_key. split; [by left|done].
  - reflexivity.
  - by repeat constructor.
Defined.

(** ** Encodings of the authentication message *)

Definition header_ok (a : auth_message) : Prop :=
  -128 ≤ am_type a < 128 ∧ -128 ≤ am_stage a < 128 ∧
  -128 ≤ (am_reserved a).1 < 128 ∧ -128 ≤ (am_reserved a).2 < 128.

Lemma from_mes_header a rest mes :
  header_ok a → m_data mes = [u8 (am_type a); u8 (am_stage a); u8 (am_reserved a).1;
                              u8 (am_reserved a).2] ++ rest →
  4 ≤ m_datalen mes → 
  roar_auth_from_mes mes None = Done (AuthMessage (am_type a) (am_stage a) (am_reserved a)
    (if 4 <? m_datalen mes then rest else []) (if 4 <? m_datalen mes then m_datalen mes - 4 else 0)).
Proof.
  intros (H1 & H2 & H3 & H4) Hd Hl. unfold roar_auth_from_mes. cbn [default from_option].
  rewrite Z.min_r by lia. rewrite Hd, mread_0 by done. cbn -[uwrap swrap aget]. rewrite drop_0.
  change (aget [?a; ?b; ?c; ?d] 0) with (Done a). change (aget [?a; ?b; ?c; ?d] 1) with (Done b).
  change (aget [?a; ?b; ?c; ?d] 2) with (Done c). change (aget [?a; ?b; ?c; ?d] 3) with (Done d).
  rewrite !bind_Done.
  repeat (rewrite swrap_uwrap by lia). rewrite !swrap_id by (simpl; lia). by destruct (am_reserved a).
Qed.

(** C16: a payload of at most 76 octets that is stored where
    [roar_auth_init_mes] says reaches [roar_auth_from_mes] as it was sent.
    [roar_auth_to_mes] stores it four octets further: of up to 72 octets the
    receiver gets four NULs and all but the last four octets, and anything
    longer is stored beyond the end of the buffer. *)
Theorem auth_message_encodings (a : auth_message) (Hh : header_ok a)
    (Hlen : am_len a = Z.of_nat (length (am_data a))) :
  (0 < am_len a ≤ 76 →
   ∃ m, roar_auth_init_mes a = (0, m) ∧
     ∀ d, mwrite 4 (am_data a) (m_data m) = Some d →
     ∃ a', roar_auth_from_mes (m<|m_data := d|>) None = Done a' ∧
       am_type a' = am_type a ∧ am_stage a' = am_stage a ∧ am_len a' = am_len a ∧
       payload a' = am_data a) ∧
  (0 < am_len a ≤ 72 →
   ∃ m a', roar_auth_to_mes true a = Done (m, None) ∧ roar_auth_from_mes m None = Done a' ∧
     am_type a' = am_type a ∧ am_len a' = am_len a ∧
     payload a' = take (length (am_data a)) (replicate 4 0 ++ am_data a)) ∧
  (72 < am_len a → roar_auth_to_mes true a = UB).
Proof.
  set (h := [u8 (am_type a); u8 (am_stage a); u8 (am_reserved a).1; u8 (am_reserved a).2]).
  split_and!; intros Hl.
  - unfold roar_auth_init_mes. rewrite (proj2 (Z.ltb_ge _ _)) by (unfold LIBROAR_BUFFER_MSGDATA; lia).
    eexists. split; [reflexivity|]. cbn [m_data]. intros d Hd.
    rewrite <- (take_drop (length (am_data a)) (replicate 76 0)) in Hd.
    change (mwrite (length h) (am_data a) (h ++ take (length (am_data a)) (replicate 76 0) ++
              drop (length (am_data a)) (replicate 76 0)) = Some d) in Hd.
    rewrite mwrite_at in Hd by (rewrite ?length_take, ?length_replicate; lia). injection Hd as <-.
    erewrite (from_mes_header a); [|done|reflexivity|cbn; lia]. cbn [m_datalen]. eexists. split; [reflexivity|].
    rewrite (proj2 (Z.ltb_lt _ _)) by (cbn; lia). cbn. split_and!; [done|done|lia|].
    unfold payload. cbn. by rewrite take_app_length' by lia.
  - unfold roar_auth_to_mes. rewrite (proj2 (Z.ltb_ge _ _)) by (unfold LIBROAR_BUFFER_MSGDATA; lia).
    cbn [andb]. fold h. change (replicate LIBROAR_BUFFER_MSGDATA 0) with (replicate 4 0 ++ replicate 76 0).
    rewrite mwrite_0 by done. cbn [or_ub]. rewrite bind_Done.
    replace (Z.to_nat (am_len a)) with (length (am_data a)) by lia.
    pose proof (mread_0 (am_data a) [] _ eq_refl) as Hr. rewrite app_nil_r in Hr. rewrite Hr.
    cbn [or_ub]. rewrite bind_Done.
    replace (h ++ replicate 76 0) with ((h ++ replicate 4 0) ++ take (length (am_data a)) (replicate 72 0) ++
      drop (length (am_data a)) (replicate 72 0)) by (by rewrite take_drop, <- app_assoc).
    rewrite mwrite_at by (rewrite ?length_take, ?length_replicate; done || lia). cbn [or_ub]. rewrite bind_Done.
    do 2 eexists. split; [reflexivity|]. rewrite <- app_assoc.
    erewrite (from_mes_header a); [|done|reflexivity|cbn; lia]. split; [reflexivity|].
    rewrite (proj2 (Z.ltb_lt _ _)) by (cbn; lia). cbn. split_and!; [done|lia|].
    unfold payload. cbn [am_len am_data]. replace (Z.to_nat _) with (length (am_data a)) by lia.
    change (0 :: 0 :: 0 :: 0 :: am_data a ++ ?x) with ((replicate 4 0 ++ am_data a) ++ x).
    by rewrite take_app_le by (rewrite length_app; lia).
  - unfold roar_auth_to_mes. destruct (Z.ltb_spec (Z.of_nat LIBROAR_BUFFER_MSGDATA) (am_len a + 4)) as [Hlong|Hlong];
      cbn [andb negb]; fold h.
    all: destruct (mwrite 0 h _) as [b|] eqn:Eb; [|done]; cbn [or_ub]; rewrite bind_Done.
    all: destruct (mread 0 _ _) as [pl|] eqn:Er; [|done]; cbn [or_ub]; rewrite bind_Done.
    all: unfold mwrite at 1; rewrite decide_False; [done|].
    all: apply length_mwrite in Eb; rewrite length_replicate in Eb.
    all: unfold mread in Er; case_decide; [|done]; injection Er as <-.
    all: rewrite length_take, length_drop; unfold LIBROAR_BUFFER_MSGDATA in *; lia.
Qed.

Lemma auth_message_encodings_witness :
  header_ok (AuthMessage 3 0 (0, 0) [115; 51] 2) ∧
  payload (AuthMessage 3 0 (0, 0) [0; 0; 0; 0; 115; 51] 2) = [0; 0] ∧
  ∃ m a', roar_auth_to_mes true (AuthMessage 3 0 (0, 0) [115; 51] 2) = Done (m, None) ∧
    roar_auth_from_mes m None = Done a' ∧ am_type a' = 3 ∧ am_len a' = 2 ∧ payload a' = [0; 0].
Proof.
  assert (Hh : header_ok (AuthMessage 3 0 (0, 0) [115; 51] 2)) by (repeat split; cbn; lia).
  split; [exact Hh|]. split; [reflexivity|].
  destruct (auth_message_encodings (AuthMessage 3 0 (0, 0) [115; 51] 2) Hh eq_refl) as (_ & H & _).
  apply H. cbn; lia.
Defined.
