(* ===== verification/ServerState.v ===== *)
(** * The state of the sound server ([roard])

    The tables [g_streams] and [g_clients] with the objects behind their
    pointers, the global variables of [streams.c], [clients.c] and [roard.c],
    a state monad for the server's functions, and weakest preconditions for
    it.  A table is a finite map from the indices in use ([NULL] entries are
    absent); an access outside [0 .. 63] is undefined. *)
From S2P Require Import Prelude Vio Proto Notify Chanmap Volume Nnode Auth.

Definition ROAR_STREAMS_MAX : Z := 64.
Definition ROAR_CLIENTS_MAX : Z := 64.
Definition ROAR_CLIENTS_MAX_STREAMS_PER_CLIENT : nat := 12.
Definition ROAR_META_MAX_PER_STREAM : nat := 16.
Definition ROAR_META_MAX_NAMELEN : nat := 32.
Definition MAX_LTM_WINDOWS_PER_STREAM : nat := 1.
Definition ROAR_BUFFER_NAME : Z := 80.

(** Directions, flags and states of streams
    ([include/roaraudio/stream.h]). *)
Definition ROAR_DIR_PLAY : Z := 1.
Definition ROAR_DIR_RECORD : Z := 2.
Definition ROAR_DIR_MONITOR : Z := 3.
Definition ROAR_DIR_FILTER : Z := 4.
Definition ROAR_DIR_OUTPUT : Z := 5.
Definition ROAR_DIR_MIXING : Z := 6.
Definition ROAR_DIR_META : Z := 8.
Definition ROAR_DIR_BIDIR : Z := 9.
Definition ROAR_DIR_THRU : Z := 10.
Definition ROAR_DIR_BRIDGE : Z := 11.
Definition ROAR_DIR_MIDI_IN : Z := 12.
Definition ROAR_DIR_MIDI_OUT : Z := 13.
Definition ROAR_DIR_LIGHT_IN : Z := 14.
Definition ROAR_DIR_LIGHT_OUT : Z := 15.
Definition ROAR_DIR_RAW_IN : Z := 16.
Definition ROAR_DIR_RAW_OUT : Z := 17.
Definition ROAR_DIR_COMPLEX_IN : Z := 18.
Definition ROAR_DIR_COMPLEX_OUT : Z := 19.
Definition ROAR_DIR_DIRIDS : Z := 22.

Definition ROAR_FLAG_NONE : Z := 0x0000.
Definition ROAR_FLAG_PRIMARY : Z := 0x0001.
Definition ROAR_FLAG_OUTPUT : Z := 0x0002.
Definition ROAR_FLAG_SOURCE : Z := 0x0004.
Definition ROAR_FLAG_SYNC : Z := 0x0008.
Definition ROAR_FLAG_META : Z := 0x0010.
Definition ROAR_FLAG_HWMIXER : Z := 0x0080.
Definition ROAR_FLAG_MMAP : Z := 0x0400.
Definition ROAR_FLAG_VIRTUAL : Z := 0x1000.
Definition ROAR_FLAG_RECSOURCE : Z := 0x2000.
Definition ROAR_FLAG_PASSMIXER : Z := 0x4000.
Definition ROAR_FLAG_IMMUTABLE : Z := 0x00010000.

Definition ROAR_STREAMSTATE_INITING : Z := 1.
Definition ROAR_STREAMSTATE_NEW : Z := 2.
Definition ROAR_STREAMSTATE_OLD : Z := 3.
Definition ROAR_STREAMSTATE_CLOSING : Z := 4.

Definition ROAR_ROLE_UNKNOWN : Z := -1.
Definition ROAR_META_TYPE_NONE : Z := 0.

Definition ROAR_SUBSYS_NONE : Z := 0x00.
Definition ROAR_SUBSYS_WAVEFORM : Z := 0x01.
Definition ROAR_SUBSYS_MIDI : Z := 0x02.
Definition ROAR_SUBSYS_LIGHT : Z := 0x08.
Definition ROAR_SUBSYS_RAW : Z := 0x10.
Definition ROAR_SUBSYS_COMPLEX : Z := 0x20.

Definition STREAM_DIR_NONE : Z := 0.
Definition STREAM_DIR_IN : Z := 1.
Definition STREAM_DIR_OUT : Z := 2.
Definition STREAM_DIR_BIDIR : Z := 3.

Definition ROAR_OT_CLIENT : Z := 1.
Definition ROAR_OT_STREAM : Z := 2.
Definition ROAR_OT_SOURCE : Z := 3.
Definition ROAR_OT_OUTPUT : Z := 5.
Definition ROAR_OT_MIXER : Z := 6.
Definition ROAR_OT_BRIDGE : Z := 7.

Definition ROAR_OE_BASICS_CHANGE_STATE : Z := 0x20000.
Definition ROAR_OE_BASICS_NEW : Z := 0x20006.
Definition ROAR_OE_BASICS_DELETE : Z := 0x20007.
Definition ROAR_OE_STREAM_CHANGE_VOLUME : Z := 0x20206.

(** ** Objects *)


(** [struct roar_meta]; the key is the array [char key[32]]. *)
Record meta_entry := MetaEntry {
  mt_type : Z; mt_key : list Z; mt_value : option (list Z) }.

(** [struct roar_stream_ltm]; [lt_cur] are the RMS values per channel. *)
Record stream_ltm := StreamLtm {
  lt_window : Z; lt_parent_window : Z; lt_mt : Z; lt_refc : Z; lt_channels : Z;
  lt_cur : list Z }.

(** [struct roar_stream] and [struct roar_stream_server].  Not in the model:
    the I/O objects themselves ([vio], [jumbo], [codecfilter_inst]) and the
    sample buffers [output], [outputbuffer] and [prethru]. *)
Record stream := Stream {
  s_id : Z;
  s_fh : Z;
  s_dir : Z;
  s_pos : Z;                 (** uint32_t *)
  s_pos_rel_id : Z;          (** uint32_t *)
  s_info : audio_info;
  s_client : Z;
  s_buffer : option (list (list Z));   (** the chain of buffers: their data *)
  s_mixer : mixer_settings;
  s_meta : list meta_entry;
  s_codecfilter : Z;
  s_codec_orgi : Z;
  s_socktype : Z;
  s_pre_underruns : Z;
  s_post_underruns : Z;
  s_primary : Z;
  s_driver_id : Z;
  s_flags : Z;
  s_delay : Z;
  s_name : option (list Z);
  s_ready : Z;
  s_state : Z;
  s_mixer_stream : Z;
  s_chanmap : chanmap;
  s_role : Z;
  s_parent_stream : Z;
  s_ltm : list stream_ltm;
  s_mixerstream : bool       (** [mixerstream != NULL] *)
}.

(** [enum roard_client_acclev] *)
Definition ACCLEV_NONE : Z := 0.
Definition ACCLEV_IDENTED : Z := 1.
Definition ACCLEV_CONCTL : Z := 2.
Definition ACCLEV_GUEST : Z := 3.
Definition ACCLEV_USER : Z := 4.
Definition ACCLEV_PWRUSER : Z := 5.
Definition ACCLEV_ALL : Z := 6.

(** [struct roar_client] and [struct roar_client_server]; the unused
    [acl] is not in the model.  [c_waits] are the
    event patterns [clients_wait] subscribed to. *)
Record client := Client {
  c_pid : Z; c_uid : Z; c_gid : Z; c_fh : Z;
  c_name : list Z;           (** char[ROAR_BUFFER_NAME] *)
  c_host : list Z;           (** char[ROAR_BUFFER_NAME] *)
  c_proto : Z; c_byteorder : Z;
  c_execed : Z;
  c_streams : list Z;        (** int[ROAR_CLIENTS_MAX_STREAMS_PER_CLIENT] *)
  c_blockc : Z;              (** size_t *)
  c_waits : option (list event);
  c_acclev : Z;
  c_nnode : nnode
}.

(** The globals.  [events] is the trace of emitted notifications, [outbox]
    the wait replies sent to clients (file handle and event), [closed] the
    closed file handles. *)
Record server := Server {
  g_streams : gmap Z stream;
  g_clients : gmap Z client;
  streams_thru_num : Z;
  streams_recsource_id : Z;
  counters_streams : Z;      (** [g_counters.cur.streams], size_t *)
  counters_clients : Z;      (** [g_counters.cur.clients], size_t *)
  alive : Z;
  g_terminate : Z;
  g_no_listen : Z;
  g_pos : Z;
  g_standby : Z;
  events : list event;
  outbox : list (Z * event);
  closed : list Z;
  g_auth_keyring : list auth_key
}.

(** ** What the server's own code calls outside of the model

    Devices, codec filters and the operating system, by their return
    values; [cfg_streams] is [g_config->streams], the other fields are
    globals that are set at start-up. *)
Class Env := {
  codecfilter_ctl : stream → Z → Z;            (** of a stream's filter: cmd *)
  codecfilter_open : stream → Z * Z;           (** return value, codecfilter id *)
  driver_set_volume : stream → Z;
  hwmixer_set_volume : stream → Z;
  roar_socket_nonblock : Z → Z → Z;            (** fh, state *)
  roar_vio_nonblock : stream → Z → Z;
  roar_vio_set_ummap : stream → Z → Z;
  roar_vio_get_read_fh : stream → option Z;
  roar_vio_get_delay : stream → option Z;      (** in octets *)
  codecfilter_delay : stream → option Z;       (** in microseconds *)
  socket_peercred : Z → option (Z * Z * Z);    (** fh: pid, uid, gid *)
  roar_nnode_new_from_fh : Z → option nnode;   (** of the peer *)
  roar_socket_open : Z → list Z → Z → Z;       (** type, host, port: fh *)
  ROAR_OUTPUT_CALC_OUTBUFSIZE : audio_info → Z;  (** single precision arithmetic *)
  cfg_streams : list (Z * (Z * Z * Z));        (** flags; scale, rpg_mul, rpg_div *)
  waveform_mixer : Z;
  midi_mixer : Z;
  light_mixer : Z;
  g_sa : audio_info
}.

(** An environment for examples: no device, no codec filter, every
    direction configured without flags. *)
Definition null_env : Env := {|
  codecfilter_ctl := λ _ _, -1;
  codecfilter_open := λ _, (0, -1);
  driver_set_volume := λ _, 0;
  hwmixer_set_volume := λ _, 0;
  roar_socket_nonblock := λ _ _, 0;
  roar_vio_nonblock := λ _ _, 0;
  roar_vio_set_ummap := λ _ _, -1;
  roar_vio_get_read_fh := λ _, None;
  roar_vio_get_delay := λ _, None;
  codecfilter_delay := λ _, None;
  socket_peercred := λ _, None;
  roar_nnode_new_from_fh := λ _, None;
  roar_socket_open := λ _ _ _, -1;
  ROAR_OUTPUT_CALC_OUTBUFSIZE := λ _, 0;
  cfg_streams := replicate 22 (0, (65535, 1, 1));
  waveform_mixer := -1;
  midi_mixer := -1;
  light_mixer := -1;
  g_sa := AudioInfo 44100 16 2 1
|}.

(** ** The monad

    A function of the server returns, ends the process ([exit] in
    [clean_quit]), is undefined, or ran out of fuel. *)
Inductive result (A : Type) : Type :=
  | Ret (a : A) (s : server)
  | Exited
  | Undefined
  | NoFuel.
Arguments Ret {A} a s.
Arguments Exited {A}.
Arguments Undefined {A}.
Arguments NoFuel {A}.

Definition M (A : Type) : Type := server → result A.

#[export] Instance M_ret : MRet M := λ A a s, Ret a s.
#[export] Instance M_bind : MBind M := λ A B f m s,
  match m s with
  | Ret a s' => f a s'
  | Exited => Exited
  | Undefined => Undefined
  | NoFuel => NoFuel
  end.

Definition undefined {A} : M A := λ _, Undefined.
Definition no_fuel {A} : M A := λ _, NoFuel.
Definition exit_process {A} : M A := λ _, Exited.
Definition gets {A} (f : server → A) : M A := λ s, Ret (f s) s.
Definition modify (f : server → server) : M () := λ s, Ret () (f s).

(** A pure computation of the prelude inside the monad. *)
Definition lift {A} (o : outcome A) : M A :=
  match o with Done a => mret a | UB => undefined | Fuel => no_fuel end.

Fixpoint for_each {A} (l : list A) (f : A → M ()) : M () :=
  match l with
  | [] => mret ()
  | x :: l => f x ;; for_each l f
  end.

(** [g_streams[id]] and [g_clients[id]] *)
Definition g_stream (id : Z) : M (option stream) := λ s,
  if decide (0 ≤ id < ROAR_STREAMS_MAX) then Ret (g_streams s !! id) s else Undefined.
Definition g_client (id : Z) : M (option client) := λ s,
  if decide (0 ≤ id < ROAR_CLIENTS_MAX) then Ret (g_clients s !! id) s else Undefined.

(** [_CHECK_SID_RET] and [_CHECK_CID_RET], with the code's bounds. *)
Definition check_sid {A} (id : Z) (ret : A) (k : stream → M A) : M A :=
  if (id <? 0) || (ROAR_STREAMS_MAX <? id) then mret ret
  else o ← g_stream id; match o with None => mret ret | Some s => k s end.
Definition check_cid {A} (id : Z) (ret : A) (k : client → M A) : M A :=
  if (id <? 0) || (ROAR_CLIENTS_MAX <? id) then mret ret
  else o ← g_client id; match o with None => mret ret | Some c => k c end.

(** An access through a pointer to the object in the table's slot: undefined
    when the slot was emptied, that is, the object freed. *)
Definition stream_at (id : Z) : M stream :=
  o ← g_stream id; match o with None => undefined | Some s => mret s end.
Definition client_at (id : Z) : M client :=
  o ← g_client id; match o with None => undefined | Some c => mret c end.
Definition upd_stream (id : Z) (f : stream → stream) : M () :=
  st ← stream_at id;
  modify (λ s, s<|g_streams := <[id := f st]> (g_streams s)|>).
Definition upd_client (id : Z) (f : client → client) : M () :=
  c ← client_at id;
  modify (λ s, s<|g_clients := <[id := f c]> (g_clients s)|>).

(** ** Notification

    [main] creates the core with the default number of lists, 16, and
    registers [roar_notify_proxy_std]. *)
Definition NOTIFY_LISTS : Z := 16.

(** One event at one client ([clients_ncb_wait]): the first match ends the
    client's waiting. *)
Definition ncb_waiting (ev : event) (c : client) : bool :=
  match c_waits c with
  | Some pats => existsb (λ p, event_delivered NOTIFY_LISTS p ev) pats
  | None => false
  end.
Definition ncb_wait1 (ev : event) (c : client) : client :=
  if ncb_waiting ev c then c<|c_waits := None|><|c_blockc := u64 (c_blockc c - 1)|> else c.

(** [roar_notify_core_emit] as the server sees it: the event is recorded; the
    events of the groups and then the event itself reach the clients, and
    every client with a matching subscription gets its reply.  The walk of the
    lists is in [NotifyCore.v]: there a callback that removes its own node may
    be undefined ([emit_unsubscribe_self]), here the walk is taken to reach the
    node behind it. *)
Definition ncb_wait (ev : event) (c : client) : client :=
  foldl (λ c e, ncb_wait1 e c) c (notify_events ev).

Fixpoint ncb_replies (evs : list event) (cs : gmap Z client) : list (Z * event) :=
  match evs with
  | [] => []
  | ev :: evs =>
      omap (λ kc : Z * client, if ncb_waiting ev kc.2 then Some (c_fh kc.2, ev) else None)
           (map_to_list cs) ++ ncb_replies evs (ncb_wait1 ev <$> cs)
  end.

Definition emit_event (ev : event) : M () := modify (λ s,
  s<|events := events s ++ [ev]|>
   <|outbox := outbox s ++ ncb_replies (notify_events ev) (g_clients s)|>
   <|g_clients := ncb_wait ev <$> g_clients s|>).

(** A change of a client that no event makes. *)
Lemma ncb_wait_keeps {A} (f : client → A) :
  (∀ c w b, f (c<|c_waits := w|><|c_blockc := b|>) = f c) → ∀ ev c, f (ncb_wait ev c) = f c.
Proof.
  intros Hf ev c. unfold ncb_wait. revert c. induction (notify_events ev) as [|e es IH]; [done|].
  intros c. cbn [foldl]. rewrite IH. unfold ncb_wait1. case_match; [apply Hf|done].
Qed.

Definition roar_notify_core_emit_simple (ev emitter target target_type arg0 arg1 : Z) : M () :=
  emit_event (simple_event ev emitter target target_type arg0 arg1 None 0).
Definition roar_notify_core_emit_snoargs (ev emitter target target_type : Z) : M () :=
  roar_notify_core_emit_simple ev emitter target target_type (-1) (-1).

Definition close_fh (fh : Z) : M () := modify (λ s, s<|closed := closed s ++ [fh]|>).

Definition counters_inc_streams (i : Z) : M () :=
  modify (λ s, s<|counters_streams := u64 (counters_streams s + i)|>).
Definition counters_inc_clients (i : Z) : M () :=
  modify (λ s, s<|counters_clients := u64 (counters_clients s + i)|>).

(** ** Weakest preconditions

    [wp E m s Q]: run from [s], [m] returns in a state that satisfies [Q], or
    ends the process and [E] holds; it is neither undefined nor short of
    fuel. *)
Definition wp {A} (E : Prop) (m : M A) (s : server) (Q : A → server → Prop) : Prop :=
  match m s with
  | Ret a s' => Q a s'
  | Exited => E
  | Undefined | NoFuel => False
  end.

Section wp.
Context {A B : Type} (E : Prop).
Implicit Types (m : M A) (f : A → M B) (s : server).

Lemma wp_mono m s (Q Q' : A → server → Prop) (E' : Prop) :
  wp E m s Q → (E → E') → (∀ a s', Q a s' → Q' a s') → wp E' m s Q'.
Proof. unfold wp. destruct (m s); auto. Qed.

Lemma wp_bind m f s Q :
  wp E m s (λ a s', wp E (f a) s' Q) → wp E (m ≫= f) s Q.
Proof. unfold wp, mbind, M_bind. by destruct (m s). Qed.

Lemma wp_ret a s (Q : A → server → Prop) : Q a s → wp E (mret a) s Q.
Proof. done. Qed.

Lemma wp_gets (g : server → A) s Q : Q (g s) s → wp E (gets g) s Q.
Proof. done. Qed.

Lemma wp_modify g s (Q : () → server → Prop) : Q () (g s) → wp E (modify g) s Q.
Proof. done. Qed.

Lemma wp_g_stream id s Q :
  0 ≤ id < ROAR_STREAMS_MAX → Q (g_streams s !! id) s → wp E (g_stream id) s Q.
Proof. intros. unfold wp, g_stream. by rewrite decide_True. Qed.

Lemma wp_g_client id s Q :
  0 ≤ id < ROAR_CLIENTS_MAX → Q (g_clients s !! id) s → wp E (g_client id) s Q.
Proof. intros. unfold wp, g_client. by rewrite decide_True. Qed.

Lemma wp_check_sid id ret (k : stream → M A) s Q :
  id ≠ ROAR_STREAMS_MAX →
  (∀ st, 0 ≤ id < ROAR_STREAMS_MAX → g_streams s !! id = Some st → wp E (k st) s Q) →
  ((id < 0 ∨ ROAR_STREAMS_MAX < id ∨ g_streams s !! id = None) → Q ret s) →
  wp E (check_sid id ret k) s Q.
Proof.
  intros Hid Hk Hret. unfold check_sid.
  destruct (Z.ltb_spec id 0); [apply wp_ret; auto|].
  destruct (Z.ltb_spec ROAR_STREAMS_MAX id); [apply wp_ret; auto|]. cbn [orb].
  unfold wp, mbind, M_bind, g_stream. rewrite decide_True by lia.
  destruct (g_streams s !! id) eqn:Es; [by apply Hk; [lia|]|by apply Hret; auto].
Qed.

Lemma wp_check_cid id ret (k : client → M A) s Q :
  id ≠ ROAR_CLIENTS_MAX →
  (∀ c, 0 ≤ id < ROAR_CLIENTS_MAX → g_clients s !! id = Some c → wp E (k c) s Q) →
  ((id < 0 ∨ ROAR_CLIENTS_MAX < id ∨ g_clients s !! id = None) → Q ret s) →
  wp E (check_cid id ret k) s Q.
Proof.
  intros Hid Hk Hret. unfold check_cid.
  destruct (Z.ltb_spec id 0); [apply wp_ret; auto|].
  destruct (Z.ltb_spec ROAR_CLIENTS_MAX id); [apply wp_ret; auto|]. cbn [orb].
  unfold wp, mbind, M_bind, g_client. rewrite decide_True by lia.
  destruct (g_clients s !! id) eqn:Es; [by apply Hk; [lia|]|by apply Hret; auto].
Qed.
End wp.

Lemma wp_stream_at E id s st Q :
  0 ≤ id < ROAR_STREAMS_MAX → g_streams s !! id = Some st → Q st s →
  wp E (stream_at id) s Q.
Proof.
  intros Hid Hst HQ. unfold stream_at. apply wp_bind, wp_g_stream; [done|].
  by rewrite Hst.
Qed.

Lemma wp_client_at E id s c Q :
  0 ≤ id < ROAR_CLIENTS_MAX → g_clients s !! id = Some c → Q c s →
  wp E (client_at id) s Q.
Proof.
  intros Hid Hc HQ. unfold client_at. apply wp_bind, wp_g_client; [done|].
  by rewrite Hc.
Qed.

Lemma wp_upd_stream E id f s st Q :
  0 ≤ id < ROAR_STREAMS_MAX → g_streams s !! id = Some st →
  Q () (s<|g_streams := <[id := f st]> (g_streams s)|>) → wp E (upd_stream id f) s Q.
Proof.
  intros. unfold upd_stream. apply wp_bind. by eapply wp_stream_at.
Qed.

Lemma wp_upd_client E id f s c Q :
  0 ≤ id < ROAR_CLIENTS_MAX → g_clients s !! id = Some c →
  Q () (s<|g_clients := <[id := f c]> (g_clients s)|>) → wp E (upd_client id f) s Q.
Proof.
  intros. unfold upd_client. apply wp_bind. by eapply wp_client_at.
Qed.

(** A check whose failure makes the function return -1. *)
Definition require (m : M bool) (k : M Z) : M Z :=
  ok ← m; if ok : bool then k else mret (-1).

(** A loop keeps an invariant. *)
Lemma wp_for_each {A} E (l : list A) (f : A → M ()) (I : server → Prop) :
  (∀ x s, x ∈ l → I s → wp E (f x) s (λ _, I)) →
  ∀ s, I s → wp E (for_each l f) s (λ _, I).
Proof.
  induction l as [|x l IH]; intros Hf s Hs; cbn [for_each]; [done|].
  apply wp_bind. eapply wp_mono; [apply Hf; [by left|done]|done|].
  intros [] s' Hs'. apply IH; [|done]. intros y s'' Hy. apply Hf. by right.
Qed.

(** A loop over indices keeps an invariant that counts the rounds. *)
Lemma wp_for_each_seq E (f : nat → M ()) (n : nat) (I : nat → server → Prop) s :
  (∀ i s, (i < n)%nat → I i s → wp E (f i) s (λ _, I (S i))) →
  I 0%nat s → wp E (for_each (seq 0 n) f) s (λ _, I n).
Proof.
  intros Hf Hs.
  assert (G : ∀ k i s, (i + k = n)%nat → I i s → wp E (for_each (seq i k) f) s (λ _, I n));
    [|by apply G].
  clear s Hs. induction k as [|k IH]; intros i s Hi Hs; cbn [seq for_each].
  { by rewrite Nat.add_0_r in Hi; subst. }
  apply wp_bind. eapply wp_mono; [apply Hf; [lia|done]|done|].
  intros [] s' Hs'. apply IH; [lia|done].
Qed.

Lemma wp_Ret {A} E (m : M A) s Q :
  (∃ a s', m s = Ret a s' ∧ Q a s') → wp E m s Q.
Proof. unfold wp. by intros (a & s' & -> & HQ). Qed.

(** One step of a proof by weakest preconditions. *)
Ltac wp_step :=
  lazymatch goal with
  | |- wp _ (_ ≫= _) _ _ => apply wp_bind
  | |- wp _ (mret _) _ _ => apply wp_ret
  | |- wp _ (gets _) _ _ => apply wp_gets
  | |- wp _ (modify _) _ _ => apply wp_modify
  end.
