(* ===== verification/Ctl.v ===== *)
(** * Message contents ([libroar/ctl.c], [libroar/stream.c])

    How streams, clients, filters and lists of ids are stored in the data of
    a message, access to that data as an array of words in network order, and
    the names of protocols, byte orders and object types. *)
From S2P Require Import Prelude Vio Proto Notify Chanmap Volume Nnode ServerState.

(** ** Arrays of words

    The code casts [m->data] to an array of 16, 32 or 64 bit words and swaps
    the words in place. *)
Section words.
Variable n : nat.   (** octets of a word *)

(** [d[k]], a word of the host's byte order at octet [n * k]. *)
Definition wload (k : nat) (d : list Z) : outcome Z :=
  bs ← or_ub (mread (n * k) n d); Done (le_val bs).

Definition wstore (k : nat) (v : Z) (d : list Z) : outcome (list Z) :=
  or_ub (mwrite (n * k) (le_bytes n v) d).

(** [d[k] = NET2HOST(d[k])] for [k], [k + 1], ..., [count] words *)
Fixpoint wswap (k count : nat) (d : list Z) : outcome (list Z) :=
  match count with
  | O => Done d
  | S count => v ← wload k d; d ← wstore k (bswap n v) d; wswap (S k) count d
  end.

(** The octets of a list of words. *)
Definition words (f : Z → list Z) (vs : list Z) : list Z := mjoin (f <$> vs).

Lemma length_words f vs : (∀ v, length (f v) = n) → length (words f vs) = (n * length vs)%nat.
Proof.
  intros Hf. induction vs as [|v vs IH]; [simpl; lia|].
  change (words f (v :: vs)) with (f v ++ words f vs). rewrite length_app, Hf, IH. simpl. lia.
Qed.

Lemma words_app f us vs : words f (us ++ vs) = words f us ++ words f vs.
Proof. unfold words. by rewrite fmap_app, join_app. Qed.

Lemma words_middle f us v vs post :
  words f (us ++ v :: vs) ++ post = words f us ++ f v ++ words f vs ++ post.
Proof.
  rewrite words_app, <- app_assoc. f_equal.
  change (words f (v :: vs)) with (f v ++ words f vs). by rewrite app_assoc.
Qed.

Lemma wload_words f vs k v post :
  (∀ v, length (f v) = n) → vs !! k = Some v →
  wload k (words f vs ++ post) = Done (le_val (f v)).
Proof.
  intros Hf Hk. rewrite <- (take_drop_middle vs k v Hk), words_middle. unfold wload.
  pose proof (lookup_lt_Some _ _ _ Hk).
  by rewrite mread_at by (by rewrite ?length_words, ?length_take, ?Nat.min_l by (done || lia)).
Qed.

(** Swapping reverses the octets of every word. *)
Lemma wswap_words (g : Z → list Z) us vs ws post :
  (∀ v, length (g v) = n) → (∀ v, Forall octet (g v)) →
  wswap (length us) (length vs) (words (λ v, rev (g v)) us ++ words g (vs ++ ws) ++ post) =
  Done (words (λ v, rev (g v)) (us ++ vs) ++ words g ws ++ post).
Proof.
  intros Hg Ho. assert (Hr : ∀ v, length (rev (g v)) = n) by (intros; by rewrite length_rev).
  revert us. induction vs as [|v vs IH]; intros us; cbn [wswap length app]; [by rewrite app_nil_r|].
  change (words g (v :: vs ++ ws)) with (g v ++ words g (vs ++ ws)).
  rewrite <- app_assoc. unfold wload, wstore.
  rewrite mread_at by (by rewrite ?length_words). cbn [or_ub]. rewrite !bind_Done.
  rewrite store_bswap. unfold be_bytes.
  replace (le_bytes n (le_val (g v))) with (g v)
    by (rewrite <- (Hg v) at 1; by rewrite le_bytes_val by apply Ho).
  rewrite mwrite_at by (by rewrite ?length_rev, ?length_words). cbn [or_ub]. rewrite bind_Done.
  specialize (IH (us ++ [v])). rewrite length_app, Nat.add_comm in IH. cbn [length Nat.add] in IH.
  assert (E : words (λ v, rev (g v)) (us ++ [v]) = words (λ v, rev (g v)) us ++ rev (g v)).
  { rewrite words_app. f_equal. apply app_nil_r. }
  rewrite E, <- !app_assoc in IH. exact IH.
Qed.
End words.

(** From the host's byte order to the network's and back. *)
Lemma words_rev_le n vs : words (λ v, rev (le_bytes n v)) vs = words (be_bytes n) vs.
Proof. reflexivity. Qed.
Lemma words_rev_be n vs : words (λ v, rev (be_bytes n v)) vs = words (le_bytes n) vs.
Proof.
  unfold words. f_equal. apply list_fmap_ext. intros _ v _. unfold be_bytes. simpl.
  apply rev_involutive.
Qed.

Lemma wswap_le_be n vs post :
  wswap n 0 (length vs) (words (le_bytes n) vs ++ post) = Done (words (be_bytes n) vs ++ post).
Proof.
  pose proof (wswap_words n (le_bytes n) [] vs [] post (length_le_bytes n) (le_bytes_octets n)) as H.
  by rewrite app_nil_r in H.
Qed.

Lemma wswap_be_le n vs post :
  wswap n 0 (length vs) (words (be_bytes n) vs ++ post) = Done (words (le_bytes n) vs ++ post).
Proof.
  pose proof (wswap_words n (be_bytes n) [] vs [] post (length_be_bytes n) (be_bytes_octets n)) as H.
  rewrite app_nil_r, !words_rev_be in H. exact H.
Qed.

(** ** Streams ([roar_stream_s2m], [roar_stream_m2s]) *)

(** [struct roar_stream], as far as messages carry it. *)
Record base_stream := BaseStream {
  bs_id : Z;              (** int *)
  bs_dir : Z;             (** int *)
  bs_pos : Z;             (** uint32_t *)
  bs_pos_rel_id : Z;      (** uint32_t *)
  bs_info : audio_info
}.

Definition ROAR_STREAM_MESSAGE_LEN : Z := 24.

Definition roar_stream_s2m (s : base_stream) (m : message) : outcome (Z * message) :=
  let i := bs_info s in
  let data := [bs_dir s; bs_pos_rel_id s; rate i; bits i; channels i; codec i] in
  d ← or_ub (mwrite 0 (words (le_bytes 4) data) (m_data m));
  d ← wswap 4 0 6 d;
  Done (0, m<|m_datalen := ROAR_STREAM_MESSAGE_LEN|><|m_data := d|><|m_pos := bs_pos s|>).

(** Return value, the stream, and the message, whose words are swapped. *)
Definition roar_stream_m2s (s : base_stream) (m : message)
  : outcome (Z * base_stream * message) :=
  if negb (m_datalen m =? ROAR_STREAM_MESSAGE_LEN) then Done (-1, s, m)
  else
    d ← wswap 4 0 6 (m_data m);
    d0 ← wload 4 0 d; d1 ← wload 4 1 d; d2 ← wload 4 2 d;
    d3 ← wload 4 3 d; d4 ← wload 4 4 d; d5 ← wload 4 5 d;
    Done (0, BaseStream (s32 (m_stream m)) (s32 d0) (m_pos m) d1 (AudioInfo d2 d3 d4 d5),
          m<|m_data := d|>).

(** ** Filters, comparison and lists of ids *)

Definition ROAR_CTL_FILTER_ANY : Z := 0.
Definition ROAR_CTL_FILTER_DIR : Z := 1.
Definition ROAR_CTL_CMP_ANY : Z := 0.
Definition ROAR_CTL_CMP_EQ : Z := 1.
Definition ROAR_CTL_CMP_NE : Z := 2.

Definition roar_ctl_f2m (m : message) (filter cmp id : Z) : outcome (Z * message) :=
  d ← or_ub (mwrite 0 [0; u8 filter; u8 cmp] (m_data m));
  d ← or_ub (mwrite 3 (le_bytes 4 (bswap 4 id)) d);
  Done (0, m<|m_datalen := 7|><|m_data := d|>).

(** The return value, and filter, comparison and id. *)
Definition roar_ctl_m2f (m : message) : outcome (Z * option (Z * Z * Z)) :=
  if negb (m_datalen m =? 7) then Done (-1, None)
  else
    v ← aget (m_data m) 0;
    if negb (v =? 0) then Done (-1, None)
    else
      filter ← aget (m_data m) 1;
      cmp ← aget (m_data m) 2;
      id ← or_ub (mread 3 4 (m_data m));
      Done (0, Some (filter, cmp, bswap 4 (le_val id))).

Definition roar_filter_match (cmp a b : Z) : Z :=
  if cmp =? ROAR_CTL_CMP_ANY then 1
  else if cmp =? ROAR_CTL_CMP_EQ then if a =? b then 1 else 0
  else if cmp =? ROAR_CTL_CMP_NE then if a =? b then 0 else 1
  else -1.

(** The ids are stored as [char]s. *)
Definition roar_ctl_ia2m (m : message) (data : list Z) : outcome (Z * message) :=
  if Z.of_nat LIBROAR_BUFFER_MSGDATA <? Z.of_nat (length data) then Done (-1, m)
  else
    d ← or_ub (mwrite 0 (u8 <$> data) (m_data m));
    Done (0, m<|m_datalen := Z.of_nat (length data)|><|m_data := d|>).

(** [len] is the room in the caller's array. *)
Definition roar_ctl_m2ia (m : message) (len : Z) : outcome (Z * list Z) :=
  if len <? m_datalen m then Done (-1, [])
  else
    d ← or_ub (mread 0 (Z.to_nat (m_datalen m)) (m_data m));
    Done (m_datalen m, s8 <$> (d : list Z)).

(** ** Clients ([roar_ctl_c2m], [roar_ctl_m2c]) *)

(** A client ([struct roar_client]) as far as messages carry it. *)
Record base_client := BaseClient {
  bc_execed : Z;
  bc_streams : list Z;
  bc_name : list Z;        (** char[80] *)
  bc_pid : Z; bc_uid : Z; bc_gid : Z;
  bc_proto : Z; bc_byteorder : Z;
  bc_nnode : nnode
}.

(** The octets [roar_ctl_c2m] stores from the start of [m->data]. *)
Definition client_blob (c : base_client) : option (list Z) :=
  max_len ← c_strlen (bc_name c);
  let ids := filter (λ x, x ≠ -1) (bc_streams c) in
  Some ([0; u8 (bc_execed c)] ++ [u8 (Z.of_nat (length ids))] ++ (u8 <$> ids) ++
        [u8 (Z.of_nat max_len)] ++ take max_len (bc_name c) ++
        words (be_bytes 4) [bc_pid c; bc_uid c; bc_gid c; bc_proto c; bc_byteorder c]).

(** [len_rest = sizeof(m->data) - cur]; what [roar_nnode_to_blob] stores
    counts only when it succeeds. *)
Definition roar_ctl_c2m (m : message) (c : base_client) : outcome (Z * message) :=
  blob ← or_ub (client_blob c);
  d ← or_ub (mwrite 0 blob (m_data m));
  let cur := length blob in
  let '(r, a, len_rest) := roar_nnode_to_blob (bc_nnode c)
                             (Z.of_nat LIBROAR_BUFFER_MSGDATA - Z.of_nat cur) in
  d ← or_ub (mwrite cur a d);
  Done (0, m<|m_datalen := Z.of_nat cur + (if r =? 0 then len_rest else 0)|><|m_data := d|>).

(** A read at a position that is computed from the message. *)
Definition data_at (m : message) (off n : Z) : outcome (list Z) :=
  if (off <? 0) || (n <? 0) then UB
  else or_ub (mread (Z.to_nat off) (Z.to_nat n) (m_data m)).

Definition data_be32 (m : message) (off : Z) : outcome Z :=
  bs ← data_at m off 4; Done (s32 (bswap 4 (le_val bs))).

Definition ROAR_PROTO_NONE : Z := 0.

Definition roar_ctl_m2c (m : message) (c : base_client) : outcome (Z * base_client) :=
  if m_datalen m =? 0 then Done (-1, c)
  else
    v ← aget (m_data m) 0;
    if negb (v =? 0) then Done (-1, c)
    else if m_datalen m <? 3 then Done (-1, c)
    else
      execed ← aget (m_data m) 1;
      h ← aget (m_data m) 2;
      let h := s8 h in
      ids ← data_at m 3 (Z.max 0 h);
      streams ← or_ub (mwrite 0 (s8 <$> (ids : list Z))
                         (replicate ROAR_CLIENTS_MAX_STREAMS_PER_CLIENT (-1)));
      let cur := 3 + h in
      len ← aget (m_data m) cur;
      let len := s8 len in
      name ← data_at m (cur + 1) len;
      name ← or_ub (mwrite 0 (strncpy_bytes (take (default (Z.to_nat len) (c_strlen name)) name)
                                            (Z.to_nat len) ++ [0]) (bc_name c));
      let cur := cur + len + 1 in
      pid ← data_be32 m cur;
      uid ← data_be32 m (cur + 4);
      gid ← data_be32 m (cur + 8);
      let cur := cur + 12 in
      proto ← (if cur + 4 <=? m_datalen m then data_be32 m cur else Done ROAR_PROTO_NONE);
      let cur := if cur + 4 <=? m_datalen m then cur + 4 else cur in
      byteorder ← (if cur + 4 <=? m_datalen m then data_be32 m cur else Done 0);
      let cur := if cur + 4 <=? m_datalen m then cur + 4 else cur in
      nnode ← (if cur <? m_datalen m then
                 let len := m_datalen m - cur in
                 res ← roar_nnode_from_blob (drop (Z.to_nat cur) (m_data m)) len;
                 Done (if res.1.1 =? 0 then default (bc_nnode c) res.1.2
                       else roar_nnode_new ROAR_SOCKET_TYPE_UNKNOWN)
               else Done (roar_nnode_new ROAR_SOCKET_TYPE_UNKNOWN));
      Done (0, BaseClient (s8 execed) streams name pid uid gid proto byteorder nnode).

(** ** Names *)

Definition ROAR_PROTO_ROARAUDIO : Z := 1.
Definition ROAR_PROTO_ESOUND : Z := 2.
Definition ROAR_PROTO_AUTO : Z := 3.
Definition ROAR_PROTO_HTTP : Z := 4.
Definition ROAR_PROTO_GOPHER : Z := 5.
Definition ROAR_PROTO_ICY : Z := 7.
Definition ROAR_PROTO_SIMPLE : Z := 8.
Definition ROAR_PROTO_RSOUND : Z := 9.
Definition ROAR_PROTO_RPLAY : Z := 10.
Definition ROAR_BYTEORDER_LE : Z := 1.
Definition ROAR_BYTEORDER_BE : Z := 2.
Definition ROAR_BYTEORDER_PDP : Z := 3.

Definition roar_str2proto (proto : string) : Z :=
  if strcaseeq proto "roar" then ROAR_PROTO_ROARAUDIO
  else if strcaseeq proto "roaraudio" then ROAR_PROTO_ROARAUDIO
  else if strcaseeq proto "esd" then ROAR_PROTO_ESOUND
  else if strcaseeq proto "esound" then ROAR_PROTO_ESOUND
  else if strcaseeq proto "auto" then ROAR_PROTO_AUTO
  else if strcaseeq proto "(auto)" then ROAR_PROTO_AUTO
  else if strcaseeq proto "http" then ROAR_PROTO_HTTP
  else if strcaseeq proto "gopher" then ROAR_PROTO_GOPHER
  else if strcaseeq proto "icy" then ROAR_PROTO_ICY
  else if strcaseeq proto "simple" then ROAR_PROTO_SIMPLE
  else if strcaseeq proto "rsound" then ROAR_PROTO_RSOUND
  else if strcaseeq proto "rplay" then ROAR_PROTO_RPLAY
  else -1.

Definition roar_proto2str (proto : Z) : string :=
  if proto =? ROAR_PROTO_ROARAUDIO then "RoarAudio"
  else if proto =? ROAR_PROTO_ESOUND then "EsounD"
  else if proto =? ROAR_PROTO_AUTO then "(auto)"
  else if proto =? ROAR_PROTO_HTTP then "http"
  else if proto =? ROAR_PROTO_GOPHER then "gopher"
  else if proto =? ROAR_PROTO_ICY then "ICY"
  else if proto =? ROAR_PROTO_SIMPLE then "Simple"
  else if proto =? ROAR_PROTO_RSOUND then "RSound"
  else if proto =? ROAR_PROTO_RPLAY then "RPlay"
  else "(unknown)".

Definition roar_str2byteorder (b : string) : Z :=
  if strcaseeq b "le" || strcaseeq b "little" || strcaseeq b "little endian" ||
     strcaseeq b "1234" then ROAR_BYTEORDER_LE
  else if strcaseeq b "be" || strcaseeq b "big" || strcaseeq b "big endian" ||
          strcaseeq b "4321" then ROAR_BYTEORDER_BE
  else if strcaseeq b "pdp" || strcaseeq b "pdp endian" then ROAR_BYTEORDER_PDP
  else if strcaseeq b "network" || strcaseeq b "network byteorder" then ROAR_BYTEORDER_BE
  else -1.

Definition roar_byteorder2str (b : Z) : string :=
  if b =? ROAR_BYTEORDER_LE then "little endian"
  else if b =? ROAR_BYTEORDER_BE then "big endian"
  else if b =? ROAR_BYTEORDER_PDP then "pdp endian"
  else "(unknown)".

Definition libroar_ot : list (Z * string) := [
  (ROAR_OT_CLIENT, "client"); (ROAR_OT_STREAM, "stream"); (ROAR_OT_SOURCE, "source");
  (4, "sample"); (ROAR_OT_OUTPUT, "output"); (ROAR_OT_MIXER, "mixer");
  (ROAR_OT_BRIDGE, "bridge"); (8, "listen"); (9, "action"); (10, "msgqueue"); (11, "msgbus")
]%string.

Definition roar_str2ot (ot : string) : Z :=
  match list_find (λ e : Z * string, strcaseeq ot e.2 = true) libroar_ot with
  | Some (_, (t, _)) => t
  | None => -1
  end.

Definition roar_ot2str (ot : Z) : option string :=
  snd <$> (snd <$> list_find (λ e : Z * string, e.1 = ot) libroar_ot).

(** The names read back: of every object type and byte order, and of every
    protocol. *)
Lemma names_read_back :
  Forall (λ ot, (roar_str2ot <$> roar_ot2str ot) = Some ot) (fst <$> libroar_ot) ∧
  Forall (λ b, roar_str2byteorder (roar_byteorder2str b) = b) [1; 2; 3] ∧
  Forall (λ p, roar_str2proto (roar_proto2str p) = p) [1; 2; 3; 4; 5; 7; 8; 9; 10].
Proof. zdecide. Qed.

(** ** Round trips *)

Definition u32_ok (v : Z) : Prop := 0 ≤ v < 2 ^ 32.
Definition msg_ok (m : message) : Prop := length (m_data m) = LIBROAR_BUFFER_MSGDATA.

Lemma s8_u8 x : -128 ≤ x < 128 → s8 (u8 x) = x.
Proof. intros. rewrite swrap_uwrap by lia. apply swrap_id; simpl; lia. Qed.

Lemma le_val_le32 v : le_val (le_bytes 4 v) = u32 v.
Proof. rewrite le_val_bytes. reflexivity. Qed.

(** C13: the server's and the client's view of a stream agree.  For every
    stream (direction, relation and audio parameters as their C types allow)
    and whatever the message held before, [roar_stream_m2s] reads from the
    message that [roar_stream_s2m] wrote the direction, the related stream,
    the position, and rate, bits, channels and codec; the id is the message's
    stream id. *)
Theorem stream_message_roundtrip (s s0 : base_stream) (m : message)
    (Hm : msg_ok m) (Hdir : -2 ^ 31 ≤ bs_dir s < 2 ^ 31) (Hrel : u32_ok (bs_pos_rel_id s))
    (Hr : u32_ok (rate (bs_info s))) (Hb : u32_ok (bits (bs_info s)))
    (Hch : u32_ok (channels (bs_info s))) (Hco : u32_ok (codec (bs_info s))) :
  ∃ m' m'',
    roar_stream_s2m s m = Done (0, m') ∧ m_datalen m' = 24 ∧ msg_ok m' ∧
    roar_stream_m2s s0 m' =
      Done (0, BaseStream (s32 (m_stream m)) (bs_dir s) (bs_pos s) (bs_pos_rel_id s) (bs_info s), m'').
Proof.
  unfold msg_ok in *. destruct s as [id dir pos rel [ra bi ch co]]. cbn [bs_id bs_dir bs_pos
    bs_pos_rel_id bs_info rate bits channels codec] in *. unfold u32_ok in *.
  assert (Hle : ∀ v, length (le_bytes 4 v) = 4%nat) by apply length_le_bytes.
  set (vs := [dir; rel; ra; bi; ch; co]). set (post := drop 24 (m_data m)).
  assert (Hw : length (words (le_bytes 4) vs) = 24%nat)
    by (by rewrite (length_words 4) by apply length_le_bytes).
  assert (Ew : mwrite 0 (words (le_bytes 4) vs) (m_data m) = Some (words (le_bytes 4) vs ++ post)).
  { rewrite mwrite_Some by (rewrite Hw, Hm; unfold LIBROAR_BUFFER_MSGDATA; lia).
    by rewrite Hw. }
  unfold roar_stream_s2m. cbn [bs_dir bs_pos_rel_id bs_info bs_pos rate bits channels codec].
  fold vs. rewrite Ew. cbn [or_ub]. rewrite bind_Done.
  change 6%nat with (length vs). rewrite (wswap_le_be 4 vs post). rewrite bind_Done.
  assert (Hp : length (words (be_bytes 4) vs ++ post) = LIBROAR_BUFFER_MSGDATA).
  { rewrite length_app, (length_words 4) by apply length_be_bytes. unfold post.
    rewrite length_drop, Hm. reflexivity. }
  destruct m as [? mstream ? ? mdata ? ? ? ? ?]. cbn [m_data m_stream] in *.
  do 2 eexists. split; [reflexivity|]. split; [reflexivity|]. split; [exact Hp|].
  unfold roar_stream_m2s. cbn -[wswap wload words].
  change (wswap 4 0 6 (words (be_bytes 4) vs ++ post))
    with (wswap 4 0 (length vs) (words (be_bytes 4) vs ++ post)).
  rewrite (wswap_be_le 4 vs post), bind_Done.
  rewrite (wload_words 4 _ vs 0 dir _ Hle eq_refl), (wload_words 4 _ vs 1 rel _ Hle eq_refl),
    (wload_words 4 _ vs 2 ra _ Hle eq_refl), (wload_words 4 _ vs 3 bi _ Hle eq_refl),
    (wload_words 4 _ vs 4 ch _ Hle eq_refl), (wload_words 4 _ vs 5 co _ Hle eq_refl).
  rewrite !bind_Done, !le_val_le32. repeat f_equal; cint.
Qed.

Lemma stream_message_roundtrip_witness :
  ∃ s m, msg_ok m ∧
    ∃ m' m'', roar_stream_s2m s m = Done (0, m') ∧ m_datalen m' = 24 ∧ msg_ok m' ∧
      roar_stream_m2s s m' =
        Done (0, BaseStream 7 (-1) 10 0xFFFFFFFF (AudioInfo 44100 16 2 1), m'').
Proof.
  exists (BaseStream 3 (-1) 10 0xFFFFFFFF (AudioInfo 44100 16 2 1)), (zero_message<|m_stream := 7|>).
  split; [reflexivity|]. apply stream_message_roundtrip; try (unfold u32_ok; simpl; lia).
  reflexivity.
Defined.

(** C14: lists of ids and filters survive their messages.  A list of at most 80
    ids between -128 and 127 that is stored by [roar_ctl_ia2m] is what
    [roar_ctl_m2ia] reads if the caller has room for it, and -1 is the answer
    otherwise; the filter, comparison and id stored by [roar_ctl_f2m] are what
    [roar_ctl_m2f] reads. *)
Theorem id_list_and_filter_roundtrip (m : message) (ids : list Z) (len filter cmp id : Z)
    (Hm : msg_ok m) (Hids : Forall (λ x, -128 ≤ x < 128) ids)
    (Hn : (length ids ≤ 80)%nat) (Hf : 0 ≤ filter < 256) (Hc : 0 ≤ cmp < 256)
    (Hid : u32_ok id) :
  (∃ m', roar_ctl_ia2m m ids = Done (0, m') ∧
     roar_ctl_m2ia m' len = Done (if len <? Z.of_nat (length ids) then (-1, [])
                                  else (Z.of_nat (length ids), ids))) ∧
  (∃ m', roar_ctl_f2m m filter cmp id = Done (0, m') ∧
     roar_ctl_m2f m' = Done (0, Some (filter, cmp, id))).
Proof.
  unfold msg_ok in Hm. destruct m as [? ? ? ? d ? ? ? ? ?]. cbn [m_data] in Hm. split.
  - unfold roar_ctl_ia2m. cbn [m_data]. destruct (Z.ltb_spec (Z.of_nat LIBROAR_BUFFER_MSGDATA)
      (Z.of_nat (length ids))); [unfold LIBROAR_BUFFER_MSGDATA in *; lia|].
    rewrite mwrite_Some by (rewrite length_fmap, Hm; done || (unfold LIBROAR_BUFFER_MSGDATA; lia)).
    cbn [or_ub take app]. rewrite bind_Done. eexists. split; [reflexivity|].
    unfold roar_ctl_m2ia. cbn -[mread].
    destruct (len <? Z.of_nat (length ids)); [done|]. rewrite Nat2Z.id.
    change (take 0 d) with (@nil Z). cbn [app]. rewrite mread_0 by (by rewrite length_fmap). cbn [or_ub]. rewrite bind_Done. do 2 f_equal.
    rewrite <- list_fmap_compose. rewrite <- (list_fmap_id ids) at 2.
    apply list_fmap_ext. intros i x Hx. apply s8_u8. by apply (Forall_lookup_1 _ _ _ _ Hids Hx).
  - do 7 (destruct d as [|? d]; [done|]). unfold roar_ctl_f2m. cbn [m_data].
    change (?a :: ?b :: ?c :: ?r) with ([a; b; c] ++ r). rewrite mwrite_0 by done.
    cbn [or_ub]. rewrite bind_Done.
    change (?a :: ?b :: ?c :: ?e :: d) with ([a; b; c; e] ++ d). rewrite mwrite_at by done.
    cbn [or_ub]. rewrite bind_Done, store_bswap. eexists. split; [reflexivity|].
    unfold roar_ctl_m2f. cbn -[mread be_bytes uwrap aget bswap].
    set (e := 0 :: u8 filter :: u8 cmp :: be_bytes 4 id ++ d).
    change (aget e 0) with (Done 0). change (aget e 1) with (Done (u8 filter)).
    change (aget e 2) with (Done (u8 cmp)). rewrite !bind_Done. cbn [Z.eqb negb].
    change e with ([0; u8 filter; u8 cmp] ++ be_bytes 4 id ++ d).
    rewrite mread_at by done. cbn [or_ub]. rewrite bind_Done.
    rewrite <- (length_be_bytes 4 id) at 1.
    rewrite load_bswap by apply be_bytes_octets. rewrite be_val_bytes, Z.mod_small by done.
    rewrite !uwrap_id by (simpl; lia). done.
Qed.

Lemma id_list_and_filter_roundtrip_witness :
  ∃ m m', roar_ctl_ia2m m [0; 5; 63] = Done (0, m') ∧
    roar_ctl_m2ia m' 64 = Done (3, [0; 5; 63]).
Proof.
  exists zero_message. apply (id_list_and_filter_roundtrip zero_message [0; 5; 63] 64 0 0 0);
    try (unfold u32_ok; simpl; lia); [reflexivity|repeat constructor; lia].
Defined.

(** *** Client messages *)

Lemma data_at_mid m pre bs post off n :
  m_data m = pre ++ bs ++ post → off = Z.of_nat (length pre) → n = Z.of_nat (length bs) →
  data_at m off n = Done bs.
Proof.
  intros E -> ->. unfold data_at. rewrite E.
  destruct (Z.ltb_spec (Z.of_nat (length pre)) 0); [lia|].
  destruct (Z.ltb_spec (Z.of_nat (length bs)) 0); [lia|]. cbn [orb].
  by rewrite mread_at by (by rewrite Nat2Z.id).
Qed.

Lemma data_be32_mid m pre v post off :
  m_data m = pre ++ be_bytes 4 v ++ post → off = Z.of_nat (length pre) →
  - 2 ^ 31 ≤ v < 2 ^ 31 → data_be32 m off = Done v.
Proof.
  intros E Ho Hv. unfold data_be32.
  rewrite (data_at_mid m pre (be_bytes 4 v) post) by (done || by rewrite length_be_bytes).
  rewrite bind_Done. rewrite <- (length_be_bytes 4 v) at 1.
  rewrite load_bswap by apply be_bytes_octets. rewrite be_val_bytes. f_equal. cint.
Qed.

Lemma aget_mid {A} (pre post : list A) x off :
  off = Z.of_nat (length pre) → aget (pre ++ x :: post) off = Done x.
Proof.
  intros ->. apply aget_Done. split; [lia|]. by rewrite Nat2Z.id, list_lookup_middle.
Qed.

Definition i32 (v : Z) : Prop := - 2 ^ 31 ≤ v < 2 ^ 31.

(** A client as the server has them: twelve entries, ids and numbers of their
    types, a terminated name. *)
Record client_ok (c : base_client) (len : nat) : Prop := {
  co_streams : length (bc_streams c) = ROAR_CLIENTS_MAX_STREAMS_PER_CLIENT;
  co_ids : Forall (λ x, -1 ≤ x < 64) (bc_streams c);
  co_execed : -1 ≤ bc_execed c < 64;
  co_name : length (bc_name c) = 80%nat;
  co_len : c_strlen (bc_name c) = Some len;
  co_pid : i32 (bc_pid c); co_uid : i32 (bc_uid c); co_gid : i32 (bc_gid c);
  co_proto : i32 (bc_proto c); co_order : i32 (bc_byteorder c);
  co_nnode : nnode_wf (bc_nnode c)
}.

Definition listed (c : base_client) : list Z := filter (λ x, x ≠ -1) (bc_streams c).

Lemma c_strlen_spec l n : c_strlen l = Some n →
  (n < length l)%nat ∧ l !! n = Some 0 ∧ Forall (λ b, b ≠ 0) (take n l).
Proof.
  revert n. induction l as [|b l IH]; intros n; cbn; [done|].
  destruct (Z.eqb_spec b 0) as [->|Hb]; [intros [= <-]; split; [lia|done]|].
  destruct (c_strlen l) as [k|] eqn:E; [|done]. intros [= <-].
  destruct (IH k eq_refl) as (H1 & H2 & H3). split_and!; [lia|done|]. by constructor.
Qed.

Lemma c_strlen_app l rest : Forall (λ b, b ≠ 0) l → c_strlen (l ++ 0 :: rest) = Some (length l).
Proof.
  induction 1 as [|b l Hb Hl IH]; cbn; [done|]. destruct (Z.eqb_spec b 0); [done|]. by rewrite IH.
Qed.

Lemma c_strlen_none l : Forall (λ b, b ≠ 0) l → c_strlen l = None.
Proof.
  induction 1 as [|b l Hb Hl IH]; cbn; [done|]. destruct (Z.eqb_spec b 0); [done|]. by rewrite IH.
Qed.

Lemma client_blob_length c len :
  c_strlen (bc_name c) = Some len →
  ∃ blob, client_blob c = Some blob ∧ length blob = (24 + length (listed c) + len)%nat.
Proof.
  intros Hn. unfold client_blob. rewrite Hn. eexists. split; [reflexivity|].
  destruct (c_strlen_spec _ _ Hn) as (Hl & _).
  rewrite !length_app, length_fmap, length_take, (length_words 4) by apply length_be_bytes.
  unfold listed. simpl. lia.
Qed.

(** What [roar_ctl_c2m] leaves in the message when everything fits. *)
Lemma c2m_fits m c len :
  msg_ok m → client_ok c len → (24 + length (listed c) + len ≤ 80)%nat →
  ∃ m' blob r a len' rest,
    roar_nnode_to_blob (bc_nnode c) (80 - Z.of_nat (length blob)) = (r, a, len') ∧
    client_blob c = Some blob ∧ length blob = (24 + length (listed c) + len)%nat ∧
    roar_ctl_c2m m c = Done (0, m') ∧ m_data m' = blob ++ a ++ rest ∧
    m_datalen m' = Z.of_nat (length blob) + (if r =? 0 then len' else 0).
Proof.
  intros Hm Hc Hfit. destruct (client_blob_length _ _ (co_len _ _ Hc)) as (blob & Hb & Hl).
  destruct (roar_nnode_to_blob (bc_nnode c) (80 - Z.of_nat (length blob))) as [[r a] len'] eqn:Ha.
  destruct (to_blob_length _ _ _ _ _ (co_nnode _ _ Hc) Ha) as [Hal _].
  unfold msg_ok, LIBROAR_BUFFER_MSGDATA in Hm. unfold roar_ctl_c2m. rewrite Hb. cbn [or_ub].
  rewrite bind_Done. rewrite (mwrite_Some 0 blob) by lia. cbn [or_ub]. rewrite bind_Done.
  change (Z.of_nat LIBROAR_BUFFER_MSGDATA) with 80. rewrite Ha.
  change (take 0 (m_data m)) with (@nil Z). cbn [app Nat.add].
  rewrite mwrite_Some by (rewrite !length_app, length_drop; lia). cbn [or_ub]. rewrite bind_Done.
  rewrite take_app_length. destruct m as [? ? ? ? d ? ? ? ? ?].
  do 6 eexists. split_and!; [exact Ha|reflexivity|done|reflexivity|reflexivity|reflexivity].
Qed.

(** The address at the end of the message. *)
Lemma m2c_nnode n r a len' blob rest m n0 :
  nnode_wf n → roar_nnode_to_blob n (80 - Z.of_nat (length blob)) = (r, a, len') →
  m_data m = blob ++ a ++ rest →
  m_datalen m = Z.of_nat (length blob) + (if r =? 0 then len' else 0) →
  let cur := Z.of_nat (length blob) in
  ∃ n', (if cur <? m_datalen m then
           res ← roar_nnode_from_blob (drop (Z.to_nat cur) (m_data m)) (m_datalen m - cur);
           Done (if res.1.1 =? 0 then default n0 res.1.2
                 else roar_nnode_new ROAR_SOCKET_TYPE_UNKNOWN)
         else Done (roar_nnode_new ROAR_SOCKET_TYPE_UNKNOWN)) = Done n' ∧
        (if r =? 0 then roar_nnode_cmp n n' = 0
         else n' = roar_nnode_new ROAR_SOCKET_TYPE_UNKNOWN).
Proof.
  intros Hn Ha Hd Hdl cur. destruct (to_blob_length _ _ _ _ _ Hn Ha) as [_ Hr].
  rewrite Hdl. fold cur. destruct (Z.eqb_spec r 0) as [->|Hr0].
  - destruct (Hr eq_refl) as [Hl Hl2]. destruct (Z.ltb_spec cur (cur + len')); [|lia].
    unfold cur. rewrite Hd, Nat2Z.id, drop_app_length.
    destruct (nnode_blob_cmp n _ a len' rest (Z.of_nat (length blob) + len' - Z.of_nat (length blob))
      Hn Ha) as (n' & -> & Hc & _); [lia|]. rewrite bind_Done. by exists n'.
  - destruct (Z.ltb_spec cur (cur + 0)); [lia|]. eauto.
Qed.

(** The list of ids and the name, as they are stored and read back. *)
Lemma listed_chars c len : client_ok c len → s8 <$> (u8 <$> listed c) = listed c.
Proof.
  intros Hc. rewrite <- list_fmap_compose. rewrite <- (list_fmap_id (listed c)) at 2.
  apply list_fmap_ext. intros i x Hx. apply s8_u8. apply list_elem_of_lookup_2 in Hx.
  apply list_elem_of_filter in Hx as [_ Hx]. pose proof (co_ids _ _ Hc) as Hi.
  rewrite Forall_forall in Hi. specialize (Hi x Hx). cbn in Hi |- *. lia.
Qed.

Lemma listed_length c len : client_ok c len → (length (listed c) ≤ 12)%nat.
Proof.
  intros Hc. change 12%nat with ROAR_CLIENTS_MAX_STREAMS_PER_CLIENT.
  rewrite <- (co_streams _ _ Hc). apply length_filter.
Qed.

Lemma listed_stored l :
  (length l ≤ 12)%nat →
  mwrite 0 l (replicate ROAR_CLIENTS_MAX_STREAMS_PER_CLIENT (-1)) =
  Some (l ++ replicate (12 - length l) (-1)).
Proof.
  intros Hl. rewrite mwrite_Some by (rewrite length_replicate; exact Hl).
  cbn [take app Nat.add]. by rewrite drop_replicate.
Qed.

Lemma name_stored name old :
  Forall (λ b, b ≠ 0) name → (length name < length old)%nat →
  mwrite 0 (strncpy_bytes (take (default (length name) (c_strlen name)) name) (length name) ++ [0])
    old = Some (name ++ [0] ++ drop (S (length name)) old).
Proof.
  intros Hnz Hl. rewrite (c_strlen_none name Hnz). cbn [default]. rewrite (take_ge name) by lia.
  unfold strncpy_bytes. rewrite (take_ge name) by lia. rewrite Nat.sub_diag, app_nil_r.
  rewrite mwrite_Some by (rewrite length_app; simpl; lia). cbn [app Nat.add].
  change (take 0 old) with (@nil Z). cbn [app]. rewrite length_app.
  rewrite <- app_assoc. do 3 f_equal. simpl. f_equal. lia.
Qed.

(** The numbers behind the name. *)
Lemma words_read m pre v1 v2 v3 v4 v5 post base :
  m_data m = pre ++ be_bytes 4 v1 ++ be_bytes 4 v2 ++ be_bytes 4 v3 ++ be_bytes 4 v4 ++
             be_bytes 4 v5 ++ post →
  base = Z.of_nat (length pre) → Forall i32 [v1; v2; v3; v4; v5] →
  data_be32 m base = Done v1 ∧ data_be32 m (base + 4) = Done v2 ∧
  data_be32 m (base + 8) = Done v3 ∧ data_be32 m (base + 12) = Done v4 ∧
  data_be32 m (base + 12 + 4) = Done v5.
Proof.
  intros Hd -> Hv. assert (Lb : ∀ v, length (be_bytes 4 v) = 4%nat) by apply length_be_bytes.
  repeat (apply Forall_cons in Hv as [? Hv]). split_and!.
  - by eapply (data_be32_mid m pre).
  - eapply (data_be32_mid m (pre ++ be_bytes 4 v1)); [by rewrite Hd, <- !app_assoc| |done].
    rewrite !length_app, !Lb. lia.
  - eapply (data_be32_mid m (pre ++ be_bytes 4 v1 ++ be_bytes 4 v2));
      [by rewrite Hd, <- !app_assoc| |done]. rewrite !length_app, !Lb. lia.
  - eapply (data_be32_mid m (pre ++ be_bytes 4 v1 ++ be_bytes 4 v2 ++ be_bytes 4 v3));
      [by rewrite Hd, <- !app_assoc| |done]. rewrite !length_app, !Lb. lia.
  - eapply (data_be32_mid m (pre ++ be_bytes 4 v1 ++ be_bytes 4 v2 ++ be_bytes 4 v3 ++
      be_bytes 4 v4)); [by rewrite Hd, <- !app_assoc| |done]. rewrite !length_app, !Lb. lia.
Qed.

(** What [roar_ctl_m2c] reads back. *)
Lemma m2c_reads m c c0 len blob r a len' rest :
  client_ok c len → length (bc_name c0) = 80%nat →
  client_blob c = Some blob → length blob = (24 + length (listed c) + len)%nat →
  roar_nnode_to_blob (bc_nnode c) (80 - Z.of_nat (length blob)) = (r, a, len') →
  m_data m = blob ++ a ++ rest →
  m_datalen m = Z.of_nat (length blob) + (if r =? 0 then len' else 0) →
  ∃ n', roar_ctl_m2c m c0 = Done (0, BaseClient (bc_execed c)
          (listed c ++ replicate (12 - length (listed c)) (-1))
          (take len (bc_name c) ++ [0] ++ drop (S len) (bc_name c0))
          (bc_pid c) (bc_uid c) (bc_gid c) (bc_proto c) (bc_byteorder c) n') ∧
        (if r =? 0 then roar_nnode_cmp (bc_nnode c) n' = 0
         else n' = roar_nnode_new ROAR_SOCKET_TYPE_UNKNOWN).
Proof.
  intros Hc Hc0 Hb Hbl Ha Hd Hdl.
  destruct (to_blob_length _ _ _ _ _ (co_nnode _ _ Hc) Ha) as [_ Hr0].
  destruct (c_strlen_spec _ _ (co_len _ _ Hc)) as (Hlen & _ & Hnz).
  pose proof (listed_length _ _ Hc) as Hh. rewrite (co_name _ _ Hc) in Hlen.
  set (h := length (listed c)) in *. set (ids := u8 <$> listed c).
  set (name := take len (bc_name c)) in *.
  assert (Hids : length ids = h) by apply length_fmap.
  assert (Hname : length name = len) by (unfold name; rewrite length_take, (co_name _ _ Hc); lia).
  set (pre := [0; u8 (bc_execed c); u8 (Z.of_nat h)] ++ ids ++ [u8 (Z.of_nat len)] ++ name).
  set (base := 3 + Z.of_nat h + Z.of_nat len + 1).
  assert (Eb : blob = pre ++ be_bytes 4 (bc_pid c) ++ be_bytes 4 (bc_uid c) ++
    be_bytes 4 (bc_gid c) ++ be_bytes 4 (bc_proto c) ++ be_bytes 4 (bc_byteorder c)).
  { unfold client_blob in Hb. rewrite (co_len _ _ Hc) in Hb. injection Hb as <-.
    unfold pre, words, ids, name, listed. cbn [fmap list_fmap mjoin list_join].
    rewrite <- !app_assoc. by rewrite app_nil_r. }
  assert (Lp : base = Z.of_nat (length pre)).
  { unfold base, pre. rewrite !length_app. cbn [length]. lia. }
  assert (Bl : Z.of_nat (length blob) = base + 12 + 4 + 4) by lia.
  destruct (m2c_nnode _ _ _ _ blob rest m (bc_nnode c0) (co_nnode _ _ Hc) Ha Hd Hdl)
    as (n' & Hn & Hcmp). rewrite Bl in Hn. exists n'. split; [|exact Hcmp].
  rewrite Eb, <- !app_assoc in Hd.
  destruct (words_read _ _ _ _ _ _ _ _ _ Hd Lp) as (W1 & W2 & W3 & W4 & W5).
  { destruct Hc. repeat (apply Forall_cons_2; [done|]). apply Forall_nil_2. }
  assert (Hdl' : base + 20 ≤ m_datalen m) by (rewrite Hdl, Bl; destruct (Z.eqb_spec r 0); lia).
  unfold pre in Hd. rewrite <- !app_assoc in Hd. unfold roar_ctl_m2c.
  destruct (Z.eqb_spec (m_datalen m) 0); [lia|].
  replace (aget (m_data m) 0) with (Done 0) by (by rewrite Hd). rewrite bind_Done. cbn [Z.eqb negb].
  destruct (Z.ltb_spec (m_datalen m) 3); [lia|].
  replace (aget (m_data m) 1) with (Done (u8 (bc_execed c))) by (by rewrite Hd).
  replace (aget (m_data m) 2) with (Done (u8 (Z.of_nat h))) by (by rewrite Hd).
  rewrite !bind_Done, (s8_u8 (Z.of_nat h)) by lia.
  rewrite (data_at_mid m [0; u8 (bc_execed c); u8 (Z.of_nat h)] ids _ _ _ Hd) by (done || lia).
  rewrite bind_Done. unfold ids at 1. rewrite (listed_chars _ _ Hc), listed_stored by done.
  cbn [or_ub]. rewrite bind_Done.
  replace (aget (m_data m) (3 + Z.of_nat h)) with (Done (u8 (Z.of_nat len))).
  2: { rewrite Hd, app_assoc. symmetry. apply aget_mid. rewrite length_app. simpl. lia. }
  rewrite bind_Done, (s8_u8 (Z.of_nat len)) by lia.
  rewrite (data_at_mid m ([0; u8 (bc_execed c); u8 (Z.of_nat h)] ++ ids ++ [u8 (Z.of_nat len)])
    name _ _ _ ltac:(rewrite Hd, <- !app_assoc; reflexivity)) by (rewrite ?length_app; simpl; lia).
  rewrite bind_Done, Nat2Z.id, <- Hname, name_stored by (done || lia). rewrite Hname.
  cbn [or_ub]. rewrite bind_Done. replace (3 + Z.of_nat h + Z.of_nat len + 1) with base by done.
  rewrite W1, bind_Done, W2, bind_Done, W3, bind_Done.
  destruct (Z.leb_spec (base + 12 + 4) (m_datalen m)); [|lia]. rewrite W4, bind_Done.
  destruct (Z.leb_spec (base + 12 + 4 + 4) (m_datalen m)); [|lia]. rewrite W5, bind_Done.
  rewrite Hn, bind_Done, s8_u8 by (pose proof (co_execed _ _ Hc); lia). reflexivity.
Qed.


Definition example_base_client (len : nat) : base_client :=
  BaseClient 3 ([3; 7] ++ replicate 10 (-1)) (replicate len 65 ++ replicate (80 - len) 0)
    1234 1000 100 ROAR_PROTO_ROARAUDIO ROAR_BYTEORDER_BE
    (Nnode ROAR_SOCKET_TYPE_INET ([127; 0; 0; 1] ++ replicate 12 0)).

