(* ===== verification/StreamTab.v ===== *)
(** * The stream table ([roard/streams.c], basic functions)

    Creation of streams, access to their fields, flags that are reset,
    subsystems and directions, the control interface, level metering.  The
    functions that work on several objects are in [Lifecycle.v] (deletion)
    and [Streams.v]. *)
From S2P Require Import Prelude Notify Chanmap Volume ServerState.

Section stream_tab.
Context `{Env}.

(** [_streams_change_state] *)
Definition streams_change_state (id new : Z) : M () :=
  s ← stream_at id;
  upd_stream id (λ s, s<|s_state := new|>) ;;
  roar_notify_core_emit_simple ROAR_OE_BASICS_CHANGE_STATE (-1) (s_id s) ROAR_OT_STREAM
    (s_state s) new.

Definition streams_init : M Z := modify (λ s, s<|g_streams := ∅|>) ;; mret 0.

(** The object [streams_new] builds in slot [i]. *)
Definition fresh_stream (i : Z) : stream := {|
  s_id := i; s_fh := -1; s_dir := 0; s_pos := 0; s_pos_rel_id := u32 (-1);
  s_info := AudioInfo 0 0 0 0;
  s_client := -1; s_buffer := None;
  s_mixer := MixerSettings 65535 1 1 (replicate ROAR_MAX_CHANNELS 65535);
  s_meta := replicate ROAR_META_MAX_PER_STREAM
              (MetaEntry ROAR_META_TYPE_NONE (replicate ROAR_META_MAX_NAMELEN 0) None);
  s_codecfilter := -1; s_codec_orgi := -1; s_socktype := 0;
  s_pre_underruns := 0; s_post_underruns := 0; s_primary := 0; s_driver_id := -1;
  s_flags := ROAR_FLAG_NONE; s_delay := 0; s_name := None; s_ready := 0;
  s_state := ROAR_STREAMSTATE_INITING; s_mixer_stream := -1;
  s_chanmap := Chanmap (replicate ROAR_MAX_CHANNELS 0) (replicate ROAR_MAX_CHANNELS 0)
                       (replicate ROAR_MAX_CHANNELS 0);
  s_role := ROAR_ROLE_UNKNOWN; s_parent_stream := -1;
  s_ltm := replicate MAX_LTM_WINDOWS_PER_STREAM (StreamLtm 0 0 0 0 0 []);
  s_mixerstream := false
|}.

(** The first index of [0 .. max-1] that a table leaves free. *)
Definition first_free {A} (m : gmap Z A) (max : Z) : option Z :=
  snd <$> list_find (λ i, m !! i = None) (seqZ 0 max).

Definition streams_new : M Z :=
  terminate ← gets g_terminate;
  no_listen ← gets g_no_listen;
  if negb (terminate =? 0) && (no_listen =? 0) then mret (-1)
  else
    m ← gets g_streams;
    match first_free m ROAR_STREAMS_MAX with
    | None => mret (-1)
    | Some i =>
        modify (λ s, s<|g_streams := <[i := fresh_stream i]> (g_streams s)|>) ;;
        counters_inc_streams 1 ;;
        roar_notify_core_emit_snoargs ROAR_OE_BASICS_NEW (-1) i ROAR_OT_STREAM ;;
        mret i
    end.

(** ** Access to fields *)

Definition streams_get (id : Z) : M (option stream) :=
  check_sid id None (λ st, mret (Some st)).

Definition streams_set_client (id client : Z) : M Z :=
  check_sid id (-1) (λ _, upd_stream id (λ s, s<|s_client := client|>) ;; mret 0).
Definition streams_get_client (id : Z) : M Z := check_sid id (-1) (λ s, mret (s_client s)).
Definition streams_get_dir (id : Z) : M Z := check_sid id (-1) (λ s, mret (s_dir s)).
Definition streams_set_mixer_stream (id mixer : Z) : M Z :=
  check_sid id (-1) (λ _, upd_stream id (λ s, s<|s_mixer_stream := mixer|>) ;; mret 0).
Definition streams_get_mixer_stream (id : Z) : M Z :=
  check_sid id (-1) (λ s, mret (s_mixer_stream s)).
Definition streams_set_role (id role : Z) : M Z :=
  check_sid id (-1) (λ _, upd_stream id (λ s, s<|s_role := role|>) ;; mret 0).
Definition streams_get_fh (id : Z) : M Z := check_sid id (-1) (λ s, mret (s_fh s)).
Definition streams_set_null_io (id : Z) : M Z :=
  check_sid id (-1) (λ _, upd_stream id (λ s, s<|s_fh := -1|>) ;; mret 0).
Definition streams_set_socktype (id socktype : Z) : M Z :=
  check_sid id (-1) (λ _, upd_stream id (λ s, s<|s_socktype := socktype|>) ;; mret 0).
Definition streams_get_socktype (id : Z) : M Z := check_sid id (-1) (λ s, mret (s_socktype s)).
Definition streams_is_ready (id : Z) : M Z := check_sid id (-1) (λ s, mret (s_ready s)).
Definition streams_set_primary (id prim : Z) : M Z :=
  check_sid id (-1) (λ _, upd_stream id (λ s, s<|s_primary := prim|>) ;; mret 0).
Definition streams_mark_primary (id : Z) : M Z := streams_set_primary id 1.
Definition streams_set_name (id : Z) (name : list Z) : M Z :=
  check_sid id (-1) (λ _, upd_stream id (λ s, s<|s_name := Some name|>) ;; mret 0).
Definition streams_get_name (id : Z) : M (option (list Z)) :=
  check_sid id None (λ s, mret (s_name s)).

(** ** Flags *)

Definition streams_get_flag (id flag : Z) : M Z :=
  check_sid id (-1) (λ s, mret (if has_flag (s_flags s) flag then 1 else 0)).

Definition streams_set_rawflag (id flag : Z) : M Z :=
  check_sid id (-1) (λ _,
    upd_stream id (λ s, s<|s_flags := Z.lor (s_flags s) flag|>) ;; mret 0).

Definition ROAR_SOCKET_BLOCK : Z := 1.
Definition ROAR_SOCKET_NONBLOCK : Z := 2.

Definition streams_set_sync (id sync : Z) : M Z :=
  fh ← streams_get_fh id;
  check_sid id (-1) (λ s,
    if negb (fh =? -1) then
      let r := roar_socket_nonblock fh
                 (if negb (sync =? 0) then ROAR_SOCKET_BLOCK else ROAR_SOCKET_NONBLOCK) in
      mret (if r =? -1 then -1 else 0)
    else mret (roar_vio_nonblock s sync)).

Definition streams_set_mmap (id reset : Z) : M Z :=
  check_sid id (-1) (λ s, mret (roar_vio_set_ummap s (if reset =? 0 then 1 else 0))).

Definition streams_reset_flag (id flag : Z) : M Z :=
  check_sid id (-1) (λ st,
    let flag := if has_flag (s_flags st) ROAR_FLAG_IMMUTABLE
                then Z.lor flag ROAR_FLAG_PRIMARY - ROAR_FLAG_PRIMARY else flag in
    (if has_flag flag ROAR_FLAG_RECSOURCE then
       r ← gets streams_recsource_id;
       if r =? id then modify (λ s, s<|streams_recsource_id := -1|>) else mret ()
     else mret ()) ;;
    flag ← (if has_flag flag ROAR_FLAG_MMAP then
              r ← streams_set_mmap id 1;
              mret (if r =? -1 then flag - ROAR_FLAG_MMAP else flag)
            else mret flag);
    flag ← (if has_flag flag ROAR_FLAG_PRIMARY then
              streams_set_primary id 0 ;; mret (flag - ROAR_FLAG_PRIMARY)
            else mret flag);
    refused ← (if has_flag flag ROAR_FLAG_SYNC then
                 d ← streams_get_dir id;
                 if d =? ROAR_DIR_FILTER then mret true
                 else streams_set_sync id 0 ;; mret false
               else mret false);
    if refused : bool then mret (-1)
    else
      upd_stream id (λ s, s<|s_flags := Z.lor (s_flags s) flag - flag|>) ;;
      mret 0).

(** ** Subsystem and direction

    A stream of direction THRU has those of the stream it is attached to; the
    code recurses, the model does so with fuel. *)
Fixpoint streams_get_subsys (fuel : nat) (id : Z) : M Z :=
  match fuel with
  | O => no_fuel
  | S fuel =>
      check_sid id (-1) (λ s,
        let d := s_dir s in
        if (d =? ROAR_DIR_PLAY) || (d =? ROAR_DIR_RECORD) || (d =? ROAR_DIR_MONITOR) ||
           (d =? ROAR_DIR_FILTER) || (d =? ROAR_DIR_OUTPUT) || (d =? ROAR_DIR_BIDIR)
        then mret ROAR_SUBSYS_WAVEFORM
        else if (d =? ROAR_DIR_MIDI_IN) || (d =? ROAR_DIR_MIDI_OUT) then mret ROAR_SUBSYS_MIDI
        else if (d =? ROAR_DIR_LIGHT_IN) || (d =? ROAR_DIR_LIGHT_OUT) then mret ROAR_SUBSYS_LIGHT
        else if (d =? ROAR_DIR_RAW_IN) || (d =? ROAR_DIR_RAW_OUT) then mret ROAR_SUBSYS_RAW
        else if (d =? ROAR_DIR_COMPLEX_IN) || (d =? ROAR_DIR_COMPLEX_OUT)
        then mret ROAR_SUBSYS_COMPLEX
        else if d =? ROAR_DIR_THRU then streams_get_subsys fuel (s32 (s_pos_rel_id s))
        else if d =? ROAR_DIR_MIXING then mret ROAR_SUBSYS_NONE
        else mret (-1))
  end.

Fixpoint streams_get_ssdir (fuel : nat) (id : Z) : M Z :=
  match fuel with
  | O => no_fuel
  | S fuel =>
      check_sid id (-1) (λ s,
        let d := s_dir s in
        if (d =? ROAR_DIR_PLAY) || (d =? ROAR_DIR_MIDI_IN) || (d =? ROAR_DIR_LIGHT_IN) ||
           (d =? ROAR_DIR_RAW_IN) || (d =? ROAR_DIR_COMPLEX_IN)
        then mret STREAM_DIR_IN
        else if (d =? ROAR_DIR_RECORD) || (d =? ROAR_DIR_MONITOR) || (d =? ROAR_DIR_OUTPUT) ||
                (d =? ROAR_DIR_MIDI_OUT) || (d =? ROAR_DIR_LIGHT_OUT) ||
                (d =? ROAR_DIR_RAW_OUT) || (d =? ROAR_DIR_COMPLEX_OUT)
        then mret STREAM_DIR_OUT
        else if d =? ROAR_DIR_MIXING then mret STREAM_DIR_NONE
        else if (d =? ROAR_DIR_FILTER) || (d =? ROAR_DIR_BIDIR) then mret STREAM_DIR_BIDIR
        else if d =? ROAR_DIR_THRU then streams_get_ssdir fuel (s32 (s_pos_rel_id s))
        else mret (-1))
  end.

(** ** Control interface *)

Definition ROAR_STREAM_CTL_COMPMASK : Z := 0xFF000000.
Definition ROAR_STREAM_CTL_COMP_CF : Z := 0x01000000.
Definition ROAR_STREAM_CTL_TYPE_INT : Z := 0x00010000.
Definition ROAR_CODECFILTER_CTL_VIRTUAL_DELETE : Z := 0x01002004.
Definition ROAR_CODECFILTER_CTL_VIRTUAL_NEW : Z := 0x01002005.
Definition ROAR_CODECFILTER_CTL_META_UPDATE : Z := 0x01001001.

(** Only the codec filter component answers. *)
Definition streams_ctl (id cmd : Z) : M Z :=
  check_sid id (-1) (λ s,
    let comp := Z.land cmd ROAR_STREAM_CTL_COMPMASK in
    let cmd := Z.land cmd (Z.lnot comp) in
    if comp =? ROAR_STREAM_CTL_COMP_CF then
      mret (if s_codecfilter s =? -1 then -1 else codecfilter_ctl s cmd)
    else mret (-1)).

(** ** Delay *)

Definition streams_calc_delay (id : Z) : M Z :=
  check_sid id (-1) (λ s,
    if s_dir s =? ROAR_DIR_MIXING then mret 0
    else
      let d := if negb (s_codecfilter s =? -1) then
                 if codecfilter_delay s is Some t then u32 t else 0
               else 0 in
      d ← (match roar_vio_get_delay s with
           | Some t =>
               let div := u32 (rate (s_info s) * channels (s_info s) * (bits (s_info s) / 8)) in
               if div =? 0 then undefined
               else mret (u32 (d + u64 (u32 t * 1000000) / div))
           | None => mret d
           end);
      upd_stream id (λ s, s<|s_delay := d|>) ;; mret 0).

(** ** Level metering: registration of windows *)

Definition ROAR_LTM_MT_RMS : Z := 0x0020.
Definition ROAR_LTM_WIN_WORKBLOCK : Z := 0.
Definition ROAR_LTM_SST_NOOP : Z := 0.
Definition ROAR_LTM_SST_REGISTER : Z := 1.
Definition ROAR_LTM_SST_UNREGISTER : Z := 2.

(** [ltm->refc && ltm->window == window] *)
Definition ltm_in_use (window : Z) (l : stream_ltm) : Prop :=
  lt_refc l ≠ 0 ∧ lt_window l = window.
#[export] Instance ltm_in_use_dec window l : Decision (ltm_in_use window l).
Proof. unfold ltm_in_use. apply _. Defined.

(** The loop of ROAR_LTM_SST_UNREGISTER: it returns 0 at the window whose
    last reference it drops and goes on after any other one. *)
Fixpoint ltm_unregister (window : Z) (ls : list stream_ltm) : Z * list stream_ltm :=
  match ls with
  | [] => (-1, [])
  | l :: ls =>
      if decide (ltm_in_use window l) then
        let l' := l<|lt_refc := u64 (lt_refc l - 1)|> in
        if lt_refc l' =? 0 then (0, l' :: ls)
        else let '(r, ls') := ltm_unregister window ls in (r, l' :: ls')
      else let '(r, ls') := ltm_unregister window ls in (r, l :: ls')
  end.

Definition streams_ltm_ctl (id mt window cmd : Z) : M Z :=
  check_sid id (-1) (λ s,
    if negb (window =? ROAR_LTM_WIN_WORKBLOCK) then mret (-1)
    else if negb (Z.lor mt ROAR_LTM_MT_RMS - ROAR_LTM_MT_RMS =? 0) then mret (-1)
    else if cmd =? ROAR_LTM_SST_NOOP then mret 0
    else if cmd =? ROAR_LTM_SST_REGISTER then
      match list_find (ltm_in_use window) (s_ltm s) with
      | Some (i, l) =>
          upd_stream id (λ s, s<|s_ltm := <[i := l<|lt_refc := u64 (lt_refc l + 1)|>
                                                  <|lt_mt := Z.lor (lt_mt l) mt|>]> (s_ltm s)|>) ;;
          mret 0
      | None =>
          match list_find (λ l, lt_refc l = 0) (s_ltm s) with
          | Some (i, _) =>
              let n := channels (s_info s) in
              upd_stream id (λ s, s<|s_ltm :=
                <[i := StreamLtm window (-1) mt 1 n (replicate (Z.to_nat n) 0)]> (s_ltm s)|>) ;;
              mret 0
          | None => mret (-1)
          end
      end
    else if cmd =? ROAR_LTM_SST_UNREGISTER then
      let '(r, ls) := ltm_unregister window (s_ltm s) in
      upd_stream id (λ s, s<|s_ltm := ls|>) ;; mret r
    else mret (-1)).

Definition streams_ltm_get (id mt window : Z) : M (option stream_ltm) :=
  check_sid id None (λ s,
    match list_find (ltm_in_use window) (s_ltm s) with
    | Some (_, l) => mret (if Z.land (lt_mt l) mt =? mt then Some l else None)
    | None => mret None
    end).

Definition streams_get_mixerstream (id : Z) : M bool :=
  check_sid id false (λ s, mret (s_mixerstream s)).

(** ** The input queue

    [s_buffer] abstracts the chain of buffers of [Buffer.v] to the data of
    its elements. *)
Definition stream_add_buffer (id : Z) (buf : list Z) : M Z :=
  check_sid id (-1) (λ s,
    upd_stream id (λ s, s<|s_buffer := Some (default [] (s_buffer s) ++ [buf])|>) ;; mret 0).

Definition stream_shift_buffer (id : Z) : M (Z * option (list Z)) :=
  check_sid id (-1, None) (λ s,
    match s_buffer s with
    | None | Some [] => mret (0, None)
    | Some (b :: bs) =>
        upd_stream id (λ s, s<|s_buffer := match bs with [] => None | _ => Some bs end|>) ;;
        mret (0, Some b)
    end).
End stream_tab.
