(* ===== verification/Meta.v ===== *)
(** * Stream meta data in the server ([roard/meta.c])

    Each stream has [ROAR_META_MAX_PER_STREAM] slots; a slot of type NONE is
    free. *)
From S2P Require Import Prelude Notify Chanmap Volume ServerState StreamTab.

Section meta.
Context `{Env}.

(** A pointer to the stream, or [NULL]; unlike [_CHECK_SID] the functions of
    this file use [g_streams[id]] without any check of the index. *)
Definition meta_stream {A} (id : Z) (ret : A) (k : stream → M A) : M A :=
  o ← g_stream id; match o with None => mret ret | Some s => k s end.

Definition meta_clear_type (type : Z) (e : meta_entry) : meta_entry :=
  if mt_type e =? type then e<|mt_type := ROAR_META_TYPE_NONE|><|mt_value := None|> else e.

Definition set_key (name : option (list Z)) (key : list Z) : list Z :=
  match name with
  | None => <[0%nat := 0]> key
  | Some n => strncpy_bytes n ROAR_META_MAX_NAMELEN
  end.

(** The loop of [stream_meta_add]: the first free slot is filled. *)
Fixpoint meta_insert (type : Z) (name : option (list Z)) (val : list Z)
    (l : list meta_entry) : option (list meta_entry) :=
  match l with
  | [] => None
  | e :: l =>
      if mt_type e =? ROAR_META_TYPE_NONE
      then Some (MetaEntry type (set_key name (mt_key e)) (Some val) :: l)
      else (e ::.) <$> meta_insert type name val l
  end.

Definition stream_meta_add (id type : Z) (name : option (list Z)) (val : list Z) : M Z :=
  meta_stream id (-1) (λ s,
    match meta_insert type name val (s_meta s) with
    | Some l => upd_stream id (λ s, s<|s_meta := l|>) ;; mret 0
    | None => mret (-1)
    end).

Definition stream_meta_set (id type : Z) (name : option (list Z)) (val : list Z) : M Z :=
  meta_stream id (-1) (λ s,
    upd_stream id (λ s, s<|s_meta := meta_clear_type type <$> s_meta s|>) ;;
    stream_meta_add id type name val).

(** The C string in the key array, as [strncmp(key, _, 32)] sees it. *)
Definition key_string (key : list Z) : list Z := take (default (length key) (c_strlen key)) key.

(** The loop of [stream_meta_get]; the value is stored to an array of [len]
    octets behind [val]. *)
Fixpoint meta_lookup (type : Z) (name : option (list Z)) (len : Z) (l : list meta_entry)
  : Z * option (list Z) :=
  match l with
  | [] => (-1, None)
  | e :: l =>
      if (mt_type e =? type) &&
         (if name is Some n
          then bool_decide (key_string (mt_key e) = take ROAR_META_MAX_NAMELEN n) else true)
      then match mt_value e with
           | None => (-1, None)
           | Some v => if len - 1 <? Z.of_nat (length v) then (-1, None) else (0, Some v)
           end
      else meta_lookup type name len l
  end.

Definition stream_meta_get (id type : Z) (name : option (list Z)) (len : Z)
  : M (Z * option (list Z)) :=
  meta_stream id (-1, None) (λ s, mret (meta_lookup type name len (s_meta s))).

(** The types in use, each once, in the order of the slots. *)
Fixpoint meta_types (have : list Z) (l : list meta_entry) : list Z :=
  match l with
  | [] => have
  | e :: l => meta_types (if decide (mt_type e ∈ have) then have else have ++ [mt_type e]) l
  end.

(** The return value is the length of the list, or -1. *)
Definition stream_meta_list (id len : Z) : M (option (list Z)) :=
  meta_stream id None (λ s,
    if len <? Z.of_nat ROAR_META_MAX_PER_STREAM then mret None
    else mret (Some (meta_types [] (s_meta s)))).

Definition meta_wipe (e : meta_entry) : meta_entry :=
  MetaEntry ROAR_META_TYPE_NONE (<[0%nat := 0]> (mt_key e)) None.

Definition stream_meta_clear (id : Z) : M Z :=
  check_sid id (-1) (λ s,
    upd_stream id (λ s, s<|s_meta := meta_wipe <$> s_meta s|>) ;; mret 0).

Definition meta_input_dir (d : Z) : bool :=
  (d =? ROAR_DIR_PLAY) || (d =? ROAR_DIR_META) || (d =? ROAR_DIR_FILTER) || (d =? ROAR_DIR_BIDIR).
Definition meta_output_dir (d : Z) : bool :=
  (d =? ROAR_DIR_MONITOR) || (d =? ROAR_DIR_FILTER) || (d =? ROAR_DIR_META) ||
  (d =? ROAR_DIR_BIDIR) || (d =? ROAR_DIR_OUTPUT).

(** The innermost loop: slot [i] of the input stream [ci] is added to [co].
    The slots are read as the loop reaches them, which matters for
    [ci = co]. *)
Definition meta_copy_slot (ci co : Z) (i : nat) : M () :=
  s ← stream_at ci;
  match s_meta s !! i with
  | None => mret ()
  | Some e =>
      if mt_type e =? ROAR_META_TYPE_NONE then mret ()
      else match mt_value e with
           | None => undefined
           | Some v => stream_meta_add co (mt_type e) (Some (key_string (mt_key e))) v ;; mret ()
           end
  end.

Definition meta_copy (co ci : Z) : M () :=
  o ← g_stream ci;
  match o with
  | None => mret ()
  | Some s =>
      if negb (meta_input_dir (s_dir s)) then mret ()
      else
        f ← streams_get_flag ci ROAR_FLAG_META;
        if negb (f =? 1) then mret ()
        else for_each (seq 0 ROAR_META_MAX_PER_STREAM) (meta_copy_slot ci co)
  end.

Definition meta_finalize_out (co : Z) : M () :=
  o ← g_stream co;
  match o with
  | None => mret ()
  | Some s =>
      if negb (meta_output_dir (s_dir s)) then mret ()
      else
        f ← streams_get_flag co ROAR_FLAG_META;
        if negb (f =? 1) then mret ()
        else
          stream_meta_clear co ;;
          for_each (seqZ 0 ROAR_STREAMS_MAX) (meta_copy co) ;;
          streams_ctl co ROAR_CODECFILTER_CTL_META_UPDATE ;;
          mret ()
  end.

Definition stream_meta_finalize (id : Z) : M Z :=
  f ← streams_get_flag id ROAR_FLAG_META;
  if negb (f =? 1) then mret 0
  else
    s ← stream_at id;
    if negb (meta_input_dir (s_dir s)) then mret 0
    else for_each (seqZ 0 ROAR_STREAMS_MAX) meta_finalize_out ;; mret 0.
End meta.
