(* ===== verification/Lifecycle.v ===== *)
(** * Deleting streams and clients
    ([streams_delete], [client_stream_delete], [clients_delete])

    The three functions call each other: deleting a stream deletes the
    streams attached to it and, when its client executes it, the client;
    deleting a client deletes its streams.  A stream that is being deleted
    is in state CLOSING, a client loses its [execed] stream first; these two
    marks are what ends the recursion and what keeps the pointers the callers
    hold valid.  [streams_delete] recurses with fuel; [fuel_enough] many
    calls are always enough. *)
From S2P Require Import Prelude Notify Chanmap Volume Nnode Auth ServerState StreamTab Meta.

Section lifecycle.
Context `{Env}.

Section with_streams_delete.
Variable streams_delete : Z → M Z.

(** Up to the loop of [clients_delete]; the result is [close_client_fh]. *)
Definition clients_delete_prepare (id : Z) : M bool :=
  c ← client_at id;
  (if c_waits c is Some _ then upd_client id (λ c, c<|c_waits := None|>) else mret ()) ;;
  roar_notify_core_emit_snoargs ROAR_OE_BASICS_DELETE (-1) id ROAR_OT_CLIENT ;;
  counters_inc_clients (-1) ;;
  c ← client_at id;
  if negb (c_execed c =? -1)
  then upd_client id (λ c, c<|c_execed := -1|>) ;; mret false
  else mret true.

Definition clients_delete_with (id : Z) : M Z :=
  check_cid id (-1) (λ _,
    close_client_fh ← clients_delete_prepare id;
    for_each (seq 0 ROAR_CLIENTS_MAX_STREAMS_PER_CLIENT) (λ i,
      c ← client_at id;
      x ← lift (aget (c_streams c) (Z.of_nat i));
      streams_delete x ;; mret ()) ;;
    c ← client_at id;
    (if negb (c_fh c =? -1) && (close_client_fh : bool) then close_fh (c_fh c) else mret ()) ;;
    modify (λ s, s<|g_clients := delete id (g_clients s)|>) ;;
    mret 0).

Definition client_stream_delete_with (client stream : Z) : M Z :=
  check_cid client (-1) (λ c,
    match list_find (λ x, x = stream) (c_streams c) with
    | None => mret (-1)
    | Some (i, _) =>
        upd_client client (λ c, c<|c_streams := <[i := -1]> (c_streams c)|>) ;;
        c ← client_at client;
        (if stream =? c_execed c then clients_delete_with client ;; mret () else mret ()) ;;
        mret 0
    end).

(** One round of the loop over the streams attached to [id]. *)
Definition delete_attached (id i : Z) : M () :=
  o ← g_stream i;
  match o with
  | None => mret ()
  | Some t =>
      if s_pos_rel_id t =? id then
        if (s_dir t =? ROAR_DIR_THRU) || (s_dir t =? ROAR_DIR_RAW_IN) then
          if negb (i =? id) then streams_delete i ;; mret () else mret ()
        else
          f ← streams_get_flag i ROAR_FLAG_VIRTUAL;
          if f =? 1 then
            if negb (i =? id) then streams_delete i ;; mret () else mret ()
          else upd_stream i (λ t, t<|s_pos_rel_id := u32 (-1)|>)
      else mret ()
  end.

(** A virtual stream tells the codec filter of its parent; meanwhile it is
    neither grouped nor owned. *)
Definition notify_virtual_parent (id : Z) : M () :=
  f ← streams_get_flag id ROAR_FLAG_VIRTUAL;
  if f =? 1 then
    s ← stream_at id;
    let i := s32 (s_pos_rel_id s) in
    if negb (i =? -1) then
      upd_stream id (λ s, s<|s_pos_rel_id := u32 (-1)|>) ;;
      client ← streams_get_client id;
      streams_set_client id (-1) ;;
      streams_ctl i (Z.lor ROAR_CODECFILTER_CTL_VIRTUAL_DELETE ROAR_STREAM_CTL_TYPE_INT) ;;
      streams_set_client id client ;;
      upd_stream id (λ s, s<|s_pos_rel_id := u32 i|>)
    else mret ()
  else mret ().

(** The part of [streams_delete] between the loop and the release of the
    object: counters, parent, meta data, filter and driver.  The hardware
    mixer's and the I/O objects, which are released here too, are not in the
    model. *)
Definition streams_delete_detach (id : Z) : M () :=
  s ← stream_at id;
  (if s_dir s =? ROAR_DIR_THRU
   then modify (λ s, s<|streams_thru_num := streams_thru_num s - 1|>) else mret ()) ;;
  notify_virtual_parent id ;;
  f ← streams_get_flag id ROAR_FLAG_META;
  (if f =? 1 then stream_meta_clear id ;; stream_meta_finalize id ;; mret () else mret ()) ;;
  s ← stream_at id;
  (if negb (s_codecfilter s =? -1)
   then upd_stream id (λ s, s<|s_codecfilter := -1|>) else mret ()) ;;
  s ← stream_at id;
  (if negb (s_driver_id s =? -1)
   then upd_stream id (λ s, s<|s_driver_id := -1|>) else mret ()).

(** The body of [streams_delete] after the checks. *)
Definition streams_delete_mark (id : Z) : M () :=
  streams_change_state id ROAR_STREAMSTATE_CLOSING ;;
  roar_notify_core_emit_snoargs ROAR_OE_BASICS_DELETE (-1) id ROAR_OT_STREAM ;;
  counters_inc_streams (-1).

Definition streams_delete_body (id : Z) : M Z :=
  streams_delete_mark id ;;
  f ← streams_get_flag id ROAR_FLAG_RECSOURCE;
  (if f =? 1 then streams_reset_flag id ROAR_FLAG_RECSOURCE ;; mret () else mret ()) ;;
  for_each (seqZ 0 ROAR_STREAMS_MAX) (delete_attached id) ;;
  streams_delete_detach id ;;
  s ← stream_at id;
  (if negb (s_client s =? -1)
   then client_stream_delete_with (s_client s) id ;; mret () else mret ()) ;;
  s ← stream_at id;
  modify (λ s, s<|g_streams := delete id (g_streams s)|>) ;;
  a ← gets alive;
  if negb (s_primary s =? 0) && negb (a =? 0)
  then modify (λ s, s<|alive := 0|>) ;; exit_process
  else mret 0.
End with_streams_delete.

Fixpoint streams_delete (fuel : nat) (id : Z) : M Z :=
  match fuel with
  | O => no_fuel
  | S fuel =>
      check_sid id (-1) (λ s,
        if s_state s =? ROAR_STREAMSTATE_CLOSING then mret 0
        else streams_delete_body (streams_delete fuel) id)
  end.

Definition clients_delete (fuel : nat) (id : Z) : M Z :=
  clients_delete_with (streams_delete fuel) id.
Definition client_stream_delete (fuel : nat) (client stream : Z) : M Z :=
  client_stream_delete_with (streams_delete fuel) client stream.

(** At most 64 streams can be waiting for their deletion. *)
Definition fuel_enough : nat := 65.
End lifecycle.

(** ** What deletion keeps *)

(** A table has at most 64 entries. *)
Lemma table_bound {A} (m : gmap Z A) :
  (∀ i x, m !! i = Some x → 0 ≤ i < 64) → (size m ≤ 64)%nat.
Proof.
  intros Hm. rewrite <- size_dom.
  transitivity (size (list_to_set (seqZ 0 64) : gset Z)).
  - apply subseteq_size. intros j. rewrite elem_of_dom, elem_of_list_to_set, elem_of_seqZ.
    intros [x Hx]. apply Hm in Hx. lia.
  - apply Nat.leb_le. vm_compute. reflexivity.
Qed.

Definition closing (st : stream) : Prop := s_state st = ROAR_STREAMSTATE_CLOSING.
#[export] Instance closing_dec st : Decision (closing st).
Proof. unfold closing. apply _. Defined.

(** Streams that are not being deleted. *)
Definition live (m : gmap Z stream) : gmap Z stream := filter (λ kv, ¬ closing kv.2) m.

Definition meta_ok (e : meta_entry) : Prop :=
  mt_type e ≠ ROAR_META_TYPE_NONE → mt_value e ≠ None.

(** What every stream object satisfies on its own: its client is none or an
    index of the client table, its meta data slots in use have a value, and
    the parent of a virtual stream is not the one index past the table that
    [_CHECK_SID] lets through. *)
Record stream_ok (st : stream) : Prop := {
  so_client : -1 ≤ s_client st < ROAR_CLIENTS_MAX;
  so_meta : Forall meta_ok (s_meta st);
  so_virtual : has_flag (s_flags st) ROAR_FLAG_VIRTUAL = true →
               s32 (s_pos_rel_id st) ≠ ROAR_STREAMS_MAX
}.

(** The invariant of the two tables.  [wf_owner]: the streams a client lists
    exist and name the client as their owner; [wf_nodup]: it lists no stream
    twice; [wf_counter]: the statistics count the streams that are not being
    deleted. *)
Record wf (s : server) : Prop := {
  wf_streams : ∀ id st, g_streams s !! id = Some st →
    0 ≤ id < ROAR_STREAMS_MAX ∧ stream_ok st;
  wf_clients : ∀ c cl, g_clients s !! c = Some cl →
    0 ≤ c < ROAR_CLIENTS_MAX ∧ length (c_streams cl) = ROAR_CLIENTS_MAX_STREAMS_PER_CLIENT;
  wf_owner : ∀ c cl i x, g_clients s !! c = Some cl → c_streams cl !! i = Some x →
    x = -1 ∨ ∃ st, g_streams s !! x = Some st ∧ s_client st = c;
  wf_nodup : ∀ c cl i j x, g_clients s !! c = Some cl → x ≠ -1 →
    c_streams cl !! i = Some x → c_streams cl !! j = Some x → i = j;
  wf_counter : counters_streams s = Z.of_nat (size (live (g_streams s)))
}.

(** Both are decidable. *)
#[export] Instance meta_ok_dec e : Decision (meta_ok e).
Proof. unfold meta_ok. apply _. Defined.

#[export] Instance stream_ok_dec st : Decision (stream_ok st).
Proof.
  refine (cast_if (decide (-1 ≤ s_client st < ROAR_CLIENTS_MAX ∧ Forall meta_ok (s_meta st) ∧
    (has_flag (s_flags st) ROAR_FLAG_VIRTUAL = true →
     s32 (s_pos_rel_id st) ≠ ROAR_STREAMS_MAX)))); [|intros []; tauto].
  abstract (split; tauto).
Defined.

(** The entries of the list of client [c]. *)
Definition list_owned (m : gmap Z stream) (c : Z) (l : list Z) : Prop :=
  Forall (λ x, x = -1 ∨ (s_client <$> m !! x) = Some c) l ∧
  Forall (λ i, Forall (λ j, l !! i = l !! j → l !! i = Some (-1) ∨ i = j) (seq 0 (length l)))
         (seq 0 (length l)).

Definition wf_tables (s : server) : Prop :=
  map_Forall (λ id st, (0 ≤ id < ROAR_STREAMS_MAX) ∧ stream_ok st) (g_streams s) ∧
  map_Forall (λ c cl, (0 ≤ c < ROAR_CLIENTS_MAX) ∧
    length (c_streams cl) = ROAR_CLIENTS_MAX_STREAMS_PER_CLIENT ∧
    list_owned (g_streams s) c (c_streams cl)) (g_clients s) ∧
  counters_streams s = Z.of_nat (size (live (g_streams s))).

#[export] Instance wf_tables_dec s : Decision (wf_tables s).
Proof. unfold wf_tables, list_owned, live. apply _. Defined.

Lemma wf_decided s : wf_tables s → wf s.
Proof.
  intros (H1 & H2 & H3). split; [done| | | |done].
  - intros c cl Hc. by destruct (H2 _ _ Hc) as (? & ? & _).
  - intros c cl i x Hc Hx. destruct (H2 _ _ Hc) as (_ & _ & [Ho _]).
    destruct (Forall_lookup_1 _ _ _ _ Ho Hx) as [?|E]; [by left|right].
    destruct (g_streams s !! x) as [st|]; [|done]. exists st. by injection E.
  - intros c cl i j x Hc Hx Hi Hj. destruct (H2 _ _ Hc) as (_ & _ & [_ Hn]).
    pose proof (lookup_lt_Some _ _ _ Hi). pose proof (lookup_lt_Some _ _ _ Hj).
    rewrite Forall_forall in Hn. assert (Hn' := Hn i ltac:(apply elem_of_seq; lia)).
    rewrite Forall_forall in Hn'. destruct (Hn' j); [apply elem_of_seq; lia|congruence| |done].
    congruence.
Qed.

(** How one stream may change while others are deleted: its owner and its
    state stay, it does not become primary, and it may be detached from the
    stream it belongs to. *)
Record stream_step (st st' : stream) : Prop := {
  ss_client : s_client st' = s_client st;
  ss_primary : s_primary st' ≠ 0 → s_primary st ≠ 0;
  ss_state : s_state st' = s_state st;
  ss_pos : s32 (s_pos_rel_id st') = s32 (s_pos_rel_id st) ∨ s32 (s_pos_rel_id st') = -1;
  ss_ok : stream_ok st → stream_ok st'
}.

Record client_step (cl cl' : client) : Prop := {
  cs_execed : c_execed cl' = c_execed cl;
  cs_length : length (c_streams cl') = length (c_streams cl);
  cs_streams : ∀ i x, c_streams cl' !! i = Some x → x = -1 ∨ c_streams cl !! i = Some x
}.

(** How the server may change: objects are removed or take steps; a stream
    that was closing at the start is not removed, nor is a client without
    executed stream, [X] excepted; a client's entry for a stream is only
    cleared when the stream is not live any more, and not when it was closing
    at the start, [Y] excepted; the client counter follows the table. *)
Record stepx (X Y : option Z) (s s' : server) : Prop := {
  st_stream : ∀ id st', g_streams s' !! id = Some st' →
    ∃ st, g_streams s !! id = Some st ∧ stream_step st st';
  st_keep : ∀ id st, g_streams s !! id = Some st → closing st → is_Some (g_streams s' !! id);
  st_client : ∀ c cl', g_clients s' !! c = Some cl' →
    ∃ cl, g_clients s !! c = Some cl ∧ client_step cl cl';
  st_keepc : ∀ c cl, g_clients s !! c = Some cl → c_execed cl = -1 → X ≠ Some c →
    is_Some (g_clients s' !! c);
  st_cleared : ∀ c cl cl' i x, g_clients s !! c = Some cl → g_clients s' !! c = Some cl' →
    c_streams cl !! i = Some x → x ≠ -1 → c_streams cl' !! i = Some (-1) →
    live (g_streams s') !! x = None ∧
    (Y ≠ Some x → ∀ st, g_streams s !! x = Some st → ¬ closing st);
  st_alive : alive s' ≠ 0 → alive s ≠ 0;
  st_counter : u64 (counters_clients s' - Z.of_nat (size (g_clients s'))) =
               u64 (counters_clients s - Z.of_nat (size (g_clients s)))
}.

Abbreviation step := (stepx None None).

(** The process may end when a primary stream exists. *)
Definition may_exit (s : server) : Prop :=
  alive s ≠ 0 ∧ ∃ id st, g_streams s !! id = Some st ∧ s_primary st ≠ 0.

Lemma live_lookup m id st : live m !! id = Some st ↔ m !! id = Some st ∧ ¬ closing st.
Proof. apply map_lookup_filter_Some. Qed.

Lemma live_lookup_None m id :
  live m !! id = None ↔ ∀ st, m !! id = Some st → closing st.
Proof.
  rewrite eq_None_not_Some. split.
  - intros Hn st Hst. destruct (decide (closing st)); [done|]. destruct Hn.
    exists st. by apply live_lookup.
  - intros Hc [st [Hst Hn]%live_lookup]. by apply Hn, Hc.
Qed.

#[export] Instance stream_step_po : PreOrder stream_step.
Proof.
  split; [intros st; split; auto|].
  intros a b c [] []. split; [congruence|auto|congruence| |auto].
  destruct ss_pos1; [|auto]. destruct ss_pos0; [left|right]; congruence.
Qed.

Lemma stream_step_closing st st' : stream_step st st' → closing st' ↔ closing st.
Proof. intros []. unfold closing. by rewrite ss_state0. Qed.

#[export] Instance client_step_po : PreOrder client_step.
Proof.
  split; [intros cl; split; auto|].
  intros a b c [] []. split; [congruence|congruence|].
  intros i x Hx. destruct (cs_streams1 i x Hx); [by left|auto].
Qed.

Lemma live_step_None (m m' : gmap Z stream) x :
  (∀ id st', m' !! id = Some st' → ∃ st, m !! id = Some st ∧ stream_step st st') →
  live m !! x = None → live m' !! x = None.
Proof.
  rewrite !live_lookup_None. intros Hs Hl st' H'.
  destruct (Hs _ _ H') as (st & H & E). apply (stream_step_closing _ _ E). auto.
Qed.

#[export] Instance stepx_po X Y : PreOrder (stepx X Y).
Proof.
  split.
  { intros s. split; eauto; intros; try by eexists.
    assert (cl = cl') as <- by congruence. congruence. }
  intros a b c R S. split.
  - intros id st'' H''. destruct (st_stream _ _ _ _ S _ _ H'') as (st' & H' & E').
    destruct (st_stream _ _ _ _ R _ _ H') as (st & H & E). exists st. split; [done|].
    by transitivity st'.
  - intros id st Hst Hc. destruct (st_keep _ _ _ _ R _ _ Hst Hc) as [st' H'].
    destruct (st_stream _ _ _ _ R _ _ H') as (st0 & H0 & E). simplify_eq.
    apply (st_keep _ _ _ _ S _ _ H'). by apply (stream_step_closing _ _ E).
  - intros cid cl'' H''. destruct (st_client _ _ _ _ S _ _ H'') as (cl' & H' & E').
    destruct (st_client _ _ _ _ R _ _ H') as (cl & H & E). exists cl. split; [done|].
    by transitivity cl'.
  - intros cid cl Hcl Hc HX. destruct (st_keepc _ _ _ _ R _ _ Hcl Hc HX) as [cl' H'].
    destruct (st_client _ _ _ _ R _ _ H') as (cl0 & H0 & E). simplify_eq.
    apply (st_keepc _ _ _ _ S _ _ H'); [|done]. by rewrite (cs_execed _ _ E).
  - intros cid cl cl'' i x H H'' Hx Hn Hx''.
    destruct (st_client _ _ _ _ S _ _ H'') as (cl' & H' & E').
    destruct (st_client _ _ _ _ R _ _ H') as (cl0 & H0 & E). simplify_eq.
    destruct (lookup_lt_is_Some_2 (c_streams cl') i) as [x' Hx'].
    { rewrite (cs_length _ _ E). by eapply lookup_lt_Some. }
    destruct (decide (x' = -1)) as [->|Hn'].
    + destruct (st_cleared _ _ _ _ R _ _ _ _ _ H H' Hx Hn Hx') as [L K]. split; [|done].
      eapply live_step_None; [apply S|done].
    + destruct (cs_streams _ _ E _ _ Hx') as [|Hxx]; [done|]. simplify_eq.
      destruct (st_cleared _ _ _ _ S _ _ _ _ _ H' H'' Hx' Hn Hx'') as [L K].
      split; [done|]. intros HY st Hst Hcl.
      destruct (st_keep _ _ _ _ R _ _ Hst Hcl) as [st' Hst'].
      destruct (st_stream _ _ _ _ R _ _ Hst') as (st0 & H0' & Es). simplify_eq.
      apply (K HY _ Hst'). by apply (stream_step_closing _ _ Es).
  - intros Ha. apply R. by apply S.
  - rewrite (st_counter _ _ _ _ S). apply R.
Qed.

Lemma stepx_weaken X Y s s' : step s s' → stepx X Y s s'.
Proof.
  intros [S1 S2 S3 S4 S5 S6 S7]. split; [done..| | |done|done].
  - intros c cl Hc Hx _. by eapply S4.
  - intros c cl cl' i x H1 H2 H3 H4 H5. destruct (S5 c cl cl' i x H1 H2 H3 H4 H5). auto.
Qed.

(** A client that executes a stream may be removed anyway. *)
Lemma stepx_executing c cl s s' :
  g_clients s !! c = Some cl → c_execed cl ≠ -1 → stepx (Some c) None s s' → step s s'.
Proof.
  intros Hcl Hx [S1 S2 S3 S4 S5 S6 S7]. split; [done..| |done|done|done].
  intros d cl' Hd Hd1 _. apply (S4 d cl'); [done..|]. congruence.
Qed.

Lemma may_exit_step X Y s s' : stepx X Y s s' → may_exit s' → may_exit s.
Proof.
  intros R [Ha (id & st' & Hst & Hp)]. destruct (st_stream _ _ _ _ R _ _ Hst) as (st & H & E).
  split; [by apply R|]. exists id, st. split; [done|by apply E].
Qed.

Lemma live_step X Y s s' : stepx X Y s s' →
  (size (live (g_streams s')) ≤ size (live (g_streams s)))%nat.
Proof.
  intros R. rewrite <- !size_dom. apply subseteq_size. intros id.
  rewrite !elem_of_dom. intros [st' [H Hc]%live_lookup].
  destruct (st_stream _ _ _ _ R _ _ H) as (st & Hst & E). exists st. apply live_lookup.
  split; [done|]. by rewrite <- (stream_step_closing _ _ E).
Qed.

(** Changes outside of the tables. *)
Definition same_tables (s s' : server) : Prop :=
  g_streams s' = g_streams s ∧ g_clients s' = g_clients s ∧
  counters_clients s' = counters_clients s ∧ counters_streams s' = counters_streams s ∧
  alive s' = alive s.

Lemma step_same_tables s s' : same_tables s s' → step s s'.
Proof.
  intros (E1 & E2 & E3 & _ & E5). transitivity s; [reflexivity|].
  split; rewrite ?E1, ?E2, ?E3, ?E5; eauto; intros; try by eexists.
  congruence.
Qed.

Lemma wf_same_tables s s' : same_tables s s' → wf s → wf s'.
Proof. intros (E1 & E2 & _ & E4 & _) []. split; rewrite ?E1, ?E2, ?E4; eauto. Qed.

(** Changes of one object. *)
Lemma step_upd_stream s id st f :
  g_streams s !! id = Some st → stream_step st (f st) →
  step s (s<|g_streams := <[id := f st]> (g_streams s)|>).
Proof.
  destruct s; simpl in *; intros Hst Hf.
  split; simpl; [| |intros; by eexists|eauto|intros; congruence|done|done].
  - intros j st'. destruct (decide (j = id)) as [->|Hj].
    + rewrite lookup_insert_eq. intros [= <-]. eauto.
    + rewrite lookup_insert_ne by done. intros; by eexists.
  - intros j st' Hj _. destruct (decide (j = id)) as [->|Hne].
    + rewrite lookup_insert_eq. eauto.
    + rewrite lookup_insert_ne by done. eauto.
Qed.

Lemma wf_upd_stream s id st f :
  wf s → g_streams s !! id = Some st → stream_step st (f st) →
  wf (s<|g_streams := <[id := f st]> (g_streams s)|>).
Proof.
  intros W Hst Hf. pose proof (wf_streams _ W _ _ Hst) as [Hid Hok].
  pose proof (wf_counter _ W) as Hc. pose proof (wf_owner _ W) as Ho.
  pose proof (wf_streams _ W) as Hs. pose proof (wf_clients _ W). pose proof (wf_nodup _ W).
  destruct s; simpl in *. split; simpl; [|done| |done|].
  - intros j st'. destruct (decide (j = id)) as [->|Hj].
    + rewrite lookup_insert_eq. intros [= <-]. split; [done|by apply Hf].
    + rewrite lookup_insert_ne by done. apply Hs.
  - intros c cl i x Hcl Hx. destruct (Ho c cl i x Hcl Hx) as [?|(st' & Hst' & E)]; [by left|].
    right. destruct (decide (x = id)) as [->|Hne].
    + rewrite lookup_insert_eq. eexists. split; [done|]. simplify_eq. apply Hf.
    + rewrite lookup_insert_ne by done. eauto.
  - rewrite Hc. f_equal. unfold live.
    destruct (decide (closing st)) as [Hcl|Hcl].
    + rewrite map_filter_insert_False by (cbn; rewrite (stream_step_closing _ _ Hf); tauto).
      rewrite map_filter_delete. f_equal. symmetry. apply delete_id.
      rewrite map_lookup_filter_None. right. intros ? ?. simplify_eq. tauto.
    + rewrite map_filter_insert_True by (cbn; by rewrite (stream_step_closing _ _ Hf)).
      rewrite map_size_insert_Some; [done|]. exists st. by apply live_lookup.
Qed.

Lemma step_upd_client Y s id cl f :
  g_clients s !! id = Some cl → client_step cl (f cl) →
  (∀ i x, c_streams cl !! i = Some x → x ≠ -1 → c_streams (f cl) !! i = Some (-1) →
     live (g_streams s) !! x = None ∧ Y = Some x) →
  stepx None Y s (s<|g_clients := <[id := f cl]> (g_clients s)|>).
Proof.
  destruct s; simpl in *; intros Hcl Hf Hx.
  split; simpl; [intros; by eexists|eauto| | | |done|].
  - intros j cl'. destruct (decide (j = id)) as [->|Hj].
    + rewrite lookup_insert_eq. intros [= <-]. eauto.
    + rewrite lookup_insert_ne by done. intros; by eexists.
  - intros j cl' Hj _. destruct (decide (j = id)) as [->|Hne].
    + rewrite lookup_insert_eq. eauto.
    + rewrite lookup_insert_ne by done. eauto.
  - intros j cl1 cl2 i x H1. destruct (decide (j = id)) as [->|Hne].
    + rewrite lookup_insert_eq. intros [= <-] Hi Hi1 Hi'. simplify_eq.
      destruct (Hx i x Hi Hi1 Hi') as [? ->]. done.
    + rewrite lookup_insert_ne by done. congruence.
  - by rewrite map_size_insert_Some by eauto.
Qed.

Lemma wf_upd_client s id cl f :
  wf s → g_clients s !! id = Some cl → client_step cl (f cl) →
  wf (s<|g_clients := <[id := f cl]> (g_clients s)|>).
Proof.
  intros W Hcl Hf. pose proof (wf_clients _ W _ _ Hcl) as [Hid Hlen].
  pose proof (wf_counter _ W). pose proof (wf_owner _ W) as Ho.
  pose proof (wf_streams _ W). pose proof (wf_clients _ W) as Hc. pose proof (wf_nodup _ W) as Hn.
  destruct s; simpl in *. split; simpl; [done| | | |done].
  - intros j cl'. destruct (decide (j = id)) as [->|Hj].
    + rewrite lookup_insert_eq. intros [= <-]. split; [done|]. by rewrite (cs_length _ _ Hf).
    + rewrite lookup_insert_ne by done. apply Hc.
  - intros j cl' i x. destruct (decide (j = id)) as [->|Hj].
    + rewrite lookup_insert_eq. intros [= <-] Hx.
      destruct (cs_streams _ _ Hf _ _ Hx); [by left|]. by eapply Ho.
    + rewrite lookup_insert_ne by done. apply Ho.
  - intros j cl' i i' x. destruct (decide (j = id)) as [->|Hj].
    + rewrite lookup_insert_eq. intros [= <-] Hx Hi Hi'.
      destruct (cs_streams _ _ Hf _ _ Hi); [done|].
      destruct (cs_streams _ _ Hf _ _ Hi'); [done|]. by eapply Hn.
    + rewrite lookup_insert_ne by done. apply Hn.
Qed.

Lemma ncb_wait_fields ev cl :
  c_streams (ncb_wait ev cl) = c_streams cl ∧ c_execed (ncb_wait ev cl) = c_execed cl.
Proof. split; by apply ncb_wait_keeps; intros []. Qed.

Lemma ncb_wait_step ev cl : client_step cl (ncb_wait ev cl).
Proof. destruct (ncb_wait_fields ev cl) as [E1 E2]. split; rewrite ?E1, ?E2; auto. Qed.

Lemma step_emit ev s a s' : emit_event ev s = Ret a s' → step s s'.
Proof.
  destruct s; intros [= <- <-]; split; simpl;
    [intros; by eexists|eauto| | | |done|by rewrite map_size_fmap].
  - intros c cl' H'. apply lookup_fmap_Some in H' as (cl & <- & Hcl).
    exists cl. split; [done|]. apply ncb_wait_step.
  - intros c cl Hcl _. rewrite lookup_fmap, Hcl. eauto.
  - intros c cl cl' i x Hcl H'. apply lookup_fmap_Some in H' as (cl0 & <- & Hcl0).
    simplify_eq. rewrite (proj1 (ncb_wait_fields _ _)). congruence.
Qed.

Lemma wf_emit ev s a s' : emit_event ev s = Ret a s' → wf s → wf s'.
Proof.
  destruct s; intros [= <- <-] [Hs Hc Ho Hn Hk]; simpl in *.
  split; simpl; [done| | | |done].
  - intros c cl' H'. apply lookup_fmap_Some in H' as (cl & <- & Hcl).
    rewrite (proj1 (ncb_wait_fields _ _)). eauto.
  - intros c cl' i x H'. apply lookup_fmap_Some in H' as (cl & <- & Hcl).
    rewrite (proj1 (ncb_wait_fields _ _)). eauto.
  - intros c cl' i j x H'. apply lookup_fmap_Some in H' as (cl & <- & Hcl).
    rewrite (proj1 (ncb_wait_fields _ _)). eauto.
Qed.

(** ** Operations that remove nothing

    [qstep] adds to a step that every object is still there; a computation is
    [quiet] in a state when it is defined there, returns, and does a [qstep]. *)
Record qstep (s s' : server) : Prop := {
  qs_step : step s s';
  qs_wf : wf s';
  qs_streams : ∀ id, is_Some (g_streams s !! id) → is_Some (g_streams s' !! id);
  qs_clients : ∀ c, is_Some (g_clients s !! c) → is_Some (g_clients s' !! c)
}.

Definition quiet {A} (m : M A) (s : server) : Prop :=
  ∀ E, wp E m s (λ _ s', qstep s s').

Lemma qstep_refl s : wf s → qstep s s.
Proof. intros. split; auto; reflexivity. Qed.

Lemma qstep_trans s s' s'' : qstep s s' → qstep s' s'' → qstep s s''.
Proof. intros [] []. split; auto. by transitivity s'. Qed.

Lemma wp_quiet {A B} E (m : M A) (f : A → M B) s Q :
  quiet m s → (∀ a s', qstep s s' → wp E (f a) s' Q) → wp E (m ≫= f) s Q.
Proof. intros Hm Hf. apply wp_bind. eapply wp_mono; [apply Hm|done|auto]. Qed.

Lemma quiet_bind {A B} (m : M A) (f : A → M B) s :
  quiet m s → (∀ a s', qstep s s' → quiet (f a) s') → quiet (m ≫= f) s.
Proof.
  intros Hm Hf E. apply wp_quiet; [done|]. intros a s' Hq.
  eapply wp_mono; [by apply Hf|done|]. intros b s'' ?. by eapply qstep_trans.
Qed.

Lemma quiet_ret {A} (a : A) s : wf s → quiet (mret a) s.
Proof. intros W E. by apply wp_ret, qstep_refl. Qed.

Lemma quiet_gets {A} (g : server → A) s : wf s → quiet (gets g) s.
Proof. intros W E. by apply wp_gets, qstep_refl. Qed.

Lemma quiet_modify f s : wf s → same_tables s (f s) → quiet (modify f) s.
Proof.
  intros W HT E. apply wp_modify. pose proof HT as (E1 & E2 & _).
  split; [by apply step_same_tables|by eapply wf_same_tables|by rewrite E1|by rewrite E2].
Qed.

Lemma quiet_emit ev s : wf s → quiet (emit_event ev) s.
Proof.
  intros W E. apply wp_Ret. do 2 eexists. split; [reflexivity|].
  split; [by eapply step_emit|by eapply wf_emit|..]; destruct s; simpl; [done|].
  intros c. rewrite lookup_fmap. by intros [cl ->]; eexists.
Qed.

Lemma quiet_for_each {A} (l : list A) f s :
  wf s → (∀ x s', x ∈ l → qstep s s' → quiet (f x) s') → quiet (for_each l f) s.
Proof.
  intros W Hf E. apply (wp_for_each E l f (λ s', qstep s s')); [|by apply qstep_refl].
  intros x s' Hx Hs'. eapply wp_mono; [apply Hf; [done|exact Hs']|done|].
  intros [] s'' ?. by eapply qstep_trans.
Qed.

Lemma quiet_check_sid {A} id (r : A) k s :
  wf s → id ≠ ROAR_STREAMS_MAX → (∀ st, g_streams s !! id = Some st → quiet (k st) s) →
  quiet (check_sid id r k) s.
Proof.
  intros W Hid Hk E. apply wp_check_sid; [done| |].
  - intros st _ Hst. by apply Hk.
  - intros _. by apply qstep_refl.
Qed.

Lemma quiet_g_stream id s : wf s → 0 ≤ id < ROAR_STREAMS_MAX → quiet (g_stream id) s.
Proof. intros W Hid E. apply wp_g_stream; [done|]. by apply qstep_refl. Qed.

Lemma wf_index s id : wf s → is_Some (g_streams s !! id) → 0 ≤ id < ROAR_STREAMS_MAX.
Proof. intros W [st Hst]. by eapply wf_streams. Qed.

Lemma wf_index_c s c : wf s → is_Some (g_clients s !! c) → 0 ≤ c < ROAR_CLIENTS_MAX.
Proof. intros W [cl Hcl]. by eapply wf_clients. Qed.

Lemma quiet_upd_stream id f s :
  wf s → is_Some (g_streams s !! id) →
  (∀ st, g_streams s !! id = Some st → stream_step st (f st)) → quiet (upd_stream id f) s.
Proof.
  intros W [st Hst] Hf E. eapply wp_upd_stream; [by eapply wf_index|done|].
  split; [by apply step_upd_stream; auto|by apply wf_upd_stream; auto| |];
    destruct s; simpl in *; [|done].
  intros j. rewrite !lookup_insert_is_Some. destruct (decide (id = j)); naive_solver.
Qed.

(** [stream_at] returns the object. *)
Lemma wp_stream_at_wf E id s Q :
  wf s → is_Some (g_streams s !! id) →
  (∀ st, g_streams s !! id = Some st → stream_ok st → Q st s) → wp E (stream_at id) s Q.
Proof.
  intros W [st Hst] HQ. eapply wp_stream_at; [by eapply wf_index|done|].
  apply HQ; [done|by eapply wf_streams].
Qed.

Lemma quiet_stream_at id s : wf s → is_Some (g_streams s !! id) → quiet (stream_at id) s.
Proof. intros W Hst E. apply wp_stream_at_wf; [done|done|]. intros. by apply qstep_refl. Qed.

Create HintDb quiet.
#[export] Hint Resolve quiet_ret quiet_gets qs_wf qs_streams qs_clients : quiet.
#[export] Hint Extern 1 (is_Some _) => eexists : quiet.

(** Runs through a computation whose parts are quiet. *)
Ltac quiet_step :=
  match goal with
  | |- quiet (mret _) _ => apply quiet_ret
  | |- quiet (gets _) _ => apply quiet_gets
  | |- quiet (_ ≫= _) _ => apply quiet_bind; [|intros ? ? ?]
  | |- quiet (check_sid _ _ _) _ => apply quiet_check_sid; [| |intros ? ?]
  | |- quiet (if ?b then _ else _) _ => let E := fresh "Hif" in destruct b eqn:E
  | |- quiet (let _ := _ in _) _ => cbv zeta
  | |- wf _ => by eauto 2 with quiet
  | |- _ ≠ ROAR_STREAMS_MAX => done
  end.

Section quiet_ops.
Context {env : Env}.

(** *** The functions of [StreamTab.v] and [Meta.v] that deletion calls *)

Lemma quiet_get_flag id flag s :
  wf s → id ≠ ROAR_STREAMS_MAX → quiet (streams_get_flag id flag) s.
Proof. intros. unfold streams_get_flag. repeat quiet_step. Qed.

Lemma quiet_get_dir id s : wf s → id ≠ ROAR_STREAMS_MAX → quiet (streams_get_dir id) s.
Proof. intros. unfold streams_get_dir. repeat quiet_step. Qed.

Lemma quiet_get_fh id s : wf s → id ≠ ROAR_STREAMS_MAX → quiet (streams_get_fh id) s.
Proof. intros. unfold streams_get_fh. repeat quiet_step. Qed.

Lemma quiet_ctl id cmd s : wf s → id ≠ ROAR_STREAMS_MAX → quiet (streams_ctl id cmd) s.
Proof. intros. unfold streams_ctl. repeat quiet_step. Qed.

Lemma quiet_set_mmap id reset s :
  wf s → id ≠ ROAR_STREAMS_MAX → quiet (streams_set_mmap id reset) s.
Proof. intros. unfold streams_set_mmap. repeat quiet_step. Qed.

Lemma quiet_set_sync id sync s :
  wf s → id ≠ ROAR_STREAMS_MAX → quiet (streams_set_sync id sync) s.
Proof.
  intros. unfold streams_set_sync. repeat (quiet_step || apply quiet_get_fh).
Qed.

(** Clearing [primary] or flags is a step. *)
Lemma stream_step_primary0 st : stream_step st (st<|s_primary := 0|>).
Proof. destruct st; split; simpl; [done|done|done|by left|]. intros []; split; auto. Qed.

Lemma stream_step_ldiff st f : stream_step st (st<|s_flags := Z.lor (s_flags st) f - f|>).
Proof.
  destruct st; split; simpl; [done|done|done|by left|].
  intros [Hc Hm Hv]; split; simpl in *; [done|done|]. rewrite lor_sub.
  change ROAR_FLAG_VIRTUAL with (2 ^ 12). rewrite has_flag_ldiff by lia.
  intros [H1 _]%andb_prop. by apply Hv.
Qed.

Lemma quiet_set_primary0 id s :
  wf s → id ≠ ROAR_STREAMS_MAX → quiet (streams_set_primary id 0) s.
Proof.
  intros. unfold streams_set_primary. repeat quiet_step.
  apply quiet_upd_stream; [done|eauto|]. intros. apply stream_step_primary0.
Qed.

Lemma quiet_reset_flag id flag s :
  wf s → id ≠ ROAR_STREAMS_MAX → quiet (streams_reset_flag id flag) s.
Proof.
  intros W Hid. unfold streams_reset_flag.
  repeat (quiet_step || apply quiet_set_mmap || apply quiet_set_primary0
          || apply quiet_get_dir || apply quiet_set_sync).
  - apply quiet_modify; [eauto with quiet|]. by destruct s'.
  - apply quiet_upd_stream; [eauto with quiet|eauto 10 with quiet|].
    intros; apply stream_step_ldiff.
Qed.

(** *** Meta data *)

Lemma meta_insert_ok type name val l l' :
  meta_insert type name val l = Some l' → Forall meta_ok l → Forall meta_ok l'.
Proof.
  revert l'. induction l as [|e l IH]; intros l'; cbn; [done|].
  case_match.
  - intros [= <-] [He Hl]%Forall_cons. constructor; [|done]. by intros _.
  - destruct (meta_insert type name val l) as [l1|] eqn:El; [|done].
    intros [= <-] [He Hl]%Forall_cons. constructor; [done|by apply IH].
Qed.

Lemma stream_step_meta st l :
  (Forall meta_ok (s_meta st) → Forall meta_ok l) → stream_step st (st<|s_meta := l|>).
Proof. destruct st; simpl; intros Hl. split; simpl; [done|done|done|by left|]. intros []; split; auto. Qed.

Lemma quiet_meta_add id type name val s :
  wf s → 0 ≤ id < ROAR_STREAMS_MAX → quiet (stream_meta_add id type name val) s.
Proof.
  intros W Hid E. unfold stream_meta_add, meta_stream.
  apply wp_bind, wp_g_stream; [done|]. destruct (g_streams s !! id) as [st|] eqn:Hst;
    [|by apply wp_ret, qstep_refl].
  destruct (meta_insert type name val (s_meta st)) as [l|] eqn:El;
    [|by apply wp_ret, qstep_refl].
  apply wp_quiet.
  - apply quiet_upd_stream; [done|eauto|]. intros st' ?. simplify_eq.
    apply stream_step_meta. by eapply meta_insert_ok.
  - intros [] s' Q. by apply wp_ret.
Qed.

Lemma quiet_meta_clear id s :
  wf s → id ≠ ROAR_STREAMS_MAX → quiet (stream_meta_clear id) s.
Proof.
  intros. unfold stream_meta_clear. repeat quiet_step.
  apply quiet_upd_stream; [done|eauto|]. intros st' _. apply stream_step_meta.
  intros _. apply Forall_fmap, Forall_true. by intros e He.
Qed.

Lemma quiet_meta_copy_slot ci co i s :
  wf s → is_Some (g_streams s !! ci) → 0 ≤ co < ROAR_STREAMS_MAX →
  quiet (meta_copy_slot ci co i) s.
Proof.
  intros W Hci Hco E. unfold meta_copy_slot. apply wp_bind, wp_stream_at_wf; [done..|].
  intros st Hst [_ Hm _]. destruct (s_meta st !! i) as [e|] eqn:Ei;
    [|by apply wp_ret, qstep_refl].
  destruct (Z.eqb_spec (mt_type e) ROAR_META_TYPE_NONE) as [|He];
    [by apply wp_ret, qstep_refl|].
  destruct (mt_value e) as [v|] eqn:Ev; [|by destruct (Forall_lookup_1 _ _ _ _ Hm Ei He)].
  apply wp_quiet; [by apply quiet_meta_add|]. intros r s' Q. by apply wp_ret.
Qed.

Lemma quiet_meta_copy co ci s :
  wf s → 0 ≤ co < ROAR_STREAMS_MAX → 0 ≤ ci < ROAR_STREAMS_MAX → quiet (meta_copy co ci) s.
Proof.
  intros W Hco Hci E. unfold meta_copy. apply wp_bind, wp_g_stream; [done|].
  destruct (g_streams s !! ci) as [st|] eqn:Hst; [|by apply wp_ret, qstep_refl].
  case_match; [by apply wp_ret, qstep_refl|].
  apply wp_quiet; [apply quiet_get_flag; [done|unfold ROAR_STREAMS_MAX in *; lia]|].
  intros f s1 Q1. case_match; [by apply wp_ret|].
  eapply wp_mono; [apply quiet_for_each|done|].
  - apply Q1.
  - intros i s2 _ Q2. apply quiet_meta_copy_slot; [apply Q2| |done].
    apply Q2, Q1. eauto.
  - intros [] s2 Q2. by eapply qstep_trans.
Qed.

Lemma quiet_meta_finalize_out co s :
  wf s → 0 ≤ co < ROAR_STREAMS_MAX → quiet (meta_finalize_out co) s.
Proof.
  intros W Hco E. unfold meta_finalize_out. apply wp_bind, wp_g_stream; [done|].
  assert (co ≠ ROAR_STREAMS_MAX) by (unfold ROAR_STREAMS_MAX in *; lia).
  destruct (g_streams s !! co) as [st|] eqn:Hst; [|by apply wp_ret, qstep_refl].
  case_match; [by apply wp_ret, qstep_refl|].
  revert E. change (quiet (streams_get_flag co ROAR_FLAG_META ≫= λ f,
    if negb (f =? 1) then mret () else
      stream_meta_clear co ;; for_each (seqZ 0 ROAR_STREAMS_MAX) (meta_copy co) ;;
      streams_ctl co ROAR_CODECFILTER_CTL_META_UPDATE ;; mret ()) s).
  repeat (quiet_step || apply quiet_get_flag || apply quiet_meta_clear || apply quiet_ctl).
  apply quiet_for_each; [eauto with quiet|]. intros ci s2 Hci Q2.
  apply elem_of_seqZ in Hci. apply quiet_meta_copy; [apply Q2|done|lia].
Qed.

Lemma quiet_meta_finalize id s :
  wf s → id ≠ ROAR_STREAMS_MAX → is_Some (g_streams s !! id) →
  quiet (stream_meta_finalize id) s.
Proof.
  intros W Hid Hs. unfold stream_meta_finalize.
  apply quiet_bind; [by apply quiet_get_flag|]. intros f s1 Q1.
  repeat quiet_step; [apply quiet_stream_at; [apply Q1|by apply Q1]|].
  apply quiet_for_each; [eauto with quiet|]. intros co s2 Hco Q2.
  apply elem_of_seqZ in Hco. apply quiet_meta_finalize_out; [apply Q2|lia].
Qed.

(** *** The notification of a virtual stream's parent

    The stream is changed and restored; the net effect is a step. *)
Lemma wp_get_flag E id flag st s Q :
  g_streams s !! id = Some st → 0 ≤ id < ROAR_STREAMS_MAX →
  Q (if has_flag (s_flags st) flag then 1 else 0) s → wp E (streams_get_flag id flag) s Q.
Proof.
  intros Hst Hid HQ. apply wp_check_sid; [unfold ROAR_STREAMS_MAX in *; lia| |].
  - intros st' _ ?. by simplify_eq.
  - rewrite Hst. intros [?|[?|?]]; [lia..|done].
Qed.

Lemma wp_set_client E id cl st s Q :
  g_streams s !! id = Some st → 0 ≤ id < ROAR_STREAMS_MAX →
  Q 0 (s<|g_streams := <[id := st<|s_client := cl|>]> (g_streams s)|>) →
  wp E (streams_set_client id cl) s Q.
Proof.
  intros Hst Hid HQ. apply wp_check_sid; [unfold ROAR_STREAMS_MAX in *; lia| |].
  - intros st' _ ?. simplify_eq. apply wp_bind. by eapply wp_upd_stream.
  - rewrite Hst. intros [?|[?|?]]; [lia..|done].
Qed.

Lemma wp_get_client E id st s Q :
  g_streams s !! id = Some st → 0 ≤ id < ROAR_STREAMS_MAX →
  Q (s_client st) s → wp E (streams_get_client id) s Q.
Proof.
  intros Hst Hid HQ. apply wp_check_sid; [unfold ROAR_STREAMS_MAX in *; lia| |].
  - intros st' _ ?. by simplify_eq.
  - rewrite Hst. intros [?|[?|?]]; [lia..|done].
Qed.

Lemma wp_ctl E id cmd s (Q : Z → server → Prop) :
  id ≠ ROAR_STREAMS_MAX → (∀ r, Q r s) → wp E (streams_ctl id cmd) s Q.
Proof.
  intros Hid HQ. apply wp_check_sid; [done| |intros; apply HQ].
  intros st _ _. cbv zeta. repeat case_match; apply HQ.
Qed.

Lemma stream_step_regroup st :
  stream_step st (st<|s_pos_rel_id := u32 (s32 (s_pos_rel_id st))|>).
Proof.
  destruct st; split; simpl; [done|done|done| |]; [left; by rewrite swrap_uwrap, swrap_swrap|]. intros [? ? Hv]; split; simpl in *; [done..|].
  intros Hf. rewrite swrap_uwrap, swrap_swrap by done. by apply Hv.
Qed.

Lemma quiet_notify_virtual_parent id s :
  wf s → is_Some (g_streams s !! id) → quiet (notify_virtual_parent id) s.
Proof.
  intros W Hs E. pose proof (wf_index _ _ W Hs) as Hid. destruct Hs as [st Hst].
  destruct (wf_streams _ W _ _ Hst) as [_ Hok].
  unfold notify_virtual_parent. apply wp_bind. eapply wp_get_flag; [done..|].
  destruct (has_flag (s_flags st) ROAR_FLAG_VIRTUAL) eqn:Hv; [|by apply wp_ret, qstep_refl].
  pose proof (so_virtual _ Hok Hv) as Hne.
  apply wp_bind. eapply wp_stream_at; [done..|]. cbv zeta.
  case_match; [|by apply wp_ret, qstep_refl].
  apply wp_bind. eapply wp_upd_stream; [done..|]. apply wp_bind.
  eapply wp_get_client; [apply lookup_insert_eq|done|]. apply wp_bind.
  eapply wp_set_client; [apply lookup_insert_eq|done|]. apply wp_bind.
  apply wp_ctl; [done|]. intros r. apply wp_bind.
  eapply wp_set_client; [apply lookup_insert_eq|done|].
  eapply wp_upd_stream; [done|apply lookup_insert_eq|].
  pose proof (quiet_upd_stream id (λ st, st<|s_pos_rel_id := u32 (s32 (s_pos_rel_id st))|>)
    s W ltac:(eauto) (λ st _, stream_step_regroup st) E) as Hq.
  unfold wp, upd_stream, stream_at, g_stream, mbind, M_bind in Hq.
  rewrite decide_True, Hst in Hq by done. cbn [mret M_ret modify] in Hq.
  destruct s; simpl in *. rewrite !insert_insert_eq. by destruct st.
Qed.
End quiet_ops.

(** ** The mutual recursion *)

Section deletion.
Context {env : Env}.
Variable sd : Z → M Z.
Variable n : nat.

(** What the recursive calls promise when fewer than [n] streams are live. *)
Definition sd_spec : Prop := ∀ id s,
  wf s → id ≠ ROAR_STREAMS_MAX → (size (live (g_streams s)) < n)%nat →
  wp (may_exit s) (sd id) s (λ _ s',
    step s s' ∧ wf s' ∧ live (g_streams s') !! id = None).

Hypothesis Hsd : sd_spec.

(** [clients_delete] takes the client out of the count at its start. *)
Definition bump (s : server) : server :=
  s<|counters_clients := u64 (counters_clients s + -1)|>.

Lemma step_bump s s' : step s s' → step (bump s) (bump s').
Proof.
  intros [H1 H2 H3 H4 H5 H6 H7]. destruct s, s'. split; simpl in *; try done.
  revert H7. cint.
Qed.

Lemma wf_bump s : wf s → wf (bump s).
Proof. intros [H1 H2 H3 H4 H5]. destruct s. split; simpl in *; done. Qed.

(** The client loses its executed stream. *)
Definition unexec (c : Z) (s s' : server) : Prop :=
  ∃ cl, g_clients s !! c = Some cl ∧
    s' = s<|g_clients := <[c := cl<|c_execed := -1|>]> (g_clients s)|>.

Lemma client_prepared c cl s :
  wf s → g_clients s !! c = Some cl →
  ∀ E, wp E (clients_delete_prepare c) s (λ _ s',
    ∃ s1, step (bump s) s1 ∧ wf s1 ∧ g_streams s1 = g_streams s ∧
      unexec c s1 s').
Proof.
  intros W Hcl E. pose proof (wf_index_c _ _ W ltac:(eauto)) as Hc.
  unfold clients_delete_prepare. apply wp_bind. eapply wp_client_at; [done..|].
  apply wp_bind.
  assert (H1 : wp E (if c_waits cl is Some _ then upd_client c (λ c, c<|c_waits := None|>)
                     else mret ()) s
    (λ _ s1, step s s1 ∧ wf s1 ∧ g_streams s1 = g_streams s ∧ is_Some (g_clients s1 !! c))).
  { destruct (c_waits cl); [|apply wp_ret; split_and!; eauto; reflexivity].
    assert (client_step cl (cl<|c_waits := None|>)) as Hcs
      by (destruct cl; split; simpl; auto).
    eapply wp_upd_client; [done..|]. split_and!.
    - apply step_upd_client; [done..|]. destruct cl; simpl. congruence.
    - by apply wf_upd_client.
    - by destruct s.
    - destruct s; simpl. rewrite lookup_insert_eq. eauto. }
  eapply wp_mono; [exact H1|done|]. clear H1. intros [] s1 (S1 & W1 & G1 & C1).
  apply wp_bind. apply wp_Ret. do 2 eexists. split; [reflexivity|].
  set (s2 := _ : server). assert (S2 : step s1 s2) by by eapply step_emit.
  assert (W2 : wf s2) by by eapply wf_emit.
  assert (G2 : g_streams s2 = g_streams s1) by (by subst s2; destruct s1).
  assert (C2 : is_Some (g_clients s2 !! c)).
  { subst s2. destruct s1; simpl in *. rewrite lookup_fmap. destruct C1 as [? ->].
    by eexists. }
  clearbody s2. apply wp_bind, wp_modify. change (s2<|_ := _|>) with (bump s2).
  assert (S3 : step (bump s) (bump s2)) by (apply step_bump; by transitivity s1).
  apply wf_bump in W2. assert (C3 : is_Some (g_clients (bump s2) !! c)) by by destruct s2.
  assert (G3 : g_streams (bump s2) = g_streams s) by (rewrite <- G1, <- G2; by destruct s2).
  generalize dependent (bump s2). clear S2 W1 G1 C1 S1 G2 C2 s2 s1.
  intros s3 W3 S3 [cl3 C3] G3. apply wp_bind. eapply wp_client_at; [done..|].
  case_match eqn:Hx.
  - apply wp_bind. eapply wp_upd_client; [done..|]. apply wp_ret. exists s3.
    split_and!; [done..|]. by exists cl3.
  - apply wp_ret. exists s3. split_and!; [done..|]. exists cl3. split; [done|].
    apply negb_false_iff, Z.eqb_eq in Hx. destruct s3, cl3; simpl in *. f_equal.
    symmetry. rewrite <- Hx. by apply insert_id.
Qed.

Lemma wf_unexec c s s' : wf s → unexec c s s' → wf s'.
Proof.
  intros [H1 H2 H3 H4 H5] (cl & Hcl & ->).
  assert (Hl : ∀ d cl', <[c:=cl<|c_execed := -1|>]> (g_clients s) !! d = Some cl' →
    ∃ cl0, g_clients s !! d = Some cl0 ∧ c_streams cl' = c_streams cl0).
  { intros d cl'. destruct (decide (d = c)) as [->|Hd].
    - rewrite lookup_insert_eq. intros [= <-]. exists cl. by destruct cl.
    - rewrite lookup_insert_ne by done. eauto. }
  destruct s; split; simpl in *; [done| | | |done].
  - intros d cl' Hd. destruct (Hl _ _ Hd) as (cl0 & H0 & ->). auto.
  - intros d cl' k x Hd. destruct (Hl _ _ Hd) as (cl0 & H0 & ->). eauto.
  - intros d cl' k k' x Hd. destruct (Hl _ _ Hd) as (cl0 & H0 & ->). eauto.
Qed.

Definition without_client (c : Z) (s : server) : server :=
  s<|g_clients := delete c (g_clients s)|>.

Lemma step_without_client c s s1 s2 s3 :
  step (bump s) s1 → unexec c s1 s2 → step s2 s3 →
  stepx (Some c) None s (without_client c s3).
Proof.
  intros [H1 H2 H3 H4 H5 H6 H7] (cl & Hcl & ->) [K1 K2 K3 K4 K5 K6 K7].
  destruct s, s1, s3. unfold bump, without_client in *. simpl in *.
  split; simpl in *.
  - intros id st' Hst. destruct (K1 _ _ Hst) as (st & Hst' & E).
    destruct (H1 _ _ Hst') as (st0 & ? & E'). exists st0. split; [done|by transitivity st].
  - intros id st Hst Hc. destruct (H2 _ _ Hst Hc) as [st1 Hst1].
    destruct (H1 _ _ Hst1) as (st0 & ? & E). simplify_eq.
    apply (K2 _ _ Hst1). by apply (stream_step_closing _ _ E).
  - intros d cl' [Hd Hl]%lookup_delete_Some. destruct (K3 _ _ Hl) as (cl1 & H & E).
    rewrite lookup_insert_ne in H by done. destruct (H3 _ _ H) as (cl0 & ? & E').
    exists cl0. split; [done|by transitivity cl1].
  - intros d cl0 Hd Hx HX. assert (c ≠ d) by congruence.
    destruct (H4 _ _ Hd Hx) as [cl1 Hd1]; [done|].
    destruct (H3 _ _ Hd1) as (cl0' & ? & E). simplify_eq.
    rewrite lookup_delete_ne by done. apply (K4 d cl1); [|by rewrite (cs_execed _ _ E)|done].
    by rewrite lookup_insert_ne.
  - intros d cl0 cl3 i x Hd [Hne Hd3]%lookup_delete_Some Hx Hx1 Hx3.
    destruct (K3 _ _ Hd3) as (cl1 & Hd1 & E1). rewrite lookup_insert_ne in Hd1 by done.
    destruct (H3 _ _ Hd1) as (cl0' & ? & E0). simplify_eq.
    destruct (lookup_lt_is_Some_2 (c_streams cl1) i) as [x1 Hx1'].
    { rewrite (cs_length _ _ E0). by eapply lookup_lt_Some. }
    destruct (decide (x1 = -1)) as [->|Hn1].
    + destruct (H5 d cl0 cl1 i x) as [L F]; [done..|]. split; [|done].
      by eapply live_step_None.
    + destruct (cs_streams _ _ E0 _ _ Hx1') as [|]; [done|]. simplify_eq.
      destruct (K5 d cl1 cl3 i x) as [L F]; [by rewrite lookup_insert_ne|done..|].
      split; [done|]. intros HY st Hst Hc. destruct (H2 _ _ Hst Hc) as [st1 Hst1].
      destruct (H1 _ _ Hst1) as (st0 & ? & E). simplify_eq.
      apply (F HY _ Hst1). by apply (stream_step_closing _ _ E).
  - auto.
  - assert (is_Some (g_clients1 !! c)) as [cl3 Hcl3].
    { apply (K4 c (cl<|c_execed := -1|>)); [apply lookup_insert_eq|by destruct cl|done]. }
    revert H7 K7. rewrite map_size_insert_Some by eauto.
    rewrite map_size_delete_Some by eauto.
    assert (size g_clients1 ≠ 0)%nat by (apply map_size_ne_0_lookup; eauto).
    rewrite Nat2Z.inj_pred by lia. cint.
Qed.

Lemma wf_without_client c s : wf s → wf (without_client c s).
Proof.
  intros [H1 H2 H3 H4 H5]. destruct s; unfold without_client. split; simpl in *; [done|..|done].
  - intros d cl [_ Hl]%lookup_delete_Some. eauto.
  - intros d cl i x [_ Hl]%lookup_delete_Some. eauto.
  - intros d cl i j x [_ Hl]%lookup_delete_Some. eauto.
Qed.

(** An entry of a client's stream list is never the one bad index. *)
Lemma wf_slot s c cl i x :
  wf s → g_clients s !! c = Some cl → c_streams cl !! i = Some x → x ≠ ROAR_STREAMS_MAX.
Proof.
  intros W Hcl Hx ->. destruct (wf_owner _ W _ _ _ _ Hcl Hx) as [?|(st & Hst & _)]; [done|].
  apply wf_streams in Hst as [? _]; [lia|done].
Qed.

(** What the preparation leaves: the streams, an upper bound of the client's
    entries, and nothing that was not able to end the process before. *)
Lemma prepared_facts c cl s s1 su :
  wf s → g_clients s !! c = Some cl → step (bump s) s1 → wf s1 →
  g_streams s1 = g_streams s → unexec c s1 su →
  wf su ∧ g_streams su = g_streams s ∧ (may_exit su → may_exit s) ∧
  ∃ clu, g_clients su !! c = Some clu ∧ c_execed clu = -1 ∧
    ∀ i x, c_streams cl !! i = Some x → c_streams clu !! i = Some x ∨
           live (g_streams su) !! x = None.
Proof.
  intros W Hcl S1 W1 G1 Hu. pose proof (wf_unexec _ _ _ W1 Hu) as Wu.
  destruct Hu as (cl1 & C1 & ->).
  assert (Hclb : g_clients (bump s) !! c = Some cl) by by destruct s.
  assert (Gu : g_streams (s1<|g_clients := <[c:=cl1<|c_execed := -1|>]> (g_clients s1)|>)
               = g_streams s1) by by destruct s1.
  split_and!; [done|by rewrite Gu| |].
  - intros [Ha Hex]. rewrite Gu, G1 in Hex. split; [|done].
    assert (alive s1 ≠ 0) as Ha1 by by destruct s1. apply S1 in Ha1. by destruct s.
  - exists (cl1<|c_execed := -1|>). rewrite Gu.
    split_and!; [destruct s1; apply lookup_insert_eq|by destruct cl1|].
    intros i x Hx. replace (c_streams (cl1<|c_execed := -1|>)) with (c_streams cl1)
      by by destruct cl1.
    destruct (st_client _ _ _ _ S1 _ _ C1) as (cl0 & C0 & E).
    assert (cl0 = cl) as -> by congruence.
    destruct (lookup_lt_is_Some_2 (c_streams cl1) i) as [y Hy].
    { rewrite (cs_length _ _ E). by eapply lookup_lt_Some. }
    destruct (cs_streams _ _ E _ _ Hy) as [->|]; [|left; congruence].
    destruct (decide (x = -1)) as [->|Hx1]; [by left|right].
    by destruct (st_cleared _ _ _ _ S1 _ _ _ _ _ Hclb C1 Hx Hx1 Hy).
Qed.

(** The loop over the client's entries. *)
Lemma delete_client_streams_ok c clu su :
  wf su → g_clients su !! c = Some clu → c_execed clu = -1 →
  (size (live (g_streams su)) < n)%nat →
  wp (may_exit su)
    (for_each (seq 0 ROAR_CLIENTS_MAX_STREAMS_PER_CLIENT) (λ i,
      c ← client_at c; x ← lift (aget (c_streams c) (Z.of_nat i)); sd x ;; mret ())) su
    (λ _ s', step su s' ∧ wf s' ∧
       ∀ i x, c_streams clu !! i = Some x → live (g_streams s') !! x = None).
Proof.
  intros Wu Cu Xu Hn.
  set (I := λ (i : nat) s', step su s' ∧ wf s' ∧
     ∀ j x, (j < i)%nat → c_streams clu !! j = Some x → live (g_streams s') !! x = None).
  eapply wp_mono; [apply (wp_for_each_seq _ _ _ I)|done|].
  - intros i s2 Hi (S2 & W2 & D2).
    destruct (st_keepc _ _ _ _ S2 _ _ Cu Xu) as [cl2 C2]; [done|].
    destruct (st_client _ _ _ _ S2 _ _ C2) as (clu' & Cu' & E2).
    assert (clu' = clu) as -> by congruence.
    apply wp_bind. eapply wp_client_at; [by eapply wf_index_c|done|]. apply wp_bind.
    destruct (lookup_lt_is_Some_2 (c_streams cl2) i) as [x Hx].
    { by rewrite (proj2 (wf_clients _ W2 _ _ C2)). }
    unfold aget. rewrite decide_True, Nat2Z.id, Hx by lia. apply wp_ret. apply wp_bind.
    pose proof (live_step _ _ _ _ S2).
    eapply wp_mono; [apply Hsd; [done|by eapply wf_slot|lia]|by eapply may_exit_step|].
    intros r s3 (S3 & W3 & D3). apply wp_ret.
    split_and!; [by transitivity s2|done|].
    intros j y Hj Hy. destruct (decide (j = i)) as [->|Hne].
    + destruct (cs_streams _ _ E2 _ _ Hx) as [Hx1|Hxy]; [subst x|by simplify_eq].
      destruct (decide (y = -1)) as [->|Hy1]; [done|].
      eapply live_step_None; [apply S3|].
      by destruct (st_cleared _ _ _ _ S2 _ _ _ _ _ Cu C2 Hy Hy1 Hx).
    + eapply live_step_None; [apply S3|]. apply (D2 j y); [lia|done].
  - split_and!; [done|done|]. intros j x Hj. lia.
  - intros [] s2 (S2 & W2 & D2). split_and!; [done..|]. intros i x Hx.
    apply (D2 i x); [|done]. apply lookup_lt_Some in Hx.
    by rewrite (proj2 (wf_clients _ Wu _ _ Cu)) in Hx.
Qed.

Lemma clients_delete_ok c cl s :
  wf s → g_clients s !! c = Some cl → (size (live (g_streams s)) < n)%nat →
  wp (may_exit s) (clients_delete_with sd c) s (λ r s',
    r = 0 ∧ stepx (Some c) None s s' ∧ wf s' ∧ g_clients s' !! c = None ∧
    ∀ i x, c_streams cl !! i = Some x → live (g_streams s') !! x = None).
Proof.
  intros W Hcl Hn. pose proof (wf_index_c _ _ W ltac:(eauto)) as Hc.
  apply wp_check_cid; [lia| |rewrite Hcl; intros [?|[?|?]]; [lia..|done]].
  intros cl' _ _. apply wp_bind.
  eapply wp_mono; [by eapply client_prepared|done|].
  intros close su (s1 & S1 & W1 & G1 & Hu).
  destruct (prepared_facts _ _ _ _ _ W Hcl S1 W1 G1 Hu)
    as (Wu & Gu & Hex & clu & Cu & Xu & Hs).
  apply wp_bind. eapply wp_mono; [eapply delete_client_streams_ok|done|]; [done..|by rewrite Gu|].
  intros [] s2 (S2 & W2 & D2).
  destruct (st_keepc _ _ _ _ S2 _ _ Cu Xu) as [cl2 C2]; [done|].
  apply wp_bind. eapply wp_client_at; [done..|]. apply wp_quiet.
  { case_match; [|by apply quiet_ret]. apply quiet_modify; [done|]. by destruct s2. }
  intros [] s3 [S3 W3 _ _]. apply wp_bind, wp_modify, wp_ret.
  change (s3<|_ := _|>) with (without_client c s3).
  assert (S23 : step su s3) by by transitivity s2.
  split_and!; [done|by eapply step_without_client|by apply wf_without_client| |].
  - destruct s3; apply lookup_delete_eq.
  - intros i x Hx. replace (g_streams (without_client c s3)) with (g_streams s3)
      by by destruct s3.
    destruct (Hs _ _ Hx) as [Hx'|Hx']; (eapply live_step_None; [|by eauto]);
      [apply S3|apply S23].
Qed.

(** The entry of [client_stream_delete]. *)
Definition clear_entry (i : nat) (c : client) : client :=
  c<|c_streams := <[i := -1]> (c_streams c)|>.

Lemma clear_entry_ok c cl i x s :
  wf s → g_clients s !! c = Some cl → c_streams cl !! i = Some x → x ≠ -1 →
  client_step cl (clear_entry i cl) ∧ x ∉ c_streams (clear_entry i cl).
Proof.
  intros W Hcl Hi Hx1. split.
  - destruct cl; split; simpl in *; [done|by rewrite length_insert|].
    intros j z. destruct (decide (j = i)) as [->|Hj].
    + rewrite list_lookup_insert_eq by (by eapply lookup_lt_Some). intros [= <-]. by left.
    + rewrite list_lookup_insert_ne by done. by right.
  - intros [j Hj]%list_elem_of_lookup. destruct cl; simpl in *.
    destruct (decide (j = i)) as [->|Hne].
    + rewrite list_lookup_insert_eq in Hj by (by eapply lookup_lt_Some). congruence.
    + rewrite list_lookup_insert_ne in Hj by done.
      by apply Hne, (wf_nodup _ W _ _ j i x Hcl Hx1).
Qed.

Lemma client_stream_delete_ok c x s :
  wf s → c ≠ ROAR_CLIENTS_MAX → x ≠ -1 → live (g_streams s) !! x = None →
  (size (live (g_streams s)) < n)%nat →
  wp (may_exit s) (client_stream_delete_with sd c x) s (λ r s',
    stepx None (Some x) s s' ∧ wf s' ∧
    (∀ cl', g_clients s' !! c = Some cl' → x ∉ c_streams cl') ∧
    (∀ cl, g_clients s !! c = Some cl → x ∈ c_streams cl → c_execed cl = x →
       g_clients s' !! c = None)).
Proof.
  intros W Hc Hx1 Hx Hn. apply wp_check_cid; [done| |].
  2: { intros HN.
       assert (∀ cl', g_clients s !! c = Some cl' → False).
       { intros cl' Hcl'. destruct (wf_clients _ W _ _ Hcl').
         destruct HN as [?|[?|?]]; [lia..|congruence]. }
       clear HN.
       split_and!; [reflexivity|done|naive_solver..]. }
  intros cl Hr Hcl.
  destruct (list_find (λ y, y = x) (c_streams cl)) as [[i y]|] eqn:Hf; cycle 1.
  { apply list_find_None in Hf. rewrite Forall_forall in Hf.
    apply wp_ret. split_and!; [reflexivity|done|..]; intros cl' Hcl'; simplify_eq;
      intros Hin; by destruct (Hf x Hin). }
  apply list_find_Some in Hf as (Hi & -> & _).
  destruct (clear_entry_ok _ _ _ _ _ W Hcl Hi Hx1) as [Hcs Hnin].
  set (f := clear_entry i) in *.
  apply wp_bind. eapply wp_upd_client; [done..|].
  match goal with |- context [s<|?g := ?m|>] => set (s1 := s<|g := m|>) end.
  assert (S1 : stepx None (Some x) s s1).
  { apply step_upd_client; [done..|]. intros j z Hz Hz1 Hj. destruct cl; simpl in *.
    destruct (decide (j = i)) as [->|Hne]; [by simplify_eq|].
    rewrite list_lookup_insert_ne in Hj by done. congruence. }
  assert (W1 : wf s1) by by apply wf_upd_client.
  assert (C1 : g_clients s1 !! c = Some (f cl)) by (destruct s; apply lookup_insert_eq).
  clearbody s1. apply wp_bind. eapply wp_client_at; [done..|]. apply wp_bind.
  destruct (Z.eqb_spec x (c_execed (f cl))) as [Hex|Hex].
  - apply wp_bind. eapply wp_mono; [apply clients_delete_ok; [done..|]| |].
    { apply live_step in S1. lia. }
    { by eapply may_exit_step. }
    intros r s2 (_ & S2 & W2 & D2 & _). do 2 apply wp_ret. split_and!; [|done|congruence|done].
    transitivity s1; [done|]. apply stepx_weaken.
    eapply stepx_executing; [done|congruence|done].
  - do 2 apply wp_ret. split_and!; [done..| |].
    + intros cl' Hcl'. by simplify_eq.
    + intros cl' Hcl' _ Hxx. assert (cl' = cl) as -> by congruence.
      destruct Hex. by destruct cl.
Qed.

Lemma stream_step_ungroup st : stream_step st (st<|s_pos_rel_id := u32 (-1)|>).
Proof. destruct st; split; simpl; [done|done|done|by right|]. intros [? ? ?]; by split. Qed.

(** One round of the loop over the attached streams. *)
Lemma delete_attached_ok id i s :
  wf s → 0 ≤ i < ROAR_STREAMS_MAX → (size (live (g_streams s)) < n)%nat →
  wp (may_exit s) (delete_attached sd id i) s (λ _ s', step s s' ∧ wf s').
Proof.
  intros W Hi Hn. assert (Hi' : i ≠ ROAR_STREAMS_MAX) by lia.
  unfold delete_attached. apply wp_bind, wp_g_stream; [done|].
  assert (R : wp (may_exit s) (mret ()) s (λ _ s', step s s' ∧ wf s'))
    by by apply wp_ret.
  assert (D : wp (may_exit s) (if negb (i =? id) then sd i ;; mret () else mret ()) s
                 (λ _ s', step s s' ∧ wf s')).
  { case_match; [|done]. apply wp_bind. eapply wp_mono; [by apply Hsd|done|].
    intros r s' (S' & W' & _). by apply wp_ret. }
  destruct (g_streams s !! i) as [t|] eqn:Ht; [|done].
  destruct (s_pos_rel_id t =? id); [|exact R]. destruct (_ || _); [exact D|].
  apply wp_bind. eapply wp_get_flag; [done..|].
  destruct (has_flag (s_flags t) ROAR_FLAG_VIRTUAL); [exact D|].
  eapply wp_upd_stream; [done..|]. split.
  - apply step_upd_stream; [done|]. apply stream_step_ungroup.
  - apply wf_upd_stream; [done..|]. apply stream_step_ungroup.
Qed.

Lemma delete_all_attached_ok id s :
  wf s → (size (live (g_streams s)) < n)%nat →
  wp (may_exit s) (for_each (seqZ 0 ROAR_STREAMS_MAX) (delete_attached sd id)) s
     (λ _ s', step s s' ∧ wf s').
Proof.
  intros W Hn. apply (wp_for_each _ _ _ (λ s', step s s' ∧ wf s')); [|done].
  intros i s1 Hi%elem_of_seqZ [S1 W1]. eapply wp_mono; [apply delete_attached_ok| |].
  - done.
  - lia.
  - apply live_step in S1. lia.
  - by eapply may_exit_step.
  - intros [] s2 [S2 W2]. split; [by transitivity s1|done].
Qed.

Lemma stream_step_same st st' :
  s_client st' = s_client st → s_primary st' = s_primary st → s_state st' = s_state st →
  s_meta st' = s_meta st → s_flags st' = s_flags st → s_pos_rel_id st' = s_pos_rel_id st →
  stream_step st st'.
Proof.
  intros E1 E2 E3 E4 E5 E6. split; rewrite ?E1, ?E2, ?E3; [done..|rewrite E6; by left|].
  intros [? ? ?]; split; by rewrite ?E1, ?E4, ?E5, ?E6.
Qed.

Lemma quiet_detach id s :
  wf s → is_Some (g_streams s !! id) → quiet (streams_delete_detach id) s.
Proof.
  intros W Hs. pose proof (wf_index _ _ W Hs). assert (id ≠ ROAR_STREAMS_MAX) by lia.
  unfold streams_delete_detach.
  repeat first
    [ quiet_step
    | apply quiet_stream_at; [eauto with quiet|by eauto 12 with quiet]
    | apply quiet_notify_virtual_parent; [eauto with quiet|by eauto 12 with quiet]
    | apply quiet_get_flag | apply quiet_meta_clear
    | apply quiet_meta_finalize; [eauto with quiet|done|by eauto 12 with quiet]
    | apply quiet_upd_stream; [eauto with quiet|by eauto 12 with quiet|
        intros st _; apply stream_step_same; by destruct st] ].
  apply quiet_modify; [eauto with quiet|]. by destruct s'.
Qed.

(** The state in which [streams_delete] starts its work. *)
Definition mark (id : Z) (st : stream) (s : server) : server :=
  s<|g_streams := <[id := st<|s_state := ROAR_STREAMSTATE_CLOSING|>]> (g_streams s)|>
   <|counters_streams := u64 (counters_streams s + -1)|>.

Definition without_stream (id : Z) (s : server) : server :=
  s<|g_streams := delete id (g_streams s)|>.

Lemma live_mark id st s :
  live (g_streams (mark id st s)) = delete id (live (g_streams s)).
Proof.
  unfold live. destruct s, st; simpl. rewrite map_filter_insert_False by (intros Hn; by apply Hn).
  by rewrite map_filter_delete.
Qed.

Lemma wf_mark id st s :
  wf s → g_streams s !! id = Some st → ¬ closing st →
  wf (mark id st s) ∧
  size (live (g_streams s)) = S (size (live (g_streams (mark id st s)))).
Proof.
  intros W Hst Hcl.
  assert (Hlive : is_Some (live (g_streams s) !! id)) by (eexists; by apply live_lookup).
  assert (Hsz : size (live (g_streams s)) = S (size (live (g_streams (mark id st s))))).
  { rewrite live_mark, map_size_delete_Some by done.
    assert (size (live (g_streams s)) ≠ 0)%nat by (apply map_size_ne_0_lookup; eauto). lia. }
  split; [|done]. pose proof (wf_streams _ W _ _ Hst) as [Hid Hok].
  destruct W as [H1 H2 H3 H4 H5]. assert (Hsm : (size (live (g_streams s)) ≤ 64)%nat).
  { apply table_bound. intros j st' [Hj _]%live_lookup. by eapply H1. }
  rewrite live_mark, map_size_delete_Some in Hsz by done.
  split; rewrite ?live_mark; destruct s; unfold mark; simpl in *; [|done| |done|].
  - intros j st' Hj. destruct (decide (j = id)) as [->|Hne].
    + rewrite lookup_insert_eq in Hj. injection Hj as <-. split; [done|].
      destruct Hok; destruct st; split; simpl in *; done.
    + rewrite lookup_insert_ne in Hj by done. by apply H1.
  - intros c cl i x Hc Hx. destruct (H3 c cl i x Hc Hx) as [?|(st' & Hst' & E)]; [by left|].
    right. destruct (decide (x = id)) as [->|Hne].
    + rewrite lookup_insert_eq. eexists. split; [done|]. simplify_eq. by destruct st.
    + rewrite lookup_insert_ne by done. eauto.
  - rewrite H5, map_size_delete_Some by done. rewrite Hsz at 1.
    unfold uwrap. change (2 ^ 64) with 18446744073709551616. rewrite Z.mod_small by lia. lia.
Qed.

Lemma streams_delete_mark_ok E id st s :
  wf s → g_streams s !! id = Some st → ¬ closing st →
  wp E (streams_delete_mark id) s (λ _ s0, step (mark id st s) s0 ∧ wf s0).
Proof.
  intros W Hst Hcl. pose proof (wf_index _ _ W ltac:(eauto)) as Hid.
  destruct (wf_mark _ _ _ W Hst Hcl) as [W0 _].
  unfold streams_delete_mark, streams_change_state. do 2 apply wp_bind.
  eapply wp_stream_at; [done..|]. apply wp_bind. eapply wp_upd_stream; [done..|].
  unfold roar_notify_core_emit_snoargs, roar_notify_core_emit_simple.
  match goal with |- wp _ (emit_event ?e) _ _ => set (ev1 := e) end.
  apply wp_Ret. do 2 eexists. split; [reflexivity|]. apply wp_bind.
  match goal with |- wp _ (emit_event ?e) _ _ => set (ev2 := e) end.
  apply wp_Ret. do 2 eexists. split; [reflexivity|]. apply wp_modify.
  destruct (emit_event ev1 (mark id st s)) as [[] s1| | |] eqn:E1; try done.
  destruct (emit_event ev2 s1) as [[] s2| | |] eqn:E2; try done.
  match goal with |- step _ ?t ∧ _ => assert (t = s2) as -> end.
  { clearbody ev1 ev2. destruct s. unfold mark in *. simpl in *. injection E1 as <-. simpl in E2.
    by injection E2 as <-. }
  split.
  - transitivity s1; by eapply step_emit.
  - eapply wf_emit; [done|]. by eapply wf_emit.
Qed.

(** Removing the marked stream at the end completes a step. *)
Lemma step_without_stream id st s s' :
  g_streams s !! id = Some st → ¬ closing st →
  stepx None (Some id) (mark id st s) s' → step s (without_stream id s').
Proof.
  intros Hst Hcl [H1 H2 H3 H4 H5 H6 H7]. destruct s, s'.
  unfold mark, without_stream in *. simpl in *. split; simpl in *; try done.
  - intros j st' [Hj Hs]%lookup_delete_Some. destruct (H1 _ _ Hs) as (st0 & H0 & E).
    rewrite lookup_insert_ne in H0 by done. eauto.
  - intros j st' Hs Hc. assert (j ≠ id) by congruence.
    rewrite lookup_delete_ne by done. apply (H2 j st'); [|done].
    by rewrite lookup_insert_ne.
  - intros c cl cl' i x Hc Hc' Hx Hx1 Hx'.
    destruct (H5 c cl cl' i x Hc Hc' Hx Hx1 Hx') as [L K]. split.
    + rewrite live_lookup_None in L |- *. intros st' [_ Hs]%lookup_delete_Some. auto.
    + intros _ st' Hst'. destruct (decide (x = id)) as [->|Hne]; [by simplify_eq|].
      apply K; [congruence|]. by rewrite lookup_insert_ne.
Qed.

Lemma wf_without_stream id st s :
  wf s → g_streams s !! id = Some st → closing st →
  (∀ c cl, g_clients s !! c = Some cl → id ∉ c_streams cl) → wf (without_stream id s).
Proof.
  intros [H1 H2 H3 H4 H5] Hst Hcl Hn. destruct s; unfold without_stream.
  split; simpl in *; [|done| |done|].
  - intros j st' [_ Hs]%lookup_delete_Some. eauto.
  - intros c cl i x Hc Hx. destruct (H3 c cl i x Hc Hx) as [?|(st' & Hs & E)]; [by left|].
    right. exists st'. rewrite lookup_delete_ne; [done|]. intros <-.
    apply (Hn c cl Hc). by eapply list_elem_of_lookup_2.
  - rewrite H5. do 2 f_equal. unfold live. rewrite map_filter_delete.
    symmetry. apply delete_id. rewrite map_lookup_filter_None. right.
    intros ? ?. simplify_eq. cbn. tauto.
Qed.

(** A client that survives a step keeps its entry for a closing stream. *)
Lemma entry_kept s s' c cl cl' id :
  step s s' → g_clients s !! c = Some cl → g_clients s' !! c = Some cl' →
  id ∈ c_streams cl → id ≠ -1 → (∃ st, g_streams s !! id = Some st ∧ closing st) →
  id ∈ c_streams cl' ∧ c_execed cl' = c_execed cl.
Proof.
  intros S Hcl Hcl' [i Hi]%list_elem_of_lookup Hid (st & Hst & Hc).
  destruct (st_client _ _ _ _ S _ _ Hcl') as (cl0 & H0 & E).
  assert (cl0 = cl) as -> by congruence. split; [|apply E].
  destruct (lookup_lt_is_Some_2 (c_streams cl') i) as [y Hy].
  { rewrite (cs_length _ _ E). by eapply lookup_lt_Some. }
  destruct (cs_streams _ _ E _ _ Hy) as [->|].
  - destruct (st_cleared _ _ _ _ S _ _ _ _ _ Hcl Hcl' Hi Hid Hy) as [_ K].
    by destruct (K ltac:(done) _ Hst).
  - simplify_eq. by eapply list_elem_of_lookup_2.
Qed.

(** Giving the closing stream back to its client. *)
Lemma release_ok s0 s5 id st :
  step s0 s5 → wf s5 → g_streams s5 !! id = Some st → closing st → 0 ≤ id →
  (size (live (g_streams s5)) < n)%nat →
  wp (may_exit s5)
    (if negb (s_client st =? -1) then client_stream_delete_with sd (s_client st) id ;; mret ()
     else mret ()) s5
    (λ _ s6, stepx None (Some id) s5 s6 ∧ wf s6 ∧
       (∀ c cl, g_clients s6 !! c = Some cl → id ∉ c_streams cl) ∧
       ∀ cl, g_clients s5 !! s_client st = Some cl → id ∈ c_streams cl → c_execed cl = id →
         g_clients s6 !! s_client st = None).
Proof.
  intros S05 W5 Hst Hc Hid Hn. destruct (wf_streams _ W5 _ _ Hst) as [_ [Hcr _ _]].
  assert (Ho : ∀ s6 c cl st6, wf s6 → g_clients s6 !! c = Some cl → id ∈ c_streams cl →
    g_streams s6 !! id = Some st6 → s_client st6 = c).
  { intros s6 c cl st6 W6 Hcl [i Hi]%list_elem_of_lookup H6.
    destruct (wf_owner _ W6 _ _ _ _ Hcl Hi) as [->|(st' & H' & E)]; [lia|congruence]. }
  destruct (Z.eqb_spec (s_client st) (-1)) as [Hm|Hm]; cbn [negb].
  - assert (∀ c cl, g_clients s5 !! c = Some cl → id ∉ c_streams cl).
    { intros c cl Hcl Hin. pose proof (Ho _ _ _ _ W5 Hcl Hin Hst).
      destruct (wf_clients _ W5 _ _ Hcl). lia. }
    apply wp_ret. split_and!; [reflexivity|done..|]. intros cl Hcl Hin. naive_solver.
  - apply wp_bind. eapply wp_mono; [apply client_stream_delete_ok|done|]; [done|lia..| |done|].
    { apply live_lookup_None. intros ? ?. by simplify_eq. }
    intros r s6 (S6 & W6 & N6 & X6). apply wp_ret.
    split_and!; [done..| |done]. intros c cl Hcl Hin.
    destruct (st_keep _ _ _ _ S6 _ _ Hst Hc) as [st6 Hst6].
    pose proof (Ho _ _ _ _ W6 Hcl Hin Hst6) as E6.
    destruct (st_stream _ _ _ _ S6 _ _ Hst6) as (st' & Hst' & T6).
    assert (st' = st) as -> by congruence.
    rewrite (ss_client _ _ T6) in E6. subst c. by apply (N6 cl).
Qed.

Lemma streams_delete_body_ok id st s :
  wf s → g_streams s !! id = Some st → ¬ closing st →
  (size (live (g_streams s)) ≤ n)%nat →
  wp (may_exit s) (streams_delete_body sd id) s (λ r s',
    r = 0 ∧ step s s' ∧ wf s' ∧ g_streams s' !! id = None ∧
    ∀ cl, g_clients s !! s_client st = Some cl → id ∈ c_streams cl → c_execed cl = id →
      g_clients s' !! s_client st = None).
Proof.
  intros W Hst Hcl Hn. pose proof (wf_index _ _ W ltac:(eauto)) as Hid.
  assert (Hid' : id ≠ ROAR_STREAMS_MAX) by lia.
  destruct (wf_mark _ _ _ W Hst Hcl) as [W0 Hsz].
  set (s0 := mark id st s) in *.
  assert (Hst0 : g_streams s0 !! id = Some (st<|s_state := ROAR_STREAMSTATE_CLOSING|>)).
  { subst s0. destruct s; apply lookup_insert_eq. }
  assert (Hc0 : closing (st<|s_state := ROAR_STREAMSTATE_CLOSING|>)) by by destruct st.
  assert (HE : may_exit s0 → may_exit s).
  { intros [Ha (j & st' & Hj & Hp)]. split; [by destruct s|].
    subst s0. unfold mark in Hj. destruct s; simpl in *.
    destruct (decide (j = id)) as [->|Hne].
    - rewrite lookup_insert_eq in Hj. injection Hj as <-. exists id, st. by destruct st.
    - rewrite lookup_insert_ne in Hj by done. eauto. }
  assert (Hn0 : ∀ s', step s0 s' → (size (live (g_streams s')) < n)%nat).
  { intros s' S'. apply live_step in S'. lia. }
  assert (Hk0 : ∀ Y s', stepx None Y s0 s' → is_Some (g_streams s' !! id)).
  { intros Y s' S'. by apply (st_keep _ _ _ _ S' _ _ Hst0). }
  unfold streams_delete_body. apply wp_bind.
  eapply wp_mono; [by eapply streams_delete_mark_ok|done|]. intros [] s1 [S1 W1].
  apply wp_quiet; [by apply quiet_get_flag|]. intros f s2 [S2 W2 _ _].
  apply wp_quiet.
  { repeat (quiet_step || apply quiet_reset_flag). }
  intros [] s3 [S3 W3 _ _].
  assert (S03 : step s0 s3) by (transitivity s1; [done|]; by transitivity s2).
  clear S1 S2 S3 W1 W2 s1 s2. apply wp_bind.
  eapply wp_mono; [apply delete_all_attached_ok; auto| |].
  { intros. by eapply HE, may_exit_step. }
  intros [] s4 [S4 W4]. assert (S04 : step s0 s4) by by transitivity s3.
  apply wp_quiet; [apply quiet_detach; [done|by eapply Hk0]|]. intros [] s5 [S5 W5 _ _].
  assert (S05 : step s0 s5) by by transitivity s4. clear S4 S5 W4 S04 S03 W3 s3 s4.
  apply wp_bind, wp_stream_at_wf; [done|by eapply Hk0|]. intros st5 Hst5 Hok5.
  destruct (st_stream _ _ _ _ S05 _ _ Hst5) as (st5' & E5 & T5).
  rewrite Hst0 in E5. injection E5 as <-.
  assert (Hc5 : closing st5) by by apply (stream_step_closing _ _ T5).
  assert (Hcl5 : s_client st5 = s_client st) by (rewrite (ss_client _ _ T5); by destruct st).
  apply wp_bind. eapply wp_mono; [eapply (release_ok s0 s5 id st5); eauto; lia| |].
  { by intros; eapply HE, may_exit_step. }
  intros [] s6 (S56 & W6 & N6 & X6). rewrite Hcl5 in X6.
  assert (S6 : stepx None (Some id) s0 s6).
  { transitivity s5; [by apply stepx_weaken|done]. }
  apply wp_bind, wp_stream_at_wf; [done|by eapply Hk0|]. intros st6 Hst6 _.
  destruct (st_stream _ _ _ _ S6 _ _ Hst6) as (st6' & E6 & T6).
  rewrite Hst0 in E6. injection E6 as <-.
  assert (Hc6 : closing st6) by by apply (stream_step_closing _ _ T6).
  apply wp_bind, wp_modify, wp_bind, wp_gets.
  change (s6<|_ := _|>) with (without_stream id s6).
  assert (S' : step s (without_stream id s6)) by by eapply step_without_stream.
  destruct (_ && _) eqn:Hex.
  - apply andb_prop in Hex as [Hp%negb_true_iff Ha%negb_true_iff].
    change (may_exit s). apply HE. eapply (may_exit_step _ _ _ _ S6).
    split; [destruct s6; simpl in *; lia|]. exists id, st6. split; [done|lia].
  - apply wp_ret. split_and!; [done|done|by eapply wf_without_stream| |].
    + destruct s6; apply lookup_delete_eq.
    + intros cl Hc Hin Hx. replace (g_clients (without_stream id s6)) with (g_clients s6)
        by by destruct s6.
      replace (g_clients s) with (g_clients s0) in Hc by by destruct s.
      destruct (g_clients s6 !! s_client st) as [cl6|] eqn:Hcl6; [|done].
      destruct (st_client _ _ _ _ S56 _ _ Hcl6) as (clm & Hclm & _).
      destruct (entry_kept _ _ _ _ _ _ S05 Hc Hclm Hin) as [Hin5 Hx5]; [lia|by eauto|].
      by rewrite (X6 clm Hclm Hin5) by congruence.
Qed.
End deletion.

(** ** The results *)

Section results.
Context {env : Env}.

Lemma streams_delete_spec fuel : sd_spec (streams_delete fuel) fuel.
Proof.
  induction fuel as [|fuel IH]; intros id s W Hid Hn; [lia|]. cbn [streams_delete].
  apply wp_check_sid; [done| |].
  - intros st Hr Hst. destruct (Z.eqb_spec (s_state st) ROAR_STREAMSTATE_CLOSING) as [Hc|Hc].
    + apply wp_ret. split_and!; [reflexivity|done|]. apply live_lookup_None.
      intros ? ?. by simplify_eq.
    + eapply wp_mono; [eapply streams_delete_body_ok; [exact IH|done..|lia]|done|].
      intros r s' (_ & S & W' & D & _). split_and!; [done..|]. apply live_lookup_None.
      intros st'. by rewrite D.
  - intros HN. split_and!; [reflexivity|done|]. apply live_lookup_None. intros st Hst.
    destruct (wf_streams _ W _ _ Hst). destruct HN as [?|[?|?]]; [lia..|congruence].
Qed.

Lemma streams_delete_existing fuel id st s :
  wf s → g_streams s !! id = Some st → ¬ closing st →
  (size (live (g_streams s)) ≤ fuel)%nat →
  wp (may_exit s) (streams_delete (S fuel) id) s (λ r s',
    r = 0 ∧ step s s' ∧ wf s' ∧ g_streams s' !! id = None ∧
    ∀ cl, g_clients s !! s_client st = Some cl → id ∈ c_streams cl → c_execed cl = id →
      g_clients s' !! s_client st = None).
Proof.
  intros W Hst Hc Hn. destruct (wf_streams _ W _ _ Hst). apply wp_check_sid; [lia| |].
  - intros st' _ ?. simplify_eq. rewrite (proj2 (Z.eqb_neq _ _)) by done.
    eapply streams_delete_body_ok; [apply streams_delete_spec|done..].
  - rewrite Hst. intros [?|[?|?]]; [lia..|done].
Qed.

Lemma live_bound s : wf s → (size (live (g_streams s)) ≤ 64)%nat.
Proof. intros W. apply table_bound. intros i x [Hx _]%live_lookup. by eapply wf_streams. Qed.

(** No stream is being deleted: the state between two requests. *)
Definition quiescent (s : server) : Prop :=
  ∀ id st, g_streams s !! id = Some st → ¬ closing st.

Lemma quiescent_live s id : quiescent s → live (g_streams s) !! id = g_streams s !! id.
Proof.
  intros Q. destruct (g_streams s !! id) as [st|] eqn:E.
  - apply live_lookup. split; [done|by eapply Q].
  - apply live_lookup_None. congruence.
Qed.

Lemma quiescent_step X Y s s' : stepx X Y s s' → quiescent s → quiescent s'.
Proof.
  intros S Q id st' Hst'. destruct (st_stream _ _ _ _ S _ _ Hst') as (st & Hst & E).
  rewrite (stream_step_closing _ _ E). by eapply Q.
Qed.

(** [s'] has only objects of [s]: the streams keep owner and state, clients
    keep their executed stream, and a client's list only lost streams that
    are gone. *)
Record only_removed (s s' : server) : Prop := {
  or_stream : ∀ id st', g_streams s' !! id = Some st' → ∃ st, g_streams s !! id = Some st ∧
    s_client st' = s_client st ∧ s_state st' = s_state st;
  or_client : ∀ c cl', g_clients s' !! c = Some cl' → ∃ cl, g_clients s !! c = Some cl ∧
    c_execed cl' = c_execed cl ∧
    ∀ i x, c_streams cl !! i = Some x → c_streams cl' !! i = Some x ∨
      (c_streams cl' !! i = Some (-1) ∧ g_streams s' !! x = None)
}.

Lemma step_only_removed X Y s s' :
  wf s' → quiescent s → stepx X Y s s' → only_removed s s'.
Proof.
  intros W' Q S. split.
  - intros id st' H'. destruct (st_stream _ _ _ _ S _ _ H') as (st & H & []). eauto.
  - intros c cl' H'. destruct (st_client _ _ _ _ S _ _ H') as (cl & H & E).
    exists cl. split_and!; [done|by apply E|]. intros i x Hx.
    destruct (lookup_lt_is_Some_2 (c_streams cl') i) as [y Hy].
    { rewrite (cs_length _ _ E). by eapply lookup_lt_Some. }
    destruct (decide (x = -1)) as [->|Hx1].
    { left. by destruct (cs_streams _ _ E _ _ Hy) as [->|]; simplify_eq. }
    destruct (cs_streams _ _ E _ _ Hy) as [->|]; [right|left; congruence].
    split; [done|]. destruct (st_cleared _ _ _ _ S _ _ _ _ _ H H' Hx Hx1 Hy) as [L _].
    by rewrite (quiescent_live s') in L by by eapply quiescent_step.
Qed.


End results.

(** *** An example: a client that executes a stream, which a second stream of
    the client and one of another client are attached to *)
Definition example_client (x : Z) (l : list Z) : client :=
  {| c_pid := 1; c_uid := 0; c_gid := 0; c_fh := 5; c_name := replicate 80 0;
     c_host := replicate 80 0; c_proto := 1; c_byteorder := 2; c_execed := x;
     c_streams := l ++ replicate (12 - length l) (-1); c_blockc := 0; c_waits := None;
     c_acclev := ACCLEV_ALL; c_nnode := roar_nnode_new ROAR_SOCKET_TYPE_UNKNOWN |}.

Definition example_stream (id dir pos_rel_id client : Z) : stream :=
  (fresh_stream id)<|s_dir := dir|><|s_pos_rel_id := pos_rel_id|><|s_client := client|>
    <|s_state := ROAR_STREAMSTATE_NEW|>.

Definition example_server : server := {|
  g_streams := {[ 0 := example_stream 0 ROAR_DIR_PLAY (u32 (-1)) 0;
                  1 := example_stream 1 ROAR_DIR_THRU 0 0;
                  2 := example_stream 2 ROAR_DIR_THRU 1 1;
                  3 := example_stream 3 ROAR_DIR_MONITOR 0 1 ]};
  g_clients := {[ 0 := example_client 0 [0; 1]; 1 := example_client (-1) [2; 3] ]};
  streams_thru_num := 2; streams_recsource_id := -1; counters_streams := 4;
  counters_clients := 2; alive := 1; g_terminate := 0; g_no_listen := 0; g_pos := 0;
  g_standby := 0; events := []; outbox := []; closed := []; g_auth_keyring := auth_init
|}.

Lemma example_wf : wf example_server.
Proof. apply wf_decided. zdecide. Qed.

Lemma example_quiescent : quiescent example_server.
Proof.
  assert (H : map_Forall (λ _ st, ¬ closing st) (g_streams example_server)) by zdecide.
  exact H.
Qed.


