(* ===== verification/Clients.v ===== *)
(** * The client table ([roard/clients.c])

    Creation and release of clients, their attributes, the streams they own,
    waiting for events, and access levels.  The functions that pass a
    connection on to a stream are in [Streams.v]. *)
From S2P Require Import Prelude Notify Chanmap Volume Nnode ServerState StreamTab Meta Lifecycle.

Definition ROAR_PROTO_ROARAUDIO : Z := 1.
Definition ROAR_PROTO_ESOUND : Z := 2.
Definition ROAR_PROTO_SIMPLE : Z := 8.
Definition ROAR_PROTO_RSOUND : Z := 9.
Definition ROAR_PROTO_RPLAY : Z := 10.
Definition ROAR_BYTEORDER_UNKNOWN : Z := 0x00.
Definition ROAR_BYTEORDER_NETWORK : Z := 0x02.

Section clients.
Context {env : Env}.

Definition clients_init : M Z := modify (λ s, s<|g_clients := ∅|>) ;; mret 0.

Definition clients_free : M Z :=
  for_each (seqZ 0 ROAR_CLIENTS_MAX) (λ i,
    o ← g_client i;
    match o with None => mret () | Some _ => clients_delete fuel_enough i ;; mret () end) ;;
  mret 0.

Definition streams_free : M Z :=
  for_each (seqZ 0 ROAR_STREAMS_MAX) (λ i,
    o ← g_stream i;
    match o with None => mret () | Some _ => streams_delete fuel_enough i ;; mret () end) ;;
  mret 0.

(** The object [clients_new] builds. *)
Definition fresh_client : client := {|
  c_pid := -1; c_uid := -1; c_gid := -1; c_fh := -1;
  c_name := replicate (Z.to_nat ROAR_BUFFER_NAME) 0;
  c_host := replicate (Z.to_nat ROAR_BUFFER_NAME) 0;
  c_proto := ROAR_PROTO_ROARAUDIO; c_byteorder := ROAR_BYTEORDER_NETWORK;
  c_execed := -1;
  c_streams := replicate ROAR_CLIENTS_MAX_STREAMS_PER_CLIENT (-1);
  c_blockc := 0; c_waits := None; c_acclev := ACCLEV_NONE;
  c_nnode := roar_nnode_new ROAR_SOCKET_TYPE_UNKNOWN
|}.

Definition clients_new : M Z :=
  m ← gets g_clients;
  match first_free m ROAR_CLIENTS_MAX with
  | None => mret (-1)
  | Some i =>
      modify (λ s, s<|g_clients := <[i := fresh_client]> (g_clients s)|>) ;;
      counters_inc_clients 1 ;;
      roar_notify_core_emit_snoargs ROAR_OE_BASICS_NEW (-1) i ROAR_OT_CLIENT ;;
      mret i
  end.

Definition clients_get_server (id : Z) : M (option client) :=
  check_cid id None (λ c, mret (Some c)).

(** The credentials come from the socket ([SO_PEERCRED]). *)
Definition clients_set_fh (id fh : Z) : M Z :=
  check_cid id (-1) (λ _,
    upd_client id (λ c, c<|c_fh := fh|>) ;;
    (match socket_peercred fh with
     | Some (pid, uid, gid) =>
         if negb (pid =? 0)
         then upd_client id (λ c, c<|c_pid := pid|><|c_uid := uid|><|c_gid := gid|>)
         else mret ()
     | None => mret ()
     end) ;;
    mret 0).

Definition clients_new_from_fh (fh proto byteorder : Z) (update_nnode : bool) : M Z :=
  if fh =? -1 then mret (-1)
  else if negb (proto =? ROAR_PROTO_ROARAUDIO) || negb (byteorder =? ROAR_BYTEORDER_NETWORK)
  then mret (-1)
  else
    client ← clients_new;
    if client =? -1 then mret (-1)
    else
      r ← clients_set_fh client fh;
      if r =? -1 then clients_delete fuel_enough client ;; mret (-1)
      else
        (if update_nnode then
           c ← clients_get_server client;
           if c is Some _ then
             if roar_nnode_new_from_fh fh is Some n
             then upd_client client (λ c, c<|c_nnode := n|>) else mret ()
           else mret ()
         else mret ()) ;;
        mret 0.

Definition clients_close (id : Z) (nocheck_exec : bool) : M Z :=
  check_cid id (-1) (λ c,
    if c_fh c =? -1 then mret 0
    else
      (if nocheck_exec || negb (c_execed c =? -1)
       then close_fh (c_fh c) ;; upd_client id (λ c, c<|c_fh := -1|>) else mret ()) ;;
      mret 0).

Definition clients_get_fh (id : Z) : M Z := check_cid id (-1) (λ c, mret (c_fh c)).
Definition clients_set_pid (id pid : Z) : M Z :=
  check_cid id (-1) (λ _, upd_client id (λ c, c<|c_pid := pid|>) ;; mret 0).
Definition clients_set_uid (id uid : Z) : M Z :=
  check_cid id (-1) (λ _, upd_client id (λ c, c<|c_uid := uid|>) ;; mret 0).
Definition clients_set_gid (id gid : Z) : M Z :=
  check_cid id (-1) (λ _, upd_client id (λ c, c<|c_gid := gid|>) ;; mret 0).

Definition clients_set_proto (id proto : Z) : M Z :=
  check_cid id (-1) (λ _,
    let byteorder :=
      if (proto =? ROAR_PROTO_ROARAUDIO) || (proto =? ROAR_PROTO_ESOUND) ||
         (proto =? ROAR_PROTO_RPLAY) || (proto =? ROAR_PROTO_SIMPLE)
      then ROAR_BYTEORDER_NETWORK else ROAR_BYTEORDER_UNKNOWN in
    upd_client id (λ c, c<|c_proto := proto|><|c_byteorder := byteorder|>) ;;
    mret 0).

Definition clients_block (id : Z) (unblock : bool) : M Z :=
  check_cid id (-1) (λ _,
    upd_client id (λ c, c<|c_blockc := u64 (c_blockc c + (if unblock then -1 else 1))|>) ;;
    mret 0).

(** ** Streams of a client *)

Definition client_stream_add (client stream : Z) : M Z :=
  check_cid client (-1) (λ c,
    match list_find (λ x, x = -1) (c_streams c) with
    | None => mret (-1)
    | Some (i, _) =>
        upd_client client (λ c, c<|c_streams := <[i := stream]> (c_streams c)|>) ;;
        streams_set_client stream client ;;
        mret 0
    end).

Definition client_stream_move (client stream : Z) : M Z :=
  old_client ← streams_get_client stream;
  ok ← (if negb (old_client =? -1) then
          r ← client_stream_delete fuel_enough old_client stream;
          mret (negb (r =? -1))
        else mret true);
  if ok : bool then client_stream_add client stream else mret (-1).

(** ** Waiting for events *)

(** The subscriptions themselves cannot fail in the model. *)
Definition clients_wait (client : Z) (evs : list event) : M Z :=
  check_cid client (-1) (λ cs,
    match c_waits cs with
    | Some _ => mret (-1)
    | None =>
        r ← clients_block client false;
        if negb (r =? 0) then mret (-1)
        else upd_client client (λ c, c<|c_waits := Some evs|>) ;; mret 0
    end).
End clients.

(** ** Access levels *)

Definition g_acclevs : list (Z * string) := [
  (ACCLEV_NONE, "none"); (ACCLEV_IDENTED, "idented"); (ACCLEV_CONCTL, "conctl");
  (ACCLEV_GUEST, "guest"); (ACCLEV_USER, "user"); (ACCLEV_PWRUSER, "pwruser");
  (ACCLEV_ALL, "all")
]%string.

Definition clients_str2acclev (acclev : string) : Z :=
  match list_find (λ e : Z * string, strcaseeq e.2 acclev = true) g_acclevs with
  | Some (_, (l, _)) => l
  | None => -1
  end.

Definition clients_acclev2str (acclev : Z) : option string :=
  snd <$> (snd <$> list_find (λ e : Z * string, e.1 = acclev) g_acclevs).

Lemma acclev_names :
  Forall (λ l, (clients_str2acclev <$> clients_acclev2str l) = Some l)
         [ACCLEV_NONE; ACCLEV_IDENTED; ACCLEV_CONCTL; ACCLEV_GUEST; ACCLEV_USER;
          ACCLEV_PWRUSER; ACCLEV_ALL].
Proof. zdecide. Qed.
