(* ===== verification/Streams.v ===== *)
(** * Streams: flags, volumes, directions, file handles ([roard/streams.c])

    The functions that work on several streams or clients at once, and those
    of [clients.c] that pass a client's connection on to a stream. *)
From S2P Require Import Prelude Notify Chanmap Volume ServerState StreamTab Meta Lifecycle.
From S2P Require Import Clients.

Section streams.
Context {env : Env}.

(** Following THRU streams visits every stream at most once unless it never
    ends. *)
Definition thru_fuel : nat := 65.

(** ** Flags and volumes *)

(** [&(pmss->mixer) != &(ss->mixer)]: other streams get the volume. *)
Definition copy_volume (id i : Z) : M () :=
  if negb (i =? id) then
    ss ← stream_at id;
    pmss ← stream_at i;
    r ← lift (roar_conv_volume false (s_mixer pmss) (s_mixer ss)
                (s32 (channels (s_info pmss))) (s32 (channels (s_info ss))));
    upd_stream i (λ s, s<|s_mixer := r.2|>)
  else mret ().

Fixpoint streams_set_flag (fuel : nat) (id flag : Z) : M Z :=
  match fuel with
  | O => no_fuel
  | S fuel =>
      check_sid id (-1) (λ _,
        let flag := if has_flag flag ROAR_FLAG_IMMUTABLE
                    then Z.lor flag ROAR_FLAG_PRIMARY else flag in
        flag ← (if has_flag flag ROAR_FLAG_MMAP then
                  r ← streams_set_mmap id 0;
                  mret (if r =? -1 then flag - ROAR_FLAG_MMAP else flag)
                else mret flag);
        flag ← (if has_flag flag ROAR_FLAG_PRIMARY then
                  streams_set_primary id 1 ;; mret (flag - ROAR_FLAG_PRIMARY)
                else mret flag);
        require
          (if has_flag flag ROAR_FLAG_VIRTUAL then
             s ← stream_at id;
             let parent := s32 (s_pos_rel_id s) in
             if parent =? -1 then mret false
             else
               r ← streams_ctl parent
                     (Z.lor ROAR_CODECFILTER_CTL_VIRTUAL_NEW ROAR_STREAM_CTL_TYPE_INT);
               if r =? -1 then mret false
               else
                 c ← streams_get_client parent;
                 r ← client_stream_move c id;
                 mret (negb (r =? -1))
           else mret true)
          (flag ← (if has_flag flag ROAR_FLAG_SYNC then
                     s ← stream_at id;
                     if (s_dir s =? ROAR_DIR_BRIDGE) || (s_dir s =? ROAR_DIR_MIDI_OUT)
                     then mret flag
                     else if negb (s_ready s =? 0) then mret flag
                     else
                       cfg ← lift (aget cfg_streams (s_dir s));
                       if has_flag cfg.1 ROAR_FLAG_SYNC then mret flag
                       else
                         r ← streams_set_sync id 1;
                         mret (if r =? -1 then flag - ROAR_FLAG_SYNC else flag)
                   else mret flag);
           require
             (if has_flag flag ROAR_FLAG_HWMIXER then
                upd_stream id (λ s, s<|s_flags := Z.lor (s_flags s) flag|>) ;;
                r ← streams_set_mixer fuel id;
                if r =? -1 then
                  upd_stream id (λ s, s<|s_flags := s_flags s - flag|>) ;; mret false
                else mret true
              else mret true)
             (require
                (if has_flag flag ROAR_FLAG_RECSOURCE then
                   rid ← gets streams_recsource_id;
                   ok ← (if negb (rid =? -1) then
                           r ← streams_reset_flag rid ROAR_FLAG_RECSOURCE;
                           mret (negb (r =? -1))
                         else mret true);
                   if ok : bool then
                     modify (λ s, s<|streams_recsource_id := id|>) ;; mret true
                   else mret false
                 else mret true)
                (upd_stream id (λ s, s<|s_flags := Z.lor (s_flags s) flag|>) ;;
                 (if has_flag flag ROAR_FLAG_META
                  then stream_meta_finalize id ;; mret () else mret ()) ;;
                 mret 0))))
  end
with streams_set_mixer (fuel : nat) (id : Z) : M Z :=
  match fuel with
  | O => no_fuel
  | S fuel =>
      check_sid id (-1) (λ _,
        f ← streams_get_flag id ROAR_FLAG_PASSMIXER;
        require
          (if f =? 1 then
             subsys ← streams_get_subsys thru_fuel id;
             if subsys =? -1 then mret false
             else
               for_each (seqZ 0 ROAR_STREAMS_MAX) (λ i,
                 o ← g_stream i;
                 match o with
                 | None => mret ()
                 | Some _ =>
                     f ← streams_get_flag i ROAR_FLAG_PASSMIXER;
                     if f =? 1 then
                       tsubsys ← streams_get_subsys thru_fuel i;
                       if (tsubsys =? subsys) || (tsubsys =? ROAR_SUBSYS_NONE) then
                         copy_volume id i ;;
                         streams_reset_flag i ROAR_FLAG_PASSMIXER ;;
                         streams_set_mixer fuel i ;;
                         streams_set_flag fuel i ROAR_FLAG_PASSMIXER ;;
                         mret ()
                       else mret ()
                     else mret ()
                 end) ;;
               mret true
           else mret true)
          (roar_notify_core_emit_snoargs ROAR_OE_STREAM_CHANGE_VOLUME (-1) id ROAR_OT_STREAM ;;
           f ← streams_get_flag id ROAR_FLAG_HWMIXER;
           if f =? 0 then mret 0
           else
             ss ← stream_at id;
             if negb (s_driver_id ss =? -1) then mret (driver_set_volume ss)
             else if s_mixerstream ss then mret (hwmixer_set_volume ss)
             else mret 0))
  end.

(** The recursion is at most four levels deep: setting HWMIXER updates the
    mixer, which updates other streams while their PASSMIXER is off. *)
Definition flag_fuel : nat := 4.

(** ** Channel maps *)

Definition STREAM_chanmap_calc (m : chanmap) : chanmap :=
  default m (roardsp_chanmap_calc (Some m) ROARDSP_CHANMAP_MAP false).2.

(** [memset] and [memcpy] of the list of one side. *)
Definition load_map (map : option (list Z)) (len : Z) : outcome (list Z) :=
  match map with
  | None => Done (replicate ROAR_MAX_CHANNELS 0)
  | Some m => d ← or_ub (mread 0 (Z.to_nat len) m);
              or_ub (mwrite 0 d (replicate ROAR_MAX_CHANNELS 0))
  end.

Definition streams_set_map (id : Z) (map : option (list Z)) (len : Z) : M Z :=
  check_sid id (-1) (λ ss,
    if (if map is Some _ then negb (channels (s_info ss) =? len) else false) then mret (-1)
    else
      ssdir ← streams_get_ssdir thru_fuel id;
      if (ssdir =? STREAM_DIR_IN) || (ssdir =? STREAM_DIR_NONE) then
        l ← lift (load_map map len);
        upd_stream id (λ s, s<|s_chanmap := STREAM_chanmap_calc
          (Chanmap l (cm_out (s_chanmap s)) (cm_map (s_chanmap s)))|>) ;;
        mret 0
      else if ssdir =? STREAM_DIR_OUT then
        l ← lift (load_map map len);
        upd_stream id (λ s, s<|s_chanmap := STREAM_chanmap_calc
          (Chanmap (cm_in (s_chanmap s)) l (cm_map (s_chanmap s)))|>) ;;
        mret 0
      else mret (-1)).

(** [roardsp_chanlist_init(ss->chanmap.in, channels, map)] *)
Definition init_chanmap_in (id map : Z) : M () :=
  s ← stream_at id;
  r ← lift (roardsp_chanlist_init (Some (cm_in (s_chanmap s))) (s32 (channels (s_info s))) map);
  upd_stream id (λ s, s<|s_chanmap := Chanmap (default (cm_in (s_chanmap s)) r.2)
    (cm_out (s_chanmap s)) (cm_map (s_chanmap s))|>).

(** ** Direction *)

Definition streams_set_dir (id dir : Z) (defaults : bool) : M Z :=
  check_sid id (-1) (λ _,
    upd_stream id (λ s, s<|s_dir := dir|>) ;;
    (if dir =? ROAR_DIR_THRU
     then modify (λ s, s<|streams_thru_num := streams_thru_num s + 1|>) else mret ()) ;;
    require
      (if defaults then
         if (dir <=? 0) || (ROAR_DIR_DIRIDS <=? dir) then mret false
         else
           cfg ← lift (aget cfg_streams dir);
           r ← streams_set_flag flag_fuel id cfg.1;
           if r =? -1 then mret false
           else
             upd_stream id (λ s, s<|s_mixer := MixerSettings cfg.2.1.1 cfg.2.1.2 cfg.2.2
                                                 (mx_mixer (s_mixer s))|>) ;;
             mret true
       else mret true)
      (if negb (dir =? ROAR_DIR_MIXING) then
         subsys ← streams_get_subsys thru_fuel id;
         (if subsys =? ROAR_SUBSYS_WAVEFORM then
            streams_set_mixer_stream id waveform_mixer ;;
            init_chanmap_in id ROARDSP_CHANLIST_MAP_ROARAUDIO
          else if subsys =? ROAR_SUBSYS_MIDI then
            init_chanmap_in id ROARDSP_CHANLIST_MAP_MIDI ;;
            streams_set_mixer_stream id midi_mixer ;; mret ()
          else if subsys =? ROAR_SUBSYS_LIGHT then
            streams_set_mixer_stream id light_mixer ;; mret ()
          else mret ()) ;;
         upd_stream id (λ s, s<|s_chanmap := Chanmap (cm_in (s_chanmap s)) (cm_in (s_chanmap s))
                                               (cm_map (s_chanmap s))|>) ;;
         streams_set_map id None 0 ;;
         mret 0
       else streams_set_mixer_stream id id ;; mret 0)).

(** ** Virtual streams *)

Definition streams_new_virtual (parent : Z) : M Z :=
  p ← streams_get parent;
  if p is None then mret (-1)
  else
    client ← streams_get_client parent;
    if client =? -1 then mret (-1)
    else
      dir ← streams_get_dir parent;
      if dir =? -1 then mret (-1)
      else
        id ← streams_new;
        if id =? -1 then mret (-1)
        else
          let err := streams_delete fuel_enough id ;; mret (-1) in
          r ← client_stream_add client id;
          if r =? -1 then err
          else
            o ← streams_get id;
            if o is None then err
            else
              r ← streams_set_dir id dir true;
              if r =? -1 then err
              else
                upd_stream id (λ s, s<|s_pos_rel_id := u32 parent|>) ;;
                r ← streams_set_rawflag id ROAR_FLAG_VIRTUAL;
                if r =? -1 then err else mret id.

(** ** File handles *)

Definition make_ready (id : Z) : M Z :=
  upd_stream id (λ s, s<|s_ready := 1|>) ;;
  streams_change_state id ROAR_STREAMSTATE_NEW ;;
  mret 0.

Definition streams_set_fh (id fh : Z) : M Z :=
  check_sid id (-1) (λ ss,
    if negb (s_ready ss =? 0) then mret (-1)
    else
      let dir := s_dir ss in
      upd_stream id (λ s, s<|s_fh := fh|>) ;;
      opened ← (if (dir =? ROAR_DIR_THRU) || (dir =? ROAR_DIR_RAW_IN) || (dir =? ROAR_DIR_RAW_OUT)
                then mret true
                else
                  s ← stream_at id;
                  let '(r, cf) := codecfilter_open s in
                  upd_stream id (λ s, s<|s_codecfilter := cf|>) ;;
                  if r =? -1 then streams_delete fuel_enough id ;; mret false else mret true);
      if negb opened then mret (-1)
      else
        fh ← (if fh =? -2 then
                s ← stream_at id;
                match roar_vio_get_read_fh s with
                | Some f => if f <? 0 then mret (-2)
                            else upd_stream id (λ s, s<|s_fh := f|>) ;; mret f
                | None => mret (-2)
                end
              else mret fh);
        if (fh =? -1) || (fh =? -2) then make_ready id
        else if ROAR_DIR_DIRIDS <=? dir then mret (-1)
        else
          cfg ← lift (aget cfg_streams dir);
          let nonblock := if has_flag cfg.1 ROAR_FLAG_SYNC
                          then (dir =? ROAR_DIR_BRIDGE) || (dir =? ROAR_DIR_MIDI_OUT)
                          else true in
          if negb nonblock then make_ready id
          else if roar_socket_nonblock fh ROAR_SOCKET_NONBLOCK =? -1 then mret (-1)
          else make_ready id).

(** ** Handing a connection over ([clients.c]) *)

Definition client_stream_exec (client stream : Z) : M Z :=
  check_cid client (-1) (λ c,
    if decide (stream ∈ c_streams c) then
      upd_client client (λ c, c<|c_execed := stream|>) ;;
      ready ← streams_is_ready stream;
      (if ready =? 0 then
         streams_set_fh stream (c_fh c) ;;
         streams_set_socktype stream 6 ;; mret ()
       else
         if negb (c_fh c =? -1)
         then close_fh (c_fh c) ;; upd_client client (λ c, c<|c_fh := -1|>) else mret ()) ;;
      mret 0
    else mret (-1)).

Definition client_stream_set_fh (client stream fh : Z) : M Z :=
  check_cid client (-1) (λ c,
    if decide (stream ∈ c_streams c) then streams_set_fh stream fh else mret (-1)).
End streams.
