(* ===== verification/Invariant.v ===== *)
(** * The table invariant over the server's functions

    [wf] (the tables are consistent) and [quiescent] (no stream is half
    deleted) hold between two requests.  [keeps m] says that [m] keeps them
    whenever it returns; the lemmas are for the functions of [StreamTab.v],
    [Meta.v], [Lifecycle.v], [Clients.v] and [Streams.v], and [Requests.v]
    combines them for the handlers.  The deletions, whose behaviour is proved
    in full in [Lifecycle.v], enter through [keeps_streams_delete]. *)
From S2P Require Import Prelude Notify Chanmap Volume ServerState StreamTab Meta Lifecycle.
From S2P Require Import Clients Streams.

(** Partial correctness: [Q] holds if [m] returns. *)
Definition wlp {A} (m : M A) (s : server) (Q : A → server → Prop) : Prop :=
  match m s with Ret a s' => Q a s' | _ => True end.

Definition consistent (s : server) : Prop := wf s ∧ quiescent s.

(** [m] keeps the invariant, and what it does to the objects are steps. *)
Definition keeps {A} (m : M A) (s : server) : Prop :=
  wlp m s (λ _ s', consistent s').

Lemma wlp_mono {A} (m : M A) s (Q Q' : A → server → Prop) :
  wlp m s Q → (∀ a s', Q a s' → Q' a s') → wlp m s Q'.
Proof. unfold wlp. destruct (m s); auto. Qed.

Lemma wlp_bind {A B} (m : M A) (f : A → M B) s Q :
  wlp m s (λ a s', wlp (f a) s' Q) → wlp (m ≫= f) s Q.
Proof. unfold wlp, mbind, M_bind. by destruct (m s). Qed.

Section wlp.
Context {A : Type}.

Lemma wlp_ret (a : A) s (Q : A → server → Prop) : Q a s → wlp (mret a) s Q.
Proof. done. Qed.

Lemma wlp_gets (g : server → A) s Q : Q (g s) s → wlp (gets g) s Q.
Proof. done. Qed.

Lemma wlp_modify g s (Q : () → server → Prop) : Q () (g s) → wlp (modify g) s Q.
Proof. done. Qed.

Lemma wlp_wp E (m : M A) s Q : wp E m s Q → wlp m s Q.
Proof. unfold wp, wlp. by destruct (m s). Qed.

(** The two outcomes of a check. *)
Lemma wlp_check_sid_eq id (r : A) k s Q :
  (∀ st, 0 ≤ id < ROAR_STREAMS_MAX → g_streams s !! id = Some st → wlp (k st) s Q) →
  ((id < 0 ∨ ROAR_STREAMS_MAX < id ∨ g_streams s !! id = None) → Q r s) →
  wlp (check_sid id r k) s Q.
Proof.
  intros Hk Hr. unfold check_sid.
  destruct (Z.ltb_spec id 0); [apply wlp_ret; auto|].
  destruct (Z.ltb_spec ROAR_STREAMS_MAX id); [apply wlp_ret; auto|]. cbn [orb].
  apply wlp_bind. unfold wlp, g_stream. case_decide; [|done].
  destruct (g_streams s !! id) eqn:E; [by apply Hk|by apply Hr; auto].
Qed.

Lemma wlp_check_sid id (r : A) k s Q :
  (∀ st, 0 ≤ id < ROAR_STREAMS_MAX → g_streams s !! id = Some st → wlp (k st) s Q) → Q r s →
  wlp (check_sid id r k) s Q.
Proof. intros. by apply wlp_check_sid_eq. Qed.

Lemma wlp_check_cid id (r : A) k s Q :
  (∀ c, 0 ≤ id < ROAR_CLIENTS_MAX → g_clients s !! id = Some c → wlp (k c) s Q) → Q r s →
  wlp (check_cid id r k) s Q.
Proof.
  intros Hk Hr. unfold check_cid. case_match; [by apply wlp_ret|]. apply wlp_bind.
  unfold wlp, g_client. case_decide; [|done]. destruct (g_clients s !! id) eqn:E; [|done].
  by apply Hk.
Qed.
End wlp.

Lemma wlp_g_stream id s Q :
  (0 ≤ id < ROAR_STREAMS_MAX → Q (g_streams s !! id) s) → wlp (g_stream id) s Q.
Proof. intros H. unfold wlp, g_stream. case_decide; auto. Qed.

Lemma wlp_g_client id s Q :
  (0 ≤ id < ROAR_CLIENTS_MAX → Q (g_clients s !! id) s) → wlp (g_client id) s Q.
Proof. intros H. unfold wlp, g_client. case_decide; auto. Qed.

Lemma wlp_stream_at id s Q :
  (∀ st, 0 ≤ id < ROAR_STREAMS_MAX → g_streams s !! id = Some st → Q st s) →
  wlp (stream_at id) s Q.
Proof.
  intros H. unfold stream_at. apply wlp_bind, wlp_g_stream. intros Hid.
  destruct (g_streams s !! id); [by apply H|done].
Qed.

Lemma wlp_client_at id s Q :
  (∀ c, 0 ≤ id < ROAR_CLIENTS_MAX → g_clients s !! id = Some c → Q c s) →
  wlp (client_at id) s Q.
Proof.
  intros H. unfold client_at. apply wlp_bind, wlp_g_client. intros Hid.
  destruct (g_clients s !! id); [by apply H|done].
Qed.

Lemma wlp_upd_stream id f s Q :
  (∀ st, 0 ≤ id < ROAR_STREAMS_MAX → g_streams s !! id = Some st →
     Q () (s<|g_streams := <[id := f st]> (g_streams s)|>)) → wlp (upd_stream id f) s Q.
Proof. intros H. unfold upd_stream. apply wlp_bind, wlp_stream_at. auto. Qed.

Lemma wlp_upd_client id f s Q :
  (∀ c, 0 ≤ id < ROAR_CLIENTS_MAX → g_clients s !! id = Some c →
     Q () (s<|g_clients := <[id := f c]> (g_clients s)|>)) → wlp (upd_client id f) s Q.
Proof. intros H. unfold upd_client. apply wlp_bind, wlp_client_at. auto. Qed.

(** ** Keeping the invariant *)

Section keeps.
Context {A : Type}.

Lemma keeps_ret (a : A) s : consistent s → keeps (mret a) s.
Proof. done. Qed.

Lemma keeps_gets (g : server → A) s : consistent s → keeps (gets g) s.
Proof. done. Qed.

Lemma keeps_bind {B} (m : M A) (f : A → M B) s :
  keeps m s → (∀ a s', consistent s' → keeps (f a) s') → keeps (m ≫= f) s.
Proof. intros Hm Hf. apply wlp_bind. eapply wlp_mono; [exact Hm|]. auto. Qed.

Lemma keeps_quiet (m : M A) s : consistent s → (wf s → quiet m s) → keeps m s.
Proof.
  intros [W Q] Hq. apply (wlp_wp True). eapply (wp_mono True); [by apply Hq|done|].
  intros a s' [S W' _ _]. split; [done|]. by eapply quiescent_step.
Qed.

Lemma keeps_check_sid id (r : A) k s :
  consistent s →
  (∀ st, g_streams s !! id = Some st → id ≠ ROAR_STREAMS_MAX → keeps (k st) s) →
  keeps (check_sid id r k) s.
Proof. intros C Hk. apply wlp_check_sid; [|done]. intros. apply Hk; [done|lia]. Qed.

(** The one index past the table is not a case for a checked function. *)
Lemma keeps_in_table id (r : A) k s :
  (id ≠ ROAR_STREAMS_MAX → keeps (check_sid id r k) s) → keeps (check_sid id r k) s.
Proof.
  intros H. destruct (decide (id = ROAR_STREAMS_MAX)) as [->|?]; [done|auto].
Qed.

Lemma keeps_check_cid id (r : A) k s :
  consistent s → (∀ c, g_clients s !! id = Some c → keeps (k c) s) →
  keeps (check_cid id r k) s.
Proof. intros C Hk. by apply wlp_check_cid; [intros; apply Hk|]. Qed.

Lemma keeps_lift (o : outcome A) s : consistent s → keeps (lift o) s.
Proof. by destruct o. Qed.
End keeps.

Lemma keeps_for_each {A} (l : list A) f s :
  consistent s → (∀ x s', consistent s' → keeps (f x) s') → keeps (for_each l f) s.
Proof.
  intros C Hf. revert s C. induction l as [|x l IH]; intros s C; cbn [for_each]; [done|].
  apply keeps_bind; [by apply Hf|]. intros [] s'. apply IH.
Qed.

Lemma keeps_require m k s :
  keeps m s → (∀ s', consistent s' → keeps k s') → consistent s → keeps (require m k) s.
Proof. intros Hm Hk C. apply keeps_bind; [done|]. intros [] s' C'; auto. Qed.

Lemma keeps_modify f s : consistent s → same_tables s (f s) → keeps (modify f) s.
Proof. intros C HT. apply keeps_quiet; [done|]. intros. by apply quiet_modify. Qed.

Lemma keeps_emit ev s : consistent s → keeps (emit_event ev) s.
Proof. intros C. apply keeps_quiet; [done|]. intros. by apply quiet_emit. Qed.

(** A change of a stream that keeps its owner, is not a deletion, and keeps
    what every stream satisfies. *)
Record harmless (st st' : stream) : Prop := {
  hl_client : s_client st' = s_client st;
  hl_closing : ¬ closing st → ¬ closing st';
  hl_ok : stream_ok st → stream_ok st'
}.

Lemma live_all m : (∀ id st, m !! id = Some st → ¬ closing st) → live m = m.
Proof. intros Hm. apply map_filter_id. intros i x Hx. by apply (Hm i). Qed.

Lemma consistent_upd_stream s id st f :
  consistent s → g_streams s !! id = Some st → harmless st (f st) →
  consistent (s<|g_streams := <[id := f st]> (g_streams s)|>).
Proof.
  intros [[H1 H2 H3 H4 H5] Q] Hst [E1 E2 E3].
  assert (Q' : ∀ j st', <[id := f st]> (g_streams s) !! j = Some st' → ¬ closing st').
  { intros j st'. destruct (decide (j = id)) as [->|Hj].
    - rewrite lookup_insert_eq. intros [= <-]. by apply E2, (Q id).
    - rewrite lookup_insert_ne by done. apply Q. }
  rewrite live_all in H5 by done. destruct s; split; [split|]; simpl in *; [|done| |done| |done].
  - intros j st'. destruct (decide (j = id)) as [->|Hj].
    + rewrite lookup_insert_eq. intros [= <-]. destruct (H1 _ _ Hst). auto.
    + rewrite lookup_insert_ne by done. apply H1.
  - intros c cl i x Hc Hx. destruct (H3 c cl i x Hc Hx) as [?|(st' & Hs & E)]; [by left|right].
    destruct (decide (x = id)) as [->|Hj].
    + rewrite lookup_insert_eq. eexists. split; [done|]. simplify_eq. congruence.
    + rewrite lookup_insert_ne by done. eauto.
  - by rewrite live_all, map_size_insert_Some by eauto.
Qed.

Lemma keeps_upd_stream id f s :
  consistent s → (∀ st, harmless st (f st)) → keeps (upd_stream id f) s.
Proof.
  intros C Hf. apply wlp_upd_stream. intros st Hid Hst. by apply consistent_upd_stream.
Qed.

(** Changes of a client that leave its list of streams alone. *)
Lemma consistent_upd_client s c cl f :
  consistent s → g_clients s !! c = Some cl → c_streams (f cl) = c_streams cl →
  consistent (s<|g_clients := <[c := f cl]> (g_clients s)|>).
Proof.
  intros [[H1 H2 H3 H4 H5] Q] Hcl Ef.
  assert (Hl : ∀ d cl', <[c := f cl]> (g_clients s) !! d = Some cl' →
    ∃ cl0, g_clients s !! d = Some cl0 ∧ c_streams cl' = c_streams cl0).
  { intros d cl'. destruct (decide (d = c)) as [->|Hd].
    - rewrite lookup_insert_eq. intros [= <-]. eauto.
    - rewrite lookup_insert_ne by done. eauto. }
  destruct s; split; [split|]; simpl in *; [done| | | |done|done].
  - intros d cl' Hd. destruct (Hl _ _ Hd) as (cl0 & H0 & ->). eauto.
  - intros d cl' i x Hd. destruct (Hl _ _ Hd) as (cl0 & H0 & ->). eauto.
  - intros d cl' i j x Hd. destruct (Hl _ _ Hd) as (cl0 & H0 & ->). eauto.
Qed.

Lemma keeps_upd_client c f s :
  consistent s → (∀ cl, c_streams (f cl) = c_streams cl) → keeps (upd_client c f) s.
Proof.
  intros C Hf. apply wlp_upd_client. intros cl Hid Hcl. by apply consistent_upd_client.
Qed.

(** Objects of which a part changes that the invariant does not mention. *)
Lemma harmless_same st st' :
  s_client st' = s_client st → (closing st' → closing st) → s_meta st' = s_meta st →
  s_flags st' = s_flags st → s_pos_rel_id st' = s_pos_rel_id st → harmless st st'.
Proof.
  intros E1 E2 E3 E4 E5. split; [done|tauto|].
  intros [? ? ?]; split; by rewrite ?E1, ?E3, ?E4, ?E5.
Qed.

Lemma harmless_step st st' : stream_step st st' → harmless st st'.
Proof.
  intros S. split; [apply S| |apply S]. by rewrite (stream_step_closing _ _ S).
Qed.

(** Setting flags other than VIRTUAL. *)
Lemma harmless_lor st f :
  has_flag f ROAR_FLAG_VIRTUAL = false → harmless st (st<|s_flags := Z.lor (s_flags st) f|>).
Proof.
  intros Hf. destruct st; split; simpl; [done|done|]. intros [? ? Hv]; split; simpl in *; [done..|].
  change ROAR_FLAG_VIRTUAL with (2 ^ 12) in *.
  rewrite has_flag_lor by lia. rewrite Hf, orb_false_r. done.
Qed.

(** A group change that avoids the index past the table. *)
Lemma harmless_pos st p :
  s32 p ≠ ROAR_STREAMS_MAX → harmless st (st<|s_pos_rel_id := p|>).
Proof. destruct st; split; simpl; [done..|]. intros [? ? ?]; by split. Qed.

Lemma keeps_g_stream id s : consistent s → keeps (g_stream id) s.
Proof. intros C. by apply wlp_g_stream. Qed.
Lemma keeps_g_client id s : consistent s → keeps (g_client id) s.
Proof. intros C. by apply wlp_g_client. Qed.
Lemma keeps_stream_at id s : consistent s → keeps (stream_at id) s.
Proof. intros C. by apply wlp_stream_at. Qed.
Lemma keeps_client_at id s : consistent s → keeps (client_at id) s.
Proof. intros C. by apply wlp_client_at. Qed.

Create HintDb keeps.
#[export] Hint Resolve keeps_ret keeps_gets keeps_lift keeps_g_stream keeps_g_client
  keeps_stream_at keeps_client_at keeps_emit : keeps.
#[export] Hint Extern 1 (harmless _ _) =>
  (match goal with st : stream |- _ => destruct st end; apply harmless_same; done) : keeps.
#[export] Hint Extern 1 (∀ _ : stream, harmless _ _) =>
  (let st := fresh in intros st; destruct st; apply harmless_same; done) : keeps.
#[export] Hint Extern 1 (∀ _ : client, c_streams _ = c_streams _) =>
  (let c := fresh in intros c; by destruct c) : keeps.
#[export] Hint Extern 1 (keeps (modify _) ?s) =>
  (apply keeps_modify; [assumption|by destruct s]) : keeps.

(** Runs through a computation whose parts keep the invariant. *)
Ltac keeps_step :=
  lazymatch goal with
  | |- keeps (_ ≫= _) _ => apply keeps_bind; [|intros ? ? ?]
  | |- keeps (check_sid _ _ _) _ => apply keeps_check_sid; [assumption|intros ? ? ?]
  | |- keeps (check_cid _ _ _) _ => apply keeps_check_cid; [assumption|intros ? ?]
  | |- keeps (require _ _) _ => apply keeps_require; [|intros ? ?|assumption]
  | |- keeps (for_each _ _) _ => apply keeps_for_each; [assumption|intros ? ? ?]
  | |- keeps (let _ := _ in _) _ => cbv zeta
  | |- keeps (match ?b with _ => _ end) _ => let E := fresh "Hif" in destruct b eqn:E
  | |- keeps (upd_stream _ _) _ => apply keeps_upd_stream; [assumption|]
  | |- keeps (upd_client _ _) _ => apply keeps_upd_client; [assumption|]
  | |- keeps undefined _ => exact I
  | |- keeps no_fuel _ => exact I
  | |- keeps exit_process _ => exact I
  end.
Ltac keeps_tac := repeat (first [keeps_step | by auto 3 with keeps nocore]).

Lemma keeps_emit_simple ev a b c d e s :
  consistent s → keeps (roar_notify_core_emit_simple ev a b c d e) s.
Proof. apply keeps_emit. Qed.
Lemma keeps_emit_snoargs ev a b c s :
  consistent s → keeps (roar_notify_core_emit_snoargs ev a b c) s.
Proof. apply keeps_emit. Qed.
Lemma keeps_close_fh fh s : consistent s → keeps (close_fh fh) s.
Proof. intros. unfold close_fh. auto with keeps nocore. Qed.
#[export] Hint Resolve keeps_emit_simple keeps_emit_snoargs keeps_close_fh : keeps.

(** ** [StreamTab.v] *)

Section stream_tab.
Context {env : Env}.
Implicit Types (id : Z) (s : server).

Lemma keeps_change_state id new s :
  new ≠ ROAR_STREAMSTATE_CLOSING → consistent s → keeps (streams_change_state id new) s.
Proof. intros. unfold streams_change_state. keeps_tac. Qed.

Lemma keeps_streams_get id s : consistent s → keeps (streams_get id) s.
Proof. intros. unfold streams_get. keeps_tac. Qed.
Lemma keeps_get_client id s : consistent s → keeps (streams_get_client id) s.
Proof. intros. unfold streams_get_client. keeps_tac. Qed.
Lemma keeps_get_dir id s : consistent s → keeps (streams_get_dir id) s.
Proof. intros. unfold streams_get_dir. keeps_tac. Qed.
Lemma keeps_set_mixer_stream id m s : consistent s → keeps (streams_set_mixer_stream id m) s.
Proof. intros. unfold streams_set_mixer_stream. keeps_tac. Qed.
Lemma keeps_set_role id r s : consistent s → keeps (streams_set_role id r) s.
Proof. intros. unfold streams_set_role. keeps_tac. Qed.
Lemma keeps_get_fh id s : consistent s → keeps (streams_get_fh id) s.
Proof. intros. unfold streams_get_fh. keeps_tac. Qed.
Lemma keeps_set_socktype id t s : consistent s → keeps (streams_set_socktype id t) s.
Proof. intros. unfold streams_set_socktype. keeps_tac. Qed.
Lemma keeps_is_ready id s : consistent s → keeps (streams_is_ready id) s.
Proof. intros. unfold streams_is_ready. keeps_tac. Qed.
Lemma keeps_set_primary id p s : consistent s → keeps (streams_set_primary id p) s.
Proof. intros. unfold streams_set_primary. keeps_tac. Qed.
Lemma keeps_get_name id s : consistent s → keeps (streams_get_name id) s.
Proof. intros. unfold streams_get_name. keeps_tac. Qed.
Lemma keeps_get_flag id f s : consistent s → keeps (streams_get_flag id f) s.
Proof. intros. unfold streams_get_flag. keeps_tac. Qed.
Lemma keeps_set_mmap id r s : consistent s → keeps (streams_set_mmap id r) s.
Proof. intros. unfold streams_set_mmap. keeps_tac. Qed.
Lemma keeps_set_sync id y s : consistent s → keeps (streams_set_sync id y) s.
Proof. intros. unfold streams_set_sync. pose proof keeps_get_fh. keeps_tac. Qed.
Lemma keeps_ctl id cmd s : consistent s → keeps (streams_ctl id cmd) s.
Proof. intros. unfold streams_ctl. keeps_tac. Qed.
Lemma keeps_calc_delay id s : consistent s → keeps (streams_calc_delay id) s.
Proof. intros. unfold streams_calc_delay. keeps_tac. Qed.
Lemma keeps_ltm_ctl id mt w cmd s : consistent s → keeps (streams_ltm_ctl id mt w cmd) s.
Proof. intros. unfold streams_ltm_ctl. keeps_tac. Qed.
Lemma keeps_ltm_get id mt w s : consistent s → keeps (streams_ltm_get id mt w) s.
Proof. intros. unfold streams_ltm_get. keeps_tac. Qed.
Lemma keeps_add_buffer id b s : consistent s → keeps (stream_add_buffer id b) s.
Proof. intros. unfold stream_add_buffer. keeps_tac. Qed.
Lemma keeps_shift_buffer id s : consistent s → keeps (stream_shift_buffer id) s.
Proof. intros. unfold stream_shift_buffer. keeps_tac. Qed.

Lemma keeps_set_rawflag id f s :
  has_flag f ROAR_FLAG_VIRTUAL = false → consistent s → keeps (streams_set_rawflag id f) s.
Proof.
  intros Hf C. unfold streams_set_rawflag. keeps_tac. intros ?. by apply harmless_lor.
Qed.

Lemma keeps_reset_flag id f s : consistent s → keeps (streams_reset_flag id f) s.
Proof.
  intros C. apply keeps_in_table. intros Hid. apply keeps_quiet; [done|].
  intros W. by apply (quiet_reset_flag id f).
Qed.

Lemma keeps_get_subsys fuel id s : consistent s → keeps (streams_get_subsys fuel id) s.
Proof.
  revert id. induction fuel as [|fuel IH]; intros id C; cbn [streams_get_subsys]; [done|].
  keeps_tac.
Qed.
Lemma keeps_get_ssdir fuel id s : consistent s → keeps (streams_get_ssdir fuel id) s.
Proof.
  revert id. induction fuel as [|fuel IH]; intros id C; cbn [streams_get_ssdir]; [done|].
  keeps_tac.
Qed.
End stream_tab.
#[export] Hint Resolve keeps_change_state keeps_streams_get keeps_get_client keeps_get_dir
  keeps_set_mixer_stream keeps_set_role keeps_get_fh keeps_set_socktype keeps_is_ready
  keeps_set_primary keeps_get_name keeps_get_flag keeps_set_mmap keeps_set_sync keeps_ctl
  keeps_calc_delay keeps_ltm_ctl keeps_ltm_get keeps_add_buffer keeps_shift_buffer
  keeps_set_rawflag keeps_reset_flag keeps_get_subsys keeps_get_ssdir : keeps.

(** A new stream is in nobody's list. *)
Lemma first_free_Some {A} (m : gmap Z A) max i :
  first_free m max = Some i → 0 ≤ i < max ∧ m !! i = None.
Proof.
  unfold first_free. destruct (list_find _ _) as [[j x]|] eqn:E; [|done]. intros [= <-].
  apply list_find_Some in E as (H & Hn & _). apply list_elem_of_lookup_2 in H.
  apply elem_of_seqZ in H. split; [lia|done].
Qed.

Lemma first_free_None {A} (m : gmap Z A) max i :
  first_free m max = None → 0 ≤ i < max → is_Some (m !! i).
Proof.
  unfold first_free. destruct (list_find _ _) eqn:E; [done|]. intros _ Hi.
  apply list_find_None in E. rewrite Forall_forall in E.
  apply not_eq_None_Some, E, elem_of_seqZ. lia.
Qed.

Lemma fresh_stream_ok i : stream_ok (fresh_stream i).
Proof.
  split; cbn -[ROAR_META_MAX_PER_STREAM]; [unfold ROAR_CLIENTS_MAX; lia| |done].
  apply Forall_replicate. by intros [].
Qed.

Lemma consistent_new_stream s i :
  consistent s → g_streams s !! i = None → 0 ≤ i < ROAR_STREAMS_MAX →
  consistent (s<|g_streams := <[i := fresh_stream i]> (g_streams s)|>
               <|counters_streams := u64 (counters_streams s + 1)|>).
Proof.
  intros [[H1 H2 H3 H4 H5] Q] Hi Hr.
  assert (Q' : ∀ j st', <[i := fresh_stream i]> (g_streams s) !! j = Some st' → ¬ closing st').
  { intros j st'. destruct (decide (j = i)) as [->|Hj].
    - rewrite lookup_insert_eq. by intros [= <-].
    - rewrite lookup_insert_ne by done. apply Q. }
  assert (Hb : (size (g_streams s) ≤ 64)%nat).
  { apply table_bound. intros j st Hst. apply (H1 j st Hst). }
  rewrite live_all in H5 by done. destruct s; split; [split|]; simpl in *; [|done| |done| |done].
  - intros j st'. destruct (decide (j = i)) as [->|Hj].
    + rewrite lookup_insert_eq. intros [= <-]. split; [done|apply fresh_stream_ok].
    + rewrite lookup_insert_ne by done. apply H1.
  - intros c cl k x Hc Hx. destruct (H3 c cl k x Hc Hx) as [?|(st & Hst & E)]; [by left|right].
    exists st. by rewrite lookup_insert_ne by congruence.
  - rewrite live_all, map_size_insert_None, H5 by done. cint.
Qed.

Lemma consistent_emit ev s a s' : emit_event ev s = Ret a s' → consistent s → consistent s'.
Proof.
  intros E [W Q]. split; [by eapply wf_emit|]. eapply quiescent_step; [|done].
  by eapply step_emit.
Qed.

(** [unlisted x s]: no client lists [x]. *)
Definition unlisted (x : Z) (s : server) : Prop :=
  ∀ c cl, g_clients s !! c = Some cl → x ∉ c_streams cl.

Lemma missing_unlisted x s : wf s → g_streams s !! x = None → x ≠ -1 → unlisted x s.
Proof.
  intros W Hx H1 c cl Hc [i Hi]%list_elem_of_lookup.
  destruct (wf_owner _ W _ _ _ _ Hc Hi) as [?|(st & Hst & _)]; congruence.
Qed.

Lemma wlp_streams_new s :
  consistent s →
  wlp streams_new s (λ i s', consistent s' ∧
    (i = -1 ∨ (0 ≤ i < ROAR_STREAMS_MAX ∧ g_streams s !! i = None ∧ unlisted i s' ∧
               g_streams s' = <[i := fresh_stream i]> (g_streams s)))).
Proof.
  intros C. unfold streams_new. apply wlp_bind, wlp_gets, wlp_bind, wlp_gets.
  case_match; [apply wlp_ret; by split; [|left]|]. apply wlp_bind, wlp_gets.
  destruct (first_free _ _) as [i|] eqn:E; [|apply wlp_ret; by split; [|left]].
  apply first_free_Some in E as [Hr Hi].
  pose proof (consistent_new_stream s i C Hi Hr) as C'.
  assert (U : unlisted i s) by (apply missing_unlisted; [apply C|done|lia]).
  apply wlp_bind, wlp_modify, wlp_bind, wlp_modify, wlp_bind, wlp_modify, wlp_ret.
  split; [|right; split_and!; [lia|lia|done| |by destruct s]].
  - eapply (consistent_emit (simple_event ROAR_OE_BASICS_NEW (-1) i ROAR_OT_STREAM (-1) (-1)
      None 0)); [reflexivity|]. by destruct s.
  - intros c cl Hc. destruct s; simpl in *. apply lookup_fmap_Some in Hc as (cl0 & <- & Hc).
    rewrite (proj1 (ncb_wait_fields _ _)). by eapply U.
Qed.

(** ** [Meta.v] *)

Section meta.
Context {env : Env}.

Lemma harmless_meta st l :
  (Forall meta_ok (s_meta st) → Forall meta_ok l) → harmless st (st<|s_meta := l|>).
Proof. intros. by apply harmless_step, stream_step_meta. Qed.

Lemma keeps_meta_stream {A} id (r : A) k s :
  consistent s → (∀ st, g_streams s !! id = Some st → 0 ≤ id < ROAR_STREAMS_MAX → keeps (k st) s) →
  keeps (meta_stream id r k) s.
Proof.
  intros C Hk. unfold meta_stream. apply wlp_bind, wlp_g_stream. intros Hid.
  destruct (g_streams s !! id); [by apply Hk|done].
Qed.

Lemma keeps_meta_add id type name val s :
  consistent s → keeps (stream_meta_add id type name val) s.
Proof.
  intros C. apply keeps_meta_stream; [done|]. intros st Hst Hid.
  case_match eqn:El; [|done]. apply wlp_bind, wlp_upd_stream. intros st' _ Hst'. simplify_eq.
  apply consistent_upd_stream; [done..|]. apply harmless_meta. by eapply meta_insert_ok.
Qed.

Lemma keeps_meta_set id type name val s :
  consistent s → keeps (stream_meta_set id type name val) s.
Proof.
  intros C. apply keeps_meta_stream; [done|]. intros st _ _. pose proof keeps_meta_add.
  keeps_tac. intros st'. apply harmless_meta. rewrite Forall_fmap. intros Hl.
  eapply Forall_impl; [exact Hl|]. intros e He. cbn. unfold meta_clear_type. case_match; [|done].
  destruct e. by intros [].
Qed.

Lemma keeps_meta_get id type name len s :
  consistent s → keeps (stream_meta_get id type name len) s.
Proof. intros C. by apply keeps_meta_stream. Qed.

Lemma keeps_meta_list id len s : consistent s → keeps (stream_meta_list id len) s.
Proof. intros C. apply keeps_meta_stream; [done|]. intros. keeps_tac. Qed.

Lemma keeps_meta_clear id s : consistent s → keeps (stream_meta_clear id) s.
Proof.
  intros C. apply keeps_in_table. intros Hid. apply keeps_quiet; [done|].
  intros W. by apply (quiet_meta_clear id).
Qed.

Lemma keeps_meta_finalize id s : consistent s → keeps (stream_meta_finalize id) s.
Proof.
  intros C. destruct (g_streams s !! id) as [st|] eqn:Hst.
  - apply keeps_quiet; [done|]. intros W. pose proof (wf_index _ id W ltac:(eauto)).
    apply quiet_meta_finalize; [done|lia|eauto].
  - apply wlp_bind, wlp_check_sid; [congruence|done].
Qed.
End meta.
#[export] Hint Resolve keeps_meta_add keeps_meta_set keeps_meta_get keeps_meta_list
  keeps_meta_clear keeps_meta_finalize : keeps.

(** ** Deletion *)

Section deletion.
Context {env : Env}.

Lemma wlp_streams_delete id s :
  consistent s → wlp (streams_delete fuel_enough id) s (λ _ s', consistent s' ∧ step s s').
Proof.
  intros [W Q]. destruct (decide (id = ROAR_STREAMS_MAX)) as [->|Hid]; [done|].
  eapply wlp_wp, wp_mono; [apply streams_delete_spec; [done..|]|done|].
  - pose proof (live_bound _ W). unfold fuel_enough. lia.
  - intros r s' (S & W' & _). split; [split; [done|]|done]. by eapply quiescent_step.
Qed.

Lemma keeps_streams_delete id s : consistent s → keeps (streams_delete fuel_enough id) s.
Proof. intros C. eapply wlp_mono; [by apply wlp_streams_delete|]. by intros ? ? []. Qed.

Lemma wlp_clients_delete c s :
  consistent s →
  wlp (clients_delete fuel_enough c) s (λ _ s', consistent s' ∧ stepx (Some c) None s s').
Proof.
  intros [W Q]. pose proof (live_bound _ W) as Hb. unfold clients_delete.
  destruct (g_clients s !! c) as [cl|] eqn:Hcl.
  - eapply wlp_wp, wp_mono; [eapply clients_delete_ok; [apply streams_delete_spec|done..|]|done|].
    + unfold fuel_enough. lia.
    + intros r s' (_ & S & W' & _). split; [split; [done|]|done]. by eapply quiescent_step.
  - apply wlp_check_cid; [congruence|]. split; [done|reflexivity].
Qed.

Lemma keeps_clients_delete c s : consistent s → keeps (clients_delete fuel_enough c) s.
Proof. intros C. eapply wlp_mono; [by apply wlp_clients_delete|]. by intros ? ? []. Qed.
End deletion.
#[export] Hint Resolve keeps_streams_delete keeps_clients_delete : keeps.

(** ** [Clients.v] *)

Section clients.
Context {env : Env}.

Lemma wlp_client_stream_delete c x s :
  consistent s → x ≠ -1 → (∀ st, g_streams s !! x = Some st → s_client st = c) →
  wlp (client_stream_delete fuel_enough c x) s
      (λ r s', consistent s' ∧ (r ≠ -1 → unlisted x s')).
Proof.
  intros [W Q] Hx1 Hown. unfold client_stream_delete, client_stream_delete_with.
  apply wlp_check_cid; [|by split]. intros cl Hr Hcl.
  destruct (list_find _ _) as [[i y]|] eqn:Hf; [|by apply wlp_ret].
  apply list_find_Some in Hf as (Hi & -> & _).
  destruct (clear_entry_ok _ _ _ _ _ W Hcl Hi Hx1) as [Hcs Hnin].
  apply wlp_bind, wlp_upd_client. intros cl' _ Hcl'. replace cl' with cl by congruence.
  match goal with |- context [s<|?g := ?m|>] => set (s1 := s<|g := m|>) end.
  assert (C1 : consistent s1).
  { split; [by apply (wf_upd_client s c cl (clear_entry i))|]. by destruct s. }
  assert (G1 : g_clients s1 !! c = Some (clear_entry i cl)) by (destruct s; apply lookup_insert_eq).
  assert (U1 : unlisted x s1).
  { intros d dl Hd Hin. destruct (decide (d = c)) as [->|Hdc]; [congruence|].
    apply list_elem_of_lookup in Hin as [k Hk].
    destruct (wf_owner _ (proj1 C1) _ _ _ _ Hd Hk) as [?|(st & Hst & E)]; [done|].
    apply Hdc. rewrite <- E. apply Hown. by destruct s. }
  clearbody s1. apply wlp_bind, wlp_client_at. intros ? _ ?. simplify_eq.
  apply wlp_bind. case_match; [|by apply wlp_ret, wlp_ret].
  apply wlp_bind. eapply wlp_mono; [by apply wlp_clients_delete|].
  intros r s' [C' S]. apply wlp_ret, wlp_ret. split; [done|]. intros _ d dl Hd Hin.
  destruct (st_client _ _ _ _ S _ _ Hd) as (dl1 & Hd1 & E).
  apply list_elem_of_lookup in Hin as [k Hk].
  destruct (cs_streams _ _ E _ _ Hk) as [|Hk1]; [done|].
  apply (U1 _ _ Hd1). by apply list_elem_of_lookup_2 in Hk1.
Qed.

(** A stream that nobody lists gets an owner. *)
Lemma consistent_add c cl i x st s :
  consistent s → g_clients s !! c = Some cl → c_streams cl !! i = Some (-1) →
  g_streams s !! x = Some st → unlisted x s →
  consistent (s<|g_clients := <[c := cl<|c_streams := <[i := x]> (c_streams cl)|>]> (g_clients s)|>
               <|g_streams := <[x := st<|s_client := c|>]> (g_streams s)|>).
Proof.
  intros [[H1 H2 H3 H4 H5] Q] Hcl Hi Hst U.
  assert (Hlen : (i < length (c_streams cl))%nat) by by eapply lookup_lt_Some.
  assert (Q' : ∀ j st', <[x := st<|s_client := c|>]> (g_streams s) !! j = Some st' → ¬ closing st').
  { intros j st'. destruct (decide (j = x)) as [->|Hj].
    - rewrite lookup_insert_eq. intros [= <-]. destruct st. by apply (Q _ _ Hst).
    - rewrite lookup_insert_ne by done. apply Q. }
  assert (Hx : ∀ d dl k y, g_clients s !! d = Some dl → c_streams dl !! k = Some y → y ≠ x).
  { intros d dl k y Hd Hk ->. apply (U _ _ Hd). by apply list_elem_of_lookup_2 in Hk. }
  destruct (H2 _ _ Hcl) as [Hc Hl]. destruct (H1 _ _ Hst) as [Hxr _].
  rewrite live_all in H5 by done. destruct s; split; [split|]; simpl in *; [| | | | |done].
  - intros j st'. destruct (decide (j = x)) as [->|Hj].
    + rewrite lookup_insert_eq. intros [= <-]. destruct (H1 _ _ Hst) as [? []]. split; [done|].
      destruct st. split; simpl in *; [lia|done..].
    + rewrite lookup_insert_ne by done. apply H1.
  - intros d dl. destruct (decide (d = c)) as [->|Hd].
    + rewrite lookup_insert_eq. intros [= <-]. destruct cl. simpl in *. by rewrite length_insert.
    + rewrite lookup_insert_ne by done. apply H2.
  - intros d dl k y Hd Hk.
    assert (K : y = x ∧ d = c ∨ ∃ dl0, g_clients !! d = Some dl0 ∧ c_streams dl0 !! k = Some y).
    { destruct (decide (d = c)) as [->|Hdc]; [|rewrite lookup_insert_ne in Hd by done; eauto].
      rewrite lookup_insert_eq in Hd. injection Hd as <-. destruct cl; simpl in *.
      destruct (decide (k = i)) as [->|Hki].
      - rewrite list_lookup_insert_eq in Hk by done. injection Hk as <-. by left.
      - rewrite list_lookup_insert_ne in Hk by done. eauto. }
    destruct K as [[-> ->]|(dl0 & Hd0 & Hk0)].
    + right. rewrite lookup_insert_eq. eexists. split; [done|]. by destruct st.
    + rewrite lookup_insert_ne by (by apply not_eq_sym; eauto). by eapply H3.
  - intros d dl k1 k2 y Hd Hy. destruct (decide (d = c)) as [->|Hdc];
      [|rewrite lookup_insert_ne in Hd by done; by eapply H4].
    rewrite lookup_insert_eq in Hd. injection Hd as <-. destruct cl; simpl in *.
    destruct (decide (k1 = i)) as [->|Hk1], (decide (k2 = i)) as [->|Hk2];
      rewrite ?list_lookup_insert_eq, ?list_lookup_insert_ne by done; [done|..].
    + intros [= <-] H. by destruct (Hx _ _ _ _ Hcl H).
    + intros H [= <-]. by destruct (Hx _ _ _ _ Hcl H).
    + eapply (H4 _ _ _ _ _ Hcl); done.
  - by rewrite live_all, map_size_insert_Some by eauto.
Qed.

Lemma wlp_client_stream_add c x st s :
  consistent s → g_streams s !! x = Some st → unlisted x s →
  wlp (client_stream_add c x) s (λ _ s', consistent s' ∧
    ∃ d, g_streams s' = <[x := st<|s_client := d|>]> (g_streams s)).
Proof.
  intros C Hst U. unfold client_stream_add.
  assert (R : wlp (mret (-1)) s (λ _ s', consistent s' ∧
    ∃ d, g_streams s' = <[x := st<|s_client := d|>]> (g_streams s))).
  { apply wlp_ret. split; [done|]. exists (s_client st). symmetry. rewrite insert_id; [done|].
    rewrite Hst. f_equal. by destruct st. }
  apply wlp_check_cid; [|exact R]. intros cl Hc Hcl.
  destruct (list_find _ _) as [[i y]|] eqn:Hf; [|exact R].
  apply list_find_Some in Hf as (Hi & -> & _).
  apply wlp_bind, wlp_upd_client. intros cl' _ Hcl'. replace cl' with cl by congruence.
  apply wlp_bind, wlp_check_sid_eq.
  - intros st' Hx Hst'. apply wlp_bind, wlp_upd_stream. intros st2 _ Hst2.
    apply wlp_ret, wlp_ret. pose proof (consistent_add _ _ _ _ _ _ C Hcl Hi Hst U).
    destruct s; simpl in *. simplify_eq. eauto.
  - intros HN. destruct (wf_streams _ (proj1 C) _ _ Hst) as [? _].
    destruct s; simpl in *. destruct HN as [?|[?|?]]; [lia|lia|congruence].
Qed.

(** What a stream that does not exist gets. *)
Lemma wlp_client_stream_add_missing c x s :
  g_streams s !! x = None →
  wlp (client_stream_add c x) s (λ _ s', g_streams s' = g_streams s ∧
    (x = -1 → consistent s → consistent s')).
Proof.
  intros Hx. unfold client_stream_add. apply wlp_check_cid; [|done]. intros cl Hc Hcl.
  destruct (list_find _ _) as [[i y]|] eqn:Hf; [|done].
  apply list_find_Some in Hf as (Hi & -> & _).
  apply wlp_bind, wlp_upd_client. intros cl' _ Hcl'. replace cl' with cl by congruence.
  apply wlp_bind, wlp_check_sid_eq.
  - intros st _ Hst. destruct s; simpl in *. congruence.
  - intros _. apply wlp_ret. split; [by destruct s|]. intros -> C.
    apply (consistent_upd_client s c cl (λ c, c<|c_streams := <[i := -1]> (c_streams c)|>));
      [done..|]. destruct cl; simpl in *. by rewrite list_insert_id.
Qed.

(** Moving a stream keeps the invariant if the stream still exists
    afterwards; otherwise the client's list has a stale entry. *)
Lemma wlp_client_stream_move c x s :
  consistent s →
  wlp (client_stream_move c x) s (λ _ s',
    (x = -1 ∨ is_Some (g_streams s' !! x)) → consistent s').
Proof.
  intros C. unfold client_stream_move.
  assert (Hmiss : ∀ s1, consistent s1 → g_streams s1 !! x = None →
    wlp (client_stream_add c x) s1 (λ _ s',
      (x = -1 ∨ is_Some (g_streams s' !! x)) → consistent s')).
  { intros s1 C1 Hx. eapply wlp_mono; [by apply wlp_client_stream_add_missing|].
    intros r s' [E K] [Hx1|Hx1]; [by apply K|]. rewrite E, Hx in Hx1. by destruct Hx1. }
  assert (Hadd : ∀ s1, consistent s1 → (x ≠ -1 → unlisted x s1) →
    wlp (client_stream_add c x) s1 (λ _ s',
      (x = -1 ∨ is_Some (g_streams s' !! x)) → consistent s')).
  { intros s1 C1 U. destruct (g_streams s1 !! x) as [st|] eqn:Hst; [|by apply Hmiss].
    destruct (wf_streams _ (proj1 C1) _ _ Hst).
    eapply wlp_mono; [eapply wlp_client_stream_add; [done|done|apply U; lia]|].
    by intros r s' [? _] _. }
  apply wlp_bind. apply wlp_check_sid_eq.
  - intros st Hr Hst. apply wlp_ret, wlp_bind.
    assert (Hown : ∀ st', g_streams s !! x = Some st' → s_client st' = s_client st)
      by (intros; congruence).
    destruct (Z.eqb_spec (s_client st) (-1)) as [Hm|Hm]; cbn [negb].
    + apply wlp_ret, Hadd; [done|]. intros _ d dl Hd [k Hk]%list_elem_of_lookup.
      destruct (wf_owner _ (proj1 C) _ _ _ _ Hd Hk) as [?|(st' & Hst' & E)]; [lia|].
      rewrite Hown in E by done. destruct (wf_clients _ (proj1 C) _ _ Hd). lia.
    + apply wlp_bind. eapply wlp_mono; [apply wlp_client_stream_delete; [done|lia|done]|].
      intros r s1 [C1 U1]. apply wlp_ret.
      destruct (Z.eqb_spec r (-1)) as [Hr1|Hr1]; cbn [negb]; [by apply wlp_ret|].
      apply Hadd; [done|]. intros _. by apply U1.
  - intros HN. apply wlp_bind. cbn [negb]. rewrite Z.eqb_refl. cbn [negb].
    apply wlp_ret, Hmiss; [done|]. destruct HN as [?|[?|?]]; [| |done];
      apply eq_None_not_Some; intros [st Hst]; destruct (wf_streams _ (proj1 C) _ _ Hst); lia.
Qed.

Lemma consistent_new_client s i :
  consistent s → g_clients s !! i = None → 0 ≤ i < ROAR_CLIENTS_MAX →
  consistent (s<|g_clients := <[i := fresh_client]> (g_clients s)|>).
Proof.
  intros [[H1 H2 H3 H4 H5] Q] Hi Hr.
  assert (N : ∀ k y, c_streams fresh_client !! k = Some y → y = -1).
  { intros k y Hk. apply list_elem_of_lookup_2, elem_of_replicate in Hk. apply Hk. }
  destruct s; split; [split|]; simpl in *; [done| | | |done|done].
  - intros c cl. destruct (decide (c = i)) as [->|Hc].
    + rewrite lookup_insert_eq. by intros [= <-].
    + rewrite lookup_insert_ne by done. apply H2.
  - intros c cl k x. destruct (decide (c = i)) as [->|Hc].
    + rewrite lookup_insert_eq. intros [= <-] Hk. left. eauto.
    + rewrite lookup_insert_ne by done. apply H3.
  - intros c cl k1 k2 x. destruct (decide (c = i)) as [->|Hc].
    + rewrite lookup_insert_eq. intros [= <-] Hx Hk. by destruct Hx; eauto.
    + rewrite lookup_insert_ne by done. apply H4.
Qed.

Lemma keeps_clients_new s : consistent s → keeps clients_new s.
Proof.
  intros C. unfold clients_new. apply wlp_bind, wlp_gets.
  destruct (first_free _ _) as [i|] eqn:E; [|by apply wlp_ret].
  apply first_free_Some in E as [Hr Hi].
  pose proof (consistent_new_client s i C Hi Hr) as C'.
  apply wlp_bind, wlp_modify. generalize dependent (s<|g_clients := <[i := fresh_client]> (g_clients s)|>).
  intros s1 C1. assert (C2 : consistent (s1<|counters_clients := u64 (counters_clients s1 + 1)|>)).
  { destruct C1 as [[] Q]. destruct s1; by split; [split|]. }
  apply wlp_bind, wlp_modify. by apply keeps_bind; [apply keeps_emit|].
Qed.

Lemma keeps_set_fh id fh s : consistent s → keeps (clients_set_fh id fh) s.
Proof. intros. unfold clients_set_fh. keeps_tac. Qed.
Lemma keeps_clients_close id n s : consistent s → keeps (clients_close id n) s.
Proof. intros. unfold clients_close. keeps_tac. Qed.
Lemma keeps_get_server id s : consistent s → keeps (clients_get_server id) s.
Proof. intros. unfold clients_get_server. keeps_tac. Qed.
Lemma keeps_new_from_fh fh p b u s : consistent s → keeps (clients_new_from_fh fh p b u) s.
Proof.
  intros. unfold clients_new_from_fh. pose proof keeps_clients_new. pose proof keeps_set_fh.
  pose proof keeps_get_server. keeps_tac.
Qed.
Lemma keeps_clients_block id u s : consistent s → keeps (clients_block id u) s.
Proof. intros. unfold clients_block. keeps_tac. Qed.
Lemma keeps_clients_wait id evs s : consistent s → keeps (clients_wait id evs) s.
Proof. intros. unfold clients_wait. pose proof keeps_clients_block. keeps_tac. Qed.
Lemma keeps_set_proto id p s : consistent s → keeps (clients_set_proto id p) s.
Proof. intros. unfold clients_set_proto. keeps_tac. Qed.
End clients.
#[export] Hint Resolve keeps_clients_new keeps_set_fh keeps_new_from_fh keeps_clients_close
  keeps_get_server keeps_clients_block keeps_clients_wait keeps_set_proto : keeps.

(** ** [Streams.v] *)

(** Streams stay and keep their flags. *)
Definition grow (s s' : server) : Prop :=
  ∀ id st, g_streams s !! id = Some st → ∃ st', g_streams s' !! id = Some st' ∧
    ∀ k, 0 ≤ k → Z.testbit (s_flags st) k = true → Z.testbit (s_flags st') k = true.

#[export] Instance grow_po : PreOrder grow.
Proof.
  split; [intros s id st; eauto|]. intros a b c H1 H2 id st Hst.
  destruct (H1 _ _ Hst) as (st1 & Hst1 & K1). destruct (H2 _ _ Hst1) as (st2 & Hst2 & K2).
  eauto 6.
Qed.

Definition grows {A} (m : M A) (s : server) : Prop :=
  wlp m s (λ _ s', consistent s' ∧ grow s s').

Lemma grows_bind {A B} (m : M A) (f : A → M B) s :
  grows m s → (∀ a s', consistent s' → grow s s' → grows (f a) s') → grows (m ≫= f) s.
Proof.
  intros Hm Hf. apply wlp_bind. eapply wlp_mono; [exact Hm|]. intros a s' [C G].
  eapply wlp_mono; [by apply Hf|]. intros b s'' [C' G']. split; [done|]. by transitivity s'.
Qed.

Lemma grows_ret {A} (a : A) s : consistent s → grows (mret a) s.
Proof. by split. Qed.

Lemma grows_emit ev s : consistent s → grows (emit_event ev) s.
Proof.
  intros C. apply wlp_modify. split; [by eapply consistent_emit|]. intros id st Hst.
  destruct s. eauto.
Qed.

(** Reading does not change the state. *)
Lemma grows_same {A} (m : M A) s :
  consistent s → wlp m s (λ _ s', s' = s) → grows m s.
Proof. intros C Hm. eapply wlp_mono; [exact Hm|]. by intros a s' ->. Qed.

Lemma grow_upd s id st f :
  g_streams s !! id = Some st →
  (∀ k, 0 ≤ k → Z.testbit (s_flags st) k = true → Z.testbit (s_flags (f st)) k = true) →
  grow s (s<|g_streams := <[id := f st]> (g_streams s)|>).
Proof.
  destruct s; simpl. intros Hst Hf j st' Hj. simpl in *. destruct (decide (j = id)) as [->|Hne].
  - rewrite lookup_insert_eq. simplify_eq. eauto.
  - rewrite lookup_insert_ne by done. eauto.
Qed.

Section streams.
Context {env : Env}.

Lemma get_flag_same id flag s : wlp (streams_get_flag id flag) s (λ _ s', s' = s).
Proof. by apply wlp_check_sid. Qed.

Lemma get_subsys_same fuel id s : wlp (streams_get_subsys fuel id) s (λ _ s', s' = s).
Proof.
  revert id. induction fuel as [|fuel IH]; intros id; cbn [streams_get_subsys]; [done|].
  apply wlp_check_sid; [|done]. intros st _ _. cbv zeta. repeat case_match; by try apply wlp_ret.
Qed.

(** Taking PASSMIXER off and putting it on again. *)
Lemma wlp_check_sid_existing {A} id (r : A) k s st Q :
  wf s → g_streams s !! id = Some st → wlp (k st) s Q → wlp (check_sid id r k) s Q.
Proof.
  intros W Hst Hk. destruct (wf_streams _ W _ _ Hst) as [Hi _].
  apply wlp_check_sid_eq; [by intros; simplify_eq|]. intros [?|[?|?]]; [lia|lia|congruence].
Qed.

Lemma reset_passmixer i st s Q :
  wf s → g_streams s !! i = Some st →
  Q 0 (s<|g_streams := <[i := st<|s_flags :=
    Z.lor (s_flags st) ROAR_FLAG_PASSMIXER - ROAR_FLAG_PASSMIXER|>]> (g_streams s)|>) →
  wlp (streams_reset_flag i ROAR_FLAG_PASSMIXER) s Q.
Proof.
  intros W Hst HQ. eapply wlp_check_sid_existing; [done..|]. cbv zeta.
  replace (if has_flag (s_flags st) ROAR_FLAG_IMMUTABLE
    then Z.lor ROAR_FLAG_PASSMIXER ROAR_FLAG_PRIMARY - ROAR_FLAG_PRIMARY
    else ROAR_FLAG_PASSMIXER) with ROAR_FLAG_PASSMIXER by by case_match.
  apply wlp_bind, wlp_ret, wlp_bind, wlp_ret, wlp_bind, wlp_ret, wlp_bind, wlp_ret.
  apply wlp_bind, wlp_upd_stream. intros st' _ Hst'. simplify_eq. by apply wlp_ret.
Qed.

Lemma set_passmixer fuel i st s Q :
  wf s → g_streams s !! i = Some st →
  Q 0 (s<|g_streams := <[i := st<|s_flags :=
    Z.lor (s_flags st) ROAR_FLAG_PASSMIXER|>]> (g_streams s)|>) →
  wlp (streams_set_flag fuel i ROAR_FLAG_PASSMIXER) s Q.
Proof.
  intros W Hst HQ. destruct fuel as [|fuel]; [done|]. cbn [streams_set_flag].
  eapply wlp_check_sid_existing; [done..|]. cbv zeta.
  change (if has_flag ROAR_FLAG_PASSMIXER ROAR_FLAG_IMMUTABLE then _ else _) with ROAR_FLAG_PASSMIXER.
  apply wlp_bind, wlp_ret, wlp_bind, wlp_ret. unfold require.
  apply wlp_bind, wlp_ret, wlp_bind, wlp_ret, wlp_bind, wlp_ret, wlp_bind, wlp_ret.
  apply wlp_bind, wlp_upd_stream. intros st' _ Hst'. simplify_eq.
  by apply wlp_bind, wlp_ret, wlp_ret.
Qed.

Lemma copy_volume_grows id i s : consistent s → grows (copy_volume id i) s.
Proof.
  intros C. unfold copy_volume. destruct (negb (i =? id)); [|by apply grows_ret].
  apply wlp_bind, wlp_stream_at. intros ss _ _. apply wlp_bind, wlp_stream_at. intros pm Hi Hpm.
  apply wlp_bind. destruct (roar_conv_volume _ _ _ _ _) as [r| |]; [|done..].
  apply wlp_ret, wlp_upd_stream. intros st _ Hst. assert (st = pm) as -> by congruence. split.
  - apply (consistent_upd_stream s i pm (λ s, s<|s_mixer := r.2|>)); [done..|].
    destruct pm. by apply harmless_same.
  - apply (grow_upd s i pm (λ s, s<|s_mixer := r.2|>)); [done|]. by destruct pm.
Qed.

(** One round of the loop in [streams_set_mixer]: stream [i] has its flag
    PASSMIXER afterwards. *)
Lemma passmixer_round (f : M Z) fuel i st s :
  (∀ s', consistent s' → grows f s') → consistent s → g_streams s !! i = Some st →
  grows (streams_reset_flag i ROAR_FLAG_PASSMIXER ;; f ;;
         streams_set_flag fuel i ROAR_FLAG_PASSMIXER ;; mret ()) s.
Proof.
  intros Hf C Hst. apply wlp_bind. apply (reset_passmixer i st); [apply C|done|].
  set (s1 := s<|g_streams := _|>).
  assert (C1 : consistent s1).
  { apply (consistent_upd_stream s i st
      (λ st, st<|s_flags := Z.lor (s_flags st) ROAR_FLAG_PASSMIXER - ROAR_FLAG_PASSMIXER|>));
      [done..|]. apply harmless_step, stream_step_ldiff. }
  apply wlp_bind. eapply wlp_mono; [by apply Hf|]. intros r s2 [C2 G2].
  assert (Hi1 : g_streams s1 !! i = Some (st<|s_flags :=
    Z.lor (s_flags st) ROAR_FLAG_PASSMIXER - ROAR_FLAG_PASSMIXER|>))
    by (destruct s; apply lookup_insert_eq).
  destruct (G2 _ _ Hi1) as (st2 & Hst2 & K2).
  assert (K : ∀ k, 0 ≤ k → Z.testbit (s_flags st) k = true →
    Z.testbit (Z.lor (s_flags st2) ROAR_FLAG_PASSMIXER) k = true).
  { intros k Hk Hb. rewrite Z.lor_spec. destruct (Z.testbit ROAR_FLAG_PASSMIXER k) eqn:Ek;
      [apply orb_true_r|]. rewrite orb_false_r. apply K2; [done|].
    clear -Hb Ek. destruct st; simpl in *. by rewrite lor_sub, Z.ldiff_spec, Hb, Ek. }
  apply wlp_bind, (set_passmixer fuel i st2); [apply C2|done|]. apply wlp_ret. split.
  - apply (consistent_upd_stream s2 i st2 (λ st, st<|s_flags :=
      Z.lor (s_flags st) ROAR_FLAG_PASSMIXER|>)); [done..|]. by apply harmless_lor.
  - intros j stj Hj. subst s1. destruct s, s2; simpl in *. destruct (decide (j = i)) as [->|Hne].
    + rewrite lookup_insert_eq. simplify_eq. eexists. split; [done|].
      destruct st2; simpl in *. done.
    + rewrite lookup_insert_ne by done. apply G2. simpl. by rewrite lookup_insert_ne.
Qed.

Lemma set_mixer_grows fuel id s : consistent s → grows (streams_set_mixer fuel id) s.
Proof.
  revert id s. induction fuel as [|fuel IH]; intros id s C; cbn [streams_set_mixer]; [done|].
  apply wlp_check_sid; [|by split]. intros st Hid Hst.
  apply grows_bind; [apply grows_same, get_flag_same; done|]. intros f s1 C1 _.
  apply grows_bind.
  - case_match; [|by apply grows_ret].
    apply grows_bind; [apply grows_same, get_subsys_same; done|]. intros sub s2 C2 _.
    case_match; [by apply grows_ret|]. apply grows_bind; [|intros; by apply grows_ret].
    generalize (seqZ 0 ROAR_STREAMS_MAX). intros l. clear -IH C2. revert s2 C2.
    induction l as [|i l IHl]; intros s2 C2; cbn [for_each]; [by apply grows_ret|].
    apply grows_bind; [|intros [] s3 C3 _; by apply IHl].
    apply wlp_bind, wlp_g_stream. intros Hi.
    destruct (g_streams s2 !! i) as [sti|] eqn:Hsti; [|by apply grows_ret].
    apply grows_bind; [apply grows_same, get_flag_same; done|]. intros fi s3 C3 G3.
    case_match; [|by apply grows_ret].
    apply grows_bind; [apply grows_same, get_subsys_same; done|]. intros tsub s4 C4 G4.
    case_match; [|by apply grows_ret].
    apply grows_bind; [by apply copy_volume_grows|]. intros [] s5 C5 G5.
    destruct (G3 _ _ Hsti) as (st3 & H3 & _). destruct (G4 _ _ H3) as (st4 & H4 & _).
    destruct (G5 _ _ H4) as (st5 & H5 & _).
    by eapply passmixer_round; [intros; by apply IH|done..].
  - intros ok s2 C2 _. destruct (ok : bool); [|by apply grows_ret].
    apply grows_bind.
    + by apply grows_emit.
    + intros [] s3 C3 _. apply grows_bind; [apply grows_same, get_flag_same; done|].
      intros fl s4 C4 _. case_match; [by apply grows_ret|].
      apply wlp_bind, wlp_stream_at. intros ss _ _. repeat case_match; by apply grows_ret.
Qed.

(** Sets of flags without VIRTUAL. *)
Definition novirt (f : Z) : Prop := has_flag f ROAR_FLAG_VIRTUAL = false.

Lemma sub_subset a b :
  (∀ k, 0 ≤ k → Z.testbit b k = true → Z.testbit a k = true) → a - b = Z.ldiff a b.
Proof.
  intros H. rewrite <- lor_sub. f_equal. apply Z.bits_inj'. intros k Hk. rewrite Z.lor_spec.
  destruct (Z.testbit b k) eqn:E; [by rewrite H|by rewrite orb_false_r].
Qed.

Lemma novirt_ldiff a b : novirt a → novirt (Z.ldiff a b).
Proof.
  unfold novirt. change ROAR_FLAG_VIRTUAL with (2 ^ 12). intros Ha.
  by rewrite has_flag_ldiff, Ha.
Qed.

Lemma novirt_sub a n : 0 ≤ n → has_flag a (2 ^ n) = true → novirt a → novirt (a - 2 ^ n).
Proof.
  intros Hn Hf Ha. rewrite sub_subset; [by apply novirt_ldiff|]. intros k Hk.
  rewrite Z.pow2_bits_eqb by done. intros ->%Z.eqb_eq. by rewrite <- has_flag_bit.
Qed.

Lemma novirt_immutable flag :
  novirt flag → novirt (if has_flag flag ROAR_FLAG_IMMUTABLE
                        then Z.lor flag ROAR_FLAG_PRIMARY else flag).
Proof.
  intros Hf. case_match; [|done]. unfold novirt in *. change ROAR_FLAG_VIRTUAL with (2 ^ 12) in *.
  by rewrite has_flag_lor, Hf.
Qed.

(** [keeps] that knows something about the value. *)
Lemma keeps_bind_val {A B} (P : A → Prop) (m : M A) (f : A → M B) s :
  wlp m s (λ a s', consistent s' ∧ P a) → (∀ a s', consistent s' → P a → keeps (f a) s') →
  keeps (m ≫= f) s.
Proof. intros Hm Hf. apply wlp_bind. eapply wlp_mono; [exact Hm|]. intros a s' []. by apply Hf. Qed.

Lemma keeps_val {A} (P : A → Prop) (m : M A) s :
  keeps m s → (∀ a, P a) → wlp m s (λ a s', consistent s' ∧ P a).
Proof. intros Hm HP. eapply wlp_mono; [exact Hm|]. auto. Qed.

(** A step that may take a flag out of the set. *)
Lemma drop_flag (m : M Z) (flag n : Z) (b : Z → bool) s :
  0 ≤ n → keeps m s → has_flag flag (2 ^ n) = true → novirt flag →
  wlp (r ← m; mret (if b r then flag - 2 ^ n else flag)) s (λ a s', consistent s' ∧ novirt a).
Proof.
  intros Hn Hm Hf Hv. apply wlp_bind. eapply wlp_mono; [exact Hm|]. intros r s' C.
  apply wlp_ret. split; [done|]. case_match; [by apply novirt_sub|done].
Qed.

Lemma set_flag_hwmixer fuel id flag s :
  novirt flag → consistent s →
  keeps (upd_stream id (λ s, s<|s_flags := Z.lor (s_flags s) flag|>) ;;
         r ← streams_set_mixer fuel id;
         if r =? -1 then
           upd_stream id (λ s, s<|s_flags := s_flags s - flag|>) ;; mret false
         else mret true) s.
Proof.
  intros Hv C. apply wlp_bind, wlp_upd_stream. intros st Hid Hst.
  assert (C1 := consistent_upd_stream s id st (λ s, s<|s_flags := Z.lor (s_flags s) flag|>)
    C Hst (harmless_lor _ _ Hv)).
  set (s1 := s<|g_streams := _|>) in *.
  assert (Hi1 : g_streams s1 !! id = Some (st<|s_flags := Z.lor (s_flags st) flag|>))
    by (destruct s; apply lookup_insert_eq).
  apply wlp_bind. eapply wlp_mono; [by apply set_mixer_grows|]. intros r s2 [C2 G2].
  destruct (G2 _ _ Hi1) as (st2 & Hst2 & K2).
  case_match; [|by apply wlp_ret]. apply wlp_bind, wlp_upd_stream. intros st' _ Hst'.
  assert (st' = st2) as -> by congruence. apply wlp_ret.
  apply (consistent_upd_stream s2 id st2 (λ s, s<|s_flags := s_flags s - flag|>)); [done..|].
  cbv beta. rewrite sub_subset.
  - rewrite <- lor_sub. apply harmless_step, stream_step_ldiff.
  - intros k Hk Hb. apply K2; [done|]. clear -Hb. destruct st. simpl.
    by rewrite Z.lor_spec, Hb, orb_true_r.
Qed.

Lemma keeps_set_flag fuel id flag s :
  novirt flag → consistent s → keeps (streams_set_flag fuel id flag) s.
Proof.
  intros Hv C. destruct fuel as [|fuel]; [done|]. cbn [streams_set_flag].
  apply keeps_check_sid; [done|]. intros st Hst Hid. cbv zeta.
  apply novirt_immutable in Hv. revert Hv. generalize (if has_flag flag ROAR_FLAG_IMMUTABLE
    then Z.lor flag ROAR_FLAG_PRIMARY else flag). clear flag. intros flag Hv.
  apply (keeps_bind_val novirt).
  { case_match; [|by apply wlp_ret]. apply (drop_flag _ _ 10 (λ r, r =? -1)); first [lia|by auto with keeps]. }
  clear flag Hv. intros flag s1 C1 Hv. apply (keeps_bind_val novirt).
  { case_match; [|by apply wlp_ret].
    apply (drop_flag (streams_set_primary id 1) _ 0 (λ _, true)); first [lia|by auto with keeps]. }
  clear flag Hv. intros flag s2 C2 Hv. apply keeps_require; [|intros s3 C3|done].
  { unfold novirt in Hv. by rewrite Hv. }
  apply (keeps_bind_val novirt).
  { case_match; [|by apply wlp_ret]. apply wlp_bind, wlp_stream_at. intros sx _ _.
    case_match; [by apply wlp_ret|]. case_match; [by apply wlp_ret|].
    apply wlp_bind. destruct (aget _ _) as [cfg| |]; [|done..]. apply wlp_ret.
    case_match; [by apply wlp_ret|].
    apply (drop_flag _ _ 3 (λ r, r =? -1)); first [lia|by auto with keeps]. }
  clear flag Hv. intros flag s4 C4 Hv. apply keeps_require; [|intros s5 C5|done].
  { case_match; [|done]. by apply set_flag_hwmixer. }
  apply keeps_require; [|intros s6 C6|done]; [keeps_tac|].
  keeps_tac. intros ?. by apply harmless_lor.
Qed.

Lemma keeps_set_mixer fuel id s : consistent s → keeps (streams_set_mixer fuel id) s.
Proof. intros C. eapply wlp_mono; [by apply set_mixer_grows|]. by intros ? ? []. Qed.

Lemma keeps_init_chanmap_in id map s : consistent s → keeps (init_chanmap_in id map) s.
Proof. intros. unfold init_chanmap_in. keeps_tac. Qed.
Lemma keeps_set_map id map len s : consistent s → keeps (streams_set_map id map len) s.
Proof. intros. unfold streams_set_map. keeps_tac. Qed.
Lemma keeps_make_ready id s : consistent s → keeps (make_ready id) s.
Proof. intros. unfold make_ready. keeps_tac. by apply keeps_change_state. Qed.
End streams.
#[export] Hint Resolve keeps_set_flag keeps_set_mixer keeps_init_chanmap_in keeps_set_map
  keeps_make_ready : keeps.

Section streams_cfg.
Context {env : Env}.
(** The configured default flags of the directions do not make a stream
    virtual. *)
Hypothesis cfg_novirt : Forall (λ e : Z * (Z * Z * Z), novirt e.1) cfg_streams.

Lemma cfg_flags_novirt i e : aget cfg_streams i = Done e → novirt e.1.
Proof.
  intros [_ H]%aget_Done. by eapply (Forall_lookup_1 _ _ _ _ cfg_novirt).
Qed.

Lemma keeps_set_dir id dir d s : consistent s → keeps (streams_set_dir id dir d) s.
Proof.
  intros C. unfold streams_set_dir. apply keeps_check_sid; [done|]. intros st Hst Hid.
  keeps_step; [keeps_tac|]. keeps_step; [keeps_tac|]. keeps_step.
  - case_match; [|by apply keeps_ret]. case_match; [by apply keeps_ret|].
    apply (keeps_bind_val (λ e, novirt e.1)).
    { destruct (aget cfg_streams dir) as [e| |] eqn:E; [|done..]. apply wlp_ret.
      split; [done|]. by eapply cfg_flags_novirt. }
    intros e s1 C1 Hv. keeps_tac.
  - keeps_tac.
Qed.

Lemma keeps_set_fh_stream id fh s : consistent s → keeps (streams_set_fh id fh) s.
Proof. intros. unfold streams_set_fh. keeps_tac. Qed.

Lemma keeps_stream_exec c x s : consistent s → keeps (client_stream_exec c x) s.
Proof. intros. unfold client_stream_exec. pose proof keeps_set_fh_stream. keeps_tac. Qed.

Lemma keeps_stream_set_fh c x fh s : consistent s → keeps (client_stream_set_fh c x fh) s.
Proof. intros. unfold client_stream_set_fh. pose proof keeps_set_fh_stream. keeps_tac. Qed.

End streams_cfg.
