(* ===== verification/Requests.v ===== *)
(** * The request handlers of the server ([roard/req.c])

    One definition per [req_on_...] function.  A handler gets the client's id
    and the request: the message, the separate buffer for long data and the
    output flags ([flags[1]]); it returns its return value and the request as
    it leaves it, which is the reply.  The handlers of PASSFH, BEEP, CAPS and
    SERVER_INFO, which work on sockets and data outside of the tables, are not
    modelled. *)
From S2P Require Import Prelude Vio Proto Notify Chanmap Volume Nnode Auth ServerState Ctl.
From S2P Require Import StreamTab Meta Lifecycle Clients Streams.

Definition ROAR_CMD_OK_STOP : Z := 253.
Definition ROAR_CMD_OK : Z := 254.
Definition ROAR_CMD_ERROR : Z := 255.

Definition COMMAND_FLAG_NONE : Z := 0.
Definition COMMAND_FLAG_OUT_CLOSECON : Z := 1.
Definition COMMAND_FLAG_OUT_LONGDATA : Z := 2.
Definition COMMAND_FLAG_OUT_NOSEND : Z := 4.

Definition ROAR_MIDI_BITS : Z := 8.
Definition ROAR_MIDI_CHANNELS_DEFAULT : Z := 16.
Definition ROAR_META_MODE_SET : Z := 0.
Definition ROAR_META_MODE_ADD : Z := 1.
Definition ROAR_META_MODE_DELETE : Z := 2.
Definition ROAR_META_MODE_CLEAR : Z := 3.
Definition ROAR_META_MODE_FINALIZE : Z := 4.
Definition ROAR_STREAM_PARA_INFO : Z := 1.
Definition ROAR_STREAM_PARA_FLAGS : Z := 2.
Definition ROAR_STREAM_PARA_NAME : Z := 3.
Definition ROAR_STREAM_PARA_CHANMAP : Z := 4.
Definition ROAR_STREAM_PARA_ROLE : Z := 5.
Definition ROAR_STREAM_PARA_LTM : Z := 9.
Definition ROAR_SET_FLAG : Z := 0.
Definition ROAR_RESET_FLAG : Z := 1.
Definition ROAR_SET_VOL_ALL : Z := 1.
Definition ROAR_SET_VOL_ONE : Z := 2.
Definition ROAR_ATTACH_SIMPLE : Z := 1.
Definition ROAR_LTM_SST_GET_RAW : Z := 3.
Definition ROAR_LTM_MTBITS : nat := 16.

Record request := Request { q_mes : message; q_data : option (list Z); q_flags : Z }.

(** [mes->stream] as an index, and as a stream of all ones, "no stream". *)
Definition q_stream (q : request) : Z := s32 (m_stream (q_mes q)).
Definition q_nostream (q : request) : bool := m_stream (q_mes q) =? u32 (-1).
Definition q_datalen (q : request) : Z := m_datalen (q_mes q).
Definition q_bytes (q : request) : list Z := m_data (q_mes q).

Definition set_mes (f : message → message) (q : request) : request := q<|q_mes := f (q_mes q)|>.
Definition set_bytes (d : list Z) : request → request := set_mes (λ m, m<|m_data := d|>).
Definition set_datalen (n : Z) : request → request := set_mes (λ m, m<|m_datalen := n|>).
Definition set_cmd (c : Z) : request → request := set_mes (λ m, m<|m_cmd := c|>).
Definition set_pos (p : Z) : request → request := set_mes (λ m, m<|m_pos := p|>).
Definition add_flag (f : Z) (q : request) : request := q<|q_flags := Z.lor (q_flags q) f|>.

(** [return -1], and [mes->cmd = ROAR_CMD_OK; mes->datalen = n; return 0] *)
Definition fail (q : request) : M (Z * request) := mret (-1, q).
Definition okay (n : Z) (q : request) : M (Z * request) :=
  mret (0, set_datalen n (set_cmd ROAR_CMD_OK q)).
(** Replies that carry the server's position. *)
Definition okay_pos (n : Z) (q : request) : M (Z * request) :=
  p ← gets g_pos; okay n (set_pos p q).

(** A call whose return value -1 makes the handler fail. *)
Definition okay_unless (m : M Z) (q : request) : M (Z * request) :=
  r ← m; if r =? -1 then fail q else okay 0 q.

(** [strncpy(dst, src + off, n)]: the [n] octets stored to [dst]. *)
Definition strncpy_from (d : list Z) (off n : Z) : outcome (list Z) :=
  if (off <? 0) || (n <? 0) || (Z.of_nat (length d) <? off) then UB
  else
    let src := drop (Z.to_nat off) d in
    match c_strlen src with
    | Some k => Done (strncpy_bytes (take k src) (Z.to_nat n))
    | None => or_ub (mread 0 (Z.to_nat n) src)
    end.

(** The C string stored by such a copy and a NUL behind it. *)
Definition c_string (d : list Z) : list Z := take (default (length d) (c_strlen d)) d.

(** [ROAR_NET2HOST16(d[k])] *)
Definition net16 (k : nat) (d : list Z) : outcome Z := v ← wload 2 k d; Done (bswap 2 v).

Section requests.
Context {env : Env}.

Definition req_on_noop (client : Z) (q : request) : M (Z * request) := okay_pos 0 q.

Definition req_on_identify (client : Z) (q : request) : M (Z * request) :=
  if q_datalen q <? 1 then fail q
  else
    o ← clients_get_server client;
    match o with
    | None => undefined
    | Some c =>
        b0 ← lift (aget (q_bytes q) 0);
        if negb (b0 =? 1) then fail q
        else
          (if c_pid c =? -1 then
             bs ← lift (or_ub (mread 1 4 (q_bytes q)));
             upd_client client (λ c, c<|c_pid := s32 (bswap 4 (le_val bs))|>)
           else mret ()) ;;
          let max_len := Z.min (q_datalen q - 5) (ROAR_BUFFER_NAME - 1) in
          name ← lift (n ← strncpy_from (q_bytes q) 5 max_len;
                       or_ub (mwrite 0 (n ++ [0]) (c_name c)));
          upd_client client (λ c, c<|c_name := name|><|c_acclev := ACCLEV_IDENTED|>) ;;
          okay_pos 0 q
    end.

Definition req_on_auth (client : Z) (q : request) : M (Z * request) :=
  o ← clients_get_server client;
  authmes ← lift (roar_auth_from_mes (q_mes q) (q_data q));
  match o with
  | None => undefined
  | Some c =>
      ring ← gets g_auth_keyring;
      r ← lift (auth_client_ckeck ring (c_uid c) (c_gid c) authmes);
      (if r.2 is Some l then upd_client client (λ c, c<|c_acclev := l|>) else mret ()) ;;
      if negb (r.1 =? 1) then fail q else okay_pos 0 q
  end.

Definition req_on_whoami (client : Z) (q : request) : M (Z * request) :=
  d ← lift (or_ub (mwrite 0 [u8 client] (q_bytes q)));
  okay_pos 1 (set_bytes d q).

(** ** Creation of a stream *)

Definition get_base (s : stream) : base_stream :=
  BaseStream (s_id s) (s_dir s) (s_pos s) (s_pos_rel_id s) (s_info s).
Definition set_base (b : base_stream) (s : stream) : stream :=
  s<|s_id := bs_id b|><|s_dir := bs_dir b|><|s_pos := bs_pos b|>
   <|s_pos_rel_id := bs_pos_rel_id b|><|s_info := bs_info b|>.

Definition no_rel : Z := u32 (-1).

(** The [switch] on the direction; the result tells whether the stream is
    accepted.  [ROAR_STREAM(s)->pos_rel_id == stream] compares unsigned. *)
Definition new_stream_dir (stream : Z) : M bool :=
  s ← stream_at stream;
  let dir := s_dir s in
  let rel := s_pos_rel_id s in
  let clear_rel := upd_stream stream (λ s, s<|s_pos_rel_id := no_rel|>) in
  if (dir =? ROAR_DIR_LIGHT_IN) || (dir =? ROAR_DIR_LIGHT_OUT) then
    upd_stream stream (λ s, s<|s_info := AudioInfo 0 0 0 (codec (s_info s))|>) ;; mret true
  else if (dir =? ROAR_DIR_MIDI_IN) || (dir =? ROAR_DIR_MIDI_OUT) then
    upd_stream stream (λ s, s<|s_info := AudioInfo 0 ROAR_MIDI_BITS ROAR_MIDI_CHANNELS_DEFAULT
                                           (codec (s_info s))|>) ;; mret true
  else if dir =? ROAR_DIR_RAW_IN then
    bad ← (if (rel =? no_rel) || (rel =? u32 stream) then mret true
           else d ← streams_get_dir (s32 rel); mret (negb (d =? ROAR_DIR_RAW_OUT)));
    if bad : bool then clear_rel ;; mret false else mret true
  else if dir =? ROAR_DIR_THRU then
    if (rel =? no_rel) || (rel =? u32 stream) then clear_rel ;; mret false
    else
      o ← streams_get (s32 rel);
      match o with
      | None => mret false
      | Some src =>
          upd_stream stream (λ s, s<|s_info := s_info src|><|s_codec_orgi := s_codec_orgi src|>) ;;
          mret true
      end
  else if dir =? ROAR_DIR_FILTER then
    o ← (if rel =? no_rel then mret (Some g_sa)
         else o ← streams_get (s32 rel); mret (s_info <$> o));
    match o with
    | None => mret false
    | Some i =>
        let j := s_info s in
        mret ((channels j =? channels i) && (bits j =? bits i) &&
              (codec j =? codec i) && (rate j =? rate i))
    end
  else mret true.

(** Every error deletes the stream again. *)
Definition new_stream_setup (client stream : Z) (q : request) : M (bool * request) :=
  o ← streams_get stream;
  match o with
  | None => mret (false, q)
  | Some s =>
      r ← client_stream_add client stream;
      if r =? -1 then mret (false, q)
      else
        '(r, b, m) ← lift (roar_stream_m2s (get_base s) (q_mes q));
        let q := set_mes (λ _, m) q in
        if r =? -1 then mret (false, q)
        else
          upd_stream stream (λ s, (set_base b s)
            <|s_id := stream|><|s_codec_orgi := s32 (codec (bs_info b))|>) ;;
          r ← streams_set_dir stream (bs_dir b) true;
          if r =? -1 then mret (false, q)
          else ok ← new_stream_dir stream; mret (ok, q)
  end.

Definition req_on_new_stream (client : Z) (q : request) : M (Z * request) :=
  stream ← streams_new;
  if stream =? -1 then fail q
  else
    '(ok, q) ← new_stream_setup client stream q;
    if ok : bool then okay 0 (set_mes (λ m, m<|m_stream := u32 stream|>) q)
    else streams_delete fuel_enough stream ;; fail q.

(** ** Connections of streams *)

Definition req_on_exec_stream (client : Z) (q : request) : M (Z * request) :=
  ready ← streams_is_ready (q_stream q);
  if negb (ready =? 0) then okay 0 (add_flag COMMAND_FLAG_OUT_CLOSECON q)
  else okay_unless (client_stream_exec client (q_stream q)) q.

Definition req_on_con_stream (client : Z) (q : request) : M (Z * request) :=
  if q_datalen q <? 4 then fail q
  else
    b0 ← lift (aget (q_bytes q) 0);
    if negb (b0 =? 0) then fail q
    else if 80 <? q_datalen q then fail q
    else
      type ← lift (b ← aget (q_bytes q) 1; Done (s8 b));
      port ← lift (net16 1 (q_bytes q));
      host ← lift (strncpy_from (q_bytes q) 4 (q_datalen q - 4));
      if ROAR_SOCKET_TYPE_MAX <? type then fail q
      else if type =? ROAR_SOCKET_TYPE_FILE then fail q
      else if type =? ROAR_SOCKET_TYPE_FORK then fail q
      else
        let fh := roar_socket_open type (c_string host) port in
        if fh =? -1 then fail q
        else
          r ← client_stream_set_fh client (q_stream q) fh;
          if r =? -1 then close_fh fh ;; mret (1, q) else okay 0 q.

(** ** Meta data *)

Definition req_on_set_meta (client : Z) (q : request) : M (Z * request) :=
  if q_datalen q <? 3 then fail q
  else
    b0 ← lift (aget (q_bytes q) 0);
    if negb (b0 =? 0) then fail q
    else
      mode ← lift (b ← aget (q_bytes q) 1; Done (s8 b));
      type ← lift (b ← aget (q_bytes q) 2; Done (s8 b));
      if mode =? ROAR_META_MODE_CLEAR then stream_meta_clear (q_stream q) ;; okay 0 q
      else if mode =? ROAR_META_MODE_DELETE then fail q
      else if mode =? ROAR_META_MODE_FINALIZE then stream_meta_finalize (q_stream q) ;; okay 0 q
      else if (mode =? ROAR_META_MODE_SET) || (mode =? ROAR_META_MODE_ADD) then
        if q_datalen q <? 5 then fail q
        else
          namelen ← lift (b ← aget (q_bytes q) 3; Done (s8 b));
          vallen ← lift (b ← aget (q_bytes q) 4; Done (s8 b));
          if q_datalen q <? 5 + namelen + vallen then fail q
          else if Z.of_nat ROAR_META_MAX_NAMELEN <? namelen then fail q
          else
            name ← lift (strncpy_from (q_bytes q) 5 namelen);
            val ← lift (strncpy_from (q_bytes q) (5 + namelen) vallen);
            okay_unless ((if mode =? ROAR_META_MODE_SET then stream_meta_set else stream_meta_add)
                           (q_stream q) type (Some (c_string name)) (c_string val)) q
      else fail q.

Definition req_on_get_meta (client : Z) (q : request) : M (Z * request) :=
  if negb (q_datalen q =? 2) then fail q
  else
    b0 ← lift (aget (q_bytes q) 0);
    if negb (b0 =? 0) then fail q
    else
      type ← lift (b ← aget (q_bytes q) 1; Done (s8 b));
      '(r, v) ← stream_meta_get (q_stream q) type None (Z.of_nat LIBROAR_BUFFER_MSGDATA - 2);
      match v with
      | Some val =>
          if r =? -1 then fail q
          else
            let vallen := Z.of_nat (length val) in
            d ← lift (or_ub (mwrite 0 ([0; u8 vallen] ++ val ++ [0]) (q_bytes q)));
            okay (2 + vallen) (set_bytes d q)
      | None => fail q
      end.

Definition req_on_list_meta (client : Z) (q : request) : M (Z * request) :=
  if negb (q_datalen q =? 1) then fail q
  else
    b0 ← lift (aget (q_bytes q) 0);
    if negb (b0 =? 0) then fail q
    else
      o ← stream_meta_list (q_stream q) (Z.of_nat ROAR_META_MAX_PER_STREAM);
      match o with
      | None => fail q
      | Some types =>
          d ← lift (or_ub (mwrite 0 (0 :: (u8 <$> types)) (q_bytes q)));
          okay (1 + Z.of_nat (length types)) (set_bytes d q)
      end.

(** ** Server *)

Definition req_on_server_oinfo (client : Z) (q : request) : M (Z * request) :=
  pos ← gets g_pos;
  '(r, m) ← lift (roar_stream_s2m (BaseStream 0 ROAR_DIR_MIXING pos no_rel g_sa) (q_mes q));
  if r =? -1 then fail q else mret (0, set_cmd ROAR_CMD_OK (set_mes (λ _, m) q)).

Definition req_on_get_standby (client : Z) (q : request) : M (Z * request) :=
  v ← gets g_standby;
  d ← lift (wstore 2 0 (bswap 2 v) (q_bytes q));
  okay_pos 2 (set_bytes d q).

Definition req_on_set_standby (client : Z) (q : request) : M (Z * request) :=
  if negb (q_datalen q =? 2) then fail q
  else
    v ← lift (net16 0 (q_bytes q));
    modify (λ s, s<|g_standby := v|>) ;;
    okay_pos 0 q.

(** [cleanup_listen_socket]; the listening sockets are not in the model. *)
Definition cleanup_listen_socket (terminate : bool) : M () :=
  if terminate then modify (λ s, s<|g_terminate := 1|>) else mret ().

Definition req_on_exit (client : Z) (q : request) : M (Z * request) :=
  term ← (if q_datalen q =? 1 then lift (b ← aget (q_bytes q) 0; Done (s8 b)) else mret 0);
  (if negb (term =? 0) then cleanup_listen_socket true else modify (λ s, s<|alive := 0|>)) ;;
  okay_pos 0 q.

(** ** Lists and descriptions *)

Definition used {A} (m : gmap Z A) (max : Z) : list Z :=
  filter (λ i, is_Some (m !! i)) (seqZ 0 max).

(** [roar_ctl_ia2m] does not fail here: the tables have 64 entries. *)
Definition send_ids (ids : list Z) (q : request) : M (Z * request) :=
  '(_, m) ← lift (roar_ctl_ia2m (q_mes q) ids);
  mret (0, set_cmd ROAR_CMD_OK (set_mes (λ _, m) q)).

Definition req_on_list_clients (client : Z) (q : request) : M (Z * request) :=
  '(r, f) ← lift (roar_ctl_m2f (q_mes q));
  match f with
  | Some (filter, cmp, id) =>
      if negb (filter =? ROAR_CTL_FILTER_ANY) then fail q
      else cs ← gets g_clients; send_ids (used cs ROAR_CLIENTS_MAX) q
  | None => fail q
  end.

Definition dir_matches (cmp id : Z) (o : option stream) : bool :=
  match o with
  | Some s => negb (roar_filter_match cmp id (u32 (s_dir s)) =? 0)
  | None => false
  end.

Definition req_on_list_streams (client : Z) (q : request) : M (Z * request) :=
  '(r, f) ← lift (roar_ctl_m2f (q_mes q));
  match f with
  | Some (filt, cmp, id) =>
      ss ← gets g_streams;
      let ids := used ss ROAR_STREAMS_MAX in
      if filt =? ROAR_CTL_FILTER_ANY then send_ids ids q
      else if filt =? ROAR_CTL_FILTER_DIR then
        send_ids (filter (λ i, dir_matches cmp id (ss !! i) = true) ids) q
      else if decide (ids = []) then send_ids [] q
      else fail q
  | None => fail q
  end.

Definition client_base (c : client) : base_client := {|
  bc_execed := c_execed c; bc_streams := c_streams c; bc_name := c_name c;
  bc_pid := c_pid c; bc_uid := c_uid c; bc_gid := c_gid c;
  bc_proto := c_proto c; bc_byteorder := c_byteorder c; bc_nnode := c_nnode c |}.

Definition req_on_get_client (client : Z) (q : request) : M (Z * request) :=
  if negb (q_datalen q =? 1) then fail q
  else
    id ← lift (b ← aget (q_bytes q) 0; Done (s8 b));
    o ← clients_get_server id;
    match o with
    | None => fail q
    | Some c =>
        '(r, m) ← lift (roar_ctl_c2m (q_mes (set_cmd ROAR_CMD_OK q)) (client_base c));
        mret (r, set_mes (λ _, m) q)
    end.

Definition req_on_get_stream (client : Z) (q : request) : M (Z * request) :=
  if negb (q_datalen q =? 1) then fail q
  else
    id ← lift (b ← aget (q_bytes q) 0; Done (s8 b));
    o ← streams_get id;
    match o with
    | None => fail q
    | Some s =>
        let q := set_mes (λ m, m<|m_cmd := ROAR_CMD_OK|><|m_stream := u32 id|>) q in
        '(r, m) ← lift (roar_stream_s2m (get_base s) (q_mes q));
        mret (r, set_mes (λ _, m) q)
    end.

(** ** Parameters of a stream *)

(** [d[i] = NET2HOST16(d[i])] for the words [from .. to - 1]. *)
Definition swap16 (from to : nat) (d : list Z) : outcome (list Z) := wswap 2 from (to - from) d.

Definition para_flags (s : stream) : Z :=
  Z.lor (Z.lor (Z.land (s_flags s) 0xFFFF) (if s_primary s =? 0 then 0 else ROAR_FLAG_PRIMARY))
        (if s_driver_id s =? -1 then 0 else ROAR_FLAG_OUTPUT).

Definition para_info (q : request) : M (Z * request) :=
  o ← streams_get (q_stream q);
  match o with
  | None => fail q
  | Some _ =>
      streams_calc_delay (q_stream q) ;;
      s ← stream_at (q_stream q);
      let info := [ROAR_OUTPUT_CALC_OUTBUFSIZE (s_info s); s_pre_underruns s; s_post_underruns s;
                   s_codec_orgi s; para_flags s; s_delay s / 1000; s_state s;
                   Z.shiftr (Z.land (s_flags s) 0xFFFF0000) 16; s_mixer_stream s; s_role s] in
      d ← lift (or_ub (mwrite 4 (words (le_bytes 2) info) (q_bytes q)));
      d ← lift (swap16 0 12 d);
      okay 24 (set_pos (s_pos s) (set_bytes d q))
  end.

(** The [strncpy] is told [datalen] octets of room, of which four are already
    used. *)
Definition para_name (q : request) : M (Z * request) :=
  o ← streams_get_name (q_stream q);
  match o with
  | None => fail q
  | Some str =>
      let q := set_datalen (4 + Z.of_nat (length str)) q in
      if Z.of_nat LIBROAR_BUFFER_MSGDATA <? q_datalen q then fail q
      else
        d ← lift (or_ub (mwrite 4 (strncpy_bytes str (Z.to_nat (q_datalen q))) (q_bytes q)));
        d ← lift (swap16 0 2 d);
        okay (q_datalen q) (set_bytes d q)
  end.

Definition para_chanmap (q : request) : M (Z * request) :=
  o ← streams_get (q_stream q);
  match o with
  | None => fail q
  | Some s =>
      let n := channels (s_info s) in
      l ← lift (or_ub (mread 0 (Z.to_nat n) (cm_in (s_chanmap s))));
      d ← lift (or_ub (mwrite 4 l (q_bytes q)));
      d ← lift (swap16 0 2 d);
      okay (4 + n) (set_bytes d q)
  end.

(** The number of bits set in the mask of meters. *)
Fixpoint popcount (fuel : nat) (test : Z) : Z :=
  match fuel with
  | O => 0
  | S fuel => if test =? 0 then 0 else Z.land test 1 + popcount fuel (Z.shiftr test 1)
  end.

(** A loop that appends words. *)
Fixpoint collect {A} (l : list A) (f : A → outcome (list Z)) : outcome (list Z) :=
  match l with
  | [] => Done []
  | x :: l => ws ← f x; r ← collect l f; Done ((ws : list Z) ++ r)
  end.

(** The words of one stream: the number of channels, and of each channel the
    meters of the mask.  A meter that is not implemented would be left as the
    buffer has it. *)
Definition ltm_words (mt : Z) (ltm : stream_ltm) : outcome (list Z) :=
  ws ← collect (seqZ 0 (lt_channels ltm)) (λ h,
         collect (seq 0 ROAR_LTM_MTBITS) (λ k,
           if Z.testbit mt (Z.of_nat k) then
             if 2 ^ Z.of_nat k =? ROAR_LTM_MT_RMS then v ← aget (lt_cur ltm) h; Done [v] else UB
           else Done []));
  Done (Z.land (lt_channels ltm) 0xFFFF :: ws).

(** The windows of all streams of the request, or [None] if one is missing;
    the code looks them up twice, for their size and for their values. *)
Fixpoint ltm_windows (ids : list Z) (mt window : Z) : M (option (list stream_ltm)) :=
  match ids with
  | [] => mret (Some [])
  | id :: ids =>
      o ← streams_ltm_get id mt window;
      match o with
      | None => mret None
      | Some l => r ← ltm_windows ids mt window; mret ((l ::.) <$> r)
      end
  end.

Definition para_ltm (q : request) : M (Z * request) :=
  if q_datalen q <? 12 then fail q
  else
    let n := Z.to_nat (q_datalen q / 2) in
    d ← lift (swap16 2 n (q_bytes q));
    let q := set_bytes d q in
    sst ← lift (wload 2 2 d);
    if negb (sst =? ROAR_LTM_SST_GET_RAW) then fail q
    else
      window ← lift (wload 2 3 d);
      mt ← lift (wload 2 5 d);
      ids ← (if q_nostream q
             then lift (collect (seq 6 (n - 6)) (λ i, v ← wload 2 i d; Done [v]))
             else mret [q_stream q]);
      o ← ltm_windows ids mt window;
      match o with
      | None => fail q
      | Some ltms =>
          let needed := foldr (λ l n, lt_channels l + n) 0 ltms * popcount 16 mt
                        + Z.of_nat (length ids) in
          ws ← lift (collect ltms (ltm_words mt));
          let bytes := words (be_bytes 8) ws in
          if needed * 8 <=? Z.of_nat LIBROAR_BUFFER_MSGDATA then
            d ← lift (or_ub (mwrite 0 bytes d));
            okay (needed * 8) (set_bytes d q)
          else okay (needed * 8) (add_flag COMMAND_FLAG_OUT_LONGDATA (q<|q_data := Some bytes|>))
      end.

Definition req_on_get_stream_para (client : Z) (q : request) : M (Z * request) :=
  if q_datalen q <? 4 then fail q
  else
    d ← lift (swap16 0 2 (q_bytes q));
    let q := set_bytes d q in
    version ← lift (wload 2 0 d);
    para ← lift (wload 2 1 d);
    if negb (version =? 0) then fail q
    else if para =? ROAR_STREAM_PARA_INFO then para_info q
    else if para =? ROAR_STREAM_PARA_NAME then para_name q
    else if para =? ROAR_STREAM_PARA_CHANMAP then para_chanmap q
    else if para =? ROAR_STREAM_PARA_LTM then para_ltm q
    else fail q.

(** The loop over the streams of the request stops at the first failure. *)
Fixpoint ltm_ctl_all (ids : list Z) (mt window cmd : Z) : M Z :=
  match ids with
  | [] => mret 0
  | id :: ids =>
      r ← streams_ltm_ctl id mt window cmd;
      if r =? -1 then mret (-1) else ltm_ctl_all ids mt window cmd
  end.

Definition set_para_ltm (q : request) : M (Z * request) :=
  if q_datalen q <? 12 then fail q
  else
    let n := Z.to_nat (q_datalen q / 2) in
    d ← lift (swap16 2 n (q_bytes q));
    let q := set_bytes d q in
    cmd ← lift (wload 2 2 d);
    window ← lift (wload 2 3 d);
    mt ← lift (wload 2 5 d);
    ids ← (if q_nostream q
           then lift (collect (seq 6 (n - 6)) (λ i, v ← wload 2 i d; Done [v]))
           else mret [q_stream q]);
    okay_unless (ltm_ctl_all ids mt window cmd) q.

Definition set_para_flags (q : request) : M (Z * request) :=
  if negb (q_datalen q =? 8) then fail q
  else
    mode ← lift (net16 2 (q_bytes q));
    flags ← lift (net16 3 (q_bytes q));
    d ← lift (swap16 2 4 (q_bytes q));
    okay_unless (if mode =? ROAR_RESET_FLAG then streams_reset_flag (q_stream q) flags
                 else streams_set_flag flag_fuel (q_stream q) flags) (set_bytes d q).

Definition req_on_set_stream_para (client : Z) (q : request) : M (Z * request) :=
  if q_datalen q <? 4 then fail q
  else
    d ← lift (swap16 0 2 (q_bytes q));
    let q := set_bytes d q in
    version ← lift (wload 2 0 d);
    para ← lift (wload 2 1 d);
    if negb (version =? 0) then fail q
    else if para =? ROAR_STREAM_PARA_FLAGS then set_para_flags q
    else if para =? ROAR_STREAM_PARA_CHANMAP then
      okay_unless (streams_set_map (q_stream q) (Some (drop 4 (q_bytes q))) (q_datalen q - 4)) q
    else if para =? ROAR_STREAM_PARA_ROLE then
      if negb (q_datalen q =? 6) then fail q
      else
        role ← lift (net16 2 (q_bytes q));
        d ← lift (swap16 2 3 (q_bytes q));
        okay_unless (streams_set_role (q_stream q) role) (set_bytes d q)
    else if para =? ROAR_STREAM_PARA_LTM then set_para_ltm q
    else fail q.

(** ** Kick and attach *)

(** What [req_on_kick] does with the object of the given type: [Some is_stream],
    or [None] where it fails. *)
Definition kick_target (type id : Z) : M (option bool) :=
  if type =? ROAR_OT_CLIENT then clients_delete fuel_enough id ;; mret (Some false)
  else if type =? ROAR_OT_STREAM then mret (Some true)
  else if type =? ROAR_OT_SOURCE then
    f ← streams_get_flag id ROAR_FLAG_SOURCE;
    mret (if f =? 1 then Some true else None)
  else if (type =? ROAR_OT_OUTPUT) || (type =? ROAR_OT_MIXER) || (type =? ROAR_OT_BRIDGE) then
    o ← streams_get id;
    match o with
    | None => mret None
    | Some ss =>
        let ok := if type =? ROAR_OT_OUTPUT then negb (s_driver_id ss =? -1)
                  else if type =? ROAR_OT_MIXER then s_dir ss =? ROAR_DIR_MIXING
                  else s_dir ss =? ROAR_DIR_BRIDGE in
        mret (if ok then Some true else None)
    end
  else mret None.

Definition req_on_kick (client : Z) (q : request) : M (Z * request) :=
  if negb (q_datalen q =? 4) then fail q
  else
    type ← lift (net16 0 (q_bytes q));
    id ← lift (net16 1 (q_bytes q));
    d ← lift (swap16 0 2 (q_bytes q));
    let q := set_bytes d q in
    o ← kick_target type id;
    match o with
    | None => fail q
    | Some false => okay 0 q
    | Some true =>
        f ← streams_get_flag id ROAR_FLAG_IMMUTABLE;
        if f =? 1 then fail q else streams_delete fuel_enough id ;; okay 0 q
    end.

Definition req_on_attach (client : Z) (q : request) : M (Z * request) :=
  if q_datalen q <? 6 then fail q
  else
    version ← lift (net16 0 (q_bytes q));
    mode ← lift (net16 1 (q_bytes q));
    target ← lift (net16 2 (q_bytes q));
    d ← lift (swap16 0 3 (q_bytes q));
    let q := set_bytes d q in
    if negb (version =? 0) then fail q
    else if mode =? ROAR_ATTACH_SIMPLE then okay_unless (client_stream_move target (q_stream q)) q
    else fail q.

(** ** Volumes *)

(** The words [info[from], info[from + 1], ...] in network order. *)
Definition net16s (from : nat) (count : Z) (d : list Z) : outcome (list Z) :=
  collect (seq from (Z.to_nat count)) (λ k, v ← net16 k d; Done [v]).

(** The new mixer of the stream, or [None] where the request is refused. *)
Definition set_vol_mixer (q : request) (scale : Z) (d : list Z) (x : mixer_settings)
  : outcome (option mixer_settings) :=
  mode ← net16 2 d;
  if mode =? ROAR_SET_VOL_ALL then
    let chans := q_datalen q / 2 - 3 in
    if Z.of_nat ROAR_MAX_CHANNELS <=? chans then Done None
    else
      vs ← net16s 3 chans d;
      l ← or_ub (mwrite 0 vs (mx_mixer x));
      Done (Some (MixerSettings scale (mx_rpg_mul x) (mx_rpg_div x) l))
  else if mode =? ROAR_SET_VOL_ONE then
    ch ← net16 3 d;
    if Z.of_nat ROAR_MAX_CHANNELS <=? ch then Done None
    else
      v ← net16 4 d;
      l ← aset ch v (mx_mixer x);
      Done (Some (MixerSettings scale (mx_rpg_mul x) (mx_rpg_div x) l))
  else Done None.

Definition req_on_set_vol (client : Z) (q : request) : M (Z * request) :=
  if q_datalen q <? 8 then fail q
  else
    version ← lift (net16 0 (q_bytes q));
    v1 ← lift (net16 1 (q_bytes q));
    if negb ((version =? 0) || (version =? 1)) then fail q
    else
      let stream := if version =? 0 then v1 else q_stream q in
      let scale := if version =? 0 then 65535 else v1 in
      if scale =? 0 then fail q
      else if (stream <? 0) || (ROAR_STREAMS_MAX <=? stream) then fail q
      else
        o ← g_stream stream;
        match o with
        | None => fail q
        | Some s =>
            d ← lift (swap16 2 3 (q_bytes q));
            m ← lift (set_vol_mixer q scale (q_bytes q) (s_mixer s));
            let q := set_bytes d q in
            match m with
            | None => fail q
            | Some x =>
                upd_stream stream (λ s, s<|s_mixer := x|>) ;;
                okay_unless (streams_set_mixer flag_fuel stream) q
            end
        end.

Definition req_on_get_vol (client : Z) (q : request) : M (Z * request) :=
  if q_datalen q <? 2 then fail q
  else
    version ← lift (net16 0 (q_bytes q));
    if negb ((version =? 0) || (version =? 1)) then fail q
    else if (version =? 0) && (q_datalen q <? 4) then fail q
    else
      v1 ← lift (net16 1 (q_bytes q));
      let stream := if version =? 0 then v1 else q_stream q in
      if (stream <? 0) || (ROAR_STREAMS_MAX <=? stream) then fail q
      else
        o ← g_stream stream;
        match o with
        | None => fail q
        | Some s =>
            let chans := s32 (channels (s_info s)) in
            let x := s_mixer s in
            vs ← lift (or_ub (mread 0 (Z.to_nat chans) (mx_mixer x)));
            let head := if version =? 0 then [version; chans]
                        else [version; chans; mx_scale x; mx_rpg_mul x; mx_rpg_div x] in
            d ← lift (or_ub (mwrite 0 (words (be_bytes 2) (head ++ vs)) (q_bytes q)));
            okay ((Z.of_nat (length head) + chans) * 2) (set_bytes d q)
        end.

(** ** Data and events *)

(** [data] is never [NULL], so the data of a short message are not used. *)
Definition req_on_add_data (client : Z) (q : request) : M (Z * request) :=
  buf ← lift (if q_datalen q <=? 0 then Done []
              else data ← or_ub (q_data q); or_ub (mread 0 (Z.to_nat (q_datalen q)) data));
  r ← stream_add_buffer (q_stream q) buf;
  if r =? -1 then fail q
  else mret (0, set_datalen 0 (set_cmd ROAR_CMD_OK_STOP q)).

(** The loop of [req_on_wait] from octet [vp] on, with [left] octets left and
    [evs] read so far into [struct roar_event events[4]]; a round takes at
    least 16 octets. *)
Fixpoint wait_events (fuel : nat) (vp left : Z) (evs : list event) (d : list Z)
  : outcome (option (list event)) :=
  match fuel with
  | O => Fuel
  | S fuel =>
      if left =? 0 then Done (Some evs)
      else
        '(r, ev, tmp) ← roar_event_from_blob (drop (Z.to_nat vp) d) left;
        if r =? -1 then Done None
        else
          match ev with
          | None => UB
          | Some ev =>
              if Nat.leb 4 (length evs) then UB
              else wait_events fuel (vp + tmp) (left - tmp) (evs ++ [ev]) d
          end
  end.

Definition wait_fuel : nat := 5.

Definition req_on_wait (client : Z) (q : request) : M (Z * request) :=
  if q_datalen q <? 4 then fail q
  else
    version ← lift (net16 0 (q_bytes q));
    flags ← lift (net16 1 (q_bytes q));
    d ← lift (swap16 0 2 (q_bytes q));
    let q := set_bytes d q in
    if negb (version =? 0) || negb (flags =? 0) then fail q
    else
      o ← lift (wait_events wait_fuel 4 (q_datalen q - 4) [] d);
      match o with
      | None => fail q
      | Some evs =>
          r ← clients_wait client evs;
          if r =? -1 then fail q else mret (0, add_flag COMMAND_FLAG_OUT_NOSEND q)
      end.
End requests.
