(* ===== verification/Commands.v ===== *)
(** * Commands ([roard/commands.c], [clients_check] of [roard/clients.c])

    The table of commands with the access level each needs, its dispatch, and
    the service of one message of a client. *)
From S2P Require Import Prelude Vio Proto Notify Chanmap Volume Nnode Auth ServerState Ctl.
From S2P Require Import StreamTab Meta Lifecycle Clients Streams Requests.

Definition ROAR_CMD_EOL : Z := -1.
Definition ROAR_CMD_NOOP : Z := 0.
Definition ROAR_CMD_IDENTIFY : Z := 1.
Definition ROAR_CMD_NEW_STREAM : Z := 3.
Definition ROAR_CMD_SET_META : Z := 4.
Definition ROAR_CMD_EXEC_STREAM : Z := 5.
Definition ROAR_CMD_QUIT : Z := 6.
Definition ROAR_CMD_GET_STANDBY : Z := 7.
Definition ROAR_CMD_SET_STANDBY : Z := 8.
Definition ROAR_CMD_SERVER_INFO : Z := 9.
Definition ROAR_CMD_SERVER_OINFO : Z := 11.
Definition ROAR_CMD_ADD_DATA : Z := 12.
Definition ROAR_CMD_EXIT : Z := 13.
Definition ROAR_CMD_LIST_STREAMS : Z := 14.
Definition ROAR_CMD_LIST_CLIENTS : Z := 15.
Definition ROAR_CMD_GET_CLIENT : Z := 16.
Definition ROAR_CMD_GET_STREAM : Z := 17.
Definition ROAR_CMD_KICK : Z := 18.
Definition ROAR_CMD_SET_VOL : Z := 19.
Definition ROAR_CMD_GET_VOL : Z := 20.
Definition ROAR_CMD_CON_STREAM : Z := 21.
Definition ROAR_CMD_GET_META : Z := 22.
Definition ROAR_CMD_LIST_META : Z := 23.
Definition ROAR_CMD_BEEP : Z := 24.
Definition ROAR_CMD_GET_STREAM_PARA : Z := 27.
Definition ROAR_CMD_SET_STREAM_PARA : Z := 28.
Definition ROAR_CMD_ATTACH : Z := 29.
Definition ROAR_CMD_PASSFH : Z := 30.
Definition ROAR_CMD_WHOAMI : Z := 32.
Definition ROAR_CMD_CAPS : Z := 34.
Definition ROAR_CMD_WAIT : Z := 35.

(** [struct roar_command] *)
Record command := Command {
  cmd_cmd : Z;
  cmd_name : string;
  cmd_handler : option (Z → request → M (Z * request));
  cmd_minacclev : Z
}.

(** [ROAR_NOTIFY_CMD2EVENT] *)
Definition ROAR_NOTIFY_CMD2EVENT (x : Z) : Z :=
  if x =? -1 then ROAR_NOTIFY_SPECIAL else Z.land x 0xff.

Section commands.
Context {env : Env}.

(** The handlers that are not modelled, by their command. *)
Variable other : Z → Z → request → M (Z * request).

(** The entry of QUIT is [clients_delete] itself. *)
Definition quit (client : Z) (q : request) : M (Z * request) :=
  r ← clients_delete fuel_enough client; mret (r, q).

Definition g_commands : list command := [
  Command ROAR_CMD_NOOP "NOOP" (Some req_on_noop) ACCLEV_NONE;
  Command ROAR_CMD_IDENTIFY "IDENTIFY" (Some req_on_identify) ACCLEV_NONE;
  Command ROAR_CMD_AUTH "AUTH" (Some req_on_auth) ACCLEV_IDENTED;
  Command ROAR_CMD_WHOAMI "WHOAMI" (Some req_on_whoami) ACCLEV_NONE;
  Command ROAR_CMD_NEW_STREAM "NEW_STREAM" (Some req_on_new_stream) ACCLEV_USER;
  Command ROAR_CMD_SET_META "SET_META" (Some req_on_set_meta) ACCLEV_PWRUSER;
  Command ROAR_CMD_GET_META "GET_META" (Some req_on_get_meta) ACCLEV_GUEST;
  Command ROAR_CMD_LIST_META "LIST_META" (Some req_on_list_meta) ACCLEV_GUEST;
  Command ROAR_CMD_EXEC_STREAM "EXEC_STREAM" (Some req_on_exec_stream) ACCLEV_PWRUSER;
  Command ROAR_CMD_QUIT "QUIT" (Some quit) ACCLEV_NONE;
  Command ROAR_CMD_CON_STREAM "CON_STREAM" (Some req_on_con_stream) ACCLEV_PWRUSER;
  Command ROAR_CMD_PASSFH "PASSFH" (Some (other ROAR_CMD_PASSFH)) ACCLEV_PWRUSER;
  Command ROAR_CMD_SERVER_INFO "SERVER_INFO" (Some (other ROAR_CMD_SERVER_INFO)) ACCLEV_IDENTED;
  Command ROAR_CMD_SERVER_OINFO "SERVER_OINFO" (Some req_on_server_oinfo) ACCLEV_IDENTED;
  Command ROAR_CMD_CAPS "CAPS" (Some (other ROAR_CMD_CAPS)) ACCLEV_IDENTED;
  Command ROAR_CMD_GET_STANDBY "GET_STANDBY" (Some req_on_get_standby) ACCLEV_GUEST;
  Command ROAR_CMD_SET_STANDBY "SET_STANDBY" (Some req_on_set_standby) ACCLEV_PWRUSER;
  Command ROAR_CMD_EXIT "EXIT" (Some req_on_exit) ACCLEV_ALL;
  Command ROAR_CMD_LIST_CLIENTS "LIST_CLIENTS" (Some req_on_list_clients) ACCLEV_GUEST;
  Command ROAR_CMD_LIST_STREAMS "LIST_STREAMS" (Some req_on_list_streams) ACCLEV_GUEST;
  Command ROAR_CMD_GET_CLIENT "GET_CLIENT" (Some req_on_get_client) ACCLEV_GUEST;
  Command ROAR_CMD_GET_STREAM "GET_STREAM" (Some req_on_get_stream) ACCLEV_GUEST;
  Command ROAR_CMD_KICK "KICK" (Some req_on_kick) ACCLEV_PWRUSER;
  Command ROAR_CMD_ATTACH "ATTACH" (Some req_on_attach) ACCLEV_PWRUSER;
  Command ROAR_CMD_SET_VOL "SET_VOL" (Some req_on_set_vol) ACCLEV_PWRUSER;
  Command ROAR_CMD_GET_VOL "GET_VOL" (Some req_on_get_vol) ACCLEV_GUEST;
  Command ROAR_CMD_GET_STREAM_PARA "GET_STREAM_PARA" (Some req_on_get_stream_para) ACCLEV_GUEST;
  Command ROAR_CMD_SET_STREAM_PARA "SET_STREAM_PARA" (Some req_on_set_stream_para) ACCLEV_PWRUSER;
  Command ROAR_CMD_ADD_DATA "ADD_DATA" (Some req_on_add_data) ACCLEV_PWRUSER;
  Command ROAR_CMD_BEEP "BEEP" (Some (other ROAR_CMD_BEEP)) ACCLEV_USER;
  Command ROAR_CMD_WAIT "WAIT" (Some req_on_wait) ACCLEV_USER;
  Command ROAR_CMD_EOL "END OF LIST" None ACCLEV_NONE
]%string.

(** The entry of a command; the search ends at [ROAR_CMD_EOL]. *)
Fixpoint find_command (command : Z) (l : list Commands.command) : option Commands.command :=
  match l with
  | [] => None
  | c :: l =>
      if cmd_cmd c =? ROAR_CMD_EOL then None
      else if cmd_cmd c =? command then Some c
      else find_command command l
  end.

Definition command_get_name (command : Z) : Z * option string :=
  match find_command command g_commands with
  | None => (-1, None)
  | Some c => (0, Some (cmd_name c))
  end.

Definition command_exec (client : Z) (q : request) : M (Z * request) :=
  match find_command (m_cmd (q_mes q)) g_commands with
  | None => mret (-1, q)
  | Some c =>
      cl ← client_at client;
      if c_acclev cl <? cmd_minacclev c then mret (-1, q)
      else match cmd_handler c with
           | None => mret (-1, q)
           | Some f => f client q
           end
  end.

(** ** One message of a client *)

(** What [clients_check] sends back: nothing, or the message and its data. *)
Definition reply_of (q : request) : message * option (list Z) :=
  (q_mes q, if has_flag (q_flags q) COMMAND_FLAG_OUT_LONGDATA then q_data q else None).

(** The reply's command, and the return value of [clients_check]. *)
Definition finish_reply (oldcmd r : Z) (q : request) : Z * request :=
  if r =? -1 then (0, set_datalen 0 (set_cmd ROAR_CMD_ERROR q))
  else if m_cmd (q_mes q) =? oldcmd then (0, set_datalen 0 (set_cmd ROAR_CMD_OK q))
  else if m_cmd (q_mes q) =? ROAR_CMD_OK_STOP then (1, set_cmd ROAR_CMD_OK q)
  else (0, q).

(** The branch of the own protocol, for a message received without error. *)
Definition serve (client : Z) (m : message) (data : option (list Z))
  : M (Z * option (message * option (list Z))) :=
  '(r, q) ← command_exec client (Request m data COMMAND_FLAG_NONE);
  let '(rv, q) := finish_reply (m_cmd m) r q in
  let event := ROAR_NOTIFY_CMD2EVENT (m_cmd m) in
  reply ← (if has_flag (q_flags q) COMMAND_FLAG_OUT_NOSEND then
             roar_notify_core_emit_simple event client (-1) (-1) (-1) (-1) ;; mret None
           else
             roar_notify_core_emit_simple event client (-1) (-1) (m_cmd (q_mes q)) (-1) ;;
             mret (Some (reply_of q)));
  (if has_flag (q_flags q) COMMAND_FLAG_OUT_CLOSECON
   then clients_close client true ;; mret () else mret ()) ;;
  mret (rv, reply).

(** [clients_check]; [received] is the result of [roar_recv_message], [emul]
    the service of the emulated protocols. *)
Definition clients_check (emul : Z → Z → M Z) (received : option (message * option (list Z)))
    (id : Z) : M (Z * option (message * option (list Z))) :=
  check_cid id (-1, None) (λ c,
    if c_fh c =? -1 then mret (-1, None)
    else if c_proto c =? ROAR_PROTO_ROARAUDIO then
      match received with
      | None => clients_delete fuel_enough id ;; mret (-1, None)
      | Some (m, data) => serve id m data
      end
    else r ← emul (c_proto c) id; mret (r, None)).
End commands.
