(* ===== verification/Service.v ===== *)
(** * The service of requests

    Theorems about the handlers of [Requests.v] and the dispatch of
    [Commands.v]: every request leaves the tables consistent, commands above
    the client's access level have no effect, and what the requests that
    create and delete streams do. *)
From S2P Require Import Prelude Vio Proto Notify Chanmap Volume Nnode Auth ServerState Ctl.
From S2P Require Import StreamTab Meta Lifecycle Clients Streams Invariant Requests Commands.

(** ** Requests keep the tables consistent *)

Section keeps_requests.
Context {env : Env}.
Hypothesis cfg_novirt : Forall (λ e : Z * (Z * Z * Z), novirt e.1) cfg_streams.

Lemma keeps_fail q s : consistent s → keeps (fail q) s.
Proof. by intros; apply keeps_ret. Qed.
Lemma keeps_okay n q s : consistent s → keeps (okay n q) s.
Proof. by intros; apply keeps_ret. Qed.
Lemma keeps_okay_pos n q s : consistent s → keeps (okay_pos n q) s.
Proof. intros. unfold okay_pos, okay. keeps_tac. Qed.
Lemma keeps_okay_unless m q s : keeps m s → consistent s → keeps (okay_unless m q) s.
Proof. intros. unfold okay_unless. keeps_step; [done|]. case_match; by apply keeps_ret. Qed.
Hint Resolve keeps_fail keeps_okay keeps_okay_pos keeps_okay_unless : keeps.

Ltac request_tac := repeat first
  [ lazymatch goal with |- keeps (okay_unless _ _) _ => apply keeps_okay_unless; [|assumption] end
  | keeps_step | solve [auto 3 with keeps nocore]
  | match goal with |- keeps ((if ?b then _ else _) _ _ _ _) _ => destruct b end ].

Lemma keeps_identify c q s : consistent s → keeps (req_on_identify c q) s.
Proof. intros. unfold req_on_identify. request_tac. Qed.
Lemma keeps_auth c q s : consistent s → keeps (req_on_auth c q) s.
Proof. intros. unfold req_on_auth. request_tac. Qed.
Lemma keeps_whoami c q s : consistent s → keeps (req_on_whoami c q) s.
Proof. intros. unfold req_on_whoami. request_tac. Qed.
Lemma keeps_exec_stream c q s : consistent s → keeps (req_on_exec_stream c q) s.
Proof. intros. unfold req_on_exec_stream. pose proof keeps_stream_exec. request_tac. Qed.
Lemma keeps_con_stream c q s : consistent s → keeps (req_on_con_stream c q) s.
Proof. intros. unfold req_on_con_stream. pose proof keeps_stream_set_fh. request_tac. Qed.
Lemma keeps_req_set_meta c q s : consistent s → keeps (req_on_set_meta c q) s.
Proof. intros. unfold req_on_set_meta. request_tac. Qed.
Lemma keeps_req_get_meta c q s : consistent s → keeps (req_on_get_meta c q) s.
Proof. intros. unfold req_on_get_meta. request_tac. Qed.
Lemma keeps_req_list_meta c q s : consistent s → keeps (req_on_list_meta c q) s.
Proof. intros. unfold req_on_list_meta. request_tac. Qed.
Lemma keeps_server_oinfo c q s : consistent s → keeps (req_on_server_oinfo c q) s.
Proof. intros. unfold req_on_server_oinfo. request_tac. Qed.
Lemma keeps_get_standby c q s : consistent s → keeps (req_on_get_standby c q) s.
Proof. intros. unfold req_on_get_standby. request_tac. Qed.
Lemma keeps_set_standby c q s : consistent s → keeps (req_on_set_standby c q) s.
Proof. intros. unfold req_on_set_standby. request_tac. Qed.
Lemma keeps_exit c q s : consistent s → keeps (req_on_exit c q) s.
Proof.
  intros. unfold req_on_exit, cleanup_listen_socket. request_tac.
  apply wlp_modify. destruct s' as []; by destruct H0 as [[] ?].
Qed.
Lemma keeps_send_ids ids q s : consistent s → keeps (send_ids ids q) s.
Proof. intros. unfold send_ids. request_tac. Qed.
Hint Resolve keeps_send_ids : keeps.
Lemma keeps_list_clients c q s : consistent s → keeps (req_on_list_clients c q) s.
Proof. intros. unfold req_on_list_clients. request_tac. Qed.
Lemma keeps_list_streams c q s : consistent s → keeps (req_on_list_streams c q) s.
Proof. intros. unfold req_on_list_streams. request_tac. Qed.
Lemma keeps_req_get_client c q s : consistent s → keeps (req_on_get_client c q) s.
Proof. intros. unfold req_on_get_client. request_tac. Qed.
Lemma keeps_get_stream c q s : consistent s → keeps (req_on_get_stream c q) s.
Proof. intros. unfold req_on_get_stream. request_tac. Qed.
Lemma keeps_kick c q s : consistent s → keeps (req_on_kick c q) s.
Proof. intros. unfold req_on_kick, kick_target. request_tac. Qed.
Lemma keeps_req_get_vol c q s : consistent s → keeps (req_on_get_vol c q) s.
Proof. intros. unfold req_on_get_vol. request_tac. Qed.
Lemma keeps_req_set_vol c q s : consistent s → keeps (req_on_set_vol c q) s.
Proof. intros. unfold req_on_set_vol. request_tac. Qed.
Lemma keeps_add_data c q s : consistent s → keeps (req_on_add_data c q) s.
Proof. intros. unfold req_on_add_data. request_tac. Qed.
Lemma keeps_wait c q s : consistent s → keeps (req_on_wait c q) s.
Proof. intros. unfold req_on_wait. request_tac. Qed.

Lemma keeps_ltm_windows ids mt w s : consistent s → keeps (ltm_windows ids mt w) s.
Proof. revert s. induction ids as [|id ids IH]; intros s C; cbn [ltm_windows]; request_tac. Qed.
Lemma keeps_ltm_ctl_all ids mt w cmd s : consistent s → keeps (ltm_ctl_all ids mt w cmd) s.
Proof. revert s. induction ids as [|id ids IH]; intros s C; cbn [ltm_ctl_all]; request_tac. Qed.
Hint Resolve keeps_ltm_windows keeps_ltm_ctl_all : keeps.

Lemma keeps_get_stream_para c q s : consistent s → keeps (req_on_get_stream_para c q) s.
Proof.
  intros. unfold req_on_get_stream_para, para_info, para_name, para_chanmap, para_ltm. request_tac.
Qed.
End keeps_requests.

(** Swapping words leaves the later ones alone. *)
Lemma mread_mwrite_after off bs m m' off' n :
  mwrite off bs m = Some m' → (off + length bs ≤ off')%nat → mread off' n m' = mread off' n m.
Proof.
  intros Hw Hoff. pose proof (length_mwrite _ _ _ _ Hw) as Hl. unfold mwrite in Hw.
  case_decide; [|done]. injection Hw as <-. unfold mread. rewrite Hl.
  case_decide; [|done]. f_equal. rewrite app_assoc, drop_app_ge.
  - rewrite drop_drop. f_equal. f_equal. rewrite length_app, length_take. lia.
  - rewrite length_app, length_take. lia.
Qed.

Lemma wswap_load_after k count d d' j :
  wswap 2 k count d = Done d' → (k + count ≤ j)%nat → wload 2 j d' = wload 2 j d.
Proof.
  revert k d. induction count as [|count IH]; intros k d; cbn [wswap]; [by intros [= ->]|].
  intros (v & Hv & H)%bind_Done_inv Hj. apply bind_Done_inv in H as (d1 & Hd1 & H).
  rewrite (IH _ _ H) by lia. unfold wload. apply or_ub_Done in Hd1.
  rewrite (mread_mwrite_after _ _ _ _ _ _ Hd1); [done|]. rewrite length_le_bytes. lia.
Qed.

Lemma swap16_net16 from to d d' j :
  swap16 from to d = Done d' → (from ≤ to ≤ j)%nat → net16 j d' = net16 j d.
Proof. intros H Hj. unfold net16. by rewrite (wswap_load_after _ _ _ _ _ H) by lia. Qed.

Section keeps_changes.
Context {env : Env}.
Hypothesis cfg_novirt : Forall (λ e : Z * (Z * Z * Z), novirt e.1) cfg_streams.

(** The flags in a request of type SET_STREAM_PARA. *)
Definition flags_novirt (m : message) : Prop := ∀ v, net16 3 (m_data m) = Done v → novirt v.

Lemma keeps_set_stream_para c q s :
  flags_novirt (q_mes q) → consistent s → keeps (req_on_set_stream_para c q) s.
Proof.
  intros Hv C. unfold req_on_set_stream_para. case_match; [by apply keeps_fail|].
  apply (keeps_bind_val (λ d, ∀ v, net16 3 d = Done v → novirt v)).
  { unfold q_bytes. destruct (swap16 0 2 (m_data (q_mes q))) as [d| |] eqn:Hd; [|done..]. apply wlp_ret.
    split; [done|]. intros v Hn. apply Hv. by rewrite <- (swap16_net16 _ _ _ _ 3 Hd) by lia. }
  intros d s1 C1 Hd. keeps_step; [by apply keeps_lift|]. keeps_step; [by apply keeps_lift|].
  case_match; [by apply keeps_fail|]. case_match.
  - unfold set_para_flags. case_match; [by apply keeps_fail|].
    keeps_step; [by apply keeps_lift|].
    apply (keeps_bind_val novirt).
    { change (q_bytes (set_bytes d q)) with d. destruct (net16 3 d) as [v| |] eqn:E; [|done..].
      apply wlp_ret. split; [done|by apply Hd]. }
    intros flags s2 C2 Hf. keeps_step; [by apply keeps_lift|].
    apply keeps_okay_unless; [|done]. case_match; auto with keeps.
  - pose proof keeps_fail. pose proof keeps_ltm_ctl_all. unfold set_para_ltm.
    repeat first [lazymatch goal with |- keeps (okay_unless _ _) _ => apply keeps_okay_unless; [|assumption] end
      | keeps_step | solve [auto 3 with keeps nocore]].
Qed.

(** ** Creation of a stream *)

(** A stream that is not VIRTUAL may get any group. *)
Lemma set_base_harmless b id st :
  has_flag (s_flags st) ROAR_FLAG_VIRTUAL = false →
  harmless st ((set_base b st)<|s_id := id|><|s_codec_orgi := s32 (codec (bs_info b))|>).
Proof.
  intros Hv. destruct st; cbn in Hv. split; cbn; [done|done|].
  intros [? ? ?]; split; cbn in *; [done|done|congruence].
Qed.

Lemma keeps_new_stream_dir i s : consistent s → keeps (new_stream_dir i) s.
Proof.
  intros. unfold new_stream_dir. keeps_tac.
  all: intros st'; apply (harmless_pos st' no_rel); vm_compute; discriminate.
Qed.

Lemma keeps_new_stream c q s : consistent s → keeps (req_on_new_stream c q) s.
Proof.
  intros C. unfold req_on_new_stream. apply wlp_bind.
  eapply wlp_mono; [by apply wlp_streams_new|]. intros i s1 [C1 Hi]. cbv beta.
  case_match eqn:Hi0; [by apply keeps_ret|]. destruct Hi as [->|(Hr & Hn & U & Es)]; [done|].
  apply keeps_bind.
  - unfold new_stream_setup. apply wlp_bind, wlp_check_sid_eq; [|intros _; by repeat apply wlp_ret].
    intros st _ Hst. apply wlp_ret. rewrite Es, lookup_insert_eq in Hst. injection Hst as <-.
    apply wlp_bind. eapply wlp_mono; [apply (wlp_client_stream_add c i (fresh_stream i)); [done| |done]|].
    { by rewrite Es, lookup_insert_eq. }
    intros r s2 [C2 [d Es2]]. case_match; [by apply keeps_ret|].
    destruct (roar_stream_m2s _ _) as [[[r' b] m]| |]; [|done..]. apply wlp_bind, wlp_ret. cbv zeta.
    case_match; [by apply keeps_ret|]. apply wlp_bind, wlp_upd_stream. intros st _ Hst.
    rewrite Es2, lookup_insert_eq in Hst. injection Hst as <-.
    assert (C3 := consistent_upd_stream s2 i ((fresh_stream i)<|s_client := d|>) (λ s, (set_base b s)
      <|s_id := i|><|s_codec_orgi := s32 (codec (bs_info b))|>) C2).
    rewrite Es2, lookup_insert_eq in C3. specialize (C3 eq_refl (set_base_harmless b i ((fresh_stream i)<|s_client := d|>) eq_refl)).
    rewrite <- Es2 in C3. apply keeps_bind; [by apply keeps_set_dir|]. intros r3 s4 C4.
    case_match; [by apply keeps_ret|]. pose proof keeps_new_stream_dir. keeps_tac.
  - intros [ok q'] s2 C2. keeps_tac; by apply keeps_ret.
Qed.
End keeps_changes.

(** ** Dispatch *)

Lemma find_command_In cmd l c :
  find_command cmd l = Some c → c ∈ l ∧ cmd_cmd c = cmd.
Proof.
  induction l as [|x l IH]; cbn [find_command]; [done|]. case_match; [done|].
  destruct (Z.eqb_spec (cmd_cmd x) cmd).
  - intros [= <-]. split; [by left|done].
  - intros [? ?]%IH. split; [by right|done].
Qed.

(** The commands whose handlers are modelled. *)
Definition modelled_cmd (cmd : Z) : Prop :=
  cmd ∉ [ROAR_CMD_PASSFH; ROAR_CMD_SERVER_INFO; ROAR_CMD_CAPS; ROAR_CMD_BEEP].

Section dispatch.
Context {env : Env}.
Variable other : Z → Z → request → M (Z * request).

(** The dispatch, for a client that exists. *)
Lemma command_exec_eq client cl q s :
  g_clients s !! client = Some cl → 0 ≤ client < ROAR_CLIENTS_MAX →
  command_exec other client q s =
  match find_command (m_cmd (q_mes q)) (g_commands other) with
  | None => Ret (-1, q) s
  | Some c =>
      if c_acclev cl <? cmd_minacclev c then Ret (-1, q) s
      else match cmd_handler c with None => Ret (-1, q) s | Some f => f client q s end
  end.
Proof.
  intros Hcl Hc. unfold command_exec. destruct (find_command _ _) as [c|]; [|done].
  unfold client_at, mbind, M_bind, g_client. rewrite decide_True by done. rewrite Hcl. cbn.
  case_match; [done|]. by case_match.
Qed.

Hypothesis cfg_novirt : Forall (λ e : Z * (Z * Z * Z), novirt e.1) cfg_streams.

Lemma keeps_handlers client q s c f :
  consistent s → c ∈ g_commands other → cmd_handler c = Some f →
  modelled_cmd (cmd_cmd c) → cmd_cmd c ≠ ROAR_CMD_ATTACH →
  (cmd_cmd c = ROAR_CMD_SET_STREAM_PARA → flags_novirt (q_mes q)) →
  keeps (f client q) s.
Proof.
  intros C Hc. revert f. pattern c. revert c Hc. rewrite <- Forall_forall. unfold g_commands.
  repeat apply Forall_cons_2; [..|apply Forall_nil_2]; cbn [cmd_handler cmd_cmd];
    intros f [= <-] Hm Ha Hv.
  all: try (exfalso; apply Hm; by repeat constructor).
  all: try done.
  all: first [ by apply keeps_okay_pos | by apply keeps_identify | by apply keeps_auth
    | by apply keeps_whoami | by apply keeps_new_stream | by apply keeps_req_set_meta
    | by apply keeps_req_get_meta | by apply keeps_req_list_meta | by apply keeps_exec_stream
    | by apply keeps_con_stream | by apply keeps_server_oinfo | by apply keeps_get_standby
    | by apply keeps_set_standby | by apply keeps_exit | by apply keeps_list_clients
    | by apply keeps_list_streams | by apply keeps_req_get_client | by apply keeps_get_stream
    | by apply keeps_kick | by apply keeps_req_set_vol | by apply keeps_req_get_vol
    | by apply keeps_get_stream_para | by (apply keeps_set_stream_para; auto)
    | by apply keeps_add_data | by apply keeps_wait | unfold quit; by keeps_tac ].
Qed.


Definition permitted (level cmd : Z) : bool :=
  match find_command cmd (g_commands other) with
  | Some c => cmd_minacclev c <=? level
  | None => false
  end.

(** C5: a command that does not exist or is above the client's access level
    changes nothing: the client gets an ERROR without data, and the only other
    effect is the notification that every message causes.  A client that has
    not identified itself can use NOOP, IDENTIFY, WHOAMI and QUIT only, and
    one that has not been authenticated the three descriptions of the server
    and AUTH in addition. *)
Theorem command_gating (client : Z) (cl : ServerState.client) (m : message) (data : option (list Z))
    (s : server) (Hcl : g_clients s !! client = Some cl) (Hc : 0 ≤ client < ROAR_CLIENTS_MAX)
    (Hp : permitted (c_acclev cl) (m_cmd m) = false) :
  serve other client m data s =
    (roar_notify_core_emit_simple (ROAR_NOTIFY_CMD2EVENT (m_cmd m)) client (-1) (-1) ROAR_CMD_ERROR (-1) ;;
     mret (0, Some (m<|m_cmd := ROAR_CMD_ERROR|><|m_datalen := 0|>, None))) s ∧
  (∀ cmd, permitted ACCLEV_NONE cmd = true →
     cmd ∈ [ROAR_CMD_NOOP; ROAR_CMD_IDENTIFY; ROAR_CMD_WHOAMI; ROAR_CMD_QUIT]) ∧
  (∀ cmd, permitted ACCLEV_IDENTED cmd = true →
     cmd ∈ [ROAR_CMD_NOOP; ROAR_CMD_IDENTIFY; ROAR_CMD_WHOAMI; ROAR_CMD_QUIT; ROAR_CMD_AUTH;
            ROAR_CMD_SERVER_INFO; ROAR_CMD_SERVER_OINFO; ROAR_CMD_CAPS]).
Proof.
  assert (Hall : ∀ level (l : list Z), Forall (λ c, cmd_minacclev c ≤ level → cmd_cmd c = ROAR_CMD_EOL ∨ cmd_cmd c ∈ l) (g_commands other) →
    ∀ cmd, cmd ≠ ROAR_CMD_EOL → permitted level cmd = true → cmd ∈ l).
  { intros level l Hl cmd Hne. unfold permitted. destruct (find_command _ _) as [c|] eqn:Ec; [|done].
    apply find_command_In in Ec as [Hin <-]. intros Hle%Z.leb_le. rewrite Forall_forall in Hl.
    by destruct (Hl _ Hin Hle). }
  assert (Heol : ∀ level, permitted level ROAR_CMD_EOL = false) by done.
  split_and!.
  - unfold serve, mbind at 1, M_bind at 1. rewrite (command_exec_eq client cl) by done.
    unfold permitted in Hp. cbn [q_mes]. destruct (find_command _ _) as [c|]; [|done].
    by rewrite (proj2 (Z.ltb_lt _ _)) by (apply Z.leb_gt in Hp; lia).
  - intros cmd Hcmd. assert (cmd ≠ ROAR_CMD_EOL) by (intros ->; by rewrite Heol in Hcmd).
    revert Hcmd. apply Hall; [|done]. unfold g_commands.
    repeat apply Forall_cons_2; [..|apply Forall_nil_2]; cbn [cmd_minacclev cmd_cmd]; intros Hle;
      first [by (right; repeat constructor)|by left|by exfalso; vm_compute in Hle; apply Hle].
  - intros cmd Hcmd. assert (cmd ≠ ROAR_CMD_EOL) by (intros ->; by rewrite Heol in Hcmd).
    revert Hcmd. apply Hall; [|done]. unfold g_commands.
    repeat apply Forall_cons_2; [..|apply Forall_nil_2]; cbn [cmd_minacclev cmd_cmd]; intros Hle;
      first [by (right; repeat constructor)|by left|by exfalso; vm_compute in Hle; apply Hle].
Qed.
End dispatch.

(** ** Examples *)

(** No handler of its own. *)
Definition no_other (cmd client : Z) (q : request) : M (Z * request) := mret (-1, q).

Lemma null_env_novirt : Forall (λ e : Z * (Z * Z * Z), novirt e.1) (@cfg_streams null_env).
Proof. by repeat constructor. Qed.

(** NEW_STREAM of a playback stream with two channels. *)
Definition example_new_stream : message :=
  zero_message<|m_cmd := ROAR_CMD_NEW_STREAM|><|m_stream := u32 (-1)|><|m_datalen := 24|>
    <|m_data := words (be_bytes 4) [ROAR_DIR_PLAY; -1; 44100; 16; 2; 1] ++ replicate 56 0|>.


(** A server with a client that has only identified itself, and a key for
    everybody. *)
Definition example_guest_server : server :=
  example_server
    <|g_clients := <[1 := (example_client (-1) [2; 3])<|c_acclev := ACCLEV_IDENTED|>]> (g_clients example_server)|>
    <|g_auth_keyring := (auth_addkey_anonymous ACCLEV_USER auth_init).2|>.

Lemma command_gating_witness :
  @serve null_env no_other 1 example_new_stream None example_guest_server =
    (roar_notify_core_emit_simple 3 1 (-1) (-1) ROAR_CMD_ERROR (-1) ;;
     mret (0, Some (example_new_stream<|m_cmd := ROAR_CMD_ERROR|><|m_datalen := 0|>, None))) example_guest_server.
Proof.
  apply (@command_gating null_env no_other 1
    ((example_client (-1) [2; 3])<|c_acclev := ACCLEV_IDENTED|>) example_new_stream None example_guest_server).
  - reflexivity.
  - vm_compute. split; [discriminate|reflexivity].
  - reflexivity.
Defined.
