(* ===== verification/Access.v ===== *)
(** * Access levels

    Which functions of the server can change the access level of a client:
    none but the handlers of IDENTIFY and AUTH. *)
From S2P Require Import Prelude Vio Proto Notify Chanmap Volume Nnode Auth ServerState Ctl.
From S2P Require Import StreamTab Meta Lifecycle Clients Streams Requests Commands Invariant Service.

(** The level of every client. *)
Definition levels (s : server) : gmap Z Z := c_acclev <$> g_clients s.

(** A computation that adds no client and changes no level. *)
Definition tame {A} (m : M A) : Prop :=
  ∀ s, match m s with Ret _ s' => levels s' ⊆ levels s | _ => True end.

Section tame.
Context {A B : Type}.

Lemma tame_bind (m : M A) (f : A → M B) : tame m → (∀ a, tame (f a)) → tame (m ≫= f).
Proof.
  intros Hm Hf s. specialize (Hm s). unfold mbind, M_bind. destruct (m s) as [a s1| | |]; [|done..].
  specialize (Hf a s1). destruct (f a s1); [|done..]. by etransitivity.
Qed.

Lemma tame_reader (f : server → result A) :
  (∀ s, match f s with Ret _ s' => s' = s | _ => True end) → tame (f : M A).
Proof. intros Hf s. specialize (Hf s). by destruct (f s) as [a s1| | |]; subst. Qed.

Lemma tame_ret (a : A) : tame (mret a : M A).
Proof. by apply tame_reader. Qed.
Lemma tame_gets (f : server → A) : tame (gets f).
Proof. by apply tame_reader. Qed.
Lemma tame_lift (o : outcome A) : tame (lift o).
Proof. apply tame_reader. by destruct o. Qed.
End tame.

Lemma tame_g_stream id : tame (g_stream id).
Proof. apply tame_reader. intros s. unfold g_stream. by case_decide. Qed.
Lemma tame_g_client id : tame (g_client id).
Proof. apply tame_reader. intros s. unfold g_client. by case_decide. Qed.

Lemma tame_stream_at id : tame (stream_at id).
Proof. apply tame_bind; [apply tame_g_stream|]. intros []; [apply tame_ret|done]. Qed.
Lemma tame_client_at id : tame (client_at id).
Proof. apply tame_bind; [apply tame_g_client|]. intros []; [apply tame_ret|done]. Qed.

Section tame_more.
Context {A : Type}.
Lemma tame_check_sid id (r : A) k : (∀ st, tame (k st)) → tame (check_sid id r k).
Proof.
  intros Hk. unfold check_sid. case_match; [apply tame_ret|].
  apply tame_bind; [apply tame_g_stream|]. by intros [|]; [|apply tame_ret].
Qed.
Lemma tame_check_cid id (r : A) k : (∀ c, tame (k c)) → tame (check_cid id r k).
Proof.
  intros Hk. unfold check_cid. case_match; [apply tame_ret|].
  apply tame_bind; [apply tame_g_client|]. by intros [|]; [|apply tame_ret].
Qed.
Lemma tame_for_each (l : list A) f : (∀ x, tame (f x)) → tame (for_each l f).
Proof. intros Hf. induction l; cbn [for_each]; [apply tame_ret|]. by apply tame_bind. Qed.
End tame_more.

Lemma tame_require m k : tame m → tame k → tame (require m k).
Proof. intros. apply tame_bind; [done|]. intros []; [done|apply tame_ret]. Qed.

Lemma levels_fmap cs (f : client → client) :
  (∀ c, c_acclev (f c) = c_acclev c) → c_acclev <$> (f <$> cs) = c_acclev <$> (cs : gmap Z client).
Proof.
  intros Hf. apply map_eq. intros i. rewrite !lookup_fmap.
  destruct (cs !! i); cbn; [by rewrite Hf|done].
Qed.

Lemma tame_modify f : (∀ s, g_clients (f s) = g_clients s) → tame (modify f).
Proof. intros Hf s. change (levels (f s) ⊆ levels s). unfold levels. by rewrite Hf. Qed.

Lemma tame_emit ev : tame (emit_event ev).
Proof.
  intros s. change (levels (s<|events := events s ++ [ev]|>
    <|outbox := outbox s ++ ncb_replies (notify_events ev) (g_clients s)|>
    <|g_clients := ncb_wait ev <$> g_clients s|>) ⊆ levels s).
  unfold levels. destruct s; cbn. rewrite levels_fmap; [reflexivity|].
  apply ncb_wait_keeps. by intros [].
Qed.

Lemma tame_upd_stream id f : tame (upd_stream id f).
Proof. apply tame_bind; [apply tame_stream_at|]. intros st. apply tame_modify. by intros []. Qed.

Lemma tame_upd_client id f : (∀ c, c_acclev (f c) = c_acclev c) → tame (upd_client id f).
Proof.
  intros Hf s. unfold upd_client, client_at, mbind, M_bind, g_client. case_decide; [|done].
  destruct (g_clients s !! id) as [c|] eqn:Hc; [|done]. cbn. unfold levels. destruct s; cbn in *.
  rewrite fmap_insert, Hf. rewrite insert_id; [reflexivity|]. by rewrite lookup_fmap, Hc.
Qed.

Create HintDb tame.
#[export] Hint Resolve tame_ret tame_gets tame_lift tame_g_stream tame_g_client tame_stream_at
  tame_client_at tame_emit tame_upd_stream : tame.

Ltac tame_step :=
  lazymatch goal with
  | |- tame (_ ≫= _) => apply tame_bind; [|intros ?]
  | |- tame (check_sid _ _ _) => apply tame_check_sid; intros ?
  | |- tame (check_cid _ _ _) => apply tame_check_cid; intros ?
  | |- tame (for_each _ _) => apply tame_for_each; intros ?
  | |- tame (require _ _) => apply tame_require
  | |- tame (modify _) => apply tame_modify; let s := fresh in intros s; by destruct s
  | |- tame (upd_client _ _) => apply tame_upd_client; let c := fresh in intros c; by destruct c
  | |- tame undefined => done
  | |- tame no_fuel => done
  | |- tame exit_process => done
  | |- tame (let _ := _ in _) => cbv zeta
  | |- tame (match ?b with _ => _ end) => destruct b
  end.
Ltac tame_tac := repeat first [tame_step | solve [auto 2 with tame nocore]].

(** ** The functions of the server *)

Section functions.
Context {env : Env}.

Lemma tame_emit_simple ev a b c d e : tame (roar_notify_core_emit_simple ev a b c d e).
Proof. apply tame_emit. Qed.
Lemma tame_emit_snoargs ev a b c : tame (roar_notify_core_emit_snoargs ev a b c).
Proof. apply tame_emit. Qed.
Lemma tame_close_fh fh : tame (close_fh fh).
Proof. unfold close_fh. tame_tac. Qed.
Lemma tame_inc_streams i : tame (counters_inc_streams i).
Proof. unfold counters_inc_streams. tame_tac. Qed.
Lemma tame_inc_clients i : tame (counters_inc_clients i).
Proof. unfold counters_inc_clients. tame_tac. Qed.
Hint Resolve tame_emit_simple tame_emit_snoargs tame_close_fh tame_inc_streams tame_inc_clients : tame.

Lemma tame_change_state id n : tame (streams_change_state id n).
Proof. unfold streams_change_state. tame_tac. Qed.
Lemma tame_streams_new : tame streams_new.
Proof. unfold streams_new. tame_tac. Qed.
Lemma tame_streams_get id : tame (streams_get id).
Proof. unfold streams_get. tame_tac. Qed.
Lemma tame_set_client id c : tame (streams_set_client id c).
Proof. unfold streams_set_client. tame_tac. Qed.
Lemma tame_get_client id : tame (streams_get_client id).
Proof. unfold streams_get_client. tame_tac. Qed.
Lemma tame_get_dir id : tame (streams_get_dir id).
Proof. unfold streams_get_dir. tame_tac. Qed.
Lemma tame_set_mixer_stream id m : tame (streams_set_mixer_stream id m).
Proof. unfold streams_set_mixer_stream. tame_tac. Qed.
Lemma tame_set_role id r : tame (streams_set_role id r).
Proof. unfold streams_set_role. tame_tac. Qed.
Lemma tame_get_fh id : tame (streams_get_fh id).
Proof. unfold streams_get_fh. tame_tac. Qed.
Lemma tame_set_socktype id t : tame (streams_set_socktype id t).
Proof. unfold streams_set_socktype. tame_tac. Qed.
Lemma tame_is_ready id : tame (streams_is_ready id).
Proof. unfold streams_is_ready. tame_tac. Qed.
Lemma tame_set_primary id p : tame (streams_set_primary id p).
Proof. unfold streams_set_primary. tame_tac. Qed.
Lemma tame_get_name id : tame (streams_get_name id).
Proof. unfold streams_get_name. tame_tac. Qed.
Lemma tame_get_flag id f : tame (streams_get_flag id f).
Proof. unfold streams_get_flag. tame_tac. Qed.
Hint Resolve tame_change_state tame_streams_new tame_streams_get tame_set_client tame_get_client
  tame_get_dir tame_set_mixer_stream tame_set_role tame_get_fh tame_set_socktype tame_is_ready
  tame_set_primary tame_get_name tame_get_flag : tame.

Lemma tame_set_sync id y : tame (streams_set_sync id y).
Proof. unfold streams_set_sync. tame_tac. Qed.
Lemma tame_set_mmap id r : tame (streams_set_mmap id r).
Proof. unfold streams_set_mmap. tame_tac. Qed.
Lemma tame_ctl id cmd : tame (streams_ctl id cmd).
Proof. unfold streams_ctl. tame_tac. Qed.
Lemma tame_calc_delay id : tame (streams_calc_delay id).
Proof. unfold streams_calc_delay. tame_tac. Qed.
Lemma tame_ltm_ctl id mt w cmd : tame (streams_ltm_ctl id mt w cmd).
Proof. unfold streams_ltm_ctl. tame_tac. Qed.
Lemma tame_ltm_get id mt w : tame (streams_ltm_get id mt w).
Proof. unfold streams_ltm_get. tame_tac. Qed.
Lemma tame_add_buffer id b : tame (stream_add_buffer id b).
Proof. unfold stream_add_buffer. tame_tac. Qed.
Hint Resolve tame_set_sync tame_set_mmap tame_ctl tame_calc_delay tame_ltm_ctl tame_ltm_get
  tame_add_buffer : tame.

Lemma tame_reset_flag id f : tame (streams_reset_flag id f).
Proof. unfold streams_reset_flag. tame_tac. Qed.
Lemma tame_get_subsys fuel id : tame (streams_get_subsys fuel id).
Proof. revert id. induction fuel; intros; cbn [streams_get_subsys]; tame_tac. Qed.
Lemma tame_get_ssdir fuel id : tame (streams_get_ssdir fuel id).
Proof. revert id. induction fuel; intros; cbn [streams_get_ssdir]; tame_tac. Qed.
Hint Resolve tame_reset_flag tame_get_subsys tame_get_ssdir : tame.

Lemma tame_meta_stream {A} id (r : A) k : (∀ st, tame (k st)) → tame (meta_stream id r k).
Proof. intros. unfold meta_stream. tame_tac. Qed.
Lemma tame_meta_add id t n v : tame (stream_meta_add id t n v).
Proof. unfold stream_meta_add. apply tame_meta_stream. intros. tame_tac. Qed.
Hint Resolve tame_meta_add : tame.
Lemma tame_meta_set id t n v : tame (stream_meta_set id t n v).
Proof. unfold stream_meta_set. apply tame_meta_stream. intros. tame_tac. Qed.
Lemma tame_meta_get id t n l : tame (stream_meta_get id t n l).
Proof. unfold stream_meta_get. apply tame_meta_stream. intros. tame_tac. Qed.
Lemma tame_meta_list id l : tame (stream_meta_list id l).
Proof. unfold stream_meta_list. apply tame_meta_stream. intros. tame_tac. Qed.
Lemma tame_meta_clear id : tame (stream_meta_clear id).
Proof. unfold stream_meta_clear. tame_tac. Qed.
Hint Resolve tame_meta_clear : tame.
Lemma tame_meta_finalize id : tame (stream_meta_finalize id).
Proof. unfold stream_meta_finalize, meta_finalize_out, meta_copy, meta_copy_slot. tame_tac. Qed.
Hint Resolve tame_meta_set tame_meta_get tame_meta_list tame_meta_finalize : tame.

Lemma tame_delete_client id : tame (modify (λ s, s<|g_clients := delete id (g_clients s)|>)).
Proof.
  intros s. change (levels (s<|g_clients := delete id (g_clients s)|>) ⊆ levels s).
  unfold levels. destruct s; cbn. rewrite fmap_delete. apply delete_subseteq.
Qed.
Hint Extern 1 (tame (modify (λ s, s<|g_clients := delete _ _|>))) => apply tame_delete_client : tame.

Section with_streams_delete.
Variable sd : Z → M Z.
Hypothesis tame_sd : ∀ id, tame (sd id).

Lemma tame_clients_delete_with id : tame (clients_delete_with sd id).
Proof.
  unfold clients_delete_with, clients_delete_prepare.
  repeat first [apply tame_delete_client | apply tame_sd | tame_step | solve [auto 2 with tame nocore]].
Qed.
Lemma tame_client_stream_delete_with c x : tame (client_stream_delete_with sd c x).
Proof. unfold client_stream_delete_with. pose proof tame_clients_delete_with. tame_tac. Qed.
Lemma tame_delete_attached id i : tame (delete_attached sd id i).
Proof. unfold delete_attached. tame_tac. Qed.
Lemma tame_delete_body id : tame (streams_delete_body sd id).
Proof.
  unfold streams_delete_body, streams_delete_mark, streams_delete_detach, notify_virtual_parent.
  pose proof tame_client_stream_delete_with. pose proof tame_delete_attached. tame_tac.
Qed.
End with_streams_delete.

Lemma tame_streams_delete fuel id : tame (streams_delete fuel id).
Proof.
  revert id. induction fuel as [|fuel IH]; intros id; cbn [streams_delete]; [done|].
  pose proof (tame_delete_body _ IH). tame_tac.
Qed.
Lemma tame_clients_delete fuel id : tame (clients_delete fuel id).
Proof. apply tame_clients_delete_with, tame_streams_delete. Qed.
Lemma tame_client_stream_delete fuel c x : tame (client_stream_delete fuel c x).
Proof. apply tame_client_stream_delete_with, tame_streams_delete. Qed.
Hint Resolve tame_streams_delete tame_clients_delete tame_client_stream_delete : tame.

Lemma tame_get_server id : tame (clients_get_server id).
Proof. unfold clients_get_server. tame_tac. Qed.
Lemma tame_close id n : tame (clients_close id n).
Proof. unfold clients_close. tame_tac. Qed.
Lemma tame_block id u : tame (clients_block id u).
Proof. unfold clients_block. tame_tac. Qed.
Lemma tame_client_stream_add c x : tame (client_stream_add c x).
Proof. unfold client_stream_add. tame_tac. Qed.
Hint Resolve tame_get_server tame_close tame_block tame_client_stream_add : tame.
Lemma tame_client_stream_move c x : tame (client_stream_move c x).
Proof. unfold client_stream_move. tame_tac. Qed.
Lemma tame_clients_wait c evs : tame (clients_wait c evs).
Proof. unfold clients_wait. tame_tac. Qed.
Hint Resolve tame_client_stream_move tame_clients_wait : tame.

Lemma tame_copy_volume id i : tame (copy_volume id i).
Proof. unfold copy_volume. tame_tac. Qed.
Hint Resolve tame_copy_volume : tame.
Lemma tame_flag_and_mixer fuel id :
  (∀ flag, tame (streams_set_flag fuel id flag)) ∧ tame (streams_set_mixer fuel id).
Proof.
  revert id. induction fuel as [|fuel IH]; intros id; [by split|].
  assert (IHf : ∀ id flag, tame (streams_set_flag fuel id flag)) by apply IH.
  assert (IHm : ∀ id, tame (streams_set_mixer fuel id)) by apply IH.
  split; [intros flag|]; cbn [streams_set_flag streams_set_mixer]; tame_tac.
Qed.
Lemma tame_set_flag fuel id flag : tame (streams_set_flag fuel id flag).
Proof. apply tame_flag_and_mixer. Qed.
Lemma tame_set_mixer fuel id : tame (streams_set_mixer fuel id).
Proof. apply tame_flag_and_mixer. Qed.
Hint Resolve tame_set_flag tame_set_mixer : tame.
Lemma tame_set_map id map len : tame (streams_set_map id map len).
Proof. unfold streams_set_map. tame_tac. Qed.
Hint Resolve tame_set_map : tame.
Lemma tame_set_dir id dir d : tame (streams_set_dir id dir d).
Proof. unfold streams_set_dir, init_chanmap_in. tame_tac. Qed.
Lemma tame_set_fh id fh : tame (streams_set_fh id fh).
Proof. unfold streams_set_fh, make_ready. tame_tac. Qed.
Hint Resolve tame_set_dir tame_set_fh : tame.
Lemma tame_stream_exec c x : tame (client_stream_exec c x).
Proof. unfold client_stream_exec. tame_tac. Qed.
Lemma tame_stream_set_fh c x fh : tame (client_stream_set_fh c x fh).
Proof. unfold client_stream_set_fh. tame_tac. Qed.
Hint Resolve tame_stream_exec tame_stream_set_fh : tame.

(** ** The requests *)

Lemma tame_okay_pos n q : tame (okay_pos n q).
Proof. unfold okay_pos, okay. tame_tac. Qed.
Lemma tame_okay n q : tame (okay n q).
Proof. unfold okay. tame_tac. Qed.
Lemma tame_fail q : tame (fail q).
Proof. unfold fail. tame_tac. Qed.
Hint Resolve tame_okay_pos tame_okay tame_fail : tame.
Lemma tame_okay_unless m q : tame m → tame (okay_unless m q).
Proof. intros. unfold okay_unless. tame_tac. Qed.

Ltac request_tame := repeat first
  [ lazymatch goal with |- tame (okay_unless _ _) => apply tame_okay_unless end
  | tame_step | solve [auto 2 with tame nocore]
  | match goal with |- tame ((if ?b then _ else _) _ _ _ _) => destruct b end ].

Lemma tame_ltm_windows ids mt w : tame (ltm_windows ids mt w).
Proof. induction ids; cbn [ltm_windows]; request_tame. Qed.
Lemma tame_ltm_ctl_all ids mt w cmd : tame (ltm_ctl_all ids mt w cmd).
Proof. induction ids; cbn [ltm_ctl_all]; request_tame. Qed.
Hint Resolve tame_ltm_windows tame_ltm_ctl_all : tame.

Variable other : Z → Z → request → M (Z * request).

(** Every modelled handler but two is tame. *)
Lemma tame_handlers client q c f :
  c ∈ g_commands other → cmd_handler c = Some f → modelled_cmd (cmd_cmd c) →
  cmd_cmd c ≠ ROAR_CMD_IDENTIFY → cmd_cmd c ≠ ROAR_CMD_AUTH → tame (f client q).
Proof.
  intros Hc. revert f. pattern c. revert c Hc. rewrite <- Forall_forall. unfold g_commands.
  repeat apply Forall_cons_2; [..|apply Forall_nil_2]; cbn [cmd_handler cmd_cmd];
    intros f [= <-] Hm Hi Ha; try done.
  all: try (exfalso; apply Hm; by repeat constructor).
  all: unfold req_on_noop, req_on_whoami, req_on_new_stream, new_stream_setup, new_stream_dir,
    req_on_set_meta, req_on_get_meta, req_on_list_meta, req_on_exec_stream, req_on_con_stream,
    req_on_server_oinfo, req_on_get_standby, req_on_set_standby, req_on_exit, cleanup_listen_socket,
    req_on_list_clients, req_on_list_streams, send_ids, req_on_get_client, req_on_get_stream,
    req_on_kick, kick_target, req_on_attach, req_on_set_vol, req_on_get_vol, req_on_get_stream_para,
    para_info, para_name, para_chanmap, para_ltm, req_on_set_stream_para, set_para_flags, set_para_ltm,
    req_on_add_data, req_on_wait, quit; request_tame.
Qed.
End functions.

(** ** The two exceptions *)

(** A computation that may also set the level of one client. *)
Definition tame_but {A} (client l : Z) (m : M A) : Prop :=
  ∀ s, match m s with
       | Ret _ s' => levels s' ⊆ levels s ∨ levels s' ⊆ <[client := l]> (levels s)
       | _ => True end.

Lemma tame_but_tame {A} client l (m : M A) : tame m → tame_but client l m.
Proof. intros H s. specialize (H s). destruct (m s); auto. Qed.

Lemma tame_but_l {A B} client l (m : M A) (f : A → M B) :
  tame m → (∀ a, tame_but client l (f a)) → tame_but client l (m ≫= f).
Proof.
  intros Hm Hf s. specialize (Hm s). unfold mbind, M_bind. destruct (m s) as [a s1| | |]; [|done..].
  specialize (Hf a s1). destruct (f a s1); [|done..]. destruct Hf as [Hf|Hf]; [left|right].
  - by etransitivity.
  - etransitivity; [exact Hf|]. by apply insert_mono.
Qed.

Lemma tame_but_r {A B} client l (m : M A) (f : A → M B) :
  tame_but client l m → (∀ a, tame (f a)) → tame_but client l (m ≫= f).
Proof.
  intros Hm Hf s. specialize (Hm s). unfold mbind, M_bind. destruct (m s) as [a s1| | |]; [|done..].
  specialize (Hf a s1). destruct (f a s1); [|done..]. destruct Hm; [left|right]; by etransitivity.
Qed.

Lemma levels_upd_client client f l s u s' :
  (∀ c, c_acclev (f c) = l) → upd_client client f s = Ret u s' →
  levels s' = <[client := l]> (levels s) ∧ is_Some (g_clients s !! client).
Proof.
  intros Hf. unfold upd_client, client_at, mbind, M_bind, g_client. case_decide; [|done].
  destruct (g_clients s !! client) as [c|] eqn:Hc; [|done]. cbn. intros [= _ <-].
  unfold levels. destruct s; cbn in *. rewrite fmap_insert, Hf. eauto.
Qed.

Lemma tame_but_upd client f l : (∀ c, c_acclev (f c) = l) → tame_but client l (upd_client client f).
Proof.
  intros Hf s. destruct (upd_client client f s) as [u s'| | |] eqn:E; [|done..]. right.
  by apply (levels_upd_client _ _ l) in E as [-> _].
Qed.

Lemma bind_at {A B} (m : M A) (f : A → M B) s a s' : m s = Ret a s' → (m ≫= f) s = f a s'.
Proof. unfold mbind, M_bind. by intros ->. Qed.

Section access.
Context {env : Env}.

(** What follows the command is tame. *)
Lemma serve_exec other client m data s r s' :
  serve other client m data s = Ret r s' →
  ∃ q s1, command_exec other client (Request m data COMMAND_FLAG_NONE) s = Ret q s1 ∧
    levels s' ⊆ levels s1.
Proof.
  unfold serve, mbind at 1, M_bind at 1. destruct (command_exec _ _ _ _) as [[r1 q] s1| | |]; [|done..].
  intros Hs. exists (r1, q), s1. split; [done|]. destruct (finish_reply _ _ _) as [rv q'].
  match type of Hs with ?m s1 = _ => assert (Ht : tame m) end.
  - pose proof tame_close. pose proof tame_emit_simple. tame_tac.
  - specialize (Ht s1). by rewrite Hs in Ht.
Qed.

Lemma identify_levels client q : tame_but client ACCLEV_IDENTED (req_on_identify client q).
Proof.
  pose proof tame_get_server. pose proof tame_fail. pose proof tame_okay_pos.
  unfold req_on_identify. case_match; [apply tame_but_tame; by apply tame_fail|].
  apply tame_but_l; [auto|]. intros [c|]; [|done]. apply tame_but_l; [auto with tame|]. intros b0.
  case_match; [apply tame_but_tame; by apply tame_fail|].
  apply tame_but_l; [tame_tac|]. intros _. cbv zeta. apply tame_but_l; [auto with tame|]. intros name.
  apply tame_but_r; [|auto]. apply tame_but_upd. by intros [].
Qed.

Lemma auth_levels client q s cl :
  g_clients s !! client = Some cl →
  match req_on_auth client q s with
  | Ret _ s' => levels s' ⊆ levels s ∨ ∃ a l,
      roar_auth_from_mes (q_mes q) (q_data q) = Done a ∧
      auth_client_ckeck (g_auth_keyring s) (c_uid cl) (c_gid cl) a = Done (1, Some l) ∧
      levels s' ⊆ <[client := l]> (levels s)
  | _ => True
  end.
Proof.
  intros Hcl. unfold req_on_auth.
  assert (clients_get_server client s = Ret (Some cl) s ∨ clients_get_server client s = Ret None s ∨
          clients_get_server client s = Undefined) as [E|[E|E]].
  { unfold clients_get_server, check_cid. destruct (_ || _); [auto|].
    unfold mbind, M_bind, g_client. case_decide; [|auto]. rewrite Hcl. auto. }
  2: { rewrite (bind_at _ _ _ _ _ E). unfold mbind, M_bind. by destruct (roar_auth_from_mes _ _). }
  2: { unfold mbind at 1, M_bind at 1. by rewrite E. }
  rewrite (bind_at _ _ _ _ _ E). destruct (roar_auth_from_mes _ _) as [a| |]; [|done..].
  rewrite (bind_at _ _ s a s) by done. rewrite (bind_at (gets g_auth_keyring) _ s (g_auth_keyring s) s) by done.
  destruct (auth_client_ckeck _ _ _ _) as [[r o]| |] eqn:Er; [|done..].
  rewrite (bind_at _ _ s (r, o) s) by done. destruct o as [l|]; cbn [fst snd].
  - apply auth_level_granted in Er as E1. subst r. cbn [Z.eqb negb Pos.eqb].
    unfold mbind at 1, M_bind at 1.
    destruct (upd_client client _ s) as [u s1| | |] eqn:Eu; [|done..].
    apply (levels_upd_client _ _ l) in Eu as [Hl _]; [|by intros []].
    pose proof (tame_okay_pos 0 q s1) as Ht. destruct (okay_pos 0 q s1); [|done..].
    right. exists a, l. split_and!; [done|done|]. by rewrite <- Hl.
  - rewrite (bind_at (mret ()) _ s () s) by done.
    destruct (negb (r =? 1)); [left; reflexivity|].
    pose proof (tame_okay_pos 0 q s) as Ht. destruct (okay_pos 0 q s); auto.
Qed.

(** C2: serving a message, whatever it is, lets no client gain access but by
    authentication.  The clients afterwards are clients from before, and every
    one has the level it had, except that IDENTIFY sets the level of its own
    client to IDENTED, and that AUTH, from a client that is at least IDENTED,
    sets that client's level to the one of a key of the ring that accepts the
    message.  (Not covered are the commands whose handlers are not modelled.) *)
Theorem access_levels (other : Z → Z → request → M (Z * request)) (client : Z) (cl : ServerState.client)
    (m : message) (data : option (list Z)) (s s' : server) r
    (Hcl : g_clients s !! client = Some cl) (Hc : 0 ≤ client < ROAR_CLIENTS_MAX)
    (Hcmd : modelled_cmd (m_cmd m)) (Hserve : serve other client m data s = Ret r s') :
  ∀ c l', levels s' !! c = Some l' → ∃ l, levels s !! c = Some l ∧
    (l' = l ∨
     c = client ∧ m_cmd m = ROAR_CMD_IDENTIFY ∧ l' = ACCLEV_IDENTED ∨
     c = client ∧ m_cmd m = ROAR_CMD_AUTH ∧ ACCLEV_IDENTED ≤ l ∧
       ∃ a, roar_auth_from_mes m data = Done a ∧
         auth_client_ckeck (g_auth_keyring s) (c_uid cl) (c_gid cl) a = Done (1, Some l')).
Proof.
  destruct (serve_exec _ _ _ _ _ _ _ Hserve) as (q & s1 & E & Hl). intros c l' Hl'.
  apply (lookup_weaken _ _ _ _ Hl') in Hl. clear Hl' Hserve s' r.
  rewrite (command_exec_eq other client cl) in E by done. cbn [q_mes] in E.
  destruct (decide (m_cmd m = ROAR_CMD_IDENTIFY)) as [Hi|Hi].
  { rewrite Hi in E. change (req_on_identify client (Request m data COMMAND_FLAG_NONE) s = Ret q s1) in E ||
      (cbn -[Z.ltb req_on_identify] in E; case_match; [injection E as <- <-; eauto|]).
    pose proof (identify_levels client (Request m data COMMAND_FLAG_NONE) s) as Ht. rewrite E in Ht.
    destruct Ht as [Ht|Ht]; apply (lookup_weaken _ _ _ _ Hl) in Ht; [by eauto|].
    apply lookup_insert_Some in Ht as [[<- <-]|[_ Ht]]; [|by eauto].
    exists (c_acclev cl). unfold levels. rewrite lookup_fmap, Hcl. eauto 10. }
  destruct (decide (m_cmd m = ROAR_CMD_AUTH)) as [Ha|Ha].
  { rewrite Ha in E. cbn -[Z.ltb req_on_auth] in E.
    destruct (Z.ltb_spec (c_acclev cl) ACCLEV_IDENTED) as [|Hlev]; [injection E as <- <-; eauto|].
    pose proof (auth_levels client (Request m data COMMAND_FLAG_NONE) s cl Hcl) as Ht. rewrite E in Ht.
    destruct Ht as [Ht|(a & l & Ea & El & Ht)]; apply (lookup_weaken _ _ _ _ Hl) in Ht; [by eauto|].
    apply lookup_insert_Some in Ht as [[<- <-]|[_ Ht]]; [|by eauto].
    exists (c_acclev cl). unfold levels. rewrite lookup_fmap, Hcl. eauto 15. }
  exists l'. split; [|by left].
  destruct (find_command _ _) as [k|] eqn:Ek; [|injection E as <- <-; done].
  apply find_command_In in Ek as [Hin Heq]. destruct (_ <? _); [injection E as <- <-; done|].
  destruct (cmd_handler k) as [f|] eqn:Ef; [|injection E as <- <-; done].
  pose proof (tame_handlers other client (Request m data COMMAND_FLAG_NONE) k f Hin Ef) as Ht.
  rewrite Heq in Ht. specialize (Ht Hcmd Hi Ha s). rewrite E in Ht. by apply (lookup_weaken _ _ _ _ Hl) in Ht.
Qed.
End access.

(** ** An example: authentication with the anonymous key *)
Definition example_auth : message := zero_message<|m_cmd := ROAR_CMD_AUTH|>.

Lemma access_levels_witness :
  match @serve null_env no_other 1 example_auth None example_guest_server with
  | Ret r s' => levels s' !! 1 = Some ACCLEV_USER ∧
      ∀ c l', levels s' !! c = Some l' → ∃ l, levels example_guest_server !! c = Some l ∧
        (l' = l ∨ c = 1 ∧ m_cmd example_auth = ROAR_CMD_IDENTIFY ∧ l' = ACCLEV_IDENTED ∨
         c = 1 ∧ m_cmd example_auth = ROAR_CMD_AUTH ∧ ACCLEV_IDENTED ≤ l ∧
         ∃ a, roar_auth_from_mes example_auth None = Done a ∧
           auth_client_ckeck (g_auth_keyring example_guest_server) 0 0 a = Done (1, Some l'))
  | _ => False
  end.
Proof.
  assert (X : match @serve null_env no_other 1 example_auth None example_guest_server with
    | Ret r s' => levels s' !! 1 = Some ACCLEV_USER | _ => False end) by (vm_compute; reflexivity).
  destruct (@serve null_env no_other 1 example_auth None example_guest_server) as [r s'| | |] eqn:E; [|done..].
  split; [exact X|].
  apply (@access_levels null_env no_other 1
    ((example_client (-1) [2; 3])<|c_acclev := ACCLEV_IDENTED|>) example_auth None example_guest_server s' r).
  - reflexivity.
  - vm_compute. split; [discriminate|reflexivity].
  - apply (bool_decide_unpack _). vm_compute. exact I.
  - exact E.
Defined.
